(* ===== verification/_CoqProject ===== *)
-Q . S2P
Prelude.v
Types.v
Header.v
Operations.v
DataCache.v
DataCacheFacts.v
CacheLoops.v
CacheSystem.v
DataQueue.v
ServerSession.v
ServerSystem.v
ServerSystemFacts.v
ServerProps.v
SessionManager.v
SessionManagerFacts.v
Listener.v
ListenerFacts.v
BroadcastSteps.v
ServerNet.v
ServerNetFacts.v
BroadcastCount.v
BroadcastHistory.v
BroadcastOrder.v
ServerNetProps.v
Server.v
ServerFacts.v
ServerApi.v
ClientSession.v
ClientSystem.v
ClientSystemFacts.v
ClientProps.v
ClientOutgoing.v
ClientConnect.v
ClientConnectFacts.v
ClientWeight.v
Prog.v
Debug.v
Client.v
ClientThreads.v
ClientThreadsFacts.v
ClientMethods.v
ClientWorld.v
Rpc.v
RpcSystem.v
RpcSystemFacts.v
RpcProjection.v
RpcBroadcast.v
RpcCalls.v
RpcRequests.v
RpcProps.v
RpcNet.v
RpcNetFacts.v
RpcNetInv.v
RpcNetOrder.v
RpcNetProps.v
ClientNet.v
ClientNetFacts.v
ClientNetPrograms.v
ClientNetInv.v
ClientNetSteps.v
ClientNetProps.v
ClientBytes.v
ClientNetLive.v
Examples.v
ExamplesFacts.v
