(* ===== verification/Prelude.v ===== *)
(** * radrpc: a verification development of the RPC library under src/include/radrpc

    radrpc is a header-only C++14 library over Boost.Asio and Boost.Beast: a
    client sends messages, each behind a 16-byte header with a call id and a
    result id, over a WebSocket; the server calls the function bound to the call
    id and sends its response back behind the same header; the client gives the
    response to the thread that waits for that result id.  The server can also
    broadcast to its sessions.  This development models the library's own logic
    in every component, composes the components, and proves what makes them
    correct; what goes wrong in some interleaving or at some value of the
    configuration is proved too.  The programs of src/examples are modelled on
    top of it.

    ** The parts and the files

    Prelude        machine integers, actions, event systems and their tactics
    Types          types.hpp, config.hpp: configurations, flags, [FlatBuffer]
    Header         detail/data.hpp: [io_header] and its bytes
    Operations     detail/operations.hpp: thread-local time outs, posted closures
    DataCache, DataCacheFacts, CacheLoops, CacheSystem
                   detail/data.hpp: [data_cache], the client's awaited responses,
                   shared by any number of threads
    DataQueue      detail/data.hpp: [data_queue], the client's send queue
    ServerSession, ServerSystem, ServerSystemFacts, ServerProps
                   impl/server/server_session.hpp: [session_context],
                   [server_session], [session_accept], one session of the server
    SessionManager, SessionManagerFacts
                   impl/server/server_session.hpp: [session_manager], broadcasts
    Listener, ListenerFacts, BroadcastSteps
                   impl/server/listener.hpp and [detect_session]: accepting, and
                   the broadcasts of any number of threads
    ServerNet, ServerNetFacts, ServerNetProps
                   the listener, the manager and all sessions, composed
    Server, ServerFacts, ServerApi
                   server.hpp: workers, [start], [stop], [bind]; the constructors
                   and what is passed on to the manager
    ClientSession, ClientSystem, ClientSystemFacts, ClientProps
                   impl/client/client_session.hpp: [client_session], connected
    ClientOutgoing the messages a client session still refers to
    ClientConnect, ClientConnectFacts
                   impl/client/client_session.hpp: [session_connect], connecting
    ClientWeight   what a client session has left to complete
    Prog           programs over commands, their traces and a logic for them
    Debug          debug.hpp: exceptions, assertions, the log
    Client, ClientThreads, ClientThreadsFacts, ClientMethods, ClientWorld
                   client.hpp: the methods of [client], and any number of
                   threads calling them
    Rpc            one call, from end to end
    RpcSystem, RpcSystemFacts, RpcProjection, RpcBroadcast, RpcCalls,
    RpcRequests, RpcProps
                   a connection: the client's session, the server's session and
                   the messages between them, composed
    BroadcastCount, BroadcastHistory, BroadcastOrder
                   how often a broadcast can reach a session; which call each
                   message belongs to, and the order a session gets them in
    RpcNet, RpcNetFacts, RpcNetInv, RpcNetOrder, RpcNetProps
                   the server with all of its sessions and a client at every
                   connection, composed
    ClientNet, ClientNetFacts, ClientNetPrograms, ClientNetInv, ClientNetSteps
                   a client, its threads, every session object it makes and the
                   connection of each, composed; its invariant
    ClientNetProps, ClientBytes, ClientNetLive
                   what a caller gets, how long its bytes are referred to, and
                   that the waits of the client end
    Examples, ExamplesFacts
                   src/examples: the servers' handlers, the clients' programs

    Names are those of the code.  A C++ object is a record whose fields are its
    members ([session], [client_session], [world], [server], [client]), a member
    function a definition of the same name.

    ** How code is modelled

    A handler or a member function that does not block is an action: a function
    from the state to an [outcome], which is the new state with the effects it
    issued (operations started, handlers called, threads notified), a C++
    exception, or undefined behaviour (for example [front()] of an empty deque,
    or a second value for a promise).  A function that blocks is split where it
    blocks ([send], [ping], [stop], [run]), and one that takes and drops several
    locks where it does: a broadcast, and [wait] of the cache, whose look-up,
    whose end of [cv.wait_for] and whose swap of the buffers are three sections,
    so that a response may come between the last two.

    Each component comes with its system: a state made of the object, the
    operations it has outstanding and ghost histories, and the events its
    environment may deliver: completions of outstanding operations with any
    result, control frames, expiries, posted closures, the steps of user
    threads.  [steps] are its runs, by [run] they are executable, and [safe]
    says that no event that can come is undefined.  Invariants are proved by
    induction on runs, one lemma per handler.

    The methods of [client] call and repeat each other under locks, so they are
    programs over commands (Prog, Client), each command one access to the shared
    state or one call into a session; [finally] is the destructor of a lock
    guard.  ClientThreads interleaves the commands of any number of threads.

    Four systems compose others.  RpcSystem joins a ClientSystem and a
    ServerSystem: a read of one end completes with the next message the other
    end has given to [async_write], or with an error; any number of threads are
    inside [send] and [send_recv], split at their waits and before the swap that
    ends a [send_recv].  ServerNet joins the system of
    Listener with a ServerSystem for every session object: its events are those
    of the parts, and what one part asks of another (the post of a closure, the
    registration, the end of a shared pointer) happens there.  RpcNet
    joins ServerNet with an RpcSystem for every session object, whose server's
    end is that session: an event of the session, or the closure of a broadcast
    that its strand runs, is one event of both.  ClientNet joins
    ClientThreads with, for every session object the client makes, the chain of
    ClientConnect and an RpcSystem: a command that calls into a session is
    answered by what that session's operations return, [in_session] and
    [send_step]; [world_run] of ClientNetProps is a run of ClientThreads that
    records these answers.  That each composition is its parts is a theorem
    ([connection_projects], [server_parts], [rpc_net_parts],
    [client_net_parts]), so the theorems
    about the parts carry over.

    Boost is not modelled.  An asynchronous operation is an effect and, later, a
    completion with any error code; that the code respects Beast's rules (one
    read, one write, one ping and one close at a time) is a theorem, where it
    does.  [flat_buffer] is the class [FlatBuffer] with the laws
    [FlatBufferLaws], the documented behaviour of [data], [consume] and of a
    read; the lists of bytes are an instance, so the laws can hold.  The user's
    functions, the HTTP messages of the handshake and the answers of the
    environment are parameters.  The byte order of a host is a parameter too:
    the header is copied as it is in memory.  The compositions take one byte order
    for both ends; [io_header_roundtrip] says what ends of different orders read.

    Unsigned integers wrap ([u32], [u64]); durations are signed 64-bit counts
    whose overflow is undefined ([duration_mul]).

    ** What is shown

    A client: [client_send_recv_answers], however many threads use it and
    however its sessions fail and are replaced, nothing is undefined, and a
    [send_recv] that returns, after any number of attempts and with answers that
    come when they will, leaves nothing or what the bound function answered
    to that very call; [bytes_outlive_calls], what a session still refers to is a
    message of a call in progress; [destruction_wait_ends], from every state in
    which somebody waits for a session to be destroyed its own pending
    completions, at most [weight] of them, destroy it.

    A connection: [rpc_end_to_end], whatever interleaves and wherever it breaks,
    a call is left with nothing or with what the bound function answered to that
    very call (with an error, too, when the answer came just after the time-out);
    [broadcasts_in_order], the broadcast handlers get each message
    the server's session accepted for them once and in order;
    [requests_in_order], the bound functions get each message the client's
    session accepted for them once and in order, and those are of calls of
    [send] and [send_recv], each of one of its own, in their order;
    [wire_messages_typed], what is on the wire is a header the other end reads.
    The server and its clients: [broadcasts_arrive_in_order], each call of a
    client's handler comes from a call of [broadcast] of its own that was for
    that client, and those of one thread come in the order of its calls, whatever
    else the server and the clients do, for the ids that are no functions of the
    server: a reply under a call id that has a broadcast handler is given to that
    handler as well ([broadcast_end_to_end] says how often);
    [broadcast_owners], a broadcast message lives exactly as
    long as a thread, a posted closure or a queue holds it.

    One call: [rpc_round_trip], the bytes of a request written by the client,
    read and answered by the server, end the wait of exactly the caller, with
    the function's answer.  [on_read_dispatch] refines the server's reading to
    an abstract dispatch; [handle_message_routes] says where the client takes a
    message; [io_header_roundtrip] and [io_header_echo] are about the header,
    between hosts of any byte orders.

    The sessions: [server_session_discipline] and [client_session_discipline]
    (no handler is ever undefined; at most one read, write, close, wait
    outstanding; bounded queues), [server_session_fifo] and
    [client_session_fifo] (what is written is a prefix of what was accepted, in
    order), [keep_alive_closes], [accept_requires_approval],
    [send_true_written].

    The cache: [cache_no_cross_delivery], [cache_delivery], [cache_invariant],
    [cache_clear_wakes], [cache_queue_spec], and [cache_loops_reference], its
    loops against a filter and a map; the queue: [data_queue_invariant].

    The server's objects: [manager_counts] and [broadcast_recipients] (every
    broadcast reaches exactly the named live sessions and is counted until the
    last of them lets go), [broadcast_steps_atomic] (a broadcast in steps is the
    broadcast at once), [plain_max_sessions], [connections_value];
    [workers_leave_once], [stop_completes] and [bindings_frozen] for any number
    of threads that start, stop and bind; [stop_joins], a [stop] that nobody
    disturbs, as in the destructor, leaves no worker.

    The client: [connect_result] (an attempt ends, answers once, and right),
    [client_one_session] (any threads, any methods: lock discipline, one session
    at a time, nothing used that may be gone), [broadcast_handlers_frozen] (no
    handler changes under a session), and
    for single calls [send_attempts_spec], [send_recv_attempts_spec] and
    [connect_attempts_spec].

    The examples: [advanced_key_required], who may connect to the advanced
    server; [advanced_answers], what its callers get; that the three servers
    start, and what a request of a handler does.

    What can go wrong: [close_request_lost], [stop_start_race],
    [ssl_exceeds_max_sessions], [broadcast_blocks_connection],
    [failed_bind_accepts_forever], [send_reports_dropped],
    [send_recv_broken_connection], [connect_true_unconnected],
    [wait_false_with_bytes], [peer_gone_escapes] and
    [remove_obsolete_strands_waiter] are runs or states in which the code does
    not do what its documentation says; [two_pings_outstanding],
    [RADRPC_LOG_mutex], [renamed_session_unlists_another], [ping_loses_pong], [zero_workers], [read_limit] and [send_recv_defined]
    likewise, for smaller matters.

    ** Bounds

    No recursion needs fuel: loops go over finite lists (the ids of the cache,
    the sessions of a broadcast) or over the number of attempts.
    [stop_completes] bounds the steps of a stop by three per worker;
    [connect_result] bounds a connection attempt by three or four completions.
    [destruction_wait_ends] bounds the winding events of a wait by [weight], a sum over
    what the session has outstanding; successful reads and control frames are not counted,
    since the other end decides how many come.
    [cache_enabled], [rpc_enabled] and [net_enabled] assume fewer than 2^64
    requests in the life of a session; [rpc_enabled], and the theorems about
    ClientNet, a response time out whose double is a [duration]
    ([send_recv_defined] is about the others), and the latter that the session
    objects of the server are new.

    ** What is not modelled

    What is printed in the handlers (Debug has the macros); the sockets, the
    strand and the TLS of Boost beyond their completions; the clock, which is an argument; the
    overflow of a time point plus a duration in [expires_after].  In the systems
    with a listener the socket is still connected when its session is made;
    otherwise the exception of [peer_gone_escapes] leaves [io_context::run()].  The strand
    makes a handler of a session one step; a broadcasting thread takes one step
    per lock and per post.  [io_context::run()] of the server returns only when
    it is stopped, since the wait for signals is always pending.  In
    ClientThreads alone the commands that call into a session have any answer;
    ClientNet says which.  There a wait for a promise, a response, a pong or the
    destruction may end at any time, with its time out or without; the posted
    closures may run even after the io thread has ended, where the code runs the
    io context again in [close()].  RpcNet has the client's end of every
    connection from the moment its session object is made (what comes before is
    ClientConnect), and keeps a connection whose session is gone: what was
    written may still be read.  The clients of ClientNet lead to session objects
    of a server as well, but ClientNet has neither its accepting nor its
    manager: these are in RpcNet.  A handler the server has bound does not call
    [broadcast] there; another thread does.  Logging and the terminal of the
    examples are left out; what their handlers ask of the server is a list of
    requests, performed apart from the run of the session.  Memory
    ordering of the fields that are read without a lock is not considered. *)

From stdpp Require Export base tactics numbers list gmap strings relations sorting.
From Stdlib Require Export ZArith Lia.

#[global] Open Scope Z_scope.

Create HintDb radrpc.
Create Rewrite HintDb radrpc.

(** ** Machine integers

    [uint32_t], [uint64_t] and [std::size_t] are Z reduced modulo their width;
    unsigned arithmetic wraps.  [std::chrono] durations are signed 64-bit
    counts, whose overflow is undefined behaviour: [i64_checked] makes that
    explicit. *)

Definition wrap (w : Z) (x : Z) : Z := x mod 2 ^ w.
Definition u32 (x : Z) : Z := wrap 32 x.
Definition u64 (x : Z) : Z := wrap 64 x.

Definition in_range (w : Z) (x : Z) : Prop := 0 ≤ x < 2 ^ w.
Definition is_u32 (x : Z) : Prop := in_range 32 x.
Definition is_u64 (x : Z) : Prop := in_range 64 x.

#[export] Instance in_range_dec w x : Decision (in_range w x).
Proof. unfold in_range. apply _. Defined.
#[export] Instance is_u32_dec x : Decision (is_u32 x).
Proof. unfold is_u32. apply _. Defined.
#[export] Instance is_u64_dec x : Decision (is_u64 x).
Proof. unfold is_u64. apply _. Defined.

Definition i64_max : Z := 2 ^ 63 - 1.
Definition i64_min : Z := - 2 ^ 63.

(** The result of a signed 64-bit computation; [None] is signed overflow. *)
Definition i64_checked (x : Z) : option Z :=
  if decide (i64_min ≤ x ≤ i64_max) then Some x else None.

Lemma wrap_small w x : in_range w x → wrap w x = x.
Proof. intros [? ?]. by apply Z.mod_small. Qed.

Lemma wrap_range w x : 0 ≤ w → in_range w (wrap w x).
Proof. intros ?. apply Z.mod_pos_bound. lia. Qed.

Lemma wrap_wrap w x : 0 ≤ w → wrap w (wrap w x) = wrap w x.
Proof. intros ?. by apply wrap_small, wrap_range. Qed.

Lemma i64_checked_Some x y : i64_checked x = Some y ↔ y = x ∧ i64_min ≤ x ≤ i64_max.
Proof. unfold i64_checked. case_decide; naive_solver. Qed.

Lemma i64_checked_None x : i64_checked x = None ↔ x < i64_min ∨ i64_max < x.
Proof. unfold i64_checked. case_decide; split; try done; lia. Qed.

(** ** Actions: code with state, effects, exceptions and undefined behaviour

    An operation of the program runs on a state, may change it, and issues a
    list of effects: the asynchronous operations it starts, the handlers it
    calls, the condition variables it notifies.  It ends normally ([Done]),
    with a C++ exception ([Thrown], the state and the effects so far being
    kept) or in undefined behaviour ([Undefined], for example [front()] of an
    empty deque). *)

Inductive outcome (St Ef A : Type) : Type :=
  | Done (a : A) (s : St) (es : list Ef)
  | Thrown (why : string) (s : St) (es : list Ef)
  | Undefined.
Arguments Done {St Ef A} a s es.
Arguments Thrown {St Ef A} why s es.
Arguments Undefined {St Ef A}.

Definition act (St Ef A : Type) : Type := St → outcome St Ef A.

Section Actions.
Context {St Ef : Type}.

Definition act_ret {A} (a : A) : act St Ef A := λ s, Done a s [].

Definition act_bind {A B} (m : act St Ef A) (k : A → act St Ef B) : act St Ef B :=
  λ s, match m s with
       | Done a s' es =>
           match k a s' with
           | Done b s'' es' => Done b s'' (es ++ es')
           | Thrown w s'' es' => Thrown w s'' (es ++ es')
           | Undefined => Undefined
           end
       | Thrown w s' es => Thrown w s' es
       | Undefined => Undefined
       end.

Definition act_get : act St Ef St := λ s, Done s s [].
Definition act_gets {A} (f : St → A) : act St Ef A := λ s, Done (f s) s [].
Definition act_modify (f : St → St) : act St Ef unit := λ s, Done tt (f s) [].
Definition act_emit (e : Ef) : act St Ef unit := λ s, Done tt s [e].
Definition act_throw {A} (why : string) : act St Ef A := λ s, Thrown why s [].
Definition act_undef {A} : act St Ef A := λ s, Undefined.

(** [if (b) m;] *)
Definition act_when (b : bool) (m : act St Ef unit) : act St Ef unit :=
  if b then m else act_ret tt.

(** Total correctness: the action ends normally and satisfies [Q]. *)
Definition wp {A} (m : act St Ef A) (Q : A → St → list Ef → Prop) (s : St) : Prop :=
  match m s with
  | Done a s' es => Q a s' es
  | Thrown _ _ _ | Undefined => False
  end.

Lemma outcome_eta {A} (o : outcome St Ef A) :
  match o with
  | Done a s es => Done a s es
  | Thrown w s es => Thrown w s es
  | Undefined => Undefined
  end = o.
Proof. by destruct o. Qed.

Lemma wp_ret {A} (a : A) Q s : Q a s [] → wp (act_ret a) Q s.
Proof. done. Qed.

Lemma wp_bind {A B} (m : act St Ef A) (k : A → act St Ef B) Q s :
  wp m (λ a s' es, wp (k a) (λ b s'' es', Q b s'' (es ++ es')) s') s →
  wp (act_bind m k) Q s.
Proof. unfold wp, act_bind. by destruct (m s) as [a s' es| |]; [destruct (k a s')| |]. Qed.

Lemma wp_mono {A} (m : act St Ef A) (Q Q' : A → St → list Ef → Prop) s :
  wp m Q s → (∀ a s' es, Q a s' es → Q' a s' es) → wp m Q' s.
Proof. unfold wp. destruct (m s); naive_solver. Qed.

Lemma wp_Done {A} (m : act St Ef A) Q s :
  wp m Q s ↔ ∃ a s' es, m s = Done a s' es ∧ Q a s' es.
Proof. unfold wp. destruct (m s); naive_solver. Qed.

Lemma wp_get Q s : Q s s [] → wp act_get Q s.
Proof. done. Qed.
Lemma wp_gets {A} (f : St → A) Q s : Q (f s) s [] → wp (act_gets f) Q s.
Proof. done. Qed.
Lemma wp_modify f Q s : Q tt (f s) [] → wp (act_modify f) Q s.
Proof. done. Qed.
Lemma wp_emit e Q s : Q tt s [e] → wp (act_emit e) Q s.
Proof. done. Qed.
Lemma wp_when (b : bool) m Q s :
  (b = true → wp m Q s) → (b = false → Q tt s []) → wp (act_when b m) Q s.
Proof. destruct b; unfold act_when, wp, act_ret; naive_solver. Qed.

(** What every normal end of an action preserves. *)
Definition pres {A} (P : St → Prop) (m : act St Ef A) : Prop :=
  ∀ s a s' es, m s = Done a s' es → P s → P s'.

Lemma pres_ret {A} P (a : A) : pres P (act_ret a).
Proof. by intros s a' s' es [= <- <- <-]. Qed.
Lemma pres_get P : pres P act_get.
Proof. by intros s a' s' es [= <- <- <-]. Qed.
Lemma pres_gets {A} P (f : St → A) : pres P (act_gets f).
Proof. by intros s a' s' es [= <- <- <-]. Qed.
Lemma pres_emit P e : pres P (act_emit e).
Proof. by intros s a' s' es [= <- <- <-]. Qed.
Lemma pres_undef {A} P : pres P (@act_undef A).
Proof. done. Qed.
Lemma pres_throw {A} P w : pres P (@act_throw A w).
Proof. done. Qed.
Lemma pres_modify (P : St → Prop) f : (∀ s, P s → P (f s)) → pres P (act_modify f).
Proof. intros Hf s a' s' es [= <- <- <-]. apply Hf. Qed.
Lemma pres_bind {A B} P (m : act St Ef A) (k : A → act St Ef B) :
  pres P m → (∀ a, pres P (k a)) → pres P (act_bind m k).
Proof.
  intros Hm Hk s b s' es. unfold act_bind.
  destruct (m s) as [a s1 es1| |] eqn:E1; try done.
  destruct (k a s1) as [b' s2 es2| |] eqn:E2; try done.
  intros [= <- <- <-] HP. eapply Hk; [done|]. by eapply Hm.
Qed.
Lemma pres_when P (b : bool) m : pres P m → pres P (act_when b m).
Proof. destruct b; [done|intros; apply pres_ret]. Qed.

(** What every effect of an action satisfies. *)
Definition emits {A} (P : Ef → Prop) (m : act St Ef A) : Prop :=
  ∀ s a s' es, m s = Done a s' es → Forall P es.

Lemma emits_ret {A} P (a : A) : emits P (act_ret a).
Proof. by intros s a' s' es [= <- <- <-]. Qed.
Lemma emits_get P : emits P act_get.
Proof. by intros s a' s' es [= <- <- <-]. Qed.
Lemma emits_modify P f : emits P (act_modify f).
Proof. by intros s a' s' es [= <- <- <-]. Qed.
Lemma emits_undef {A} P : emits P (@act_undef A).
Proof. done. Qed.
Lemma emits_throw {A} P w : emits P (@act_throw A w).
Proof. done. Qed.
Lemma emits_emit (P : Ef → Prop) e : P e → emits P (act_emit e).
Proof. intros ? s a' s' es [= <- <- <-]. by constructor. Qed.
Lemma emits_bind {A B} P (m : act St Ef A) (k : A → act St Ef B) :
  emits P m → (∀ a, emits P (k a)) → emits P (act_bind m k).
Proof.
  intros Hm Hk s b s' es. unfold act_bind.
  destruct (m s) as [a s1 es1| |] eqn:E1; try done.
  destruct (k a s1) as [b' s2 es2| |] eqn:E2; try done.
  intros [= <- <- <-]. apply Forall_app. split; [by eapply Hm|by eapply Hk].
Qed.
Lemma emits_when P (b : bool) m : emits P m → emits P (act_when b m).
Proof. destruct b; [done|intros; apply emits_ret]. Qed.
End Actions.

#[export] Hint Rewrite @outcome_eta : radrpc.

Declare Scope radrpc_scope.
Delimit Scope radrpc_scope with radrpc.
#[global] Open Scope radrpc_scope.

Notation "'let!' x := m 'in' k" := (act_bind m (λ x, k))
  (at level 10, x name, m at level 100, k at level 200,
   format "'[v' 'let!'  x  :=  m  'in' '/' k ']'") : radrpc_scope.
Notation "'do!' m 'in' k" := (act_bind m (λ _, k))
  (at level 10, m at level 100, k at level 200,
   format "'[v' 'do!'  m  'in' '/' k ']'") : radrpc_scope.

#[export] Hint Resolve wrap_range : radrpc.

(** ** Event systems

    The program is driven by events: completions of asynchronous operations,
    posted handlers, expiring timers, calls from user threads.  A component
    gives the events its environment may deliver in a state ([enabled]) and
    what the program does with one ([handle], [None] being undefined
    behaviour or an escaping exception). *)

Section Systems.
Context {St Ev : Type}.
Context (enabled : St → Ev → bool) (handle : St → Ev → option St).

Inductive step (s : St) (e : Ev) (s' : St) : Prop :=
  | step_intro : enabled s e = true → handle s e = Some s' → step s e s'.

Inductive steps : St → list Ev → St → Prop :=
  | steps_nil s : steps s [] s
  | steps_snoc s es s' e s'' : steps s es s' → step s' e s'' → steps s (es ++ [e]) s''.

(** Executable run of a list of events; [None] when one is not enabled or
    goes wrong. *)
Fixpoint run (s : St) (es : list Ev) : option St :=
  match es with
  | [] => Some s
  | e :: es' => if enabled s e then handle s e ≫= (λ s', run s' es') else None
  end.

Lemma run_app es es' s : run s (es ++ es') = run s es ≫= (λ s', run s' es').
Proof.
  revert s. induction es as [|e es IH]; intros s; simpl; [done|].
  destruct (enabled s e); [|done]. destruct (handle s e); simpl; [apply IH|done].
Qed.

Lemma steps_one s e s' : step s e s' → steps s [e] s'.
Proof. intros H. apply (steps_snoc s [] s e s'); [constructor|done]. Qed.

Lemma steps_app s es s' es' s'' : steps s es s' → steps s' es' s'' → steps s (es ++ es') s''.
Proof.
  intros H1 H2. induction H2 as [s'|s' es' t e t' H2 IH Hst]; [by rewrite app_nil_r|].
  rewrite app_assoc. econstructor; eauto.
Qed.

Lemma run_steps es s s' : run s es = Some s' → steps s es s'.
Proof.
  revert s. induction es as [|e es IH]; intros s; simpl.
  - intros [= <-]. constructor.
  - destruct (enabled s e) eqn:He; [|done].
    destruct (handle s e) as [t|] eqn:Ht; [|done]. simpl. intros Hr.
    apply (steps_app s [e] t es s'); [|by apply IH].
    apply steps_one. by constructor.
Qed.

(** Invariants by rule induction on the run. *)
Lemma steps_invariant (P : St → Prop) :
  (∀ s e s', P s → step s e s' → P s') →
  ∀ s es s', P s → steps s es s' → P s'.
Proof. intros Hstep s es s' HP Hs. induction Hs; eauto. Qed.

(** A state in which no enabled event goes wrong. *)
Definition safe (s : St) : Prop := ∀ e, enabled s e = true → is_Some (handle s e).

Lemma steps_safe (P : St → Prop) :
  (∀ s e, P s → enabled s e = true → ∃ s', handle s e = Some s' ∧ P s') →
  ∀ s es s', P s → steps s es s' → P s' ∧ safe s'.
Proof.
  intros Hstep s es s' HP Hs.
  assert (P s') as HP'.
  { eapply steps_invariant; [|done..]. intros t e t' Ht [He Hh].
    destruct (Hstep t e Ht He) as (t'' & Hh' & ?). congruence. }
  split; [done|]. intros e He. destruct (Hstep s' e HP' He) as (t & -> & _). eauto.
Qed.
End Systems.

(** ** Tactics *)

(** Runs an action on a state whose tests are decided by the context. *)
Ltac run_act :=
  repeat (unfold wp, act_bind, act_ret, act_get, act_gets, act_modify, act_emit,
            act_throw, act_undef, act_when in *; simpl in *; simplify_eq).

(** [pres P m] by the structure of [m], down to its state changes. *)
Ltac solve_pres :=
  repeat first
    [ apply pres_ret | apply pres_get | apply pres_gets | apply pres_emit | apply pres_undef
    | apply pres_throw | apply pres_when | (apply pres_bind; [|intros ?])
    | (apply pres_modify; intros ? ?)
    | match goal with
      | |- pres _ (if ?b then _ else _) => destruct b
      | |- pres _ (match ?x with _ => _ end) => destruct x
      end ].

(** [emits P m] likewise, down to the effects of [m]. *)
Ltac solve_emits :=
  repeat first
    [ apply emits_ret | apply emits_get | apply emits_modify | apply emits_undef
    | apply emits_throw | apply emits_when | (apply emits_bind; [|intros ?]) | apply emits_emit
    | match goal with
      | |- emits _ (if ?b then _ else _) => destruct b
      | |- emits _ (match ?x with _ => _ end) => destruct x
      end ].

(** Splits on every boolean test of the goal. *)
Ltac split_tests :=
  repeat match goal with
         | |- context [if ?b then _ else _] => destruct b eqn:?
         end.

(** Turns boolean facts into propositions. *)
Ltac prop_bools :=
  repeat match goal with
         | H : _ && _ = true |- _ => apply andb_true_iff in H as [? ?]
         | H : _ || _ = false |- _ => apply orb_false_iff in H as [? ?]
         | H : negb _ = true |- _ => apply negb_true_iff in H
         | H : negb _ = false |- _ => apply negb_false_iff in H
         | H : bool_decide _ = true |- _ => apply bool_decide_eq_true in H
         | H : bool_decide _ = false |- _ => apply bool_decide_eq_false in H
         end; simplify_eq.

(** ** Lists and maps *)

Lemma prefix_snoc_inv {A} (l k : list A) x : l ++ [x] `prefix_of` k → l `prefix_of` k.
Proof. intros [r ->]. exists ([x] ++ r). by rewrite app_assoc. Qed.

Lemma prefix_fmap {A C} (f : A → C) (l k : list A) :
  l `prefix_of` k → (f <$> l) `prefix_of` (f <$> k).
Proof. intros [r ->]. exists (f <$> r). apply fmap_app. Qed.

Lemma take_prefix {A} n (l : list A) : take n l `prefix_of` l.
Proof. exists (drop n l). by rewrite take_drop. Qed.

(** A sum over the values of a map. *)
Definition total {V} (f : V → nat) (m : gmap nat V) : nat := map_fold (λ _ v n, f v + n)%nat 0%nat m.

Lemma total_empty {V} (f : V → nat) : total f ∅ = 0%nat.
Proof. apply map_fold_empty. Qed.

Lemma total_delete {V} (f : V → nat) m k : (total f (delete k m) + from_option f 0 (m !! k) = total f m)%nat.
Proof.
  destruct (m !! k) as [v|] eqn:E; simpl; [|rewrite delete_id by done; lia].
  unfold total. rewrite (map_fold_delete_L _ _ k v m) by (intros; try done; lia). lia.
Qed.

Lemma total_insert {V} (f : V → nat) m k v :
  (total f (<[k := v]> m) + from_option f 0 (m !! k) = total f m + f v)%nat.
Proof.
  rewrite <-(total_delete f m k), <-(total_delete f (<[k := v]> m) k), delete_insert_eq, lookup_insert_eq.
  simpl. lia.
Qed.

Lemma total_lookup {V} (f : V → nat) m k v : m !! k = Some v → (f v ≤ total f m)%nat.
Proof. intros E. rewrite <-(total_delete f m k), E. simpl. lia. Qed.

Lemma total_pos {V} (f : V → nat) m : (0 < total f m)%nat → ∃ k v, m !! k = Some v ∧ (0 < f v)%nat.
Proof.
  induction m as [|k v m Hk IH] using map_ind; [rewrite total_empty; lia|].
  pose proof (total_insert f m k v) as H. rewrite Hk in H. simpl in H. intros Hp.
  destruct (decide (0 < f v)%nat); [exists k, v; by rewrite lookup_insert_eq|].
  destruct IH as (k' & v' & Hl & Hv); [lia|]. exists k', v'. rewrite lookup_insert_ne; [done|].
  intros ->. congruence.
Qed.

(** Values that shrink, all but one of them. *)
Lemma total_mono {V} (f g : V → nat) m :
  (∀ k v, m !! k = Some v → (f v ≤ g v)%nat) → (total f m ≤ total g m)%nat.
Proof.
  induction m as [|k v m Hk IH] using map_ind; [by rewrite !total_empty|]. intros H.
  pose proof (total_insert f m k v) as Hf. pose proof (total_insert g m k v) as Hg.
  rewrite Hk in Hf, Hg. simpl in Hf, Hg. rewrite Nat.add_0_r in Hf, Hg.
  assert (f v ≤ g v)%nat by (apply (H k); by rewrite lookup_insert_eq).
  assert (total f m ≤ total g m)%nat; [|lia]. apply IH. intros k' v' Hl. apply (H k').
  rewrite lookup_insert_ne; [done|]. congruence.
Qed.

Lemma total_insert_mono {V} (f g : V → nat) m k v v' :
  m !! k = Some v → (∀ k v, m !! k = Some v → (f v ≤ g v)%nat) →
  (total f (<[k := v']> m) + g v ≤ total g m + f v')%nat.
Proof.
  intros Hk H. pose proof (total_insert f m k v') as Hf. pose proof (total_delete f m k) as Df.
  pose proof (total_delete g m k) as Dg. rewrite Hk in Hf, Df, Dg. simpl in *.
  assert (total f (delete k m) ≤ total g (delete k m))%nat; [|lia].
  apply total_mono. intros k' v0 [_ Hl]%lookup_delete_Some. by eapply H.
Qed.

Lemma total_delete_mono {V} (f g : V → nat) m k :
  (∀ k v, m !! k = Some v → (f v ≤ g v)%nat) → (total f (delete k m) ≤ total g m)%nat.
Proof. intros H. pose proof (total_delete f m k). pose proof (total_mono f g m H). lia. Qed.

Lemma total_size {V} (f : V → nat) m : (∀ v, f v ≤ 1)%nat → (total f m ≤ size m)%nat.
Proof.
  intros Hf. induction m as [|k v m Hk IH] using map_ind; [rewrite total_empty; lia|].
  pose proof (total_insert f m k v) as H. rewrite Hk in H. simpl in H.
  rewrite map_size_insert_None by done. specialize (Hf v). lia.
Qed.

Lemma map_size_delete_le {V} (m : gmap Z V) k : (size (delete k m) ≤ size m)%nat.
Proof. destruct (m !! k) eqn:E; [rewrite map_size_delete_Some; eauto; lia|].
  by rewrite map_size_delete_None. Qed.

#[export] Hint Resolve map_size_delete_le prefix_fmap take_prefix : radrpc.
