(* ===== verification/Types.v ===== *)
(** * Types: the data of include/radrpc/types.hpp and config.hpp

    The configuration records with their default constructors, the
    [server_mode] flags, the [connection_state] enumeration, durations, and the
    interface to Boost.Beast's [flat_buffer], which is not part of the
    repository: every component that keeps a buffer is stated against the class
    [FlatBuffer], whose laws are the documented behaviour of [data], [consume]
    and of a read appending a message. *)

From S2P Require Import Prelude.
From Stdlib Require Export Strings.Byte.

(** ** config.hpp *)

Module config.
Definition deadlock_secs : Z := 30.
Definition io_timeout_secs : Z := 5.
Definition queue_send_max : nat := 500%nat.
Definition queue_recv_max : nat := 500%nat.

Lemma queue_send_max_pos : (0 < queue_send_max)%nat.
Proof. unfold queue_send_max. lia. Qed.
End config.

(** ** Durations

    [std::chrono::steady_clock::duration]: a signed 64-bit count of
    nanoseconds.  Time points are counts since the clock's epoch. *)

Definition duration : Type := Z.
Definition time_point : Type := Z.
Definition duration_zero : duration := 0.
Definition duration_max : duration := i64_max.

(** [d * k], whose overflow is undefined. *)
Definition duration_mul (d : duration) (k : Z) : option duration := i64_checked (d * k).

(** [duration_cast<milliseconds>(d).count()]: division truncating toward zero. *)
Definition to_millis (d : duration) : Z := Z.quot d 1000000.

(** ** Enumerations *)

Inductive connection_state : Set :=
  | cs_none | cs_accept | cs_resolve | cs_connect | cs_ssl_handshake
  | cs_read_handshake | cs_handshake | cs_established.

#[export] Instance connection_state_eq_dec : EqDecision connection_state.
Proof. solve_decision. Defined.

(** [enum class server_mode : unsigned char], a set of flags. *)
Definition server_mode : Type := Z.
Definition server_mode_plain : server_mode := Z.shiftl 1 0.
Definition server_mode_ssl : server_mode := Z.shiftl 1 1.

(** [operator|]: the union of two flag sets, cast back to [unsigned char]. *)
Definition server_mode_or (lhs rhs : server_mode) : server_mode := wrap 8 (Z.lor lhs rhs).

(** [operator&]: whether two flag sets meet. *)
Definition server_mode_and (lhs rhs : server_mode) : bool := negb (Z.land lhs rhs =? 0).

(** ** What Boost reports *)

(** The outcome of an asynchronous operation, as far as the code tells it apart. *)
Inductive error_code : Set := ec_success | ec_aborted | ec_failure.

#[export] Instance error_code_eq_dec : EqDecision error_code.
Proof. solve_decision. Defined.

(** [if (ec)] *)
Definition ec_bool (ec : error_code) : bool :=
  match ec with ec_success => false | _ => true end.

Inductive frame_type : Set := frame_ping | frame_pong | frame_close.

#[export] Instance frame_type_eq_dec : EqDecision frame_type.
Proof. solve_decision. Defined.

(** ** Configurations *)

Record client_config := mk_client_config {
  cc_host_address : string;
  cc_port : Z;
  cc_max_read_bytes : Z;
  cc_send_attempts : Z;
  cc_send_attempt_delay : duration }.

Definition client_config_default : client_config := mk_client_config "" 0 0 0 duration_zero.

Record client_timeout := mk_client_timeout {
  ct_handshake_timeout : duration;
  ct_send_timeout : duration;
  ct_response_timeout : duration }.

Definition client_timeout_default : client_timeout :=
  mk_client_timeout duration_max duration_max duration_max.

Record server_config := mk_server_config {
  sc_host_address : string;
  sc_port : Z;
  sc_workers : Z;
  sc_max_sessions : Z;
  sc_max_handshake_bytes : Z;
  sc_mode : server_mode }.

Definition server_config_default : server_config :=
  mk_server_config "" 0 0 0 0 server_mode_plain.

Record server_timeout := mk_server_timeout { st_handshake_or_close_timeout : duration }.

Definition server_timeout_default : server_timeout := mk_server_timeout duration_max.

Record session_config := mk_session_config {
  sn_max_transfer_bytes : Z;
  sn_ping_delay : duration }.

Definition session_config_default : session_config := mk_session_config 0 duration_zero.

(** ** Buffers *)

(** What the program uses of [boost::beast::flat_buffer].  [fb_data] is the
    readable bytes (one contiguous buffer, so also its [buffers_front]);
    [fb_consume n] removes the first [n] readable bytes, all of them when there
    are fewer; [fb_append] is what a completed read does with a message. *)
Class FlatBuffer (B : Type) := {
  fb_empty : B;
  fb_data : B → list byte;
  fb_consume : nat → B → B;
  fb_append : list byte → B → B }.

Class FlatBufferLaws (B : Type) `{FlatBuffer B} := {
  fb_data_empty : fb_data fb_empty = [];
  fb_data_consume n b : fb_data (fb_consume n b) = drop n (fb_data b);
  fb_data_append bs b : fb_data (fb_append bs b) = fb_data b ++ bs }.

(** The interface can be implemented: the readable bytes themselves. *)
#[export] Instance list_flat_buffer : FlatBuffer (list byte) := {|
  fb_empty := [];
  fb_data b := b;
  fb_consume n b := drop n b;
  fb_append bs b := b ++ bs |}.

#[export] Instance list_flat_buffer_laws : FlatBufferLaws (list byte).
Proof. by constructor. Qed.

(** [receive_buffer], the wrapper the client hands to the user. *)
Section receive_buffer.
Context {B : Type} `{FlatBuffer B}.

Definition receive_buffer_data (b : B) : list byte := fb_data b.
Definition receive_buffer_size (b : B) : nat := length (fb_data b).
Definition receive_buffer_clear (b : B) : B := fb_consume (length (fb_data b)) b.
Definition receive_buffer_empty (b : B) : bool := bool_decide (receive_buffer_size b = 0%nat).
(** [operator bool] *)
Definition receive_buffer_bool (b : B) : bool := negb (receive_buffer_empty b).

Context `{!FlatBufferLaws B}.

Lemma receive_buffer_data_clear b : receive_buffer_data (receive_buffer_clear b) = [].
Proof. unfold receive_buffer_data, receive_buffer_clear. by rewrite fb_data_consume, drop_all. Qed.

Lemma receive_buffer_bool_true b :
  receive_buffer_bool b = true ↔ receive_buffer_data b ≠ [].
Proof.
  unfold receive_buffer_bool, receive_buffer_empty, receive_buffer_size, receive_buffer_data.
  by rewrite negb_true_iff, bool_decide_eq_false, length_zero_iff_nil.
Qed.
End receive_buffer.

#[export] Hint Rewrite @fb_data_empty @fb_data_consume @fb_data_append
  @receive_buffer_data_clear using (typeclasses eauto) : radrpc.

(** ** Facts about the flags and durations *)

Definition is_server_mode (m : server_mode) : Prop := in_range 8 m.

Lemma server_mode_or_range a b : is_server_mode (server_mode_or a b).
Proof. by apply wrap_range. Qed.

Lemma server_mode_or_lor a b :
  is_server_mode a → is_server_mode b → server_mode_or a b = Z.lor a b.
Proof.
  intros [? Ha] [? Hb]. apply wrap_small. split; [by apply Z.lor_nonneg|].
  destruct (decide (Z.lor a b = 0)) as [->|Hne]; [lia|].
  apply Z.log2_lt_pow2; [pose proof (proj2 (Z.lor_nonneg a b)); lia|].
  rewrite Z.log2_lor by done. apply Z.max_lub_lt.
  - destruct (decide (a = 0)) as [->|]; [done|]. apply Z.log2_lt_pow2; lia.
  - destruct (decide (b = 0)) as [->|]; [done|]. apply Z.log2_lt_pow2; lia.
Qed.

(** Testing a flag in a union is testing it in either part. *)
Lemma server_mode_and_or a b f :
  is_server_mode a → is_server_mode b →
  server_mode_and (server_mode_or a b) f = server_mode_and a f || server_mode_and b f.
Proof.
  intros Ha Hb. unfold server_mode_and. rewrite server_mode_or_lor by done.
  rewrite Z.land_lor_distr_l.
  destruct (Z.eqb_spec (Z.lor (Z.land a f) (Z.land b f)) 0) as [E|E].
  - apply Z.lor_eq_0_iff in E as [-> ->]. done.
  - destruct (Z.eqb_spec (Z.land a f) 0) as [E1|E1]; [|done].
    destruct (Z.eqb_spec (Z.land b f) 0) as [E2|E2]; [|done].
    by rewrite E1, E2 in E.
Qed.

Lemma to_millis_mono d d' : d ≤ d' → to_millis d ≤ to_millis d'.
Proof. intros. unfold to_millis. apply Z.quot_le_mono; lia. Qed.
