(* ===== verification/Header.v ===== *)
(** * Header: the [io_header] of include/radrpc/detail/data.hpp

    The 16-byte packed header in front of every message, as the bytes
    [reinterpret_cast] exposes.  The code converts nothing, so the layout is
    the host's: the development is parametric in the byte order. *)

From S2P Require Import Prelude Types.

(** ** Bytes *)

#[export] Instance byte_eq_dec : EqDecision byte := Byte.byte_eq_dec.

Definition byte_of_Z (z : Z) : byte := default x00 (Byte.of_N (Z.to_N (z mod 256))).
Definition byte_to_Z (b : byte) : Z := Z.of_N (Byte.to_N b).

Lemma byte_to_Z_range b : 0 ≤ byte_to_Z b < 256.
Proof. unfold byte_to_Z. pose proof (Byte.to_N_bounded b). lia. Qed.

Lemma byte_of_to_Z b : byte_of_Z (byte_to_Z b) = b.
Proof.
  unfold byte_of_Z. rewrite Z.mod_small by apply byte_to_Z_range.
  unfold byte_to_Z. by rewrite N2Z.id, Byte.of_to_N.
Qed.

Lemma byte_to_of_Z z : byte_to_Z (byte_of_Z z) = z mod 256.
Proof.
  unfold byte_of_Z. pose proof (Z.mod_pos_bound z 256).
  destruct (Byte.of_N (Z.to_N (z mod 256))) as [b|] eqn:E; simpl.
  - apply Byte.to_of_N in E. unfold byte_to_Z. lia.
  - exfalso. apply Byte.of_N_None_iff in E. lia.
Qed.

Lemma byte_of_Z_add x y : byte_of_Z (x + 256 * y) = byte_of_Z x.
Proof. unfold byte_of_Z. by rewrite Z.mul_comm, Z.mod_add. Qed.

(** [n] bytes of [z], least significant first. *)
Fixpoint le_bytes (n : nat) (z : Z) : list byte :=
  match n with
  | O => []
  | S n' => byte_of_Z z :: le_bytes n' (z / 256)
  end.

Fixpoint le_value (bs : list byte) : Z :=
  match bs with
  | [] => 0
  | b :: bs' => byte_to_Z b + 256 * le_value bs'
  end.

Lemma length_le_bytes n z : length (le_bytes n z) = n.
Proof. revert z. induction n; intros; simpl; auto. Qed.

Lemma le_value_bytes n z : le_value (le_bytes n z) = z mod 256 ^ Z.of_nat n.
Proof.
  revert z. induction n as [|n IH]; intros z; [by rewrite Z.mod_1_r|].
  simpl le_bytes. simpl le_value. rewrite IH, byte_to_of_Z, Nat2Z.inj_succ, Z.pow_succ_r by lia.
  rewrite Z.rem_mul_r by lia. done.
Qed.

Lemma le_bytes_value bs : le_bytes (length bs) (le_value bs) = bs.
Proof.
  induction bs as [|b bs IH]; [done|]. simpl. pose proof (byte_to_Z_range b).
  f_equal.
  - rewrite byte_of_Z_add. apply byte_of_to_Z.
  - rewrite Z.mul_comm, Z.div_add, Z.div_small by lia. done.
Qed.

(** The two byte orders a host may have. *)
Inductive byte_order : Set := little_endian | big_endian.

#[export] Instance byte_order_eq_dec : EqDecision byte_order.
Proof. solve_decision. Defined.

Definition to_bytes (o : byte_order) (n : nat) (z : Z) : list byte :=
  match o with little_endian => le_bytes n z | big_endian => reverse (le_bytes n z) end.

Definition of_bytes (o : byte_order) (bs : list byte) : Z :=
  match o with little_endian => le_value bs | big_endian => le_value (reverse bs) end.

Lemma length_to_bytes o n z : length (to_bytes o n z) = n.
Proof. destruct o; simpl; rewrite ?length_reverse; apply length_le_bytes. Qed.

Lemma of_to_bytes o n z : in_range (8 * Z.of_nat n) z → of_bytes o (to_bytes o n z) = z.
Proof.
  intros Hz. assert (of_bytes o (to_bytes o n z) = z mod 256 ^ Z.of_nat n) as ->.
  { destruct o; simpl; rewrite ?reverse_involutive; apply le_value_bytes. }
  change 256 with (2 ^ 8). rewrite <-Z.pow_mul_r by lia. by apply wrap_small.
Qed.

(** What a host of order [r] reads where one of order [w] wrote [z]. *)
Definition byte_swap (n : nat) (z : Z) : Z := le_value (reverse (le_bytes n z)).

Lemma of_bytes_seen w r n z :
  in_range (8 * Z.of_nat n) z →
  of_bytes r (to_bytes w n z) = if decide (w = r) then z else byte_swap n z.
Proof.
  intros Hz. case_decide as Hwr; [subst r; by apply of_to_bytes|]. by destruct w, r.
Qed.

Lemma to_of_bytes o n bs : length bs = n → to_bytes o n (of_bytes o bs) = bs.
Proof.
  intros <-. destruct o; simpl; [apply le_bytes_value|].
  by rewrite <-(length_reverse bs), le_bytes_value, reverse_involutive.
Qed.

(** ** The header *)

Record io_header := mk_io_header {
  call_id : Z;      (* uint32_t *)
  pad0 : Z;         (* uint32_t *)
  result_id : Z }.  (* uint64_t *)

(** The constructor. *)
Definition new_io_header (p_call_id p_result_id : Z) : io_header :=
  mk_io_header p_call_id 0 p_result_id.

Definition io_header_wf (h : io_header) : Prop :=
  is_u32 (call_id h) ∧ is_u32 (pad0 h) ∧ is_u64 (result_id h).

#[export] Instance io_header_eq_dec : EqDecision io_header.
Proof. solve_decision. Defined.
#[export] Instance io_header_wf_dec h : Decision (io_header_wf h).
Proof. unfold io_header_wf. apply _. Defined.

Lemma header_wf_new p_call_id p_result_id :
  is_u32 p_call_id → is_u64 p_result_id → io_header_wf (new_io_header p_call_id p_result_id).
Proof. intros ? ?. by split_and!. Qed.

(** [sizeof(detail::io_header)]: packed, 4 + 4 + 8. *)
Definition sizeof_io_header : nat := 16.

(** The bytes of the object: [reinterpret_cast<char *>(&header)]. *)
Definition header_bytes (o : byte_order) (h : io_header) : list byte :=
  to_bytes o 4 (call_id h) ++ to_bytes o 4 (pad0 h) ++ to_bytes o 8 (result_id h).

(** The object at the front of a buffer: [reinterpret_cast<const io_header *>].
    The callers test the size first; [None] is a read past the buffer. *)
Definition header_of_bytes (o : byte_order) (bs : list byte) : option io_header :=
  if (sizeof_io_header <=? length bs)%nat then
    Some (mk_io_header (of_bytes o (take 4 bs)) (of_bytes o (take 4 (drop 4 bs)))
            (of_bytes o (take 8 (drop 8 bs))))
  else None.

Lemma length_header_bytes o h : length (header_bytes o h) = sizeof_io_header.
Proof. unfold header_bytes. by rewrite !length_app, !length_to_bytes. Qed.

Lemma header_fields o h body :
  let bs := header_bytes o h ++ body in
  take 4 bs = to_bytes o 4 (call_id h) ∧
  take 4 (drop 4 bs) = to_bytes o 4 (pad0 h) ∧
  take 8 (drop 8 bs) = to_bytes o 8 (result_id h) ∧
  drop 16 bs = body.
Proof.
  unfold header_bytes. rewrite <-!app_assoc.
  assert (∀ n z l, take n (to_bytes o n z ++ l) = to_bytes o n z) as Ht.
  { intros. apply take_app_length'. by rewrite length_to_bytes. }
  assert (∀ n z l, drop n (to_bytes o n z ++ l) = l) as Hd.
  { intros. apply drop_app_length'. by rewrite length_to_bytes. }
  assert (∀ l : list byte, drop 8 l = drop 4 (drop 4 l)) as H8 by (intros; by rewrite drop_drop).
  assert (∀ l : list byte, drop 16 l = drop 8 (drop 4 (drop 4 l))) as ->
    by (intros; by rewrite !drop_drop).
  split_and!; [by rewrite Ht|by rewrite Hd, Ht|by rewrite H8, !Hd, Ht|].
  rewrite (Hd 4%nat), (Hd 4%nat). apply Hd.
Qed.

Lemma header_of_bytes_app o h body :
  io_header_wf h → header_of_bytes o (header_bytes o h ++ body) = Some h.
Proof.
  intros (H1 & H2 & H3). unfold header_of_bytes.
  rewrite (proj2 (Nat.leb_le _ _)) by (rewrite length_app, length_header_bytes; lia).
  destruct (header_fields o h body) as (-> & -> & -> & _).
  rewrite !of_to_bytes by done. by destruct h.
Qed.

(** The header as a host of order [r] finds it in the bytes of one of order [w]. *)
Definition seen_by (w r : byte_order) (h : io_header) : io_header :=
  if decide (w = r) then h
  else mk_io_header (byte_swap 4 (call_id h)) (byte_swap 4 (pad0 h)) (byte_swap 8 (result_id h)).

Lemma drop_header_app o h body : drop sizeof_io_header (header_bytes o h ++ body) = body.
Proof. apply drop_app_length'. by rewrite length_header_bytes. Qed.

Lemma header_of_bytes_is_Some o bs :
  is_Some (header_of_bytes o bs) ↔ (sizeof_io_header ≤ length bs)%nat.
Proof.
  unfold header_of_bytes. destruct (Nat.leb_spec sizeof_io_header (length bs)).
  - split; eauto.
  - split; [by intros [? [=]]|lia].
Qed.

(** Parsing then printing gives back the 16 bytes that were parsed. *)
Lemma header_bytes_of_bytes o bs h :
  header_of_bytes o bs = Some h → header_bytes o h = take sizeof_io_header bs.
Proof.
  unfold header_of_bytes. destruct (Nat.leb_spec sizeof_io_header (length bs)) as [Hl|]; [|done].
  unfold sizeof_io_header in *. intros [= <-]. unfold header_bytes. simpl call_id.
  simpl pad0. simpl result_id.
  rewrite !to_of_bytes by (rewrite length_take, ?length_drop; lia).
  assert (drop 8 bs = drop 4 (drop 4 bs)) as -> by (by rewrite drop_drop).
  rewrite (take_take_drop (drop 4 bs) 4 8). simpl (4 + 8)%nat.
  by rewrite (take_take_drop bs 4 12).
Qed.

(** The parsed fields are in range. *)
Lemma of_bytes_range o bs : in_range (8 * Z.of_nat (length bs)) (of_bytes o bs).
Proof.
  assert (∀ l, of_bytes little_endian l = le_value l) as Hle by done.
  assert (∀ l, in_range (8 * Z.of_nat (length l)) (le_value l)) as H.
  { induction l as [|b l IH]; [done|]. destruct IH. simpl length. simpl le_value.
    pose proof (byte_to_Z_range b).
    assert (2 ^ (8 * Z.of_nat (S (length l))) = 256 * 2 ^ (8 * Z.of_nat (length l))) as E.
    { rewrite Nat2Z.inj_succ. change 256 with (2 ^ 8). rewrite <-Z.pow_add_r by lia.
      f_equal. lia. }
    split; [lia|]. rewrite E. lia. }
  destruct o; [apply H|]. rewrite <-length_reverse. apply H.
Qed.

Lemma header_of_bytes_wf o bs h : header_of_bytes o bs = Some h → io_header_wf h.
Proof.
  unfold header_of_bytes. destruct (Nat.leb_spec sizeof_io_header (length bs)) as [Hl|]; [|done].
  unfold sizeof_io_header in *. intros [= <-]. unfold io_header_wf, is_u32, is_u64. simpl.
  repeat split; try apply of_bytes_range.
  - pose proof (proj2 (of_bytes_range o (take 4 bs))). rewrite length_take_le in * by lia. done.
  - pose proof (proj2 (of_bytes_range o (take 4 (drop 4 bs)))).
    rewrite length_take_le in * by (rewrite length_drop; lia). done.
  - pose proof (proj2 (of_bytes_range o (take 8 (drop 8 bs)))).
    rewrite length_take_le in * by (rewrite length_drop; lia). done.
Qed.

#[export] Hint Rewrite length_header_bytes drop_header_app : radrpc.
#[export] Hint Resolve header_of_bytes_app : radrpc.

(** ** Properties *)

(** C39. Header round trip, for a writer and a reader of any byte orders.  The
    header is read back as [seen_by] says, whatever body follows it: unchanged
    when the two ends have the same byte order, with the bytes of each field
    reversed when they have not, since the object is copied as it lies in
    memory.  What is left of the message after consuming [sizeof(io_header)]
    bytes is the body in both cases, and a reader that writes the header it has
    seen writes the very bytes it got. *)
Theorem io_header_roundtrip w r h body :
  io_header_wf h →
  header_of_bytes r (header_bytes w h ++ body) = Some (seen_by w r h) ∧
  (w = r → seen_by w r h = h) ∧
  drop sizeof_io_header (header_bytes w h ++ body) = body ∧
  header_bytes r (seen_by w r h) = header_bytes w h.
Proof.
  intros Hwf. assert (header_of_bytes r (header_bytes w h ++ body) = Some (seen_by w r h)) as E.
  { destruct Hwf as (H1 & H2 & H3). unfold header_of_bytes.
    rewrite (proj2 (Nat.leb_le _ _)) by (rewrite length_app, length_header_bytes; lia).
    destruct (header_fields w h body) as (-> & -> & -> & _).
    rewrite !of_bytes_seen by done. unfold seen_by. case_decide; [by destruct h|done]. }
  split; [done|]. split; [intros <-; unfold seen_by; by rewrite decide_True|].
  split; [apply drop_header_app|]. apply header_bytes_of_bytes in E. rewrite E.
  apply take_app_length'. by rewrite length_header_bytes.
Qed.

Lemma io_header_roundtrip_witness :
  header_of_bytes little_endian (header_bytes big_endian (new_io_header 7 513) ++ [x61])
    = Some (mk_io_header 117440512 0 72620543991349248) ∧
  (big_endian = little_endian → seen_by big_endian little_endian (new_io_header 7 513) = new_io_header 7 513) ∧
  drop sizeof_io_header (header_bytes big_endian (new_io_header 7 513) ++ [x61]) = [x61] ∧
  header_bytes little_endian (seen_by big_endian little_endian (new_io_header 7 513)) =
    header_bytes big_endian (new_io_header 7 513).
Proof.
  apply (io_header_roundtrip big_endian little_endian (new_io_header 7 513) [x61]).
  vm_compute. repeat split; discriminate.
Defined.

(** Echoed headers: a host that copies a received header into its answer
    (as [call_function] does) sends back the very 16 bytes it received, whatever
    the two byte orders; the sender reads its own call id and result id. *)
Theorem io_header_echo o o' h body h' :
  io_header_wf h →
  header_of_bytes o' (header_bytes o h ++ body) = Some h' →
  header_bytes o' h' = header_bytes o h ∧
  ∀ answer, header_of_bytes o (header_bytes o' h' ++ answer) = Some h.
Proof.
  intros Hwf H%header_bytes_of_bytes.
  rewrite take_app_length' in H by (by rewrite length_header_bytes).
  split; [done|]. intros answer. rewrite H. by apply header_of_bytes_app.
Qed.

Lemma io_header_echo_witness :
  let h := new_io_header 1 2 in
  let h' := mk_io_header 16777216 0 144115188075855872 in
  header_bytes big_endian h' = header_bytes little_endian h ∧
  ∀ answer, header_of_bytes little_endian (header_bytes big_endian h' ++ answer) = Some h.
Proof.
  apply (io_header_echo little_endian big_endian (new_io_header 1 2) []);
    [vm_compute; repeat split; discriminate|vm_compute; reflexivity].
Defined.
