(* ===== verification/Operations.v ===== *)
(** * Operations: include/radrpc/detail/operations.hpp

    The thread-local send and response timeouts, and the handlers [weak_post]
    and [wait_weak_post] hand to the executor. *)

From S2P Require Import Prelude Types.

Definition thread_id : Type := nat.

(** ** Thread-local timeouts

    Each [thread_local] variable is a map from threads to values, zero for a
    thread that has not written it. *)

Record tls := mk_tls {
  tls_send_timeout : gmap nat duration;
  tls_response_timeout : gmap nat duration }.

Definition tls_init : tls := mk_tls ∅ ∅.

Definition tls_read (m : gmap nat duration) (t : thread_id) : duration :=
  default duration_zero (m !! t).

(** [send_timeout(timeout)] called by thread [t]: [duration::max()], the
    default argument, reads; any other value writes and returns zero. *)
Definition send_timeout (t : thread_id) (timeout : duration) (s : tls) : duration * tls :=
  if decide (timeout = duration_max) then (tls_read (tls_send_timeout s) t, s)
  else (duration_zero, mk_tls (<[t := timeout]> (tls_send_timeout s)) (tls_response_timeout s)).

Definition response_timeout (t : thread_id) (timeout : duration) (s : tls) : duration * tls :=
  if decide (timeout = duration_max) then (tls_read (tls_response_timeout s) t, s)
  else (duration_zero, mk_tls (tls_send_timeout s) (<[t := timeout]> (tls_response_timeout s))).

(** [auto x = detail::send_timeout(); if (x == duration::zero()) x = fallback;]
    as the client session reads its timeouts. *)
Definition send_timeout_or (t : thread_id) (fallback : duration) (s : tls) : duration :=
  let x := fst (send_timeout t duration_max s) in
  if decide (x = duration_zero) then fallback else x.

Definition response_timeout_or (t : thread_id) (fallback : duration) (s : tls) : duration :=
  let x := fst (response_timeout t duration_max s) in
  if decide (x = duration_zero) then fallback else x.

(** ** Posted handlers

    [alive]: whether [weak_write.lock()] succeeds when the executor runs the
    closure; [handler]: the [std::function], [None] when empty. *)

Definition weak_post_closure {St Ef} (alive : bool) (handler : option (act St Ef unit)) :
    act St Ef unit :=
  act_when alive (match handler with Some h => h | None => act_ret tt end).

(** The promise of [wait_weak_post]: [None] once the waiting call has returned
    and released it. *)
Inductive post_promise : Set := pp_released | pp_waiting | pp_ready.

Definition wait_weak_post_closure {St Ef} (alive : bool) (handler : option (act St Ef unit))
    (p : post_promise) : act St Ef post_promise :=
  do! weak_post_closure alive handler in
  act_ret (match p with pp_waiting => pp_ready | _ => p end).

(** What [wait_weak_post] returns when [wait_for] is over. *)
Definition wait_weak_post_result (p : post_promise) : bool :=
  match p with pp_ready => true | _ => false end.

(** ** Lemmas *)

Lemma tls_read_insert m t t' d :
  tls_read (<[t := d]> m) t' = if decide (t = t') then d else tls_read m t'.
Proof. unfold tls_read. rewrite lookup_insert. by case_decide. Qed.

Lemma send_timeout_get t s :
  send_timeout t duration_max s = (tls_read (tls_send_timeout s) t, s).
Proof. unfold send_timeout. by rewrite decide_True. Qed.

Lemma response_timeout_get t s :
  response_timeout t duration_max s = (tls_read (tls_response_timeout s) t, s).
Proof. unfold response_timeout. by rewrite decide_True. Qed.

Lemma send_timeout_set t d s :
  d ≠ duration_max →
  send_timeout t d s =
    (duration_zero, mk_tls (<[t := d]> (tls_send_timeout s)) (tls_response_timeout s)).
Proof. intros. unfold send_timeout. by rewrite decide_False. Qed.

Lemma response_timeout_set t d s :
  d ≠ duration_max →
  response_timeout t d s =
    (duration_zero, mk_tls (tls_send_timeout s) (<[t := d]> (tls_response_timeout s))).
Proof. intros. unfold response_timeout. by rewrite decide_False. Qed.

#[export] Hint Rewrite tls_read_insert send_timeout_get response_timeout_get : radrpc.

(** ** Properties *)

(** Thread-local timeouts: after thread [t] sets a value other than the
    sentinel [duration::max()] the same thread uses it (zero meaning the
    client's default), every other thread and the other timeout are unaffected,
    and setting zero restores the default. *)
Theorem send_timeout_thread_local t t' d fallback s :
  d ≠ duration_max →
  let s' := snd (send_timeout t d s) in
  send_timeout_or t fallback s' = (if decide (d = duration_zero) then fallback else d) ∧
  (t' ≠ t → send_timeout_or t' fallback s' = send_timeout_or t' fallback s) ∧
  response_timeout_or t' fallback s' = response_timeout_or t' fallback s ∧
  send_timeout_or t fallback (snd (send_timeout t duration_zero s')) = fallback.
Proof.
  intros Hd s'. unfold s'. rewrite !send_timeout_set by done.
  unfold send_timeout_or, response_timeout_or.
  rewrite !send_timeout_get, !response_timeout_get. simpl. rewrite !tls_read_insert.
  split_and!; repeat case_decide; naive_solver.
Qed.

Lemma send_timeout_thread_local_witness :
  let s' := snd (send_timeout 1%nat 5 tls_init) in
  send_timeout_or 1%nat 9 s' = 5 ∧
  (2%nat ≠ 1%nat → send_timeout_or 2%nat 9 s' = 9) ∧
  response_timeout_or 2%nat 9 s' = 9 ∧
  send_timeout_or 1%nat 9 (snd (send_timeout 1%nat duration_zero s')) = 9.
Proof. apply (send_timeout_thread_local 1%nat 2%nat 5 9 tls_init). done. Defined.
