(* ===== verification/DataCache.v ===== *)
(** * DataCache: [data_read] and [data_cache] of include/radrpc/detail/data.hpp

    The client's table of awaited responses.  A row is a heap object behind a
    [shared_ptr]: the table and the threads blocked in [wait] point to the same
    row, so the model keeps a store of rows and the table maps ids to
    locations.  A section under a lock is one atomic step.  [wait] has three of
    them: the look-up under [m_mtx], the end of [cv.wait_for] under the lock of
    the row, and, that lock having been released and taken again, the swap of
    the caller's buffer; the steps of other threads may come between any two.
    [cache_system] interleaves the steps of any number of threads. *)

From S2P Require Import Prelude Types.

Inductive data_state : Set := ds_queued | ds_waiting | ds_swapped.

#[export] Instance data_state_eq_dec : EqDecision data_state.
Proof. solve_decision. Defined.

(** A location of the row store. *)
Abbreviation loc := nat (only parsing).

Section data_cache.
Context {B : Type} `{FlatBuffer B}.

(** ** Rows *)

Record data_read := mk_data_read {
  timestamp : time_point;
  valid_ms : Z;
  state : data_state;
  read_buffer : B }.

Definition new_data_read (p_timestamp : time_point) (p_valid : duration) : data_read :=
  mk_data_read p_timestamp (to_millis p_valid) ds_queued fb_empty.

(** [valid()], [now] being what [steady_clock::now()] returns. *)
Definition data_read_valid (now : time_point) (row : data_read) : bool :=
  to_millis (now - timestamp row) <? valid_ms row.

Definition set_state (st : data_state) (row : data_read) : data_read :=
  mk_data_read (timestamp row) (valid_ms row) st (read_buffer row).
Definition set_read_buffer (b : B) (row : data_read) : data_read :=
  mk_data_read (timestamp row) (valid_ms row) (state row) b.

(** ** The table *)

Record data_cache := mk_data_cache {
  dc_max_entries : nat;
  dc_id_counter : Z;
  dc_entries : gmap Z loc;
  dc_rows : list data_read }.

Definition new_data_cache (p_max_entries : nat) : data_cache :=
  mk_data_cache p_max_entries 0 ∅ [].

Definition set_entries (m : gmap Z loc) (c : data_cache) : data_cache :=
  mk_data_cache (dc_max_entries c) (dc_id_counter c) m (dc_rows c).
Definition update_row (f : data_read → data_read) (l : loc) (c : data_cache) : data_cache :=
  mk_data_cache (dc_max_entries c) (dc_id_counter c) (dc_entries c) (alter f l (dc_rows c)).

(** [cv.notify_all()] of a row is the only effect. *)
Inductive cache_effect : Set := notify_row (l : loc).

Abbreviation cact := (act data_cache cache_effect).

(** [*ptr]: the row behind a pointer; a dangling pointer is undefined. *)
Definition deref_row (l : loc) : cact data_read := λ c,
  match dc_rows c !! l with Some row => Done row c [] | None => Undefined end.

(** [queue(valid)] (both overloads: they differ in the deleter of the row). *)
Definition cache_queue (now : time_point) (valid : duration) : cact Z :=
  let! c := act_get in
  if decide (dc_max_entries c ≤ size (dc_entries c))%nat then act_ret 0
  else
    let id := u64 (dc_id_counter c + 1) in
    do! act_modify (λ c, mk_data_cache (dc_max_entries c) id
          (<[id := length (dc_rows c)]> (dc_entries c))
          (dc_rows c ++ [new_data_read now valid])) in
    act_ret id.

(** [wait(id, timeout, row)] up to [cv.wait_for]. *)
Inductive wait_result : Set :=
  | wait_absent                (* return false, [row] unassigned *)
  | wait_ready (l : loc)       (* return true *)
  | wait_blocked (l : loc).    (* blocked on [row->cv] *)

Definition cache_wait_begin (id : Z) : cact wait_result :=
  let! c := act_get in
  match dc_entries c !! id with
  | None => act_ret wait_absent
  | Some l =>
      let! row := deref_row l in
      if decide (state row = ds_swapped) then
        do! act_modify (set_entries (delete id (dc_entries c))) in
        act_ret (wait_ready l)
      else
        do! act_modify (update_row (set_state ds_waiting) l) in
        act_ret (wait_blocked l)
  end.

(** The predicate of [cv.wait_for], and what [wait] returns after it. *)
Definition cache_wait_done (l : loc) : cact bool :=
  let! row := deref_row l in
  act_ret (bool_decide (state row = ds_swapped)).

(** [std::swap(buffer, row->read_buffer)] of the other overload of [wait]. *)
Definition cache_take_buffer (l : loc) (buffer : B) : cact B :=
  let! row := deref_row l in
  do! act_modify (update_row (set_read_buffer buffer) l) in
  act_ret (read_buffer row).

(** [swap_notify(id, buffer)]; the result is the caller's buffer afterwards. *)
Definition swap_notify (id : Z) (buffer : B) : cact B :=
  let! c := act_get in
  match dc_entries c !! id with
  | None => act_ret buffer
  | Some l =>
      let! row := deref_row l in
      do! act_modify (update_row (λ r, set_state ds_swapped (set_read_buffer buffer r)) l) in
      do! act_when (bool_decide (state row = ds_waiting))
            (do! act_emit (notify_row l) in
             act_modify (λ c, set_entries (delete id (dc_entries c)) c)) in
      act_ret fb_empty
  end.

(** [std::map] iterates in the order of its keys. *)
Definition ids_in_order (m : gmap Z loc) : list Z := merge_sort Z.le (elements (dom m)).

(** [remove_obsolete()]: [clock i] is the [i]-th reading of the clock. *)
Fixpoint remove_obsolete_loop (clock : nat → time_point) (i : nat) (ids : list Z) : cact unit :=
  match ids with
  | [] => act_ret tt
  | id :: ids' =>
      let! c := act_get in
      do! match dc_entries c !! id with
          | None => act_ret tt
          | Some l =>
              let! row := deref_row l in
              act_when (negb (data_read_valid (clock i) row))
                (act_modify (λ c, set_entries (delete id (dc_entries c)) c))
          end in
      remove_obsolete_loop clock (S i) ids'
  end.

Definition remove_obsolete (clock : nat → time_point) : cact unit :=
  let! c := act_get in remove_obsolete_loop clock 0 (ids_in_order (dc_entries c)).

Definition cache_size : cact nat := act_gets (λ c, size (dc_entries c)).

(** [clear()] *)
Fixpoint cache_clear_loop (ids : list Z) : cact unit :=
  match ids with
  | [] => act_ret tt
  | id :: ids' =>
      let! c := act_get in
      do! match dc_entries c !! id with
          | None => act_ret tt
          | Some l =>
              do! deref_row l in
              do! act_modify (update_row (set_state ds_swapped) l) in
              do! act_emit (notify_row l) in
              act_modify (λ c, set_entries (delete id (dc_entries c)) c)
          end in
      cache_clear_loop ids'
  end.

Definition cache_clear : cact unit :=
  let! c := act_get in cache_clear_loop (ids_in_order (dc_entries c)).
End data_cache.

Arguments data_read B : clear implicits.
Arguments data_cache B : clear implicits.
Arguments cache_wait_begin {B} id _.
Arguments cache_wait_done {B} l _.
Arguments remove_obsolete {B} clock _.
Arguments cache_clear {B} _.

(** ** Threads sharing the table *)

Section cache_system.
Context {B : Type} `{FlatBuffer B}.

(** A thread inside [wait(id, timeout, buffer)]: blocked on the condition
    variable of row [l], or about to swap its buffer with that of [l] and to
    return [ok]. *)
Inductive cache_thread : Type :=
  | ct_blocked (id : Z) (l : loc) (buffer : B)
  | ct_taking (id : Z) (l : loc) (ok : bool) (buffer : B).

Definition ct_id (x : cache_thread) : Z :=
  match x with ct_blocked id _ _ | ct_taking id _ _ _ => id end.
Definition ct_row (x : cache_thread) : loc :=
  match x with ct_blocked _ l _ | ct_taking _ l _ _ => l end.
Definition ct_buffer (x : cache_thread) : B :=
  match x with ct_blocked _ _ b | ct_taking _ _ _ b => b end.

Definition ct_is_blocked (x : cache_thread) : bool :=
  match x with ct_blocked _ _ _ => true | ct_taking _ _ _ _ => false end.

(** [cs_waiters]: the threads inside [wait].  [cs_returns]: what the calls of
    [wait] have returned, the id, the result and the bytes now in the caller's
    buffer.  [cs_owner]: for each row the id it was queued under (ghost). *)
Record cache_system := mk_cache_system {
  cs_cache : data_cache B;
  cs_waiters : gmap nat cache_thread;
  cs_returns : list (Z * bool * list byte);
  cs_owner : list Z }.

Definition cache_system_init (max : nat) : cache_system :=
  mk_cache_system (new_data_cache max) ∅ [] [].

Inductive cache_event : Type :=
  | ev_queue (now : time_point) (valid : duration)
  | ev_wait (t : nat) (id : Z) (buffer : B)
  | ev_resume (t : nat)   (* [wait_for] ends: notified, or timed out *)
  | ev_take (t : nat)     (* the buffers are swapped, and [wait] returns *)
  | ev_swap (id : Z) (buffer : B)
  | ev_obsolete (clock : nat → time_point)
  | ev_clear.

(** A thread waits on one row at a time, and a session queues fewer than
    2^64 requests. *)
Definition cache_enabled (s : cache_system) (e : cache_event) : bool :=
  match e with
  | ev_queue _ _ => bool_decide (dc_id_counter (cs_cache s) + 1 < 2 ^ 64)
  | ev_wait t _ _ => bool_decide (cs_waiters s !! t = None)
  | ev_resume t => from_option ct_is_blocked false (cs_waiters s !! t)
  | ev_take t => from_option (negb ∘ ct_is_blocked) false (cs_waiters s !! t)
  | _ => true
  end.

Definition cache_handle (s : cache_system) (e : cache_event) : option cache_system :=
  let with_cache c := mk_cache_system c (cs_waiters s) (cs_returns s) (cs_owner s) in
  match e with
  | ev_queue now valid =>
      match cache_queue now valid (cs_cache s) with
      | Done id c _ =>
          Some (mk_cache_system c (cs_waiters s) (cs_returns s)
                  (if decide (id = 0) then cs_owner s else cs_owner s ++ [id]))
      | _ => None
      end
  | ev_wait t id buffer =>
      match cache_wait_begin id (cs_cache s) with
      | Done wait_absent c _ =>
          Some (mk_cache_system c (cs_waiters s)
                  (cs_returns s ++ [(id, false, fb_data buffer)]) (cs_owner s))
      | Done (wait_ready l) c _ =>
          Some (mk_cache_system c (<[t := ct_taking id l true buffer]> (cs_waiters s))
                  (cs_returns s) (cs_owner s))
      | Done (wait_blocked l) c _ =>
          Some (mk_cache_system c (<[t := ct_blocked id l buffer]> (cs_waiters s))
                  (cs_returns s) (cs_owner s))
      | _ => None
      end
  | ev_resume t =>
      match cs_waiters s !! t with
      | Some (ct_blocked id l buffer) =>
          match cache_wait_done l (cs_cache s) with
          | Done ok c _ =>
              Some (mk_cache_system c (<[t := ct_taking id l ok buffer]> (cs_waiters s))
                      (cs_returns s) (cs_owner s))
          | _ => None
          end
      | _ => None
      end
  | ev_take t =>
      match cs_waiters s !! t with
      | Some (ct_taking id l ok buffer) =>
          match cache_take_buffer l buffer (cs_cache s) with
          | Done b c _ =>
              Some (mk_cache_system c (delete t (cs_waiters s))
                      (cs_returns s ++ [(id, ok, fb_data b)]) (cs_owner s))
          | _ => None
          end
      | _ => None
      end
  | ev_swap id buffer =>
      match swap_notify id buffer (cs_cache s) with
      | Done _ c _ => Some (with_cache c)
      | _ => None
      end
  | ev_obsolete clock =>
      match remove_obsolete clock (cs_cache s) with
      | Done _ c _ => Some (with_cache c)
      | _ => None
      end
  | ev_clear =>
      match cache_clear (cs_cache s) with
      | Done _ c _ => Some (with_cache c)
      | _ => None
      end
  end.

Definition cache_steps : cache_system → list cache_event → cache_system → Prop :=
  steps cache_enabled cache_handle.
Definition cache_run : cache_system → list cache_event → option cache_system :=
  run cache_enabled cache_handle.
End cache_system.

Arguments cache_system B : clear implicits.
Arguments cache_event B : clear implicits.
Arguments cache_thread B : clear implicits.
