(* ===== verification/DataCacheFacts.v ===== *)
(** * DataCacheFacts: correctness of [data_cache]

    The well-formedness of the table, the effect of every operation on it, and
    the behaviour of any number of threads that share it. *)

From S2P Require Import Prelude Types DataCache.

Section facts.
Context {B : Type} `{FlatBuffer B}.
Implicit Types (c : data_cache B) (row : data_read B).

(** ** Well-formed tables *)

Record cache_wf c : Prop := {
  wf_size : (size (dc_entries c) ≤ dc_max_entries c)%nat;
  wf_counter : is_u64 (dc_id_counter c);
  wf_id id l : dc_entries c !! id = Some l → 1 ≤ id ≤ dc_id_counter c;
  wf_row id l : dc_entries c !! id = Some l → (l < length (dc_rows c))%nat;
  wf_inj id id' l : dc_entries c !! id = Some l → dc_entries c !! id' = Some l → id = id' }.

Lemma new_data_cache_wf max : cache_wf (new_data_cache max).
Proof. split; simpl; try (intros *; rewrite lookup_empty); done || (by rewrite map_size_empty; lia). Qed.

Lemma set_entries_wf m c : m ⊆ dc_entries c → cache_wf c → cache_wf (set_entries m c).
Proof.
  intros Hm [Hs Hc Hi Hr Hj]. split; simpl; [|done| | |].
  - etrans; [by apply map_subseteq_size|done].
  - intros id l Hl. eapply Hi, lookup_weaken; eauto.
  - intros id l Hl. eapply Hr, lookup_weaken; eauto.
  - intros id id' l H1 H2. eapply Hj; eapply lookup_weaken; eauto.
Qed.

Lemma delete_entry_wf id c : cache_wf c → cache_wf (set_entries (delete id (dc_entries c)) c).
Proof. apply set_entries_wf, delete_subseteq. Qed.

Lemma update_row_wf f l c : cache_wf c → cache_wf (update_row f l c).
Proof. intros [Hs Hc Hi Hr Hj]. split; simpl; rewrite ?length_alter; eauto. Qed.

Lemma wf_row_lookup c id l :
  cache_wf c → dc_entries c !! id = Some l → ∃ row, dc_rows c !! l = Some row.
Proof. intros Hwf Hl. apply lookup_lt_is_Some, (wf_row c Hwf id l Hl). Qed.

Lemma deref_row_Done c l row : dc_rows c !! l = Some row → deref_row l c = Done row c [].
Proof. intros E. unfold deref_row. by rewrite E. Qed.

(** ** One operation *)

(** A full table refuses; otherwise a fresh id gets a queued, empty row. *)
Lemma cache_queue_full now valid c :
  (dc_max_entries c ≤ size (dc_entries c))%nat → cache_queue now valid c = Done 0 c [].
Proof. intros. unfold cache_queue. run_act. by rewrite decide_True. Qed.

Lemma cache_queue_room now valid c :
  (size (dc_entries c) < dc_max_entries c)%nat → dc_id_counter c + 1 < 2 ^ 64 → cache_wf c →
  let id := dc_id_counter c + 1 in
  cache_queue now valid c =
    Done id (mk_data_cache (dc_max_entries c) id
               (<[id := length (dc_rows c)]> (dc_entries c))
               (dc_rows c ++ [new_data_read now valid])) [].
Proof.
  intros Hs Hc [_ [? ?] _ _ _]. unfold cache_queue. run_act. rewrite decide_False by lia.
  unfold u64. by rewrite (wrap_small 64) by (split; lia).
Qed.

Lemma fresh_id c l : cache_wf c → dc_entries c !! (dc_id_counter c + 1) ≠ Some l.
Proof. intros Hwf Hl%(wf_id c Hwf). lia. Qed.

Lemma cache_queue_wf now valid c id c' es :
  cache_wf c → dc_id_counter c + 1 < 2 ^ 64 →
  cache_queue now valid c = Done id c' es → cache_wf c'.
Proof.
  intros Hwf Hc.
  destruct (decide (dc_max_entries c ≤ size (dc_entries c))%nat) as [Hf|Hf].
  { rewrite cache_queue_full by done. by intros [= <- <- <-]. }
  rewrite cache_queue_room by (done || lia). intros [= <- <- <-].
  pose proof (wf_counter c Hwf) as [? ?].
  assert (dc_entries c !! (dc_id_counter c + 1) = None) as Hn.
  { destruct (_ !! _) eqn:E; [|done]. by apply fresh_id in E. }
  split; simpl.
  - rewrite map_size_insert_None by done. lia.
  - split; lia.
  - intros id l [[<- <-]|[? Hl%(wf_id c Hwf)]]%lookup_insert_Some; lia.
  - intros id l. rewrite length_app. simpl.
    intros [[<- <-]|[? Hl%(wf_row c Hwf)]]%lookup_insert_Some; lia.
  - intros id id' l [[<- <-]|[? Hl]]%lookup_insert_Some [[<- El]|[? Hl']]%lookup_insert_Some.
    + done.
    + apply (wf_row c Hwf) in Hl'. lia.
    + apply (wf_row c Hwf) in Hl. lia.
    + by eapply wf_inj.
Qed.

Lemma cache_wait_begin_None c id :
  dc_entries c !! id = None → cache_wait_begin id c = Done wait_absent c [].
Proof. intros E. unfold cache_wait_begin. run_act. by rewrite E. Qed.

Lemma cache_wait_begin_swapped c id l row :
  dc_entries c !! id = Some l → dc_rows c !! l = Some row → state row = ds_swapped →
  cache_wait_begin id c =
    Done (wait_ready l) (set_entries (delete id (dc_entries c)) c) [].
Proof.
  intros E Hr Hs. unfold cache_wait_begin. run_act. rewrite E, (deref_row_Done c l row) by done.
  by rewrite decide_True.
Qed.

Lemma cache_wait_begin_blocked c id l row :
  dc_entries c !! id = Some l → dc_rows c !! l = Some row → state row ≠ ds_swapped →
  cache_wait_begin id c = Done (wait_blocked l) (update_row (set_state ds_waiting) l c) [].
Proof.
  intros E Hr Hs. unfold cache_wait_begin. run_act. rewrite E, (deref_row_Done c l row) by done.
  by rewrite decide_False.
Qed.

Lemma swap_notify_None c id buffer :
  dc_entries c !! id = None → swap_notify id buffer c = Done buffer c [].
Proof. intros E. unfold swap_notify. run_act. by rewrite E. Qed.

(** The row takes the data; it leaves the table when somebody waits for it. *)
Lemma swap_notify_Some c id l row buffer :
  dc_entries c !! id = Some l → dc_rows c !! l = Some row →
  swap_notify id buffer c =
    let c1 := update_row (λ r, set_state ds_swapped (set_read_buffer buffer r)) l c in
    if decide (state row = ds_waiting)
    then Done fb_empty (set_entries (delete id (dc_entries c)) c1) [notify_row l]
    else Done fb_empty c1 [].
Proof.
  intros E Hr. unfold swap_notify. run_act. rewrite E, (deref_row_Done c l row) by done. simpl.
  by destruct (decide (state row = ds_waiting)) as [->|Hs];
    [rewrite bool_decide_eq_true_2|rewrite bool_decide_eq_false_2].
Qed.

Lemma cache_take_buffer_Some c l row buffer :
  dc_rows c !! l = Some row →
  cache_take_buffer l buffer c =
    Done (read_buffer row) (update_row (set_read_buffer buffer) l c) [].
Proof. intros Hr. unfold cache_take_buffer, act_bind. by rewrite (deref_row_Done c l row). Qed.

Lemma cache_wait_done_Some c l row :
  dc_rows c !! l = Some row →
  cache_wait_done l c = Done (bool_decide (state row = ds_swapped)) c [].
Proof. intros Hr. unfold cache_wait_done, act_bind. by rewrite (deref_row_Done c l row). Qed.

(** ** The two loops *)

Lemma ids_in_order_spec (m : gmap Z loc) :
  NoDup (ids_in_order m) ∧ Sorted Z.le (ids_in_order m) ∧
  ∀ id, id ∈ ids_in_order m ↔ is_Some (m !! id).
Proof.
  unfold ids_in_order. pose proof (merge_sort_Permutation Z.le (elements (dom m))) as Hp.
  split_and!.
  - rewrite Hp. apply NoDup_elements.
  - apply Sorted_merge_sort; apply _.
  - intros id. rewrite Hp, elem_of_elements. apply elem_of_dom.
Qed.

(** One turn of the loop keeps the entry or erases it. *)
Lemma remove_obsolete_loop_cons clock i id ids c :
  cache_wf c →
  ∃ m, m ⊆ dc_entries c ∧ (∀ id', id' ≠ id → m !! id' = dc_entries c !! id') ∧
    remove_obsolete_loop clock i (id :: ids) c =
      remove_obsolete_loop clock (S i) ids (set_entries m c) ∧
    ∀ l row, dc_entries c !! id = Some l → dc_rows c !! l = Some row →
      m !! id = if data_read_valid (clock i) row then Some l else None.
Proof.
  intros Hwf.
  assert (remove_obsolete_loop clock (S i) ids (set_entries (dc_entries c) c) =
          remove_obsolete_loop clock (S i) ids c) as Hid by (by destruct c).
  simpl. run_act. destruct (dc_entries c !! id) as [l|] eqn:E.
  - destruct (wf_row_lookup c id l Hwf E) as (row & Hr).
    rewrite (deref_row_Done c l row) by done.
    destruct (data_read_valid (clock i) row) eqn:Hv; simpl.
    + exists (dc_entries c). rewrite Hid. split_and!; try done.
      * by rewrite !outcome_eta.
      * intros. simplify_eq. by rewrite Hv.
    + exists (delete id (dc_entries c)). split_and!.
      * apply delete_subseteq.
      * intros. by rewrite lookup_delete_ne.
      * by rewrite !outcome_eta.
      * intros. simplify_eq. by rewrite Hv, lookup_delete_eq.
  - exists (dc_entries c). rewrite Hid. split_and!; try done.
    by rewrite !outcome_eta.
Qed.

(** Exactly the entries whose row was still valid at its own clock reading
    are kept. *)
Lemma remove_obsolete_loop_spec clock ids i c :
  cache_wf c → NoDup ids →
  ∃ m, remove_obsolete_loop clock i ids c = Done tt (set_entries m c) [] ∧
    m ⊆ dc_entries c ∧
    ∀ id l row, dc_entries c !! id = Some l → dc_rows c !! l = Some row →
      (m !! id = Some l ↔
       ∀ k, ids !! k = Some id → data_read_valid (clock (i + k)%nat) row = true).
Proof.
  revert i c. induction ids as [|id0 ids IH]; intros i c Hwf Hnd.
  { exists (dc_entries c). split_and!; [by destruct c|done|]. naive_solver. }
  apply NoDup_cons in Hnd as [Hnin Hnd].
  destruct (remove_obsolete_loop_cons clock i id0 ids c Hwf)
    as (m0 & Hsub0 & Hother & -> & Hval).
  destruct (IH (S i) (set_entries m0 c)) as (m & Hm & Hsub & Hspec);
    [by apply set_entries_wf|done|]. simpl in *.
  exists m. split_and!; [by rewrite Hm|by etrans|].
  intros id l row Hl Hr. destruct (decide (id = id0)) as [->|Hne].
  - specialize (Hval l row Hl Hr). split.
    + intros Hml [|k] Hk; simpl in Hk.
      * rewrite Nat.add_0_r. destruct (data_read_valid (clock i) row) eqn:Hv; [done|].
        apply (lookup_weaken m _ _ _ Hml) in Hsub. congruence.
      * exfalso. apply Hnin. by eapply list_elem_of_lookup_2.
    + intros Hall. specialize (Hall 0%nat eq_refl) as Hv. rewrite Nat.add_0_r in Hv.
      rewrite Hv in Hval. apply (Hspec id0 l row Hval Hr).
      intros k Hk. exfalso. apply Hnin. by eapply list_elem_of_lookup_2.
  - assert (m0 !! id = Some l) as Hm0l by (by rewrite Hother).
    rewrite (Hspec id l row Hm0l Hr). split.
    + intros Hall [|k] Hk; simpl in Hk; [congruence|].
      rewrite Nat.add_succ_r. by apply Hall.
    + intros Hall k Hk. rewrite <-Nat.add_succ_r. by apply Hall.
Qed.

Lemma remove_obsolete_spec clock c :
  cache_wf c →
  ∃ m, remove_obsolete clock c = Done tt (set_entries m c) [] ∧
    m ⊆ dc_entries c ∧
    ∀ id l row, dc_entries c !! id = Some l → dc_rows c !! l = Some row →
      (m !! id = Some l ↔
       ∀ k, ids_in_order (dc_entries c) !! k = Some id →
            data_read_valid (clock k) row = true).
Proof.
  intros Hwf. destruct (ids_in_order_spec (dc_entries c)) as (Hnd & _ & _).
  destruct (remove_obsolete_loop_spec clock _ 0 c Hwf Hnd) as (m & Hm & ? & ?).
  exists m. split_and!; try done. unfold remove_obsolete. run_act. by rewrite Hm.
Qed.

(** One turn of [clear]: the row is marked swapped and leaves the table. *)
Definition clear_entry (id : Z) (l : loc) c : data_cache B :=
  set_entries (delete id (dc_entries c)) (update_row (set_state ds_swapped) l c).

Lemma clear_entry_wf id l c : cache_wf c → cache_wf (clear_entry id l c).
Proof. intros. apply set_entries_wf; [apply delete_subseteq|by apply update_row_wf]. Qed.

Lemma cache_clear_loop_cons id l ids c :
  cache_wf c → dc_entries c !! id = Some l →
  cache_clear_loop (id :: ids) c =
    match cache_clear_loop ids (clear_entry id l c) with
    | Done _ c' es => Done tt c' (notify_row l :: es)
    | Thrown w c' es => Thrown w c' (notify_row l :: es)
    | Undefined => Undefined
    end.
Proof.
  intros Hwf E. destruct (wf_row_lookup c id l Hwf E) as (row & Hr).
  simpl. run_act. rewrite E, (deref_row_Done c l row) by done. simpl.
  unfold clear_entry. simpl. by destruct (cache_clear_loop ids _) as [[]| |].
Qed.

Lemma cache_clear_loop_spec ids c :
  cache_wf c → NoDup ids → (∀ id, id ∈ ids → is_Some (dc_entries c !! id)) →
  ∃ c' es, cache_clear_loop ids c = Done tt c' es ∧ cache_wf c' ∧
    dc_max_entries c' = dc_max_entries c ∧ dc_id_counter c' = dc_id_counter c ∧
    length (dc_rows c') = length (dc_rows c) ∧
    (∀ id, dc_entries c' !! id = if decide (id ∈ ids) then None else dc_entries c !! id) ∧
    (∀ l row, dc_rows c !! l = Some row → ∃ row', dc_rows c' !! l = Some row' ∧
       read_buffer row' = read_buffer row ∧ (state row = ds_swapped → state row' = ds_swapped) ∧
       ∀ id, id ∈ ids → dc_entries c !! id = Some l →
             state row' = ds_swapped ∧ notify_row l ∈ es).
Proof.
  revert c. induction ids as [|id0 ids IH]; intros c Hwf Hnd Hin.
  { exists c, []. split_and!; try done; [].
    intros l row Hr. exists row. split_and!; try done. intros id Hid. by apply not_elem_of_nil in Hid. }
  apply NoDup_cons in Hnd as [Hnin Hnd].
  destruct (Hin id0) as [l0 El0]; [left|].
  rewrite (cache_clear_loop_cons id0 l0) by done.
  destruct (IH (clear_entry id0 l0 c)) as (c' & es & Hc' & Hwf' & Hmax & Hcnt & Hlen & Hent & Hrow);
    [by apply clear_entry_wf|done| |].
  { intros id Hid. simpl. rewrite lookup_delete_ne by (by intros ->). apply Hin. by right. }
  rewrite Hc'. exists c', (notify_row l0 :: es). simpl in *. rewrite length_alter in Hlen.
  split_and!; try done.
  - intros id. rewrite Hent. rewrite lookup_delete.
    repeat case_decide; set_solver.
  - intros l row Hr.
    destruct (Hrow l (if decide (l = l0) then set_state ds_swapped row else row))
      as (row' & Hr' & Hb & Hsw & Hids).
    { rewrite list_lookup_alter. case_decide; case_decide; simplify_eq; by rewrite Hr. }
    exists row'. split_and!; [done|by case_decide| |].
    + intros Hs. apply Hsw. by case_decide.
    + intros id [->|Hid]%elem_of_cons El.
      * simplify_eq. split; [|by left]. apply Hsw. by rewrite decide_True.
      * destruct (Hids id Hid) as [? ?]; [|by split; [|right]].
        by rewrite lookup_delete_ne by (by intros ->).
Qed.

(** [clear] empties the table, marks every row that was in it and notifies
    its waiters. *)
Lemma cache_clear_spec c :
  cache_wf c →
  ∃ c' es, cache_clear c = Done tt c' es ∧ cache_wf c' ∧
    dc_max_entries c' = dc_max_entries c ∧ dc_id_counter c' = dc_id_counter c ∧
    length (dc_rows c') = length (dc_rows c) ∧ dc_entries c' = ∅ ∧
    ∀ l row, dc_rows c !! l = Some row → ∃ row', dc_rows c' !! l = Some row' ∧
      read_buffer row' = read_buffer row ∧ (state row = ds_swapped → state row' = ds_swapped) ∧
      ∀ id, dc_entries c !! id = Some l → state row' = ds_swapped ∧ notify_row l ∈ es.
Proof.
  intros Hwf. destruct (ids_in_order_spec (dc_entries c)) as (Hnd & _ & Hin).
  destruct (cache_clear_loop_spec _ c Hwf Hnd (λ id, proj1 (Hin id)))
    as (c' & es & Hc & ? & ? & ? & ? & Hent & Hrow).
  exists c', es. split_and!; try done.
  - unfold cache_clear. run_act. by rewrite Hc.
  - apply map_eq. intros id. rewrite Hent, lookup_empty. case_decide as Hd; [done|].
    destruct (dc_entries c !! id) eqn:E; [|done]. exfalso. apply Hd, Hin. eauto.
  - intros l row Hr. destruct (Hrow l row Hr) as (row' & ? & ? & ? & Hids).
    exists row'. split_and!; try done. intros id El. apply (Hids id); [|done].
    apply Hin. eauto.
Qed.
End facts.
