(* ===== verification/CacheLoops.v ===== *)
(** * CacheLoops: the loops of [data_cache] against what they compute

    [remove_obsolete] and [clear] walk the map while erasing from it.  Here
    they are shown equal to definitions without a loop: a filter of the table,
    and a change of every row that is in it. *)

From S2P Require Import Prelude Types DataCache DataCacheFacts.

Section loops.
Context {B : Type} `{FlatBuffer B}.
Implicit Types (c : data_cache B) (row : data_read B) (m : gmap Z loc).

(** ** The reference definitions *)

(** The place of an id in the order of the map. *)
Fixpoint position (id : Z) (ids : list Z) : nat :=
  match ids with
  | [] => 0
  | id' :: ids' => if decide (id' = id) then 0 else S (position id ids')
  end.

(** Whether the row of an entry is still valid when it is looked at: the loop
    reads the clock once for each entry, in the order of the ids. *)
Definition entry_valid (clock : nat → time_point) c (p : Z * loc) : bool :=
  match dc_rows c !! snd p with
  | Some row => data_read_valid (clock (position (fst p) (ids_in_order (dc_entries c)))) row
  | None => false
  end.

Definition keep_valid (clock : nat → time_point) c : data_cache B :=
  set_entries (filter (λ p, entry_valid clock c p = true) (dc_entries c)) c.

(** Whether a row is the row of one of [ids]. *)
Definition row_listed m (ids : list Z) (l : loc) : bool :=
  existsb (λ id, bool_decide (m !! id = Some l)) ids.

Definition wake_row m (ids : list Z) (l : loc) row : data_read B :=
  if row_listed m ids l then set_state ds_swapped row else row.

(** Every row of the table is marked and the table is empty. *)
Definition wake_all c : data_cache B :=
  mk_data_cache (dc_max_entries c) (dc_id_counter c) ∅
    (imap (wake_row (dc_entries c) (ids_in_order (dc_entries c))) (dc_rows c)).

(** One notification for each row, in the order of the ids. *)
Definition wake_notifications m (ids : list Z) : list cache_effect :=
  notify_row <$> omap (λ id, m !! id) ids.

(** ** [remove_obsolete] *)

Lemma position_lookup id ids k : NoDup ids → ids !! k = Some id → position id ids = k.
Proof.
  intros Hnd. revert k. induction Hnd as [|id' ids Hnin _ IH]; intros [|k]; simpl; try done.
  - intros [= ->]. by rewrite decide_True.
  - intros Hk. rewrite decide_False; [by rewrite (IH k)|].
    intros ->. by apply Hnin, (list_elem_of_lookup_2 _ k).
Qed.

Lemma remove_obsolete_filter clock c :
  cache_wf c → remove_obsolete clock c = Done tt (keep_valid clock c) [].
Proof.
  intros Hwf. destruct (remove_obsolete_spec clock c Hwf) as (m & -> & Hsub & Hspec).
  destruct (ids_in_order_spec (dc_entries c)) as (Hnd & _ & Hin).
  unfold keep_valid. do 2 f_equal. apply map_eq. intros id. apply option_eq. intros l.
  rewrite map_lookup_filter_Some.
  assert (∀ l', dc_entries c !! id = Some l' →
    ∃ k, ids_in_order (dc_entries c) !! k = Some id) as Hk
    by (intros; apply list_elem_of_lookup_1, Hin; eauto).
  split.
  - intros Hl. pose proof (lookup_weaken _ _ _ _ Hl Hsub) as Hl'. split; [done|].
    destruct (wf_row_lookup _ _ _ Hwf Hl') as [row Hr]. unfold entry_valid. simpl. rewrite Hr.
    destruct (Hk l Hl') as [k Hidk]. rewrite (position_lookup _ _ k) by done.
    by apply (proj1 (Hspec _ _ _ Hl' Hr) Hl k).
  - intros [Hl Hv]. destruct (wf_row_lookup _ _ _ Hwf Hl) as [row Hr].
    unfold entry_valid in Hv. simpl in Hv. rewrite Hr in Hv. apply (Hspec _ _ _ Hl Hr).
    intros k Hidk. by rewrite (position_lookup _ _ k) in Hv.
Qed.

(** ** [clear] *)

Lemma row_listed_true m ids l : row_listed m ids l = true ↔ ∃ id, id ∈ ids ∧ m !! id = Some l.
Proof.
  unfold row_listed. rewrite existsb_exists. split; intros (id & Hin & Hl); exists id.
  - apply bool_decide_eq_true in Hl. by rewrite list_elem_of_In.
  - rewrite <-list_elem_of_In. by rewrite bool_decide_eq_true_2.
Qed.

Lemma set_state_twice st st' row : set_state st (set_state st' row) = set_state st row.
Proof. done. Qed.

Lemma wake_notifications_ext m m' ids :
  (∀ id, id ∈ ids → m !! id = m' !! id) → wake_notifications m ids = wake_notifications m' ids.
Proof.
  intros Hm. unfold wake_notifications. f_equal. induction ids as [|id ids IH]; [done|]. simpl.
  rewrite Hm by left. assert (∀ id', id' ∈ ids → m !! id' = m' !! id') as Hm'
    by (intros; apply Hm; by right).
  destruct (m' !! id); [f_equal|]; apply (IH Hm').
Qed.

Lemma cache_clear_loop_wakes ids c :
  cache_wf c → NoDup ids → (∀ id, id ∈ ids → is_Some (dc_entries c !! id)) →
  ∃ c', cache_clear_loop ids c = Done tt c' (wake_notifications (dc_entries c) ids) ∧
    dc_rows c' = imap (wake_row (dc_entries c) ids) (dc_rows c).
Proof.
  revert c. induction ids as [|id0 ids IH]; intros c Hwf Hnd Hin.
  { exists c. split; [done|]. symmetry. apply list_eq. intros l. rewrite list_lookup_imap.
    by destruct (dc_rows c !! l). }
  apply NoDup_cons in Hnd as [Hnin Hnd]. destruct (Hin id0) as [l0 El0]; [left|].
  assert (∀ id, id ∈ ids → delete id0 (dc_entries c) !! id = dc_entries c !! id) as Hdel.
  { intros id Hid. apply lookup_delete_ne. by intros ->. }
  rewrite (cache_clear_loop_cons id0 l0) by done.
  destruct (IH (clear_entry id0 l0 c)) as (c' & E & Hrows); [by apply clear_entry_wf|done| |].
  { intros id Hid. simpl. rewrite Hdel by done. apply Hin. by right. }
  rewrite E. exists c'. split.
  - change (dc_entries (clear_entry id0 l0 c)) with (delete id0 (dc_entries c)).
    rewrite (wake_notifications_ext _ (dc_entries c)) by done.
    unfold wake_notifications. simpl. by rewrite El0.
  - rewrite Hrows. apply list_eq. intros l. rewrite !list_lookup_imap. simpl.
    rewrite list_lookup_alter.
    assert (row_listed (delete id0 (dc_entries c)) ids l = row_listed (dc_entries c) ids l) as Hsame.
    { apply eq_true_iff_eq. rewrite !row_listed_true. split; intros (id & Hid & Hl); exists id;
        split; try done; [by rewrite <-Hdel|by rewrite Hdel]. }
    unfold wake_row. rewrite Hsame.
    change (row_listed (dc_entries c) (id0 :: ids) l)
      with (bool_decide (dc_entries c !! id0 = Some l) || row_listed (dc_entries c) ids l).
    rewrite El0. case_decide as Hd; [subst l0|].
    + rewrite bool_decide_eq_true_2 by done. simpl.
      destruct (row_listed (dc_entries c) ids l), (dc_rows c !! l); done.
    + rewrite bool_decide_eq_false_2 by (by intros [= ?]). done.
Qed.

Lemma cache_clear_wake_all c :
  cache_wf c →
  cache_clear c = Done tt (wake_all c)
    (wake_notifications (dc_entries c) (ids_in_order (dc_entries c))).
Proof.
  intros Hwf. destruct (ids_in_order_spec (dc_entries c)) as (Hnd & _ & Hin).
  destruct (cache_clear_loop_wakes _ c Hwf Hnd (λ id, proj1 (Hin id))) as (c1 & E & Hrows).
  destruct (cache_clear_spec c Hwf) as (c' & es & E' & _ & H1 & H2 & _ & H3 & _).
  unfold cache_clear in *. unfold act_bind, act_get in *. rewrite E in E' |- *. simpl in *.
  injection E' as -> <-. unfold wake_all. rewrite <-H1, <-H2, <-H3, <-Hrows. by destruct c'.
Qed.

(** ** Properties *)

(** C36. The two loops of the cache compute what they are for.  Whatever the
    clock shows while it runs, [remove_obsolete] is the filter of the table by
    the validity of each row at the moment it is looked at, whether or not a
    thread waits for the row, no row being changed and nobody notified;
    [clear] is the empty table with every row that was in it marked as swapped,
    each notified once, in the order of the ids. *)
Theorem cache_loops_reference clock c :
  cache_wf c →
  remove_obsolete clock c = Done tt (keep_valid clock c) [] ∧
  cache_clear c = Done tt (wake_all c)
    (wake_notifications (dc_entries c) (ids_in_order (dc_entries c))).
Proof. split; [by apply remove_obsolete_filter|by apply cache_clear_wake_all]. Qed.
End loops.

Module LoopsDemo.
Definition row (t : time_point) : data_read (list byte) := mk_data_read t 1 ds_waiting [].
(** The clock moves by 5 ms between the two entries: both are still valid at
    its first reading, and the second one no longer at the next. *)
Definition clock (i : nat) : time_point := 5000000 * Z.of_nat i.
Definition two : data_cache (list byte) :=
  mk_data_cache 4 2 {[1 := 0%nat; 2 := 1%nat]} [row 0; row 0].
End LoopsDemo.

Lemma cache_loops_reference_witness :
  let c := LoopsDemo.two in
  remove_obsolete LoopsDemo.clock c = Done tt (set_entries {[1 := 0%nat]} c) [] ∧
  cache_clear c = Done tt (mk_data_cache 4 2 ∅ (set_state ds_swapped <$> dc_rows c))
    [notify_row 0; notify_row 1].
Proof.
  apply (cache_loops_reference LoopsDemo.clock LoopsDemo.two).
  split; simpl.
  - vm_compute. lia.
  - vm_compute. split; congruence.
  - intros id l [[<- _]|[_ [<- _]%lookup_singleton_Some]]%lookup_insert_Some; lia.
  - intros id l [[_ <-]|[_ [_ <-]%lookup_singleton_Some]]%lookup_insert_Some; lia.
  - intros id id' l [[<- <-]|[_ [<- <-]%lookup_singleton_Some]]%lookup_insert_Some
      [[<- E]|[_ [<- E]%lookup_singleton_Some]]%lookup_insert_Some; congruence.
Defined.
