(* ===== verification/CacheSystem.v ===== *)
(** * CacheSystem: threads sharing a [data_cache]

    The executable [cache_handle] is refined by a step relation with one rule
    per outcome of an operation; the invariants of the shared table are proved
    by induction on its runs. *)

From S2P Require Import Prelude Types DataCache DataCacheFacts.

Section system.
Context {B : Type} `{FlatBuffer B, !FlatBufferLaws B}.
Implicit Types (s : cache_system B) (c : data_cache B) (row : data_read B).

Definition with_cache c s : cache_system B :=
  mk_cache_system c (cs_waiters s) (cs_returns s) (cs_owner s).
Definition with_return (id : Z) (ok : bool) (bs : list byte) s : cache_system B :=
  mk_cache_system (cs_cache s) (cs_waiters s) (cs_returns s ++ [(id, ok, bs)]) (cs_owner s).
Definition with_waiters ws s : cache_system B :=
  mk_cache_system (cs_cache s) ws (cs_returns s) (cs_owner s).

Abbreviation entries s := (dc_entries (cs_cache s)).
Abbreviation rows s := (dc_rows (cs_cache s)).

(** The row [l] as its waiter leaves it: the buffer is now the caller's. *)
Definition taken (l : loc) (buffer : B) c : data_cache B := update_row (set_read_buffer buffer) l c.

Inductive cache_rel s : cache_event B → cache_system B → Prop :=
  | rel_queue_full now valid :
      (dc_max_entries (cs_cache s) ≤ size (entries s))%nat →
      cache_rel s (ev_queue now valid) s
  | rel_queue now valid id :
      (size (entries s) < dc_max_entries (cs_cache s))%nat →
      id = dc_id_counter (cs_cache s) + 1 →
      cache_rel s (ev_queue now valid)
        (mk_cache_system
           (mk_data_cache (dc_max_entries (cs_cache s)) id (<[id := length (rows s)]> (entries s))
              (rows s ++ [new_data_read now valid]))
           (cs_waiters s) (cs_returns s) (cs_owner s ++ [id]))
  | rel_wait_absent t id buffer :
      entries s !! id = None →
      cache_rel s (ev_wait t id buffer) (with_return id false (fb_data buffer) s)
  | rel_wait_ready t id l row buffer :
      entries s !! id = Some l → rows s !! l = Some row → state row = ds_swapped →
      cache_rel s (ev_wait t id buffer)
        (with_waiters (<[t := ct_taking id l true buffer]> (cs_waiters s))
           (with_cache (set_entries (delete id (entries s)) (cs_cache s)) s))
  | rel_wait_blocked t id l row buffer :
      entries s !! id = Some l → rows s !! l = Some row → state row ≠ ds_swapped →
      cache_rel s (ev_wait t id buffer)
        (with_waiters (<[t := ct_blocked id l buffer]> (cs_waiters s))
           (with_cache (update_row (set_state ds_waiting) l (cs_cache s)) s))
  | rel_resume t id l buffer row :
      cs_waiters s !! t = Some (ct_blocked id l buffer) → rows s !! l = Some row →
      cache_rel s (ev_resume t)
        (with_waiters
           (<[t := ct_taking id l (bool_decide (state row = ds_swapped)) buffer]> (cs_waiters s)) s)
  | rel_take t id l ok buffer row :
      cs_waiters s !! t = Some (ct_taking id l ok buffer) → rows s !! l = Some row →
      cache_rel s (ev_take t)
        (with_return id ok (fb_data (read_buffer row))
           (with_waiters (delete t (cs_waiters s)) (with_cache (taken l buffer (cs_cache s)) s)))
  | rel_swap_absent id buffer :
      entries s !! id = None → cache_rel s (ev_swap id buffer) s
  | rel_swap id buffer l row c :
      entries s !! id = Some l → rows s !! l = Some row →
      c = update_row (λ r, set_state ds_swapped (set_read_buffer buffer r)) l (cs_cache s) →
      cache_rel s (ev_swap id buffer)
        (with_cache (if decide (state row = ds_waiting)
                     then set_entries (delete id (dc_entries c)) c else c) s)
  | rel_obsolete clock m :
      m ⊆ entries s →
      (∀ id l row, entries s !! id = Some l → rows s !! l = Some row →
         (m !! id = Some l ↔ ∀ k, ids_in_order (entries s) !! k = Some id →
                                  data_read_valid (clock k) row = true)) →
      cache_rel s (ev_obsolete clock) (with_cache (set_entries m (cs_cache s)) s)
  | rel_clear c :
      cache_wf c → dc_max_entries c = dc_max_entries (cs_cache s) →
      length (dc_rows c) = length (rows s) → dc_entries c = ∅ →
      (∀ l row, rows s !! l = Some row → ∃ row', dc_rows c !! l = Some row' ∧
         read_buffer row' = read_buffer row ∧ (state row = ds_swapped → state row' = ds_swapped) ∧
         ∀ id, entries s !! id = Some l → state row' = ds_swapped) →
      cache_rel s ev_clear (with_cache c s).

(** ** The invariant *)

Record cache_sys_wf s : Prop := {
  sys_cache : cache_wf (cs_cache s);
  sys_owner_length : length (cs_owner s) = length (rows s);
  sys_owner_entry id l : entries s !! id = Some l → cs_owner s !! l = Some id;
  sys_owner_waiter t x : cs_waiters s !! t = Some x → cs_owner s !! ct_row x = Some (ct_id x) }.

Lemma cache_system_init_wf max : cache_sys_wf (cache_system_init max).
Proof. split; [apply new_data_cache_wf|done|done|done]. Qed.

Lemma waiter_row s t x :
  cache_sys_wf s → cs_waiters s !! t = Some x → ∃ row, rows s !! ct_row x = Some row.
Proof.
  intros Hwf Hw. apply lookup_lt_is_Some. rewrite <-(sys_owner_length s Hwf).
  eapply lookup_lt_Some, sys_owner_waiter; eauto.
Qed.

(** The handlers implement the relation; none of them goes wrong. *)
Lemma cache_handle_rel s e :
  cache_sys_wf s → cache_enabled s e = true →
  ∃ s', cache_handle s e = Some s' ∧ cache_rel s e s'.
Proof.
  intros Hwf He. pose proof (sys_cache s Hwf) as Hc.
  destruct e as [now valid|t id buffer|t|t|id buffer|clock|]; simpl in *; prop_bools.
  - destruct (decide (dc_max_entries (cs_cache s) ≤ size (entries s))%nat) as [Hf|Hf].
    + rewrite cache_queue_full by done. exists s. split; [by destruct s|by constructor].
    + rewrite cache_queue_room by (done || lia).
      pose proof (wf_counter _ Hc) as [? ?]. rewrite decide_False by lia.
      eexists. split; [done|]. constructor; [lia|done].
  - destruct (entries s !! id) as [l|] eqn:El.
    + destruct (wf_row_lookup _ _ _ Hc El) as (row & Hr).
      destruct (decide (state row = ds_swapped)) as [Hs|Hs].
      * rewrite (cache_wait_begin_swapped _ _ l row) by done.
        eexists. split; [done|]. by econstructor.
      * rewrite (cache_wait_begin_blocked _ _ l row) by done.
        eexists. split; [done|]. by econstructor.
    + rewrite cache_wait_begin_None by done. eexists. split; [by destruct s|by constructor].
  - destruct (cs_waiters s !! t) as [[id l buffer|]|] eqn:Hw; try done.
    destruct (waiter_row s t _ Hwf Hw) as (row & Hr).
    rewrite (cache_wait_done_Some _ _ row) by done.
    eexists. split; [by destruct s|]. by econstructor.
  - destruct (cs_waiters s !! t) as [[|id l ok buffer]|] eqn:Hw; try done.
    destruct (waiter_row s t _ Hwf Hw) as (row & Hr).
    rewrite (cache_take_buffer_Some _ _ row) by done.
    eexists. split; [done|]. by econstructor.
  - destruct (entries s !! id) as [l|] eqn:El.
    + destruct (wf_row_lookup _ _ _ Hc El) as (row & Hr).
      rewrite (swap_notify_Some _ _ l row) by done. simpl.
      eexists (with_cache _ s). split; [|by econstructor]. by case_decide.
    + rewrite swap_notify_None by done. exists s. split; [by destruct s|by constructor].
  - destruct (remove_obsolete_spec clock _ Hc) as (m & -> & ? & ?).
    eexists. split; [done|]. by constructor.
  - destruct (cache_clear_spec _ Hc) as (c' & es & -> & ? & ? & ? & ? & ? & Hrow).
    eexists. split; [done|]. constructor; [done..|].
    intros l row Hr. destruct (Hrow l row Hr) as (row' & ? & ? & ? & Hid).
    exists row'. split_and!; try done. intros. by eapply Hid.
Qed.

Lemma taken_wf l b c : cache_wf c → cache_wf (taken l b c).
Proof. apply update_row_wf. Qed.

Lemma cache_rel_wf s e s' :
  cache_sys_wf s → cache_enabled s e = true → cache_rel s e s' → cache_sys_wf s'.
Proof.
  intros [Hc Hlen Hoe How] He Hrel.
  destruct Hrel as [|now valid id Hs ->|t id b El|t id l row b El Hr Hs|t id l row b El Hr Hs
    |t id l b row Hw Hr|t id l ok b row Hw Hr| |id buffer l row c El Hr ->|clock m Hm Hspec|c Hc' Hmax Hl' Hent Hrow];
    simpl in *; prop_bools.
  - done.
  - split; simpl.
    + pose proof (cache_queue_room now valid (cs_cache s) Hs He Hc) as Hq.
      by eapply cache_queue_wf.
    + by rewrite !length_app, Hlen.
    + intros id l [[<- <-]|[? Hl]]%lookup_insert_Some.
      * by rewrite <-Hlen, list_lookup_middle.
      * by apply lookup_app_l_Some, Hoe.
    + intros t x Hw. by eapply lookup_app_l_Some, How.
  - split; eauto.
  - split; simpl; eauto using delete_entry_wf.
    + intros id' l' [_ Hl]%lookup_delete_Some. eauto.
    + intros t' x [[<- <-]|[_ ?]]%lookup_insert_Some; simpl; eauto.
  - split; simpl; rewrite ?length_alter; eauto using update_row_wf.
    intros t' x [[<- <-]|[_ ?]]%lookup_insert_Some; simpl; eauto.
  - split; simpl; eauto. intros t' x [[<- <-]|[_ ?]]%lookup_insert_Some; [|by eauto].
    apply (How _ _ Hw).
  - split; simpl; rewrite ?length_alter; eauto using taken_wf.
    intros t' x [_ ?]%lookup_delete_Some. eauto.
  - done.
  - case_decide; split; simpl; rewrite ?length_alter; eauto using update_row_wf.
    + apply set_entries_wf; [apply delete_subseteq|by apply update_row_wf].
    + intros id' l' [_ ?]%lookup_delete_Some. eauto.
  - split; simpl; eauto using set_entries_wf.
    intros id l Hl. eapply Hoe, lookup_weaken; eauto.
  - split; simpl; rewrite ?Hl', ?Hent; eauto. done.
Qed.

Lemma cache_step_wf s e :
  cache_sys_wf s → cache_enabled s e = true →
  ∃ s', cache_handle s e = Some s' ∧ cache_sys_wf s'.
Proof.
  intros Hwf He. destruct (cache_handle_rel s e Hwf He) as (s' & Hh & Hrel).
  exists s'. split; [done|by eapply cache_rel_wf].
Qed.

(** Every run from the empty table follows the relation and stays well
    formed. *)
Lemma cache_steps_wf max es s :
  cache_steps (cache_system_init max) es s →
  cache_sys_wf s ∧ safe cache_enabled cache_handle s.
Proof.
  intros Hs. eapply (steps_safe _ _ cache_sys_wf); [apply cache_step_wf| |done].
  apply cache_system_init_wf.
Qed.

Lemma cache_step_rel s e s' :
  cache_sys_wf s → step cache_enabled cache_handle s e s' →
  cache_rel s e s' ∧ cache_sys_wf s'.
Proof.
  intros Hwf [He Hh]. destruct (cache_handle_rel s e Hwf He) as (s'' & Hh' & Hrel).
  rewrite Hh in Hh'. injection Hh' as <-. split; [done|by eapply cache_rel_wf].
Qed.

(** Induction on a run with the step relation and the invariant at hand. *)
Lemma cache_steps_ind (max : nat) (P : list (cache_event B) → cache_system B → Prop) :
  P [] (cache_system_init max) →
  (∀ es s e s', cache_steps (cache_system_init max) es s → cache_sys_wf s →
     cache_enabled s e = true → cache_rel s e s' → P es s → P (es ++ [e]) s') →
  ∀ es s, cache_steps (cache_system_init max) es s → P es s.
Proof.
  intros H0 Hstep es s Hs. remember (cache_system_init max) as s0 eqn:E.
  induction Hs as [s|s es s' e s'' Hs IH Hst]; subst; [done|].
  destruct (cache_steps_wf max es s' Hs) as [Hwf _].
  destruct (cache_step_rel s' e s'' Hwf Hst) as [Hrel _].
  destruct Hst. eapply Hstep; eauto.
Qed.
End system.

(** ** Properties *)

Section properties.
Context {B : Type} `{FlatBuffer B, !FlatBufferLaws B}.
Implicit Types (s : cache_system B) (c : data_cache B) (row : data_read B).

Lemma cache_rel_max s e s' :
  cache_rel s e s' → dc_max_entries (cs_cache s') = dc_max_entries (cs_cache s).
Proof. destruct 1; subst; try done. by case_decide. Qed.

Lemma cache_steps_max max es s :
  cache_steps (cache_system_init max) es s → dc_max_entries (cs_cache s) = max.
Proof.
  revert es s. apply (cache_steps_ind max (λ _ s, dc_max_entries (cs_cache s) = max)); [done|].
  intros es s e s' _ _ _ Hrel <-. by apply cache_rel_max in Hrel.
Qed.

(** C35. The table under any interleaving of threads: no operation dereferences
    a dangling row, the table never exceeds [m_max_entries], ids are between 1
    and the counter (so never the 0 that [queue] returns for "full" and that
    [send] puts on the wire), and two ids never share a row. *)
Theorem cache_invariant max es s :
  cache_steps (B := B) (cache_system_init max) es s →
  safe cache_enabled cache_handle s ∧
  (size (dc_entries (cs_cache s)) ≤ max)%nat ∧
  dc_entries (cs_cache s) !! 0 = None ∧
  (∀ id l, dc_entries (cs_cache s) !! id = Some l → 1 ≤ id ≤ dc_id_counter (cs_cache s)) ∧
  (∀ id id' l, dc_entries (cs_cache s) !! id = Some l →
               dc_entries (cs_cache s) !! id' = Some l → id = id').
Proof.
  intros Hs. destruct (cache_steps_wf max es s Hs) as [Hwf Hsafe].
  pose proof (sys_cache s Hwf) as [Hsize _ Hid _ Hinj].
  rewrite (cache_steps_max max es s Hs) in Hsize. split_and!; eauto.
  destruct (_ !! 0) eqn:E; [|done]. apply Hid in E. lia.
Qed.

(** [queue] answers 0, changing nothing, exactly when the table is full;
    otherwise it answers a new nonzero id, under which a [wait] now blocks and
    every other id is as before. *)
Theorem cache_queue_spec now valid max es s id c' efs :
  cache_steps (B := B) (cache_system_init max) es s →
  dc_id_counter (cs_cache s) + 1 < 2 ^ 64 →
  cache_queue now valid (cs_cache s) = Done id c' efs →
  (id = 0 ↔ size (dc_entries (cs_cache s)) = max) ∧
  (id = 0 → c' = cs_cache s) ∧
  (id ≠ 0 → dc_entries (cs_cache s) !! id = None ∧
     (∃ l row, dc_entries c' !! id = Some l ∧ dc_rows c' !! l = Some row ∧
        state row = ds_queued ∧ fb_data (read_buffer row) = []) ∧
     ∀ id', id' ≠ id → dc_entries c' !! id' = dc_entries (cs_cache s) !! id').
Proof.
  intros Hs Hcnt Hq. destruct (cache_steps_wf max es s Hs) as [Hwf _].
  pose proof (sys_cache s Hwf) as Hc. pose proof (wf_size _ Hc) as Hsize.
  pose proof (wf_counter _ Hc) as [? ?].
  rewrite (cache_steps_max max es s Hs) in Hsize.
  destruct (decide (max ≤ size (dc_entries (cs_cache s)))%nat) as [Hf|Hf].
  - rewrite cache_queue_full in Hq by (by rewrite (cache_steps_max max es s Hs)).
    injection Hq as <- <- _. split_and!; [split; [lia|done]|done|done].
  - rewrite cache_queue_room in Hq by (done || rewrite (cache_steps_max max es s Hs); lia).
    injection Hq as <- <- _. split_and!; [split; lia|lia|]. intros _. split_and!; simpl.
    + destruct (_ !! _) eqn:E; [|done]. by apply fresh_id in E.
    + eexists _, _. rewrite lookup_insert_eq, list_lookup_middle by done.
      split_and!; try done. simpl. apply fb_data_empty.
    + intros id' Hne. by rewrite lookup_insert_ne.
Qed.

(** C34. Delivery in either order: for a queued id, the response may arrive
    before the caller waits or while it is blocked.  Both orders return true,
    hand the caller exactly the received buffer, notify the blocked waiter,
    remove the id and end in the same table. *)
Theorem cache_delivery c id l row buffer :
  dc_entries c !! id = Some l → dc_rows c !! l = Some row → state row = ds_queued →
  ∃ c_final,
    (* the response first *)
    (∃ c1, swap_notify id buffer c = Done fb_empty c1 [] ∧
       ∃ c2, cache_wait_begin id c1 = Done (wait_ready l) c2 [] ∧
             cache_take_buffer l fb_empty c2 = Done buffer c_final []) ∧
    (* the waiter first *)
    (∃ c1, cache_wait_begin id c = Done (wait_blocked l) c1 [] ∧
       ∃ c2, swap_notify id buffer c1 = Done fb_empty c2 [notify_row l] ∧
             cache_wait_done l c2 = Done true c2 [] ∧
             cache_take_buffer l fb_empty c2 = Done buffer c_final []) ∧
    dc_entries c_final !! id = None ∧
    ∀ id', id' ≠ id → dc_entries c_final !! id' = dc_entries c !! id'.
Proof.
  intros El Hr Hq.
  eexists. split; [|split].
  - eexists. split. { erewrite swap_notify_Some by done. simpl. by rewrite Hq. }
    eexists. split.
    + apply (cache_wait_begin_swapped _ _ _ (set_state ds_swapped (set_read_buffer buffer row)));
        [done| |done]. simpl. by rewrite list_lookup_alter, decide_True, Hr.
    + apply (cache_take_buffer_Some _ _ (set_state ds_swapped (set_read_buffer buffer row))).
      simpl. by rewrite list_lookup_alter, decide_True, Hr.
  - eexists. split. { apply (cache_wait_begin_blocked _ _ _ row); [done..|]. by rewrite Hq. }
    eexists. split; [|split].
    + rewrite (swap_notify_Some _ _ l (set_state ds_waiting row)); [done|done|].
      simpl. by rewrite list_lookup_alter, decide_True, Hr.
    + rewrite (cache_wait_done_Some _ _ (set_state ds_swapped
        (set_read_buffer buffer (set_state ds_waiting row)))); [done|].
      simpl. by rewrite !list_lookup_alter, !decide_True, Hr.
    + erewrite cache_take_buffer_Some by (simpl; by rewrite !list_lookup_alter, !decide_True, Hr).
      f_equal. unfold update_row, set_entries. simpl. f_equal.
      apply list_eq. intros k. rewrite !list_lookup_alter.
      rewrite !(decide_True (P := l = l)) by done.
      destruct (decide (l = k)) as [->|]; [by rewrite Hr|done].
  - simpl. split; [apply lookup_delete_eq|]. intros. by rewrite lookup_delete_ne.
Qed.

(** ** Where delivered bytes come from *)

(** Bytes that were received for [id], or that a caller of [wait] on [id] had in
    its own buffer. *)
Definition cache_source (es : list (cache_event B)) (id : Z) (bs : list byte) : Prop :=
  ∃ buffer, fb_data buffer = bs ∧
    (ev_swap id buffer ∈ es ∨ ∃ t, ev_wait t id buffer ∈ es).

Lemma cache_source_snoc es e id bs : cache_source es id bs → cache_source (es ++ [e]) id bs.
Proof.
  intros (b & Hb & Hin). exists b. split; [done|].
  destruct Hin as [?|[t ?]]; [left|right; exists t]; apply elem_of_app; by left.
Qed.

Record provenance (es : list (cache_event B)) s : Prop := {
  prov_row l row id :
    dc_rows (cs_cache s) !! l = Some row → cs_owner s !! l = Some id →
    fb_data (read_buffer row) = [] ∨ cache_source es id (fb_data (read_buffer row));
  prov_thread t x :
    cs_waiters s !! t = Some x → cache_source es (ct_id x) (fb_data (ct_buffer x));
  prov_return id ok bs : (id, ok, bs) ∈ cs_returns s → bs = [] ∨ cache_source es id bs }.

Lemma provenance_snoc es e s : provenance es s → provenance (es ++ [e]) s.
Proof.
  intros [Hrow Hth Hret]. split.
  - intros l row id Hr Ho. destruct (Hrow l row id Hr Ho); auto using cache_source_snoc.
  - intros t x Hx. eauto using cache_source_snoc.
  - intros id ok bs Hin. destruct (Hret id ok bs Hin); auto using cache_source_snoc.
Qed.

(** Changing rows keeps the provenance when a changed buffer has one. *)
Lemma provenance_rows es s c :
  (∀ l row' id, dc_rows c !! l = Some row' → cs_owner s !! l = Some id →
     (∃ row, dc_rows (cs_cache s) !! l = Some row ∧ read_buffer row' = read_buffer row) ∨
     fb_data (read_buffer row') = [] ∨ cache_source es id (fb_data (read_buffer row'))) →
  provenance es s → provenance es (with_cache c s).
Proof.
  intros Hc [Hrow Hth Hret]. split; [|done..]. simpl. intros l row' id Hr' Ho.
  destruct (Hc l row' id Hr' Ho) as [(row & Hr & ->)|?]; [|done]. by eapply Hrow.
Qed.

Lemma provenance_update es s f l c :
  (∀ row id, dc_rows (cs_cache s) !! l = Some row → cs_owner s !! l = Some id →
     read_buffer (f row) = read_buffer row ∨
     cache_source es id (fb_data (read_buffer (f row)))) →
  dc_rows c = alter f l (dc_rows (cs_cache s)) →
  provenance es s → provenance es (with_cache c s).
Proof.
  intros Hf Hc. apply provenance_rows. rewrite Hc. intros l' row' id.
  rewrite list_lookup_alter. case_decide as Hl; [subst l'|by eauto].
  intros (row & Hr & ->)%fmap_Some Ho. destruct (Hf row id Hr Ho); eauto.
Qed.

(** A thread may move on with the id and the buffer it has, or start with those
    of a call of [wait]. *)
Lemma provenance_thread es s t x :
  cache_source es (ct_id x) (fb_data (ct_buffer x)) →
  provenance es s → provenance es (with_waiters (<[t := x]> (cs_waiters s)) s).
Proof.
  intros Hx [Hrow Hth Hret]. split; [done| |done]. simpl.
  intros t' x' [[<- <-]|[_ Hx']]%lookup_insert_Some; eauto.
Qed.

Lemma provenance_return es s id ok bs ws :
  bs = [] ∨ cache_source es id bs → ws ⊆ cs_waiters s →
  provenance es s → provenance es (with_return id ok bs (with_waiters ws s)).
Proof.
  intros Hbs Hws [Hrow Hth Hret]. split; [done| |]; simpl.
  - intros t x Hx. eapply Hth, lookup_weaken; eauto.
  - intros id' ok' bs' [?|[= -> -> ->]%list_elem_of_singleton]%elem_of_app; eauto.
Qed.

(** A caller that swaps gets what its row holds and leaves its own buffer. *)
Lemma provenance_take es s t id l ok buffer row :
  cache_sys_wf s → cs_waiters s !! t = Some (ct_taking id l ok buffer) →
  dc_rows (cs_cache s) !! l = Some row → provenance es s →
  provenance es (with_return id ok (fb_data (read_buffer row))
    (with_waiters (delete t (cs_waiters s)) (with_cache (taken l buffer (cs_cache s)) s))).
Proof.
  intros Hwf Hw Hr Hp. pose proof (sys_owner_waiter s Hwf t _ Hw) as Ho.
  apply (provenance_return _ (with_cache _ s)); [by apply (prov_row es s Hp l)|apply delete_subseteq|].
  eapply (provenance_update _ s (set_read_buffer buffer) l); [|done..].
  intros row0 id0 _ Ho0. simpl in Ho. simplify_eq. right. apply (prov_thread es s Hp t _ Hw).
Qed.

Lemma provenance_queue es s now valid c id :
  provenance es s → cache_sys_wf s →
  dc_rows c = dc_rows (cs_cache s) ++ [new_data_read now valid] →
  provenance es (mk_cache_system c (cs_waiters s) (cs_returns s) (cs_owner s ++ [id])).
Proof.
  intros [Hrow Hth Hret] Hwf Hc. split; [|done..]. simpl. intros l row id'. rewrite Hc.
  intros [Hr|[Hl (_ & <-)%list_lookup_singleton_Some]]%lookup_app_Some Ho;
    [|left; apply fb_data_empty].
  eapply Hrow; [done|]. apply lookup_app_Some in Ho as [?|[Hge _]]; [done|].
  apply lookup_lt_Some in Hr. rewrite (sys_owner_length s Hwf) in Hge. lia.
Qed.

Lemma provenance_rel es s e s' :
  cache_sys_wf s → cache_rel s e s' → provenance es s → provenance (es ++ [e]) s'.
Proof.
  intros Hwf Hrel Hp%(provenance_snoc _ e).
  assert (e ∈ es ++ [e]) as Hin by (apply elem_of_app; right; by left).
  destruct Hrel as [|now valid id Hs ->|t id b El|t id l row b El Hr Hs|t id l row b El Hr Hs
    |t id l b row Hw Hr|t id l ok b row Hw Hr| |id buffer l row c El Hr ->|clock m Hm Hspec|c Hc' Hmax Hl' Hent Hrow].
  - done.
  - by eapply provenance_queue.
  - apply (provenance_return _ s _ _ _ (cs_waiters s)); [right; exists b; eauto|done..].
  - apply (provenance_thread _ (with_cache _ s)); [exists b; eauto|].
    eapply (provenance_rows _ s); [|done]. simpl. eauto.
  - apply (provenance_thread _ (with_cache _ s)); [exists b; eauto|].
    eapply (provenance_update _ s (set_state ds_waiting) l); [|done..]. by left.
  - apply provenance_thread; [|done]. apply (prov_thread _ s Hp t _ Hw).
  - by apply provenance_take.
  - done.
  - eapply (provenance_update _ s (λ r, set_state ds_swapped (set_read_buffer buffer r)) l);
      [|by case_decide|done].
    intros row0 id0 _ Ho. rewrite (sys_owner_entry s Hwf id l El) in Ho. simplify_eq.
    right. exists buffer. eauto.
  - eapply (provenance_rows _ s); [|done]. simpl. eauto.
  - eapply (provenance_rows _ s); [|done]. simpl. intros l row' id Hr' _. left.
    destruct (dc_rows (cs_cache s) !! l) as [row|] eqn:Hr.
    + destruct (Hrow l row Hr) as (row'' & ? & ? & ? & _). simplify_eq. eauto.
    + apply lookup_ge_None in Hr. apply lookup_lt_Some in Hr'. lia.
Qed.

Lemma cache_steps_provenance max es s :
  cache_steps (cache_system_init max) es s → provenance es s.
Proof.
  revert es s. apply cache_steps_ind.
  - split; simpl; [done..|]. intros id ok bs Hin. by apply not_elem_of_nil in Hin.
  - intros es s e s' _ Hwf _ Hrel. by apply provenance_rel.
Qed.

(** C7. No cross delivery: the bytes that a [wait] on [id] leaves in its
    caller's buffer, in any interleaving and whether it returned true or false,
    are those of a buffer that [swap_notify] received for that very [id], or
    those that a caller of [wait] on that [id] had in its own buffer; when all
    of them passed the empty buffer the interface asks for, the first. *)
Theorem cache_no_cross_delivery max es s id ok bs :
  cache_steps (B := B) (cache_system_init max) es s →
  (id, ok, bs) ∈ cs_returns s → bs ≠ [] →
  ∃ buffer, fb_data buffer = bs ∧
    (ev_swap id buffer ∈ es ∨ ∃ t, ev_wait t id buffer ∈ es).
Proof.
  intros Hs Hin Hne. apply cache_steps_provenance in Hs as [_ _ Hret].
  by destruct (Hret id ok bs Hin).
Qed.

(** ** Stranded waiters *)

(** The row [l] of a thread waiting for [id] was marked, or the table still
    leads to it. *)
Definition row_reachable c (id : Z) (l : loc) : Prop :=
  ∃ row, dc_rows c !! l = Some row ∧
    (state row = ds_swapped ∨ (state row = ds_waiting ∧ dc_entries c !! id = Some l)).

Definition reachable_waiters s : Prop :=
  ∀ t id l b, cs_waiters s !! t = Some (ct_blocked id l b) → row_reachable (cs_cache s) id l.

Definition is_obsolete (e : cache_event B) : bool :=
  match e with ev_obsolete _ => true | _ => false end.

(** Operations on the row [l0] of [id0] that mark it, or find it marked. *)
Lemma row_reachable_marked c c' id0 l0 row0 f id l :
  dc_entries c !! id0 = Some l0 → dc_rows c !! l0 = Some row0 →
  dc_rows c' = alter f l0 (dc_rows c) → state (f row0) = ds_swapped →
  (∀ id', id' ≠ id0 → dc_entries c' !! id' = dc_entries c !! id') →
  row_reachable c id l → row_reachable c' id l.
Proof.
  intros El0 Hr0 Hc Hf Hent (row & Hr & Hst). unfold row_reachable.
  rewrite Hc, list_lookup_alter. destruct (decide (l0 = l)) as [<-|Hne].
  - rewrite Hr0. simpl. eauto.
  - exists row. split; [done|]. destruct Hst as [?|[? El]]; [by left|right].
    split; [done|]. rewrite Hent; [done|]. intros ->. congruence.
Qed.

Lemma row_reachable_kept c c' l0 f id l :
  dc_rows c' = alter f l0 (dc_rows c) → dc_entries c' = dc_entries c →
  (∀ row, state (f row) = state row) →
  row_reachable c id l → row_reachable c' id l.
Proof.
  intros Hc Hent Hf (row & Hr & Hst). unfold row_reachable.
  rewrite Hc, Hent, list_lookup_alter. case_decide; subst; rewrite Hr; simpl; [|eauto].
  eexists. split; [done|]. by rewrite Hf.
Qed.

Lemma row_reachable_wait c l0 row0 id l :
  dc_rows c !! l0 = Some row0 → state row0 ≠ ds_swapped →
  row_reachable c id l → row_reachable (update_row (set_state ds_waiting) l0 c) id l.
Proof.
  intros Hr0 Hs0 (row & Hr & Hst). unfold row_reachable. simpl.
  rewrite list_lookup_alter. case_decide; subst; rewrite Hr; simpl; [|eauto].
  simplify_eq. eexists. split; [done|]. right. destruct Hst as [?|[? ?]]; [done|by split].
Qed.

Lemma reachable_waiters_rel s e s' :
  cache_sys_wf s → is_obsolete e = false → cache_rel s e s' →
  reachable_waiters s → reachable_waiters s'.
Proof.
  intros Hwf He Hrel Hrw. pose proof (sys_cache s Hwf) as Hc.
  destruct Hrel as [|now valid id Hs ->|t id b El|t id l row b El Hr Hs|t id l row b El Hr Hs
    |t id l b row Hw Hr|t id l ok b row Hw Hr| |id buffer l row c El Hr ->|clock m Hm Hspec|c Hc' Hmax Hl' Hent Hrow];
    try done; intros t' id' l' b' Hw'; simpl in Hw'.
  - destruct (Hrw t' id' l' b' Hw') as (row & Hr & Hst). exists row. simpl.
    split; [by apply lookup_app_l_Some|].
    destruct Hst as [?|[? El]]; [by left|right]. split; [done|].
    rewrite lookup_insert_ne; [done|]. intros <-. by apply fresh_id in El.
  - apply lookup_insert_Some in Hw' as [[_ ?]|[_ Hw']]; [done|].
    destruct (Hrw t' id' l' b' Hw') as (row' & Hr' & Hst). exists row'. split; [done|].
    destruct Hst as [?|[Hst El']]; [by left|right]. split; [done|]. simpl.
    rewrite lookup_delete_ne; [done|]. intros <-. congruence.
  - simpl. apply lookup_insert_Some in Hw' as [[<- [= <- <- <-]]|[_ Hw']].
    + exists (set_state ds_waiting row). simpl. rewrite list_lookup_alter, decide_True, Hr by done.
      split; [done|]. by right.
    + eapply row_reachable_wait; [done..|]. by eapply Hrw.
  - apply lookup_insert_Some in Hw' as [[_ ?]|[_ Hw']]; [done|by eapply Hrw].
  - apply lookup_delete_Some in Hw' as [_ Hw'].
    eapply (row_reachable_kept (cs_cache s)); [done..|]. by eapply Hrw.
  - eapply (row_reachable_marked (cs_cache s)); [exact El|exact Hr| | | |by eapply Hrw].
    + simpl. by case_decide.
    + done.
    + intros ? ?. simpl. case_decide; simpl; [by rewrite lookup_delete_ne|done].
  - destruct (Hrw t' id' l' b' Hw') as (row & Hr & Hst).
    destruct (Hrow l' row Hr) as (row' & ? & _ & Hsw & Hid).
    exists row'. split; [done|]. left. destruct Hst as [?|[_ ?]]; eauto.
Qed.

Lemma cache_steps_reachable_waiters max es s :
  cache_steps (cache_system_init max) es s → Forall (λ e, is_obsolete e = false) es →
  reachable_waiters s.
Proof.
  revert es s. apply (cache_steps_ind max
    (λ es s, Forall (λ e, is_obsolete e = false) es → reachable_waiters s)).
  - intros _ t id l b. simpl. by rewrite lookup_empty.
  - intros es s e s' _ Hwf _ Hrel IH [Hes He]%Forall_app.
    eapply reachable_waiters_rel; [done| |done|by apply IH]. by inversion He.
Qed.

(** [clear] wakes everyone: as long as no entry was evicted by
    [remove_obsolete], in any interleaving [clear] empties the table and every
    thread then blocked in [wait] returns true by its next two steps. *)
Theorem cache_clear_wakes max es s :
  cache_steps (B := B) (cache_system_init max) es s →
  Forall (λ e, is_obsolete e = false) es →
  ∃ s', cache_handle s ev_clear = Some s' ∧ dc_entries (cs_cache s') = ∅ ∧
    ∀ t id l b, cs_waiters s' !! t = Some (ct_blocked id l b) →
      ∃ s'' bs, cache_run s' [ev_resume t; ev_take t] = Some s'' ∧
        cs_waiters s'' !! t = None ∧ last (cs_returns s'') = Some (id, true, bs).
Proof.
  intros Hs Hes. destruct (cache_steps_wf max es s Hs) as [Hwf _].
  assert (cache_enabled s ev_clear = true) as Hen by done.
  destruct (cache_handle_rel s ev_clear Hwf Hen) as (s' & Hh & Hrel).
  pose proof (cache_rel_wf s _ s' Hwf Hen Hrel) as Hwf'.
  pose proof (reachable_waiters_rel s ev_clear s' Hwf eq_refl Hrel
    (cache_steps_reachable_waiters max es s Hs Hes)) as Hrw.
  exists s'. split; [done|].
  assert (dc_entries (cs_cache s') = ∅) as Hempty by (by inversion Hrel).
  split; [done|]. intros t id l b Hw.
  destruct (Hrw t id l b Hw) as (row & Hr & [Hst|[_ El]]); [|by rewrite Hempty in El].
  unfold cache_run, run. simpl. rewrite Hw. simpl.
  rewrite (cache_wait_done_Some _ _ row) by done. simpl.
  rewrite lookup_insert_eq. simpl. rewrite (cache_take_buffer_Some _ _ row) by done. simpl.
  do 2 eexists. split; [done|]. simpl. split; [apply lookup_delete_eq|].
  by rewrite last_snoc, Hst, bool_decide_eq_true_2.
Qed.

(** The response may come between the two sections of [wait]: the caller's
    time-out has been decided and the row's lock released, [swap_notify] finds
    the row still in the table and fills it, and the swap that ends the call
    then hands over the response, with false. *)
Theorem wait_false_with_bytes c id l row buffer response :
  dc_entries c !! id = Some l → dc_rows c !! l = Some row → state row = ds_waiting →
  cache_wait_done l c = Done false c [] ∧
  ∃ c', swap_notify id response c = Done fb_empty c' [notify_row l] ∧
    ∃ c'', cache_take_buffer l buffer c' = Done response c'' [] ∧ dc_entries c'' !! id = None.
Proof.
  intros El Hr Hst. split; [by rewrite (cache_wait_done_Some _ _ row), Hst|].
  rewrite (swap_notify_Some _ _ l row), decide_True by done.
  eexists. split; [done|].
  erewrite cache_take_buffer_Some by (simpl; by rewrite list_lookup_alter, decide_True, Hr).
  eexists. split; [done|]. simpl. apply lookup_delete_eq.
Qed.

(** Eviction strands a waiter.  [remove_obsolete] does not spare a row
    somebody waits for: when such a row is past its validity it leaves the
    table, the response that arrives afterwards is dropped (the buffer comes
    back untouched, nobody is notified, no row changes), and the caller finds
    nothing when it stops waiting. *)
Theorem remove_obsolete_strands_waiter c id l row clock buffer :
  cache_wf c → dc_entries c !! id = Some l → dc_rows c !! l = Some row →
  state row = ds_waiting → (∀ k, data_read_valid (clock k) row = false) →
  ∃ c', remove_obsolete clock c = Done tt c' [] ∧
    swap_notify id buffer c' = Done buffer c' [] ∧
    cache_wait_done l c' = Done false c' [].
Proof.
  intros Hwf El Hr Hst Hv. destruct (remove_obsolete_spec clock c Hwf) as (m & Hm & Hsub & Hspec).
  exists (set_entries m c). split; [done|]. split.
  - apply swap_notify_None. simpl. destruct (m !! id) as [l'|] eqn:Eml; [|done].
    pose proof (lookup_weaken _ _ _ _ Eml Hsub) as El'. simplify_eq.
    destruct (ids_in_order_spec (dc_entries c)) as (_ & _ & Hin).
    assert (id ∈ ids_in_order (dc_entries c)) as [k Hk]%list_elem_of_lookup_1
      by (apply Hin; eauto).
    pose proof (proj1 (Hspec id _ row El Hr) Eml k Hk) as Ht. by rewrite Hv in Ht.
  - rewrite (cache_wait_done_Some _ _ row) by done. by rewrite Hst.
Qed.
End properties.

(** ** Witnesses

    A table of two entries: two requests are queued and a third refused, thread
    7 waits for the first one, whose response comes after its time-out and
    before its swap, thread 8 for the second one after its response. *)

Definition demo_events : list (cache_event (list byte)) :=
  [ev_queue 0 2000000; ev_queue 0 2000000; ev_queue 0 2000000; ev_wait 7 1 [];
   ev_swap 2 [x62]; ev_resume 7; ev_swap 1 [x61]; ev_take 7; ev_wait 8 2 []; ev_take 8].

Lemma cache_invariant_witness :
  ∃ s, cache_run (cache_system_init 2) demo_events = Some s ∧
    safe cache_enabled cache_handle s ∧
    (size (dc_entries (cs_cache s)) ≤ 2)%nat ∧
    dc_entries (cs_cache s) !! 0 = None ∧
    (∀ id l, dc_entries (cs_cache s) !! id = Some l → 1 ≤ id ≤ dc_id_counter (cs_cache s)) ∧
    (∀ id id' l, dc_entries (cs_cache s) !! id = Some l →
                 dc_entries (cs_cache s) !! id' = Some l → id = id').
Proof.
  eexists. split; [vm_compute; reflexivity|].
  apply (cache_invariant 2 demo_events). apply run_steps. vm_compute. reflexivity.
Defined.

Lemma cache_queue_spec_witness :
  let c := new_data_cache (B := list byte) 2 in
  let c' := mk_data_cache 2 1 {[1 := 0%nat]} [new_data_read 5 2000000] in
  (1 = 0 ↔ size (dc_entries c) = 2%nat) ∧
  (1 = 0 → c' = c) ∧
  (1 ≠ 0 → dc_entries c !! 1 = None ∧
     (∃ l row, dc_entries c' !! 1 = Some l ∧ dc_rows c' !! l = Some row ∧
        state row = ds_queued ∧ fb_data (read_buffer row) = []) ∧
     ∀ id', id' ≠ 1 → dc_entries c' !! id' = dc_entries c !! id').
Proof.
  apply (cache_queue_spec 5 2000000 2 [] (cache_system_init 2) 1 _ []).
  - constructor.
  - vm_compute. reflexivity.
  - vm_compute. reflexivity.
Defined.

Lemma cache_delivery_witness :
  let c := mk_data_cache 2 1 {[1 := 0%nat]} [new_data_read (B := list byte) 5 2000000] in
  ∃ c_final,
    (∃ c1, swap_notify 1 [x61] c = Done fb_empty c1 [] ∧
       ∃ c2, cache_wait_begin 1 c1 = Done (wait_ready 0) c2 [] ∧
             cache_take_buffer 0 fb_empty c2 = Done [x61] c_final []) ∧
    (∃ c1, cache_wait_begin 1 c = Done (wait_blocked 0) c1 [] ∧
       ∃ c2, swap_notify 1 [x61] c1 = Done fb_empty c2 [notify_row 0] ∧
             cache_wait_done 0 c2 = Done true c2 [] ∧
             cache_take_buffer 0 fb_empty c2 = Done [x61] c_final []) ∧
    dc_entries c_final !! 1 = None ∧
    ∀ id', id' ≠ 1 → dc_entries c_final !! id' = dc_entries c !! id'.
Proof.
  apply (cache_delivery _ 1 0 (new_data_read 5 2000000) [x61]); vm_compute; reflexivity.
Defined.

Lemma cache_no_cross_delivery_witness :
  ∃ s, cache_run (cache_system_init 2) demo_events = Some s ∧
    cs_returns s = [(1, false, [x61]); (2, true, [x62])] ∧
    ∃ buffer : list byte, fb_data buffer = [x61] ∧
      (ev_swap 1 buffer ∈ demo_events ∨ ∃ t, ev_wait t 1 buffer ∈ demo_events).
Proof.
  eexists. split; [vm_compute; reflexivity|]. split; [vm_compute; reflexivity|].
  eapply (cache_no_cross_delivery 2 demo_events _ 1 false [x61]).
  - apply run_steps. vm_compute. reflexivity.
  - simpl. apply list_elem_of_here.
  - done.
Defined.

(** Thread 7 is blocked on request 1. *)
Definition demo_blocked : cache_system (list byte) :=
  default (cache_system_init 2) (cache_run (cache_system_init 2) [ev_queue 0 5; ev_wait 7 1 []]).

Lemma cache_clear_wakes_witness :
  cs_waiters demo_blocked !! 7%nat = Some (ct_blocked 1 0 []) ∧
  ∃ s', cache_handle demo_blocked ev_clear = Some s' ∧ dc_entries (cs_cache s') = ∅ ∧
    ∀ t id l b, cs_waiters s' !! t = Some (ct_blocked id l b) →
      ∃ s'' bs, cache_run s' [ev_resume t; ev_take t] = Some s'' ∧
        cs_waiters s'' !! t = None ∧ last (cs_returns s'') = Some (id, true, bs).
Proof.
  split; [vm_compute; reflexivity|].
  apply (cache_clear_wakes 2 [ev_queue 0 5; ev_wait 7 1 []]).
  - apply run_steps. vm_compute. reflexivity.
  - repeat constructor.
Defined.

Lemma remove_obsolete_strands_waiter_witness :
  ∃ c', remove_obsolete (λ _, 0) (cs_cache demo_blocked) = Done tt c' [] ∧
    swap_notify 1 [x61] c' = Done [x61] c' [] ∧
    cache_wait_done 0 c' = Done false c' [].
Proof.
  apply (remove_obsolete_strands_waiter _ 1 0 (mk_data_read 0 0 ds_waiting [])).
  - apply sys_cache. apply (cache_steps_wf 2 [ev_queue 0 5; ev_wait 7 1 []]).
    apply run_steps. vm_compute. reflexivity.
  - vm_compute. reflexivity.
  - vm_compute. reflexivity.
  - reflexivity.
  - intros k. vm_compute. reflexivity.
Defined.

Lemma wait_false_with_bytes_witness :
  let c := cs_cache demo_blocked in
  cache_wait_done 0 c = Done false c [] ∧
  ∃ c', swap_notify 1 [x61] c = Done fb_empty c' [notify_row 0] ∧
    ∃ c'', cache_take_buffer 0 [] c' = Done [x61] c'' [] ∧ dc_entries c'' !! 1 = None.
Proof.
  apply (wait_false_with_bytes _ 1 0 (mk_data_read 0 0 ds_waiting [])); vm_compute; reflexivity.
Defined.
