(* ===== verification/DataQueue.v ===== *)
(** * DataQueue: [data_send] and [data_queue] of include/radrpc/detail/data.hpp

    The client's queue of messages to write.  Each entry holds a [weak_ptr] to
    the promise its sender waits on; the promises live in a store shared with
    the senders, a promise leaving it when its sender returns. *)

From S2P Require Import Prelude Types Header.

(** ** Promises

    The live [std::promise<bool>] objects: [Some None] has no value yet. *)

Abbreviation promises := (gmap nat (option bool)).

(** [try { if (auto p = weak.lock()) p->set_value(b); } catch (...) {}]: an
    expired promise is skipped, a second [set_value] throws and is swallowed. *)
Definition set_value (p : nat) (b : bool) (ps : promises) : promises :=
  match ps !! p with Some None => <[p := Some b]> ps | _ => ps end.

(** [wait_for(...) == future_status::ready] *)
Definition promise_ready (p : nat) (ps : promises) : bool :=
  match ps !! p with Some (Some _) => true | _ => false end.

(** ** The queue *)

(** [body]: the bytes at [body_ptr], [body_size] of them. *)
Record data_send := mk_data_send {
  result_callback : nat;
  body : list byte;
  send_header : io_header }.

Definition new_data_send (p_call_id p_result_id : Z) (p_result_callback : nat)
    (p_body : list byte) : data_send :=
  mk_data_send p_result_callback p_body (new_io_header p_call_id p_result_id).

Record data_queue := mk_data_queue {
  dq_max_entries : nat;
  dq_entries : list data_send }.

Definition new_data_queue (p_max_entries : nat) : data_queue := mk_data_queue p_max_entries [].

(** [queue(...)] *)
Definition queue_push (d : data_send) (q : data_queue) : bool * data_queue :=
  if decide (dq_max_entries q ≤ length (dq_entries q))%nat then (false, q)
  else (true, mk_data_queue (dq_max_entries q) (dq_entries q ++ [d])).

Definition queue_is_writing (q : data_queue) : bool := bool_decide (1 < length (dq_entries q))%nat.

(** [front()]: undefined on an empty queue. *)
Definition queue_front (q : data_queue) : option data_send := head (dq_entries q).

(** [write_next()]: undefined on an empty queue. *)
Definition queue_write_next (q : data_queue) (ps : promises) :
    option (bool * data_queue * promises) :=
  match dq_entries q with
  | [] => None
  | d :: ds => Some (bool_decide (ds ≠ []), mk_data_queue (dq_max_entries q) ds,
                     set_value (result_callback d) true ps)
  end.

(** [clear()] *)
Definition queue_clear (q : data_queue) (ps : promises) : data_queue * promises :=
  (mk_data_queue (dq_max_entries q) [],
   foldl (λ ps d, set_value (result_callback d) false ps) ps (dq_entries q)).

(** ** Lemmas *)

Lemma set_value_lookup p b ps p' :
  set_value p b ps !! p' =
    if decide (p = p' ∧ ps !! p = Some None) then Some (Some b) else ps !! p'.
Proof.
  unfold set_value. destruct (ps !! p) as [[v|]|] eqn:E; case_decide as Hd; try naive_solver.
  - destruct Hd as [-> _]. by rewrite lookup_insert_eq.
  - rewrite lookup_insert_ne; [done|]. naive_solver.
Qed.

(** A promise that has a value keeps it. *)
Lemma set_value_stable p b ps p' v :
  ps !! p' = Some (Some v) → set_value p b ps !! p' = Some (Some v).
Proof. intros E. rewrite set_value_lookup. case_decide; [|done]. naive_solver. Qed.

Lemma set_value_dom p b ps : dom (set_value p b ps) = dom ps.
Proof.
  unfold set_value. destruct (ps !! p) as [[v|]|] eqn:E; try done.
  rewrite dom_insert_L. apply elem_of_dom_2 in E. set_solver.
Qed.

Lemma queue_clear_lookup q ps p :
  snd (queue_clear q ps) !! p =
    if decide (ps !! p = Some None ∧ p ∈ result_callback <$> dq_entries q)
    then Some (Some false) else ps !! p.
Proof.
  unfold queue_clear. simpl. revert ps. induction (dq_entries q) as [|d ds IH]; intros ps; simpl.
  - rewrite decide_False; [done|]. intros [_ Hin]. by apply not_elem_of_nil in Hin.
  - rewrite IH, set_value_lookup. repeat case_decide; set_solver.
Qed.

Lemma queue_push_room d q :
  (length (dq_entries q) < dq_max_entries q)%nat →
  queue_push d q = (true, mk_data_queue (dq_max_entries q) (dq_entries q ++ [d])).
Proof. intros. unfold queue_push. by rewrite decide_False by lia. Qed.

Lemma queue_push_full d q :
  (dq_max_entries q ≤ length (dq_entries q))%nat → queue_push d q = (false, q).
Proof. intros. unfold queue_push. by rewrite decide_True. Qed.

#[export] Hint Resolve set_value_stable : radrpc.

(** ** The queue as a bounded FIFO of unresolved sends *)

Inductive queue_op : Set := op_push (d : data_send) | op_next | op_clear.

(** The queue with the promise store, and the histories of the entries it
    accepted, wrote and dropped (ghost). *)
Record queue_run := mk_queue_run {
  qr_queue : data_queue;
  qr_promises : promises;
  qr_accepted : list data_send;
  qr_written : list data_send;
  qr_dropped : list data_send }.

Definition queue_run_init (max : nat) (ps : promises) : queue_run :=
  mk_queue_run (new_data_queue max) ps [] [] [].

Definition queue_enabled (r : queue_run) (o : queue_op) : bool :=
  match o with op_next => bool_decide (dq_entries (qr_queue r) ≠ []) | _ => true end.

Definition queue_handle (r : queue_run) (o : queue_op) : option queue_run :=
  match o with
  | op_push d =>
      let '(ok, q) := queue_push d (qr_queue r) in
      Some (mk_queue_run q (qr_promises r) (if ok : bool then qr_accepted r ++ [d] else qr_accepted r)
              (qr_written r) (qr_dropped r))
  | op_next =>
      d ← queue_front (qr_queue r);
      '(_, q, ps) ← queue_write_next (qr_queue r) (qr_promises r);
      Some (mk_queue_run q ps (qr_accepted r) (qr_written r ++ [d]) (qr_dropped r))
  | op_clear =>
      let '(q, ps) := queue_clear (qr_queue r) (qr_promises r) in
      Some (mk_queue_run q ps (qr_accepted r) (qr_written r)
              (qr_dropped r ++ dq_entries (qr_queue r)))
  end.

Definition queue_steps := steps queue_enabled queue_handle.

(** The promise of a send. *)
Definition resolved (ps : promises) (b : bool) (d : data_send) : Prop :=
  ps !! result_callback d = Some (Some b).

Record queue_inv (max : nat) (ps0 : promises) (r : queue_run) : Prop := {
  qi_max : dq_max_entries (qr_queue r) = max;
  qi_bound : (length (dq_entries (qr_queue r)) ≤ max)%nat;
  qi_perm : qr_accepted r ≡ₚ qr_written r ++ qr_dropped r ++ dq_entries (qr_queue r);
  qi_dom : dom (qr_promises r) = dom ps0;
  qi_stable p v : ps0 !! p = Some (Some v) → qr_promises r !! p = Some (Some v) }.

Lemma queue_inv_step max ps0 r o :
  queue_inv max ps0 r → queue_enabled r o = true →
  ∃ r', queue_handle r o = Some r' ∧ queue_inv max ps0 r'.
Proof.
  intros [Hmax Hb Hp Hd Hs] He. destruct r as [[m ds] ps acc wr dr]; simpl in *; subst m.
  destruct o as [d| |]; simpl in *.
  - destruct (decide (max ≤ length ds)%nat) as [Hf|Hf].
    + rewrite queue_push_full by done. eexists. by split.
    + rewrite queue_push_room by (simpl; lia). eexists. split; [done|].
      split; simpl; try done.
      * rewrite length_app. simpl. lia.
      * rewrite Hp. by rewrite <-!app_assoc.
  - prop_bools. destruct ds as [|d ds]; [done|]. simpl. eexists. split; [done|].
    split; simpl in *; try done; try lia.
    + rewrite Hp. rewrite <-!app_assoc. simpl. f_equiv.
      symmetry. apply Permutation_middle.
    + by rewrite set_value_dom.
    + eauto with radrpc.
  - eexists. split; [done|]. split; simpl; try done; try lia.
    + by rewrite app_nil_r.
    + clear -Hd. revert ps Hd. induction ds as [|d ds IH]; intros ps Hd; [done|].
      simpl. apply IH. by rewrite set_value_dom.
    + clear -Hs. intros p v Hp. specialize (Hs p v Hp). revert ps Hs.
      induction ds as [|d ds IH]; intros ps Hs; [done|]. simpl. eauto with radrpc.
Qed.

(** The client's queue over any sequence of operations: it never exceeds
    its bound, every accepted entry is written, dropped by [clear] or still
    queued, exactly once, no operation of a nonempty queue goes wrong, and a
    promise that has its value never changes. *)
Theorem data_queue_invariant max ps0 ops r :
  queue_steps (queue_run_init max ps0) ops r →
  safe queue_enabled queue_handle r ∧
  (length (dq_entries (qr_queue r)) ≤ max)%nat ∧
  qr_accepted r ≡ₚ qr_written r ++ qr_dropped r ++ dq_entries (qr_queue r) ∧
  ∀ p v, ps0 !! p = Some (Some v) → qr_promises r !! p = Some (Some v).
Proof.
  intros Hs. destruct (steps_safe _ _ (queue_inv max ps0) (queue_inv_step max ps0)
    (queue_run_init max ps0) ops r) as [[_ Hb Hp _ Hst] Hsafe]; [|done|done].
  split; simpl; try done. lia.
Qed.

Lemma data_queue_invariant_witness :
  let d1 := new_data_send 7 1 10 [x61] in
  let d2 := new_data_send 7 2 11 [x62] in
  ∃ r, run queue_enabled queue_handle (queue_run_init 1 {[10%nat := None]})
         [op_push d1; op_push d2; op_next] = Some r ∧
    safe queue_enabled queue_handle r ∧
    (length (dq_entries (qr_queue r)) ≤ 1)%nat ∧
    qr_accepted r ≡ₚ qr_written r ++ qr_dropped r ++ dq_entries (qr_queue r) ∧
    ∀ p v, ({[10%nat := None]} : promises) !! p = Some (Some v) →
           qr_promises r !! p = Some (Some v).
Proof.
  eexists. split; [vm_compute; reflexivity|].
  apply (data_queue_invariant 1 {[10%nat := None]}
    [op_push (new_data_send 7 1 10 [x61]); op_push (new_data_send 7 2 11 [x62]); op_next]).
  apply run_steps. vm_compute. reflexivity.
Defined.

(** How a sender learns the fate of its message: [write_next] removes the
    front entry, sets its live, unset promise to true and touches no other;
    [clear] empties the queue, sets the live, unset promises of exactly the
    queued entries to false and touches no other. *)
Theorem data_queue_resolution q ps :
  (∀ d ds, dq_entries q = d :: ds →
    ∃ q' ps', queue_write_next q ps = Some (bool_decide (ds ≠ []), q', ps') ∧
      dq_entries q' = ds ∧
      ∀ p, ps' !! p = if decide (p = result_callback d ∧ ps !! p = Some None)
                      then Some (Some true) else ps !! p) ∧
  (let '(q', ps') := queue_clear q ps in
   dq_entries q' = [] ∧
   ∀ p, ps' !! p = if decide (ps !! p = Some None ∧ p ∈ result_callback <$> dq_entries q)
                   then Some (Some false) else ps !! p).
Proof.
  split.
  - intros d ds E. unfold queue_write_next. rewrite E. eexists _, _. split; [done|].
    split; [done|]. intros p. rewrite set_value_lookup. repeat case_decide; naive_solver.
  - destruct (queue_clear q ps) as [q' ps'] eqn:E. unfold queue_clear in E.
    split; [by injection E as <- _|]. intros p. rewrite <-queue_clear_lookup.
    unfold queue_clear. by rewrite E.
Qed.
