(* ===== verification/ServerSession.v ===== *)
(** * ServerSession: [session_context], [server_session] and [session_accept] of
    include/radrpc/impl/server/server_session.hpp

    One session of the server: the three classes are one object, so one record
    holds their members ([session_context] being its base class).  Every handler
    runs in the session's strand and is one action; the asynchronous operations
    it starts are its effects, and their completions come back as the other
    handlers.  The stream, the timer service and the HTTP messages belong to
    Boost: the stream is seen through the effects, the timer through its expiry,
    the handshake messages through two abstract types. *)

From S2P Require Import Prelude Types Header.

Inductive ping_state : Set := ping_next | ping_send | ping_close.

#[export] Instance ping_state_eq_dec : EqDecision ping_state.
Proof. solve_decision. Defined.

(** [data_push], with the identity of the shared object when [broadcast] made
    it and counts it ([None] for the answer of a bound function). *)
Record data_push := mk_data_push {
  push_header : io_header;
  push_body : list byte;
  push_shared : option nat }.

Section session.
Context {B : Type} `{FlatBuffer B} {Req Res : Type}.

(** ** The object *)

Record session_context := mk_session_context {
  m_bound_close : bool;
  m_header : io_header;
  m_receive_buffer : B;
  m_receive_buffer_ref : list byte;
  m_config : session_config;
  m_req_handshake : Req;
  m_res_handshake : Res;
  session_id : Z;
  remote_host : string;
  response : list byte }.

Definition set_m_bound_close (x : bool) (c : session_context) : session_context :=
  mk_session_context x (m_header c) (m_receive_buffer c) (m_receive_buffer_ref c)
    (m_config c) (m_req_handshake c) (m_res_handshake c) (session_id c) (remote_host c)
    (response c).
Definition set_m_header (x : io_header) (c : session_context) : session_context :=
  mk_session_context (m_bound_close c) x (m_receive_buffer c) (m_receive_buffer_ref c)
    (m_config c) (m_req_handshake c) (m_res_handshake c) (session_id c) (remote_host c)
    (response c).
Definition set_m_receive_buffer (x : B) (c : session_context) : session_context :=
  mk_session_context (m_bound_close c) (m_header c) x (m_receive_buffer_ref c)
    (m_config c) (m_req_handshake c) (m_res_handshake c) (session_id c) (remote_host c)
    (response c).
Definition set_m_receive_buffer_ref (x : list byte) (c : session_context) : session_context :=
  mk_session_context (m_bound_close c) (m_header c) (m_receive_buffer c) x (m_config c)
    (m_req_handshake c) (m_res_handshake c) (session_id c) (remote_host c) (response c).
Definition set_m_config (x : session_config) (c : session_context) : session_context :=
  mk_session_context (m_bound_close c) (m_header c) (m_receive_buffer c)
    (m_receive_buffer_ref c) x (m_req_handshake c) (m_res_handshake c) (session_id c)
    (remote_host c) (response c).
Definition set_m_req_handshake (x : Req) (c : session_context) : session_context :=
  mk_session_context (m_bound_close c) (m_header c) (m_receive_buffer c)
    (m_receive_buffer_ref c) (m_config c) x (m_res_handshake c) (session_id c)
    (remote_host c) (response c).
Definition set_m_res_handshake (x : Res) (c : session_context) : session_context :=
  mk_session_context (m_bound_close c) (m_header c) (m_receive_buffer c)
    (m_receive_buffer_ref c) (m_config c) (m_req_handshake c) x (session_id c)
    (remote_host c) (response c).
Definition set_session_id (x : Z) (c : session_context) : session_context :=
  mk_session_context (m_bound_close c) (m_header c) (m_receive_buffer c)
    (m_receive_buffer_ref c) (m_config c) (m_req_handshake c) (m_res_handshake c) x
    (remote_host c) (response c).
Definition set_response (x : list byte) (c : session_context) : session_context :=
  mk_session_context (m_bound_close c) (m_header c) (m_receive_buffer c)
    (m_receive_buffer_ref c) (m_config c) (m_req_handshake c) (m_res_handshake c)
    (session_id c) (remote_host c) x.

(** The base object as its constructor leaves it. *)
Definition new_session_context (p_id : Z) (p_remote_host : string)
    (p_session_cfg : session_config) (req0 : Req) (res0 : Res) : session_context :=
  mk_session_context false (new_io_header 0 0) fb_empty [] p_session_cfg req0 res0
    p_id p_remote_host [].

(** [session_info], what the accept and disconnect handlers are given: of the
    references it holds they may write those to the response handshake and to
    the configuration. *)
Record session_info := mk_session_info {
  info_id : Z;
  info_remote_host : string;
  info_request_handshake : Req;
  info_response_handshake : Res;
  info_config : session_config }.

(** What a bound function can do through its [session_context *]. *)
Inductive ctx_op : Type :=
  | ctx_set_response (bs : list byte)
  | ctx_close
  | ctx_clear_buffer
  | ctx_set_id (i : Z).   (* [id] is a public data member *)

Definition ctx_apply (c : session_context) (o : ctx_op) : session_context :=
  match o with
  | ctx_set_response bs => set_response bs c
  | ctx_close => set_m_bound_close true c
  | ctx_clear_buffer =>
      set_m_receive_buffer (fb_consume (length (fb_data (m_receive_buffer c)))
                              (m_receive_buffer c)) c
  | ctx_set_id i => set_session_id i c
  end.

(** [data()] and [size()]: the received bytes, whose storage outlives
    [clear_buffer()]. *)
Definition ctx_data (c : session_context) : list byte := m_receive_buffer_ref c.
Definition ctx_size (c : session_context) : nat := length (m_receive_buffer_ref c).

(** [config()] and [request_handshake()] *)
Definition ctx_config (c : session_context) : session_config := m_config c.
Definition ctx_request_handshake (c : session_context) : Req := m_req_handshake c.

Record session := mk_session {
  ctx :> session_context;
  m_write_error : bool;
  m_read_error : bool;
  m_queue : list data_push;
  m_handshake_buffer : B;
  m_timer : time_point;
  m_established : bool;
  m_close : bool;
  m_close_received : bool;
  m_ping_state : ping_state;
  m_info_id : Z }.   (* [info.id]: [const], a copy of [id] made by the constructor *)

(** The member [info]: all but its id refers to the context. *)
Definition info (s : session) : session_info :=
  mk_session_info (m_info_id s) (remote_host s) (m_req_handshake s) (m_res_handshake s) (m_config s).

Definition set_ctx (x : session_context) (s : session) : session :=
  mk_session x (m_write_error s) (m_read_error s) (m_queue s) (m_handshake_buffer s)
    (m_timer s) (m_established s) (m_close s) (m_close_received s) (m_ping_state s) (m_info_id s).
Definition set_m_write_error (x : bool) (s : session) : session :=
  mk_session (ctx s) x (m_read_error s) (m_queue s) (m_handshake_buffer s) (m_timer s)
    (m_established s) (m_close s) (m_close_received s) (m_ping_state s) (m_info_id s).
Definition set_m_read_error (x : bool) (s : session) : session :=
  mk_session (ctx s) (m_write_error s) x (m_queue s) (m_handshake_buffer s) (m_timer s)
    (m_established s) (m_close s) (m_close_received s) (m_ping_state s) (m_info_id s).
Definition set_m_queue (x : list data_push) (s : session) : session :=
  mk_session (ctx s) (m_write_error s) (m_read_error s) x (m_handshake_buffer s)
    (m_timer s) (m_established s) (m_close s) (m_close_received s) (m_ping_state s) (m_info_id s).
Definition set_m_handshake_buffer (x : B) (s : session) : session :=
  mk_session (ctx s) (m_write_error s) (m_read_error s) (m_queue s) x (m_timer s)
    (m_established s) (m_close s) (m_close_received s) (m_ping_state s) (m_info_id s).
Definition set_m_timer (x : time_point) (s : session) : session :=
  mk_session (ctx s) (m_write_error s) (m_read_error s) (m_queue s)
    (m_handshake_buffer s) x (m_established s) (m_close s) (m_close_received s)
    (m_ping_state s) (m_info_id s).
Definition set_m_established (x : bool) (s : session) : session :=
  mk_session (ctx s) (m_write_error s) (m_read_error s) (m_queue s)
    (m_handshake_buffer s) (m_timer s) x (m_close s) (m_close_received s)
    (m_ping_state s) (m_info_id s).
Definition set_m_close (x : bool) (s : session) : session :=
  mk_session (ctx s) (m_write_error s) (m_read_error s) (m_queue s)
    (m_handshake_buffer s) (m_timer s) (m_established s) x (m_close_received s)
    (m_ping_state s) (m_info_id s).
Definition set_m_close_received (x : bool) (s : session) : session :=
  mk_session (ctx s) (m_write_error s) (m_read_error s) (m_queue s)
    (m_handshake_buffer s) (m_timer s) (m_established s) (m_close s) x (m_ping_state s) (m_info_id s).
Definition set_m_ping_state (x : ping_state) (s : session) : session :=
  mk_session (ctx s) (m_write_error s) (m_read_error s) (m_queue s)
    (m_handshake_buffer s) (m_timer s) (m_established s) (m_close s) (m_close_received s)
    x (m_info_id s).

Definition modify_ctx (f : session_context → session_context) (s : session) : session :=
  set_ctx (f (ctx s)) s.

(** ** Effects *)

Inductive session_effect : Type :=
  | eff_async_read
  | eff_async_write (msg : list byte)
  | eff_async_ping
  | eff_async_close
  | eff_async_ssl_handshake
  | eff_async_http_read
  | eff_async_accept
  | eff_timer_cancel              (* by [expires_after] *)
  | eff_timer_wait
  | eff_tcp_expires_after (d : duration)
  | eff_tcp_expires_never
  | eff_read_message_max (n : Z)
  | eff_response_decorator (r : Res)
  | eff_stream_timeout (handshake idle : duration)
  | eff_control_callback
  | eff_binary
  | eff_call_bound (f : Z) (data : list byte)
  | eff_add_session (i : Z)
  | eff_remove_session (i : Z)
  | eff_on_disconnect (i : Z).

Abbreviation sact := (act session session_effect).

(** [*this] *)
Definition this : sact session := act_get.

(** ** The session manager, as the session sees it

    [U] is whatever state the user's function objects have captured: the
    value they find is given with each call. *)

Context {U : Type}.

Definition bound_function : Type := U → session_context → list ctx_op.
(** May change the configuration and the response handshake. *)
Definition accept_function : Type := U → session_info → bool * session_config * Res.

Record manager_handlers := mk_manager_handlers {
  bound_funcs : gmap Z (option bound_function);   (* [None]: an empty function *)
  on_accept_handler : option accept_function;
  has_on_disconnect : bool }.

Context (host : byte_order) (manager : manager_handlers).
Context (srv_timeout : server_timeout).

(** ** Closing *)

(** [m_timer.expires_after(d)] *)
Definition timer_expires_after (now : time_point) (d : duration) : sact unit :=
  do! act_modify (set_m_timer (now + d)) in act_emit eff_timer_cancel.

Definition shutdown : sact unit :=
  let! s := this in
  if m_close s || m_close_received s then act_ret tt
  else do! act_modify (set_m_close true) in act_emit eff_async_close.

Definition close_session (now : time_point) : sact unit :=
  let! s := this in
  if decide (sn_ping_delay (m_config s) ≠ duration_zero) then
    do! act_modify (set_m_ping_state ping_close) in
    timer_expires_after now 0
  else shutdown.

(** ** Reading and writing *)

Definition read : sact unit := act_emit eff_async_read.

(** [write()]: the header and the body of [m_queue.front()], one message. *)
Definition write : sact unit :=
  let! s := this in
  match m_queue s with
  | [] => act_undef
  | d :: _ => act_emit (eff_async_write (header_bytes host (push_header d) ++ push_body d))
  end.

Definition handle_send (d : data_push) : sact unit :=
  let! s := this in
  if m_close s || m_close_received s || m_write_error s || m_read_error s then act_ret tt
  else if decide (config.queue_send_max ≤ length (m_queue s))%nat then act_ret tt
  else
    do! act_modify (λ s, set_m_queue (m_queue s ++ [d]) s) in
    let! s := this in
    if decide (1 < length (m_queue s))%nat then act_ret tt else write.

Definition on_write (now : time_point) (ec : error_code) : sact unit :=
  let! s := this in
  if ec_bool ec || m_close s || m_close_received s || m_read_error s then
    do! act_modify (set_m_write_error true) in
    do! act_modify (set_m_queue []) in
    close_session now
  else
    do! match m_queue s with
        | [] => act_undef      (* [erase(begin())] of an empty deque *)
        | _ :: ds => act_modify (set_m_queue ds)
        end in
    let! s := this in
    if decide (m_queue s ≠ []) then write else act_ret tt.

(** The call of a bound function: its operations on the context, in order. *)
Definition call_bound (u : U) (f : Z) (h : bound_function) : sact unit :=
  let! s := this in
  do! act_emit (eff_call_bound f (ctx_data s)) in
  act_modify (modify_ctx (λ c, foldl ctx_apply c (h u c))).

Definition call_function (now : time_point) (u : U) : sact unit :=
  do! act_modify (modify_ctx (λ c,
        set_m_receive_buffer_ref (fb_data (m_receive_buffer c)) c)) in
  let! s := this in
  if decide (sizeof_io_header ≤ length (m_receive_buffer_ref s))%nat then
    match header_of_bytes host (m_receive_buffer_ref s) with
    | None => act_undef
    | Some h =>
        do! act_modify (modify_ctx (set_m_header h)) in
        let func := bound_funcs manager !! call_id h in
        do! act_modify (modify_ctx (λ c,
              set_m_receive_buffer (fb_consume sizeof_io_header (m_receive_buffer c)) c)) in
        do! act_modify (modify_ctx (λ c,
              set_m_receive_buffer_ref (fb_data (m_receive_buffer c)) c)) in
        match func with
        | Some (Some f) =>
            do! call_bound u (call_id h) f in
            let! s := this in
            if m_bound_close s then close_session now
            else if decide (response s ≠ []) then
              let push := mk_data_push (m_header s) (response s) None in
              do! act_modify (modify_ctx (set_response [])) in
              handle_send push
            else act_ret tt
        | Some None => act_ret tt
        | None => act_ret tt   (* logged: not bound *)
        end
    end
  else act_ret tt.             (* logged: invalid buffer *)

Definition on_read (now : time_point) (u : U) (ec : error_code) : sact unit :=
  let! s := this in
  if ec_bool ec || m_close_received s then
    do! act_modify (set_m_read_error true) in
    close_session now
  else
    do! act_when (negb (m_close s) && negb (m_write_error s)) (call_function now u) in
    do! act_modify (modify_ctx (λ c,
          set_m_receive_buffer (fb_consume (length (fb_data (m_receive_buffer c)))
                                  (m_receive_buffer c)) c)) in
    do! act_modify (modify_ctx (set_response [])) in
    read.

(** ** Accepting the connection *)

Definition on_ssl_handshake (ec : error_code) (bytes_used : nat) : sact unit :=
  if ec_bool ec then act_ret tt
  else
    do! act_modify (λ s, set_m_handshake_buffer (fb_consume bytes_used (m_handshake_buffer s)) s) in
    do! act_emit (eff_tcp_expires_after (st_handshake_or_close_timeout srv_timeout)) in
    act_emit eff_async_http_read.

(** The two overloads of [ssl_handshake()], by [is_ssl()]. *)
Definition ssl_handshake (is_ssl : bool) : sact unit :=
  if is_ssl then
    do! act_emit (eff_tcp_expires_after (st_handshake_or_close_timeout srv_timeout)) in
    act_emit eff_async_ssl_handshake
  else on_ssl_handshake ec_success 0.

Definition accept (is_ssl : bool) : sact unit :=
  do! act_emit eff_binary in ssl_handshake is_ssl.

Definition on_read_handshake (u : U) (ec : error_code) : sact unit :=
  let! s := this in
  if ec_bool ec || negb (bool_decide (length (fb_data (m_handshake_buffer s)) = 0%nat))
  then act_ret tt
  else
    do! act_modify (λ s, set_m_handshake_buffer
          (fb_consume (length (fb_data (m_handshake_buffer s))) (m_handshake_buffer s)) s) in
    let! accepted :=
      match on_accept_handler manager with
      | None => act_ret true
      | Some f =>
          let! s := this in
          let '(ok, cfg, res) := f u (info s) in
          do! act_modify (modify_ctx (λ c, set_m_res_handshake res (set_m_config cfg c))) in
          act_ret ok
      end in
    if negb accepted then act_ret tt
    else
      let! s := this in
      do! act_emit (eff_read_message_max
            (u64 (sn_max_transfer_bytes (m_config s) + Z.of_nat sizeof_io_header))) in
      do! act_emit (eff_response_decorator (m_res_handshake s)) in
      do! act_emit eff_tcp_expires_never in
      do! act_emit (eff_stream_timeout (st_handshake_or_close_timeout srv_timeout) duration_max) in
      act_emit eff_async_accept.

Definition on_accept (now : time_point) (ec : error_code) : sact unit :=
  if ec_bool ec then act_ret tt
  else
    do! act_emit eff_control_callback in
    do! act_modify (set_m_established true) in
    let! s := this in
    do! act_when (bool_decide (sn_ping_delay (m_config s) ≠ duration_zero))
          (do! timer_expires_after now (sn_ping_delay (m_config s)) in
           act_emit eff_timer_wait) in
    do! act_emit (eff_add_session (session_id s)) in
    read.

(** ** Keep-alive *)

(** [is_open]: what [m_stream.is_open()] answers. *)
Definition on_timer (now : time_point) (is_open : bool) (ec : error_code) : sact unit :=
  let again :=
    let! s := this in
    do! timer_expires_after now (sn_ping_delay (m_config s)) in
    act_emit eff_timer_wait in
  let! s := this in
  if ec_bool ec && negb (bool_decide (ec = ec_aborted)) then act_ret tt
  else if decide (m_timer s ≤ now) then
    if is_open && bool_decide (m_ping_state s = ping_next) then
      do! act_modify (set_m_ping_state ping_send) in
      do! act_emit eff_async_ping in
      again
    else shutdown
  else again.

(** [on_ping] and [on_shutdown] only log. *)
Definition on_ping (ec : error_code) : sact unit := act_ret tt.
Definition on_shutdown (ec : error_code) : sact unit := act_ret tt.

Definition on_control_callback (now : time_point) (kind : frame_type) : sact unit :=
  match kind with
  | frame_close => act_modify (set_m_close_received true)
  | _ =>
      do! act_modify (set_m_ping_state ping_next) in
      let! s := this in
      timer_expires_after now (sn_ping_delay (m_config s))
  end.

(** ** Construction and destruction *)

Definition new_session (p_id : Z) (p_remote_host : string) (p_session_cfg : session_config)
    (req0 : Req) (res0 : Res) (p_handshake_buffer : B) : session :=
  mk_session (new_session_context p_id p_remote_host p_session_cfg req0 res0)
    false false [] p_handshake_buffer i64_max false false false ping_next p_id.

(** [~server_session()] *)
Definition server_session_destructor : sact unit :=
  let! s := this in
  act_when (has_on_disconnect manager) (act_emit (eff_on_disconnect (info_id (info s)))).

(** [~session_accept()], then that of its base. *)
Definition session_destructor : sact unit :=
  let! s := this in
  do! act_when (m_established s) (act_emit (eff_remove_session (session_id s))) in
  server_session_destructor.
End session.
