(* ===== verification/ServerSystem.v ===== *)
(** * ServerSystem: a server session and its executor

    The events of one session's strand: posted sends, completions of the
    asynchronous operations it has started, control frames.  A completion can
    only be delivered for an operation that is pending; Boost's contract in the
    other direction (one read, one write, one close at a time) is what the
    invariants establish. *)

From S2P Require Import Prelude Types Header ServerSession.

Section server_system.
Context {B : Type} `{FlatBuffer B} {Req Res U : Type}.
Context (host : byte_order) (manager : manager_handlers (B := B) (Req := Req) (Res := Res) (U := U)).
Context (srv_timeout : server_timeout).
Abbreviation session := (session (B := B) (Req := Req) (Res := Res)).
Abbreviation session_effect := (session_effect (Res := Res)).

(** ** Pending operations

    How many operations of each kind have been started and not completed,
    how many closes were ever started, and the messages given to
    [async_write], in order. *)
Record pending := mk_pending {
  p_read : nat; p_write : nat; p_ping : nat; p_close : nat; p_wait : nat;
  p_ssl : nat; p_http : nat; p_accept : nat;
  closes : nat; wire : list (list byte) }.

Definition no_pending : pending := mk_pending 0 0 0 0 0 0 0 0 0 [].

Definition pend_effect (p : pending) (e : session_effect) : pending :=
  let '(mk_pending r w g c t s h a n l) := p in
  match e with
  | eff_async_read => mk_pending (S r) w g c t s h a n l
  | eff_async_write msg => mk_pending r (S w) g c t s h a n (l ++ [msg])
  | eff_async_ping => mk_pending r w (S g) c t s h a n l
  | eff_async_close => mk_pending r w g (S c) t s h a (S n) l
  | eff_timer_wait => mk_pending r w g c (S t) s h a n l
  | eff_async_ssl_handshake => mk_pending r w g c t (S s) h a n l
  | eff_async_http_read => mk_pending r w g c t s (S h) a n l
  | eff_async_accept => mk_pending r w g c t s h (S a) n l
  | _ => p
  end.

Definition pend_effects : pending → list session_effect → pending := foldl pend_effect.

Definition done_read p := mk_pending (pred (p_read p)) (p_write p) (p_ping p) (p_close p)
  (p_wait p) (p_ssl p) (p_http p) (p_accept p) (closes p) (wire p).
Definition done_write p := mk_pending (p_read p) (pred (p_write p)) (p_ping p) (p_close p)
  (p_wait p) (p_ssl p) (p_http p) (p_accept p) (closes p) (wire p).
Definition done_ping p := mk_pending (p_read p) (p_write p) (pred (p_ping p)) (p_close p)
  (p_wait p) (p_ssl p) (p_http p) (p_accept p) (closes p) (wire p).
Definition done_close p := mk_pending (p_read p) (p_write p) (p_ping p) (pred (p_close p))
  (p_wait p) (p_ssl p) (p_http p) (p_accept p) (closes p) (wire p).
Definition done_wait p := mk_pending (p_read p) (p_write p) (p_ping p) (p_close p)
  (pred (p_wait p)) (p_ssl p) (p_http p) (p_accept p) (closes p) (wire p).
Definition done_ssl p := mk_pending (p_read p) (p_write p) (p_ping p) (p_close p)
  (p_wait p) (pred (p_ssl p)) (p_http p) (p_accept p) (closes p) (wire p).
Definition done_http p := mk_pending (p_read p) (p_write p) (p_ping p) (p_close p)
  (p_wait p) (p_ssl p) (pred (p_http p)) (p_accept p) (closes p) (wire p).
Definition done_accept p := mk_pending (p_read p) (p_write p) (p_ping p) (p_close p)
  (p_wait p) (p_ssl p) (p_http p) (pred (p_accept p)) (closes p) (wire p).

(** ** The system

    [accepted]: what [handle_send] put in the queue; [sent]: what was written
    and removed from it; [invoked]: the calls of bound functions, each its id and
    the bytes it was given (all ghost). *)
Record session_sys := mk_session_sys {
  ses : session;
  pend : pending;
  accepted : list data_push;
  sent : list data_push;
  invoked : list (Z * list byte) }.

Inductive session_event : Type :=
  | ev_ssl_handshake (ec : error_code) (bytes_used : nat)
  | ev_http_request (u : U) (ec : error_code) (req : Req) (rest : B)
  | ev_accept (now : time_point) (ec : error_code)
  | ev_send (d : data_push)
  | ev_read (now : time_point) (u : U) (ec : error_code) (msg : list byte)
  | ev_write (now : time_point) (ec : error_code)
  | ev_timer (now : time_point) (is_open : bool) (ec : error_code)
  | ev_control (now : time_point) (kind : frame_type)
  | ev_ping (ec : error_code)
  | ev_close (ec : error_code).

(** Sends are posted and control frames arrive once the session is
    established ([add_session] publishes it). *)
Definition session_enabled (s : session_sys) (e : session_event) : bool :=
  let p := pend s in
  match e with
  | ev_ssl_handshake _ _ => (0 <? p_ssl p)%nat
  | ev_http_request _ _ _ _ => (0 <? p_http p)%nat
  | ev_accept _ _ => (0 <? p_accept p)%nat
  | ev_send _ | ev_control _ _ => m_established (ses s)
  | ev_read _ _ _ _ => (0 <? p_read p)%nat
  | ev_write _ _ => (0 <? p_write p)%nat
  | ev_timer _ _ _ => (0 <? p_wait p)%nat
  | ev_ping _ => (0 <? p_ping p)%nat
  | ev_close _ => (0 <? p_close p)%nat
  end.

Definition function_call (e : session_effect) : option (Z * list byte) :=
  match e with eff_call_bound f data => Some (f, data) | _ => None end.

(** Runs a handler on the session after the completion was consumed. *)
Definition deliver (m : act session session_effect unit) (s : session) (p : pending)
    (t : session_sys) (new_sent : session → list data_push) : option session_sys :=
  match m s with
  | Done _ s' es =>
      Some (mk_session_sys s' (pend_effects p es)
              (accepted t ++ drop (length (m_queue (ses t))) (m_queue s')) (new_sent s')
              (invoked t ++ omap function_call es))
  | _ => None
  end.

Definition session_handle (t : session_sys) (e : session_event) : option session_sys :=
  let s := ses t in let p := pend t in
  match e with
  | ev_ssl_handshake ec n =>
      deliver (on_ssl_handshake srv_timeout ec n) s (done_ssl p) t (λ _, sent t)
  | ev_http_request u ec req rest =>
      deliver (on_read_handshake manager srv_timeout u ec)
        (set_m_handshake_buffer rest (modify_ctx (set_m_req_handshake req) s))
        (done_http p) t (λ _, sent t)
  | ev_accept now ec => deliver (on_accept now ec) s (done_accept p) t (λ _, sent t)
  | ev_send d => deliver (handle_send host d) s p t (λ _, sent t)
  | ev_read now u ec msg =>
      deliver (on_read host manager now u ec)
        (modify_ctx (λ c, set_m_receive_buffer (fb_append msg (m_receive_buffer c)) c) s)
        (done_read p) t (λ _, sent t)
  | ev_write now ec =>
      deliver (on_write host now ec) s (done_write p) t
        (λ s', if m_write_error s' then sent t else sent t ++ take 1 (m_queue s))
  | ev_timer now is_open ec => deliver (on_timer now is_open ec) s (done_wait p) t (λ _, sent t)
  | ev_control now kind => deliver (on_control_callback now kind) s p t (λ _, sent t)
  | ev_ping ec => deliver (on_ping ec) s (done_ping p) t (λ _, sent t)
  | ev_close ec => deliver (on_shutdown ec) s (done_close p) t (λ _, sent t)
  end.

(** A session from its construction and [accept()]. *)
Definition session_sys_init (is_ssl : bool) (s0 : session) : option session_sys :=
  match accept srv_timeout is_ssl s0 with
  | Done _ s es => Some (mk_session_sys s (pend_effects no_pending es) [] [] [])
  | _ => None
  end.

Definition session_steps := steps session_enabled session_handle.
Definition session_run := run session_enabled session_handle.
End server_system.
