(* ===== verification/ServerSystemFacts.v ===== *)
(** * ServerSystemFacts: the invariants of a server session

    One outstanding read and one outstanding write, a bounded queue written in
    order, one close: what Boost.Beast requires of its caller, and what the
    session promises to the server. *)

From S2P Require Import Prelude Types Header ServerSession ServerSystem.

Section facts.
Context {B : Type} `{FlatBuffer B, !FlatBufferLaws B} {Req Res U : Type}.
Context (host : byte_order) (manager : manager_handlers (B := B) (Req := Req) (Res := Res) (U := U)).
Context (srv_timeout : server_timeout).
Abbreviation session := (session (B := B) (Req := Req) (Res := Res)).
Abbreviation sact := (act session (session_effect (Res := Res)) unit).
Implicit Types (s : session) (p : pending) (t : session_sys (B := B) (Req := Req) (Res := Res)).

(** The bytes of a message on the wire. *)
Definition push_message (d : data_push) : list byte :=
  header_bytes host (push_header d) ++ push_body d.

Lemma pend_effects_app p (es es' : list (session_effect (Res := Res))) :
  pend_effects p (es ++ es') = pend_effects (pend_effects p es) es'.
Proof. apply foldl_app. Qed.

(** ** The queue, the writes and the close *)

Record core s p (snt : list data_push) : Prop := {
  c_write : p_write p = match m_queue s with [] => 0%nat | _ => 1%nat end;
  c_length : (length (m_queue s) ≤ config.queue_send_max)%nat;
  c_write_error : m_write_error s = true → m_queue s = [];
  c_close : closes p = if m_close s then 1%nat else 0%nat;
  c_fifo : m_write_error s = false →
    wire p = push_message <$> snt ++ take 1 (m_queue s) }.

(** What the handlers that are not completions of reads, writes or handshakes
    leave alone; they start at most [w] timer waits. *)
Record frame (w : nat) s p s' p' : Prop := {
  f_established : m_established s' = m_established s;
  f_read_error : m_read_error s' = m_read_error s;
  f_write_error : m_write_error s' = m_write_error s;
  f_close_received : m_close_received s' = m_close_received s;
  f_queue : m_queue s `prefix_of` m_queue s';
  f_buffer : fb_data (m_receive_buffer s) = [] → fb_data (m_receive_buffer s') = [];
  f_read : p_read p' = p_read p;
  f_wait : (p_wait p ≤ p_wait p' ≤ p_wait p + w)%nat;
  f_handshake : (p_ssl p', p_http p', p_accept p') = (p_ssl p, p_http p, p_accept p);
  f_wire : m_write_error s = true → wire p' = wire p }.

Lemma frame_trans w w' s p s' p' s'' p'' :
  frame w s p s' p' → frame w' s' p' s'' p'' → frame (w + w') s p s'' p''.
Proof.
  intros [] []. split; try (by etrans; eauto); auto; try lia.
  intros Hw. rewrite f_wire1 by congruence. auto.
Qed.

(** Handlers that keep [core] and [frame]. *)
Definition good (w : nat) (m : sact) s : Prop :=
  ∀ p snt, core s p snt →
    wp m (λ _ s' es, core s' (pend_effects p es) snt ∧ frame w s p s' (pend_effects p es)) s.

Lemma frame_refl w s p : frame w s p s p.
Proof. split; try done; lia. Qed.

Lemma good_ret w s : good w (act_ret tt) s.
Proof. intros p snt Hc. apply wp_ret. split; [done|apply frame_refl]. Qed.

Lemma good_this w k s : good w (k s) s → good w (let! s0 := this in k s0) s.
Proof.
  intros Hk p snt Hc. apply wp_bind, wp_get. simpl. eapply wp_mono; [by apply Hk|]. auto.
Qed.

Lemma good_bind w w' m k s : good w m s → (∀ s', good w' (k tt) s') → good (w + w') (act_bind m k) s.
Proof.
  intros Hm Hk p snt Hc. apply wp_bind. eapply wp_mono; [by apply Hm|].
  intros [] s' es [Hc' Hf]. eapply wp_mono; [by apply Hk|].
  intros [] s'' es' [Hc'' Hf']. rewrite pend_effects_app.
  split; [done|by eapply frame_trans].
Qed.

Lemma good_seq w m k s : good 0 m s → (∀ s', good w (k tt) s') → good w (act_bind m k) s.
Proof. apply (good_bind 0). Qed.

Lemma good_when w b m s : good w m s → good w (act_when b m) s.
Proof. intros Hm. destruct b; [done|apply good_ret]. Qed.

(** Effects that start nothing. *)
Definition quiet (e : session_effect (Res := Res)) : Prop := ∀ p, pend_effect p e = p.

Lemma good_emit w e s : quiet e → good w (act_emit e) s.
Proof. intros He p snt Hc. apply wp_emit. simpl. rewrite He. split; [done|apply frame_refl]. Qed.

Lemma good_timer_wait s : good 1 (act_emit eff_timer_wait) s.
Proof.
  intros [] snt [C1 C2 C3 C4 C5]. apply wp_emit. simpl in *. split; split; try done; simpl; lia.
Qed.

(** Changes of members the invariants do not mention. *)
Definition harmless (f : session → session) s : Prop :=
  m_established (f s) = m_established s ∧ m_read_error (f s) = m_read_error s ∧
  m_write_error (f s) = m_write_error s ∧ m_close (f s) = m_close s ∧
  m_close_received (f s) = m_close_received s ∧ m_queue (f s) = m_queue s ∧
  (fb_data (m_receive_buffer s) = [] → fb_data (m_receive_buffer (f s)) = []).

Lemma good_modify w f s : harmless f s → good w (act_modify f) s.
Proof.
  intros (H1 & H2 & H3 & H4 & H5 & H6 & H7) p snt [C1 C2 C3 C4 C5]. apply wp_modify. simpl.
  split; split; rewrite ?H1, ?H2, ?H3, ?H4, ?H5, ?H6; auto; lia.
Qed.

Lemma good_timer now d s : good 0 (timer_expires_after now d) s.
Proof. apply good_seq; [by apply good_modify|]. intros. by apply good_emit; intros []. Qed.

Lemma good_shutdown w s : good w shutdown s.
Proof.
  apply good_this. destruct (m_close s) eqn:Ec; [apply good_ret|].
  destruct (m_close_received s) eqn:Er; [apply good_ret|]. simpl.
  intros [] snt [C1 C2 C3 C4 C5]. simpl in *. rewrite Ec in C4. run_act.
  split; split; simpl; try done; lia.
Qed.

Lemma good_close_session now s : good 0 (close_session now) s.
Proof.
  apply good_this. case_decide; [|apply good_shutdown].
  apply good_seq; [by apply good_modify|]. intros. apply good_timer.
Qed.

(** [handle_send] on a session that still sends. *)
Definition sending s : Prop :=
  m_close s = false ∧ m_close_received s = false ∧ m_write_error s = false ∧ m_read_error s = false.

#[export] Instance sending_dec s : Decision (sending s).
Proof. unfold sending. apply _. Defined.

Lemma handle_send_stopped d s : ¬ sending s → handle_send host d s = Done tt s [].
Proof.
  intros Hs. unfold handle_send. run_act.
  destruct (m_close s || m_close_received s || m_write_error s || m_read_error s) eqn:E; [done|].
  exfalso. apply Hs. by prop_bools.
Qed.

Lemma handle_send_full d s :
  (config.queue_send_max ≤ length (m_queue s))%nat → handle_send host d s = Done tt s [].
Proof.
  intros Hl. unfold handle_send. run_act. by destruct (_ || _); [|rewrite decide_True].
Qed.

Lemma handle_send_room d s :
  sending s → (length (m_queue s) < config.queue_send_max)%nat →
  handle_send host d s =
    Done tt (set_m_queue (m_queue s ++ [d]) s)
      (match m_queue s with [] => [eff_async_write (push_message d)] | _ => [] end).
Proof.
  intros (E1 & E2 & E3 & E4) Hl. unfold handle_send, write. run_act.
  rewrite E1, E2, E3, E4. simpl. rewrite decide_False by lia. simpl.
  destruct (m_queue s) as [|d0 ds] eqn:Eq; simpl; [done|].
  case_decide as Hd; [done|]. exfalso. apply Hd. rewrite length_app. simpl. lia.
Qed.

(** The heart of the write loop: a send starts a write exactly when none is
    running. *)
Lemma good_handle_send d s : good 0 (handle_send host d) s.
Proof.
  intros p snt Hc. unfold wp. pose proof (frame_refl 0 s p).
  destruct (decide (sending s)) as [Hs|Hs]; [|by rewrite handle_send_stopped].
  destruct (decide (config.queue_send_max ≤ length (m_queue s))%nat) as [Hl|Hl];
    [by rewrite handle_send_full|].
  rewrite handle_send_room by (done || lia). destruct Hs as (E1 & E2 & E3 & E4).
  destruct p, Hc as [C1 C2 C3 C4 C5]. specialize (C5 E3). simpl in *.
  destruct (m_queue s) as [|d0 ds] eqn:Eq; simpl in *; subst; split; split;
    simpl in *; try done; try congruence; rewrite ?Eq, ?length_app; simpl; try lia.
  - by rewrite app_nil_r, fmap_app.
  - by apply prefix_nil.
  - by rewrite app_comm_cons; apply prefix_app_r.
Qed.

(** ** Handlers built from these *)

Lemma harmless_ctx f s :
  (fb_data (m_receive_buffer s) = [] → fb_data (m_receive_buffer (f (ctx s))) = []) →
  harmless (modify_ctx f) s.
Proof. by repeat split. Qed.

Lemma ctx_apply_buffer ops (c : session_context (B := B) (Req := Req) (Res := Res)) :
  fb_data (m_receive_buffer c) = [] → fb_data (m_receive_buffer (foldl ctx_apply c ops)) = [].
Proof.
  revert c. induction ops as [|o ops IH]; intros c Hc; [done|]. simpl. apply IH.
  destruct o; simpl; rewrite ?fb_data_consume, ?Hc; done.
Qed.

Lemma good_call_bound (u : U) f (h : bound_function) s : good 0 (call_bound u f h) s.
Proof.
  apply good_this, good_seq; [by apply good_emit; intros []|].
  intros s'. apply good_modify, harmless_ctx. simpl. intros. by apply ctx_apply_buffer.
Qed.

Lemma consumed_buffer n (b : B) : fb_data b = [] → fb_data (fb_consume n b) = [].
Proof. intros Hb. by rewrite fb_data_consume, Hb, drop_nil. Qed.

Lemma good_call_function now u s : good 0 (call_function host manager now u) s.
Proof.
  unfold call_function. apply good_seq; [by apply good_modify, harmless_ctx|].
  intros s1. apply good_this. case_decide as Hl; [|apply good_ret].
  destruct (proj2 (header_of_bytes_is_Some host _) Hl) as [h ->].
  apply good_seq; [by apply good_modify, harmless_ctx|]. intros s2.
  apply good_seq; [apply good_modify, harmless_ctx; simpl; apply consumed_buffer|]. intros s3.
  apply good_seq; [by apply good_modify, harmless_ctx|]. intros s4.
  destruct (bound_funcs manager !! call_id h) as [[f|]|]; [|apply good_ret..].
  apply good_seq; [apply good_call_bound|]. intros s5. apply good_this.
  destruct (m_bound_close s5); [apply good_close_session|].
  case_decide; [|apply good_ret].
  apply good_seq; [by apply good_modify, harmless_ctx|]. intros. apply good_handle_send.
Qed.

Lemma good_on_timer now is_open ec s : good 1 (on_timer now is_open ec) s.
Proof.
  unfold on_timer. apply good_this.
  assert (∀ s', good 1 (let! s := this in
    do! timer_expires_after now (sn_ping_delay (m_config s)) in act_emit eff_timer_wait) s')
    as Hagain.
  { intros s'. apply good_this, good_seq; [apply good_timer|]. intros. apply good_timer_wait. }
  destruct (_ && _); [apply good_ret|]. case_decide; [|apply Hagain].
  destruct (is_open && _); [|apply good_shutdown].
  apply good_seq; [by apply good_modify|]. intros.
  apply good_seq; [|done].
  intros [] snt [C1 C2 C3 C4 C5]. apply wp_emit. simpl in *. split; split; try done; simpl; lia.
Qed.

(** ** The invariant of the system *)

Record queue_inv s p (acc snt : list data_push) : Prop := {
  q_core : core s p snt;
  q_accepted : m_write_error s = false → acc = snt ++ m_queue s;
  q_prefix : wire p `prefix_of` (push_message <$> acc) }.

Record loop_inv s p : Prop := {
  l_read : p_read p = if m_established s && negb (m_read_error s) then 1%nat else 0%nat;
  l_buffer : m_read_error s = false → fb_data (m_receive_buffer s) = [];
  l_wait : (p_wait p ≤ 1)%nat;
  l_first : m_established s = false → p_wait p = 0%nat ∧ m_read_error s = false;
  l_handshake : (p_ssl p + p_http p + p_accept p + (if m_established s then 1 else 0) ≤ 1)%nat }.

Definition session_inv t : Prop :=
  queue_inv (ses t) (pend t) (accepted t) (sent t) ∧ loop_inv (ses t) (pend t).

Lemma fifo_prefix s p acc snt :
  core s p snt → m_write_error s = false → acc = snt ++ m_queue s →
  wire p `prefix_of` (push_message <$> acc).
Proof.
  intros Hc Hw ->. rewrite (c_fifo s p snt Hc Hw). apply prefix_fmap, prefix_app, take_prefix.
Qed.

Lemma queue_inv_good w m s p acc snt :
  good w m s → queue_inv s p acc snt →
  wp m (λ _ s' es,
    queue_inv s' (pend_effects p es) (acc ++ drop (length (m_queue s)) (m_queue s')) snt ∧
    frame w s p s' (pend_effects p es)) s.
Proof.
  intros Hm [Hc Ha Hp]. eapply wp_mono; [by apply Hm|]. intros [] s' es [Hc' Hf].
  split; [|done]. destruct (f_queue w _ _ _ _ Hf) as [r Hr].
  assert (acc ++ drop (length (m_queue s)) (m_queue s') = acc ++ r) as ->
    by (by rewrite Hr, drop_app_length).
  assert (m_write_error s' = false → acc ++ r = snt ++ m_queue s') as Ha'.
  { intros Hw. rewrite Ha, Hr, app_assoc; [done|]. by rewrite <-(f_write_error w _ _ _ _ Hf). }
  split; [done|done|]. destruct (m_write_error s) eqn:Ew.
  - rewrite (f_wire w _ _ _ _ Hf Ew), fmap_app. by apply prefix_app_r.
  - assert (m_write_error s' = false) as Ew' by (by rewrite (f_write_error w _ _ _ _ Hf)).
    eapply fifo_prefix; [done|done|by apply Ha'].
Qed.

Lemma loop_inv_frame w s p s' p' :
  frame w s p s' p' → (p_wait p + w ≤ 1)%nat → (m_established s = true ∨ w = 0%nat) →
  loop_inv s p → loop_inv s' p'.
Proof.
  intros [F1 F2 F3 F4 F5 F6 F7 F8 [= F9 F10 F11] F12] Hw Hest [L1 L2 L3 L4 L5].
  split; rewrite ?F1, ?F2, ?F7, ?F9, ?F10, ?F11; auto; try lia.
  intros He. destruct Hest as [?| ->]; [congruence|]. destruct (L4 He) as [? ->]. lia.
Qed.

Lemma deliver_wp m s p t ns Q :
  wp m Q s → ∃ s' es, deliver m s p t ns =
    Some (mk_session_sys s' (pend_effects p es)
            (accepted t ++ drop (length (m_queue (ses t))) (m_queue s')) (ns s')
            (invoked t ++ omap function_call es)) ∧ Q tt s' es.
Proof. intros (a & s' & es & Hm & HQ)%wp_Done. destruct a. unfold deliver. rewrite Hm. eauto. Qed.

(** Handlers that are [good], after a completion that only changes counters. *)
Lemma session_inv_good w m s p t :
  good w m s → queue_inv s p (accepted t) (sent t) → loop_inv s p →
  (p_wait p + w ≤ 1)%nat → (m_established s = true ∨ w = 0%nat) → m_queue (ses t) = m_queue s →
  ∃ t', deliver m s p t (λ _, sent t) = Some t' ∧ session_inv t'.
Proof.
  intros Hm Hq Hl Hw He Hqs.
  destruct (deliver_wp m s p t (λ _, sent t) _ (queue_inv_good w m s p _ _ Hm Hq))
    as (s' & es & -> & Hq' & Hf).
  eexists. split; [done|]. split; simpl; [by rewrite Hqs|].
  by eapply loop_inv_frame.
Qed.

(** A change of counters that leaves the writes alone. *)
Lemma queue_inv_pending s p p' acc snt :
  p_write p' = p_write p → closes p' = closes p → wire p' = wire p →
  queue_inv s p acc snt → queue_inv s p' acc snt.
Proof. intros H1 H2 H3 [[C1 C2 C3 C4 C5] A P]. repeat split; rewrite ?H1, ?H2, ?H3; auto. Qed.

Lemma queue_inv_session s s' p acc snt :
  m_queue s' = m_queue s → m_write_error s' = m_write_error s → m_close s' = m_close s →
  queue_inv s p acc snt → queue_inv s' p acc snt.
Proof. intros H1 H2 H3 [[C1 C2 C3 C4 C5] A P]. repeat split; rewrite ?H1, ?H2, ?H3; auto. Qed.

(** ** One lemma per event that is not simply [good] *)

Abbreviation handle := (session_handle host manager srv_timeout).
Abbreviation kept t e := (∃ t', handle t e = Some t' ∧ session_inv t').

Lemma step_ssl_handshake t ec n :
  session_inv t → (0 < p_ssl (pend t))%nat → kept t (ev_ssl_handshake ec n).
Proof.
  intros [Hq [L1 L2 L3 L4 L5]] Hp. destruct t as [s [] acc snt inv]; simpl in *.
  assert (m_established s = false) as Ee by (destruct (m_established s); [lia|done]).
  unfold deliver, on_ssl_handshake. destruct (ec_bool ec); simpl;
    rewrite drop_all, app_nil_r; (eexists; split; [done|]); split; simpl.
  - by eapply queue_inv_pending; [..|exact Hq].
  - split; simpl; auto. rewrite Ee in *. lia.
  - by eapply queue_inv_session, queue_inv_pending; [..|exact Hq].
  - split; simpl; auto. rewrite Ee in *. lia.
Qed.

(** Past the guards, [on_read_handshake] starts the accept; the user's
    handler only changes the configuration and the response. *)
Lemma on_read_handshake_cases u ec s :
  on_read_handshake manager srv_timeout u ec s = Done tt s [] ∨
  ∃ s' es, on_read_handshake manager srv_timeout u ec s = Done tt s' es ∧
    harmless (λ _, s') s ∧ m_receive_buffer s' = m_receive_buffer s ∧
    ((∀ p, pend_effects (Res := Res) p es = p) ∨
     (∀ p, pend_effects (Res := Res) p es = pend_effect (Res := Res) p eff_async_accept)).
Proof.
  unfold on_read_handshake. run_act. destruct (_ || _); [by left|right].
  destruct (on_accept_handler manager) as [f|]; simpl.
  - destruct (f u (info _)) as [[[] cfg] res]; simpl; eexists _, _;
      (split; [reflexivity|]); (split; [by repeat split|]); (split; [done|]).
    + right. by intros [].
    + by left.
  - eexists _, _. split; [reflexivity|]. split; [by repeat split|].
    split; [done|]. right. by intros [].
Qed.

Lemma step_http_request t u ec req rest :
  session_inv t → (0 < p_http (pend t))%nat → kept t (ev_http_request u ec req rest).
Proof.
  intros [Hq [L1 L2 L3 L4 L5]] Hp. destruct t as [s p acc snt inv]; simpl in *.
  assert (m_established s = false) as Ee by (destruct (m_established s); [lia|done]).
  unfold deliver. set (s1 := set_m_handshake_buffer rest _).
  assert (queue_inv s1 (done_http p) acc snt) as Hq1.
  { by eapply queue_inv_session, queue_inv_pending; [..|exact Hq]. }
  destruct (on_read_handshake_cases u ec s1) as [->|(s2 & es & -> & Hh & Hb & Hes)].
  - simpl. rewrite drop_all, app_nil_r. eexists. split; [done|]. split; [done|].
    split; simpl; auto. rewrite Ee in *. lia.
  - destruct Hh as (H1 & H2 & H3 & H4 & H5 & H6 & H7).
    simpl. rewrite H6. simpl. rewrite drop_all, app_nil_r. eexists. split; [done|].
    destruct (L4 Ee) as [? Er]. destruct p; split; simpl in *.
    + eapply queue_inv_session; [exact H6|exact H3|exact H4|].
      destruct Hes as [-> | ->]; (eapply queue_inv_pending; [..|exact Hq]); done.
    + split; simpl; rewrite ?H1, ?H2, ?Hb; simpl; auto;
        destruct Hes as [-> | ->]; simpl; rewrite ?Ee in *; simpl in *; auto; lia.
Qed.

Lemma step_accept t now ec :
  session_inv t → (0 < p_accept (pend t))%nat → kept t (ev_accept now ec).
Proof.
  intros [Hq [L1 L2 L3 L4 L5]] Hp. destruct t as [s [] acc snt inv]; simpl in *.
  assert (m_established s = false) as Ee by (destruct (m_established s); [lia|done]).
  rewrite Ee in *. simpl in *. destruct (L4 eq_refl) as [-> Er]. subst.
  unfold deliver, on_accept, read, timer_expires_after, this.
  destruct (ec_bool ec); simpl.
  - rewrite drop_all, app_nil_r. eexists. split; [done|]. split; simpl.
    + by eapply queue_inv_pending; [..|exact Hq].
    + split; simpl; rewrite ?Ee; auto; simpl; lia.
  - run_act. destruct (bool_decide _); simpl; rewrite drop_all, app_nil_r;
      (eexists; split; [done|]); split; simpl;
      try (by eapply queue_inv_session, queue_inv_pending; [..|exact Hq]);
      split; simpl; rewrite ?Er; auto; try done; try lia.
Qed.

(** A handler that first changes the state. *)
Lemma deliver_ext (m m' : sact) s s' p t ns :
  m s = m' s' → deliver m s p t ns = deliver m' s' p t ns.
Proof. intros E. unfold deliver. by rewrite E. Qed.

(** A successful read: the handler, then the buffer is emptied and the next
    read is started. *)
Lemma on_read_ok_wp now u s p acc snt :
  m_close_received s = false → m_established s = true → m_read_error s = false →
  p_read p = 0%nat → (p_wait p ≤ 1)%nat → (p_ssl p + p_http p + p_accept p = 0)%nat →
  queue_inv s p acc snt →
  wp (on_read host manager now u ec_success) (λ _ s' es,
    queue_inv s' (pend_effects p es) (acc ++ drop (length (m_queue s)) (m_queue s')) snt ∧
    loop_inv s' (pend_effects p es)) s.
Proof.
  intros Hc He Hr Hp Hw Hh Hq. unfold on_read. apply wp_bind, wp_get. rewrite Hc. simpl.
  apply wp_bind. eapply wp_mono.
  { apply (queue_inv_good 0); [apply good_when, good_call_function|exact Hq]. }
  intros [] s2 es [Hq2 [F1 F2 F3 F4 F5 F6 F7 F8 [= F9 F10 F11] F12]].
  apply wp_bind, wp_modify, wp_bind, wp_modify, wp_emit. simpl.
  rewrite pend_effects_app. destruct (pend_effects p es) eqn:Ep. simpl in *.
  split; [by eapply queue_inv_session, queue_inv_pending; [..|exact Hq2]|].
  split; simpl; rewrite ?F1, ?F2, ?He, ?Hr; simpl; try done; try lia.
  intros _. rewrite fb_data_consume. apply drop_all.
Qed.

Lemma on_read_error now u ec s :
  ec_bool ec || m_close_received s = true →
  on_read host manager now u ec s = close_session now (set_m_read_error true s).
Proof. intros Eb. unfold on_read. run_act. rewrite Eb. run_act. by rewrite !outcome_eta. Qed.

Lemma step_read t now u ec msg :
  session_inv t → (0 < p_read (pend t))%nat → kept t (ev_read now u ec msg).
Proof.
  intros [Hq [L1 L2 L3 L4 L5]] Hp. destruct t as [s p acc snt inv]; simpl in *.
  destruct (m_established s) eqn:Ee; simpl in L1; [|lia].
  destruct (m_read_error s) eqn:Er; simpl in L1; [lia|].
  set (s1 := modify_ctx _ s).
  assert (queue_inv s1 (done_read p) acc snt) as Hq1.
  { by eapply queue_inv_session, queue_inv_pending; [..|exact Hq]. }
  destruct (ec_bool ec || m_close_received s1) eqn:Eb.
  - rewrite (deliver_ext _ (close_session now) _ (set_m_read_error true s1))
      by by apply on_read_error.
    eapply (session_inv_good 0); [apply good_close_session| |..|by right|done].
    + by eapply queue_inv_session; [..|exact Hq1].
    + split; simpl; rewrite ?Ee; simpl; try done; lia.
    + simpl. lia.
  - apply orb_false_iff in Eb as [Eb Ec]. destruct ec; try done.
    destruct (deliver_wp _ _ (done_read p) (mk_session_sys s p acc snt inv) (λ _, snt) _
      (on_read_ok_wp now u s1 (done_read p) acc snt Ec Ee Er ltac:(simpl; lia)
         ltac:(simpl; lia) ltac:(simpl; lia) Hq1)) as (s' & es & -> & Hq' & Hl').
    by eexists.
Qed.

Lemma on_write_error now ec s :
  ec_bool ec || m_close s || m_close_received s || m_read_error s = true →
  on_write host now ec s = close_session now (set_m_queue [] (set_m_write_error true s)).
Proof. intros Eb. unfold on_write. run_act. rewrite Eb. run_act. by rewrite !outcome_eta. Qed.

Lemma on_write_next now ec s d ds :
  ec_bool ec || m_close s || m_close_received s || m_read_error s = false →
  m_queue s = d :: ds →
  on_write host now ec s = Done tt (set_m_queue ds s)
    (match ds with [] => [] | d' :: _ => [eff_async_write (push_message d')] end).
Proof.
  intros Eb Eq. unfold on_write, write. run_act. rewrite Eb, Eq. run_act.
  by destruct ds; case_decide.
Qed.

Lemma step_write t now ec :
  session_inv t → (0 < p_write (pend t))%nat → kept t (ev_write now ec).
Proof.
  intros [Hq [L1 L2 L3 L4 L5]] Hp. destruct t as [s p acc snt inv]; simpl in *.
  destruct Hq as [[C1 C2 C3 C4 C5] A P].
  destruct (m_queue s) as [|d ds] eqn:Eq; [lia|].
  assert (m_write_error s = false) as Ew by (destruct (m_write_error s); naive_solver).
  destruct (ec_bool ec || m_close s || m_close_received s || m_read_error s) eqn:Eb.
  - unfold deliver. rewrite on_write_error by done.
    assert (queue_inv (set_m_queue [] (set_m_write_error true s)) (done_write p) acc snt) as Hq.
    { repeat split; simpl; try done; lia. }
    destruct (proj1 (wp_Done _ _ _) (queue_inv_good 0 _ _ _ _ _ (good_close_session now _) Hq))
      as ([] & s' & es & -> & Hq' & Hf).
    pose proof (f_write_error _ _ _ _ _ Hf) as Ew'. simpl in Ew'.
    pose proof (c_write_error _ _ _ (q_core _ _ _ _ Hq') Ew') as Eq'.
    eexists. split; [done|]. split; simpl.
    + rewrite Ew'. by rewrite Eq', drop_nil in *.
    + eapply (loop_inv_frame 0); [exact Hf|simpl; lia|by right|]. by split.
  - specialize (A Ew). specialize (C5 Ew). specialize (C2). subst acc.
    unfold deliver. erewrite on_write_next by done. simpl. rewrite Ew.
    eexists. split; [done|]. split; simpl.
    + rewrite Eq. simpl. rewrite drop_ge, app_nil_r by lia.
      destruct p, ds as [|d' ds]; simpl in *; subst;
        split; try (split; simpl; try done; try lia); simpl; try by rewrite <-app_assoc.
      * done.
      * by rewrite Ew.
      * intros _. by rewrite !fmap_app.
      * exists (push_message <$> ds). by rewrite !fmap_app, <-!app_assoc.
    + split; destruct p, ds; simpl in *; auto.
Qed.

(** Close frames: only [m_close_received] changes. *)
Lemma step_control t now kind :
  session_inv t → m_established (ses t) = true → kept t (ev_control now kind).
Proof.
  intros [Hq Hl] He. destruct (decide (kind = frame_close)) as [->|Hk].
  - unfold session_handle, deliver, on_control_callback, act_modify. simpl.
    rewrite drop_all, app_nil_r. eexists. split; [done|]. destruct Hl. split; [|by split].
    by eapply queue_inv_session; [..|exact Hq].
  - assert (good 0 (on_control_callback now kind) (ses t)) as Hg.
    { unfold on_control_callback. destruct kind; [| |done];
        (apply good_seq; [by apply good_modify|]; intros; apply good_this, good_timer). }
    eapply (session_inv_good 0); [exact Hg|exact Hq|exact Hl| |by right|done].
    destruct Hl. lia.
Qed.

(** ** Every event *)
Lemma session_step t e :
  session_inv t → session_enabled t e = true → ∃ t', handle t e = Some t' ∧ session_inv t'.
Proof.
  intros Hi He. destruct e as [ec n|u ec req rest|now ec|d|now u ec msg|now ec|now o ec|now k|ec|ec];
    simpl in He; try apply Nat.ltb_lt in He.
  - by apply step_ssl_handshake.
  - by apply step_http_request.
  - by apply step_accept.
  - destruct Hi as [Hq Hl]. eapply (session_inv_good 0);
      [apply good_handle_send|exact Hq|exact Hl|destruct Hl; lia|by right|done].
  - by apply step_read.
  - by apply step_write.
  - destruct Hi as [Hq [L1 L2 L3 L4 L5]].
    eapply (session_inv_good 1); [apply good_on_timer| | |simpl; lia| |done].
    + by eapply queue_inv_pending; [..|exact Hq].
    + split; simpl; auto; try lia. intros E. destruct (L4 E) as [-> ?]. done.
    + destruct (m_established (ses t)); [by left|]. destruct L4; [done|lia].
  - by apply step_control.
  - destruct Hi as [Hq [L1 L2 L3 L4 L5]].
    eapply (session_inv_good 0); [apply good_ret| | |simpl; lia|by right|done].
    + by eapply queue_inv_pending; [..|exact Hq].
    + split; simpl; auto.
  - destruct Hi as [Hq [L1 L2 L3 L4 L5]].
    eapply (session_inv_good 0); [apply good_ret| | |simpl; lia|by right|done].
    + by eapply queue_inv_pending; [..|exact Hq].
    + split; simpl; auto.
Qed.

(** ** The initial state *)
Definition new_session_like s : Prop :=
  ∃ i host cfg req0 res0 hb, s = new_session i host cfg req0 res0 hb.

Lemma session_inv_init is_ssl s t :
  new_session_like s → session_sys_init srv_timeout is_ssl s = Some t → session_inv t.
Proof.
  intros (i & h & cfg & req0 & res0 & hb & ->). unfold session_sys_init, accept.
  destruct is_ssl; simpl; intros [= <-].
  all: split; [split; [split|..]|split]; simpl; try done; try lia.
  all: try apply prefix_nil; auto using fb_data_empty with lia.
Qed.

Lemma session_steps_inv is_ssl s t es t' :
  new_session_like s → session_sys_init srv_timeout is_ssl s = Some t →
  session_steps host manager srv_timeout t es t' →
  session_inv t' ∧ safe session_enabled handle t'.
Proof.
  intros Hs Hi Hr. eapply steps_safe; [|by eapply session_inv_init|exact Hr].
  intros. by apply session_step.
Qed.
End facts.
