(* ===== verification/ServerProps.v ===== *)
(** * ServerProps: what a server session guarantees

    The properties of one session, from its construction on: the discipline of
    its asynchronous operations, the order of what it sends, how it answers a
    request, how it accepts and how it gives up on a silent client. *)

From S2P Require Import Prelude Types Header ServerSession ServerSystem ServerSystemFacts.

#[local] Arguments call_function : simpl never.
#[local] Arguments handle_send : simpl never.
#[local] Arguments close_session : simpl never.

Section props.
Context {B : Type} `{FlatBuffer B, !FlatBufferLaws B} {Req Res U : Type}.
Context (host : byte_order) (manager : manager_handlers (B := B) (Req := Req) (Res := Res) (U := U)).
Context (srv_timeout : server_timeout).
Abbreviation session := (session (B := B) (Req := Req) (Res := Res)).
Abbreviation context := (session_context (B := B) (Req := Req) (Res := Res)).
Implicit Types (s : session).
Abbreviation started is_ssl s t es t' :=
  (session_sys_init srv_timeout is_ssl s = Some t ∧
   session_steps host manager srv_timeout t es t').

(** C12. However the peer, the timers, the bound functions and the callers of
    [send()] behave, no handler of a session reaches undefined behaviour; at
    most one read, one write and one timer wait are outstanding, a close is
    started at most once, and the send queue never exceeds
    [config::queue_send_max]. *)
Theorem server_session_discipline is_ssl s t es t' :
  new_session_like s → started is_ssl s t es t' →
  safe session_enabled (session_handle host manager srv_timeout) t' ∧
  (p_read (pend t') ≤ 1)%nat ∧ (p_write (pend t') ≤ 1)%nat ∧ (p_wait (pend t') ≤ 1)%nat ∧
  (closes (pend t') ≤ 1)%nat ∧ (length (m_queue (ses t')) ≤ config.queue_send_max)%nat.
Proof.
  intros Hs [Hi Hr]. destruct (session_steps_inv host manager srv_timeout _ _ _ _ _ Hs Hi Hr)
    as [[[[C1 C2 C3 C4 C5] A P] [L1 L2 L3 L4 L5]] Hsafe].
  rewrite C1, C4, L1. repeat split; try done.
  - by destruct (_ && _); lia.
  - by destruct (m_queue _); lia.
  - destruct (m_close _); lia.
Qed.

(** C13. What a session gives to [async_write] is, at any time, a prefix of
    the messages [handle_send] accepted, each one header followed by its body,
    in the order they were accepted; and unless a write has failed or the
    session is ending, the messages accepted are those written and those in
    the queue, none lost or duplicated. *)
Theorem server_session_fifo is_ssl s t es t' :
  new_session_like s → started is_ssl s t es t' →
  wire (pend t') `prefix_of` (push_message host <$> accepted t') ∧
  (m_write_error (ses t') = false →
     accepted t' = sent t' ++ m_queue (ses t') ∧
     wire (pend t') = push_message host <$> sent t' ++ take 1 (m_queue (ses t'))).
Proof.
  intros Hs [Hi Hr]. destruct (session_steps_inv host manager srv_timeout _ _ _ _ _ Hs Hi Hr)
    as [[[[C1 C2 C3 C4 C5] A P] _] _].
  split; [done|]. intros Hw. split; [by apply A|by apply C5].
Qed.

(** ** Answering a request *)

Lemma ops_header ops (c : context) : m_header (foldl ctx_apply c ops) = m_header c.
Proof. revert c. induction ops as [|[] ops IH]; intros c; simpl; rewrite ?IH; done. Qed.

(** [handle_send] as a change of the queue. *)
Definition queue_add (d : data_push) (q : list data_push) : list data_push :=
  if decide (length q < config.queue_send_max)%nat then q ++ [d] else q.

Lemma handle_send_sending d s :
  sending s → ∃ es, handle_send host d s = Done tt (set_m_queue (queue_add d (m_queue s)) s) es ∧
    es = if decide (m_queue s = []) then [eff_async_write (push_message host d)] else [].
Proof.
  intros Hs. unfold queue_add. case_decide as Hl.
  - rewrite handle_send_room by done. eexists. split; [done|].
    by destruct (m_queue s); case_decide.
  - rewrite handle_send_full by lia. eexists. split; [by destruct s|].
    rewrite decide_False; [done|]. intros Hq. rewrite Hq in Hl.
    apply Hl. unfold config.queue_send_max. simpl. lia.
Qed.

(** What a request makes of the session, [c] being the context its bound
    function is called with. *)
Inductive verdict : Type := v_ignored | v_close | v_reply (body : list byte).

Definition dispatch (u : U) (c : context) : verdict :=
  match bound_funcs manager !! call_id (m_header c) with
  | Some (Some f) =>
      let c' := foldl ctx_apply c (f u c) in
      if m_bound_close c' then v_close
      else if decide (response c' = []) then v_ignored else v_reply (response c')
  | _ => v_ignored
  end.

Lemma call_function_short now u s :
  (length (fb_data (m_receive_buffer s)) < sizeof_io_header)%nat →
  call_function host manager now u s =
    Done tt (modify_ctx (λ c, set_m_receive_buffer_ref (fb_data (m_receive_buffer c)) c) s) [].
Proof. intros Hl. unfold call_function. run_act. by rewrite decide_False by (simpl; lia). Qed.

(** The call of a bound function in [call_function]. *)
Definition called (h : io_header) s : session :=
  modify_ctx (λ c, set_m_receive_buffer_ref (fb_data (m_receive_buffer c)) c)
    (modify_ctx (λ c, set_m_receive_buffer (fb_consume sizeof_io_header (m_receive_buffer c)) c)
      (modify_ctx (set_m_header h)
        (modify_ctx (λ c, set_m_receive_buffer_ref (fb_data (m_receive_buffer c)) c) s))).

(** What [call_function] does once the header is read. *)
Definition answer (now : time_point) (u : U) : act session (session_effect (Res := Res)) unit :=
  let! s := this in
  match bound_funcs manager !! call_id (m_header s) with
  | Some (Some f) =>
      do! call_bound u (call_id (m_header s)) f in
      let! s := this in
      if m_bound_close s then close_session now
      else if decide (response s ≠ []) then
        let push := mk_data_push (m_header s) (response s) None in
        do! act_modify (modify_ctx (set_response [])) in
        handle_send host push
      else act_ret tt
  | _ => act_ret tt
  end.

Lemma call_function_called now u s h :
  header_of_bytes host (fb_data (m_receive_buffer s)) = Some h →
  call_function host manager now u s = answer now u (called h s).
Proof.
  intros Hh. unfold call_function, answer. run_act. rewrite Hh.
  rewrite decide_True by (by apply (header_of_bytes_is_Some host); rewrite Hh).
  unfold act_bind. simpl. fold (called h s).
  destruct (bound_funcs manager !! call_id h) as [[f|]|]; simpl; try done.
  by rewrite !outcome_eta.
Qed.

Lemma close_session_requests now s :
  m_close_received s = false →
  wp (close_session now) (λ _ s' _, m_queue s' = m_queue s ∧
    ((m_ping_state s' = ping_close ∧ m_timer s' = now) ∨ m_close s' = true)) s.
Proof.
  intros Hr. unfold close_session, shutdown, timer_expires_after. run_act.
  case_decide; simpl; [split; [done|]; left; split; [done|lia]|].
  rewrite Hr. destruct (m_close s) eqn:Ec; simpl; auto.
Qed.

(** The verdict, in terms of the session. *)
Definition carried_out (now : time_point) (h : io_header) (v : verdict) s s' : Prop :=
  match v with
  | v_ignored => m_queue s' = m_queue s
  | v_close => m_queue s' = m_queue s ∧
      ((m_ping_state s' = ping_close ∧ m_timer s' = now) ∨ m_close s' = true)
  | v_reply r => m_queue s' = queue_add (mk_data_push h r None) (m_queue s)
  end.

Lemma answer_dispatch now u s :
  sending s →
  wp (answer now u) (λ _ s' es, carried_out now (m_header s) (dispatch u s) s s' ∧
    (∀ r, dispatch u s = v_reply r → m_queue s = [] →
       eff_async_write (push_message host (mk_data_push (m_header s) r None)) ∈ es)) s.
Proof.
  intros Hs. unfold answer, dispatch. apply wp_bind, wp_get.
  destruct (bound_funcs manager !! call_id (m_header s)) as [[f|]|]; try by apply wp_ret.
  apply wp_bind. unfold call_bound. apply wp_bind, wp_get, wp_bind, wp_emit, wp_modify.
  apply wp_bind, wp_get. set (s1 := modify_ctx _ s).
  change (m_bound_close s1) with (m_bound_close (foldl ctx_apply (ctx s) (f u s))).
  destruct (m_bound_close _).
  - eapply wp_mono; [apply close_session_requests; by destruct Hs as (?&?&?)|]. done.
  - change (response s1) with (response (foldl ctx_apply (ctx s) (f u s))).
    destruct (decide (response _ = [])) as [He|He].
    { rewrite decide_False by auto. by apply wp_ret. }
    rewrite decide_True by done. apply wp_bind, wp_modify.
    destruct (handle_send_sending (mk_data_push (m_header s1) (response s1) None)
      (modify_ctx (set_response []) s1) Hs) as (es & Hes & ->).
    unfold wp. cbv beta zeta. change (response (foldl ctx_apply (ctx s) (f u s))) with (response s1).
    rewrite Hes. simpl. rewrite ops_header. split; [done|].
    intros r [= <-] Hq. rewrite decide_True by done. set_solver.
Qed.

Lemma on_read_call now u s s1 es :
  sending s → call_function host manager now u s = Done tt s1 es →
  on_read host manager now u ec_success s =
    Done tt (modify_ctx (set_response []) (modify_ctx (λ c,
      set_m_receive_buffer (fb_consume (length (fb_data (m_receive_buffer c)))
        (m_receive_buffer c)) c) s1)) (es ++ [eff_async_read]).
Proof.
  intros (E1 & E2 & E3 & E4) Hcall. unfold on_read. run_act. rewrite E1, E2, E3. simpl.
  by rewrite Hcall.
Qed.

(** The verdict carried out by the whole of [on_read]. *)
Lemma on_read_dispatched now u s :
  sending s →
  ∃ s' es, on_read host manager now u ec_success s = Done tt s' (es ++ [eff_async_read]) ∧
    fb_data (m_receive_buffer s') = [] ∧ response s' = [] ∧
    match header_of_bytes host (fb_data (m_receive_buffer s)) with
    | None => m_queue s' = m_queue s ∧ es = []
    | Some h =>
        let c := ctx (called h s) in
        m_header c = h ∧ ctx_data c = drop sizeof_io_header (fb_data (m_receive_buffer s)) ∧
        carried_out now h (dispatch u c) s s' ∧
        (∀ r, dispatch u c = v_reply r → m_queue s = [] →
           eff_async_write (header_bytes host h ++ r) ∈ es)
    end.
Proof.
  intros Hs. assert (∃ s1 es, call_function host manager now u s = Done tt s1 es ∧
    match header_of_bytes host (fb_data (m_receive_buffer s)) with
    | None => m_queue s1 = m_queue s ∧ es = []
    | Some h =>
        carried_out now h (dispatch u (called h s)) s s1 ∧
        (∀ r, dispatch u (called h s) = v_reply r → m_queue s = [] →
           eff_async_write (header_bytes host h ++ r) ∈ es)
    end) as (s1 & es & Hcall & Hout).
  { destruct (header_of_bytes host _) as [h|] eqn:Eh.
    - rewrite (call_function_called _ _ _ _ Eh).
      destruct (proj1 (wp_Done _ _ _) (answer_dispatch now u (called h s) Hs))
        as ([] & s1 & es & Hes & HQ). eauto.
    - rewrite call_function_short; [by eexists _, _|].
      destruct (decide (sizeof_io_header ≤ length (fb_data (m_receive_buffer s)))%nat) as [Hl|];
        [|lia].
      apply (header_of_bytes_is_Some host) in Hl as [? ?]. congruence. }
  rewrite (on_read_call _ _ _ _ _ Hs Hcall). eexists _, es. split; [done|].
  split; [simpl; by rewrite fb_data_consume, drop_all|]. split; [done|].
  destruct (header_of_bytes _ _) as [h|]; [|done]. destruct Hout as [Ho Hw].
  split; [done|]. split; [apply fb_data_consume|]. split; [|done].
  change (dispatch u (called h s)) with (dispatch u (ctx (called h s))) in Ho.
  destruct (dispatch u (ctx (called h s))); apply Ho.
Qed.

(** C14. A read message is answered as [dispatch] says: a message shorter than
    a header, one whose [call_id] is not bound or one whose function leaves
    [response] empty queues nothing; a function that asked for [close()]
    requests the close and sends nothing; otherwise the response is queued
    (unless [config::queue_send_max] messages wait) behind the header of the
    request, so with its [result_id], and is written at once if nothing was
    queued.  In every case the buffer and the response are emptied and the
    next read is started. *)
Theorem on_read_dispatch now u s :
  sending s →
  ∃ s' es, on_read host manager now u ec_success s = Done tt s' (es ++ [eff_async_read]) ∧
    fb_data (m_receive_buffer s') = [] ∧ response s' = [] ∧
    match header_of_bytes host (fb_data (m_receive_buffer s)) with
    | None => m_queue s' = m_queue s ∧ es = []
    | Some h =>
        let c := ctx (called h s) in
        m_header c = h ∧ ctx_data c = drop sizeof_io_header (fb_data (m_receive_buffer s)) ∧
        carried_out now h (dispatch u c) s s' ∧
        (∀ r, dispatch u c = v_reply r → m_queue s = [] →
           eff_async_write (header_bytes host h ++ r) ∈ es)
    end.
Proof. apply on_read_dispatched. Qed.

(** ** Keep-alive *)

Definition not_control (e : session_event (B := B) (Req := Req) (U := U)) : Prop :=
  match e with ev_control _ _ => False | _ => True end.

Definition awaiting_pong s : Prop := m_ping_state s ≠ ping_next.

Lemma ctx_awaiting f s : awaiting_pong s → awaiting_pong (modify_ctx f s).
Proof. done. Qed.

(** Only control frames bring [ping_next] back. *)
Lemma awaiting_close_session now : pres awaiting_pong (close_session now).
Proof. unfold close_session, shutdown, timer_expires_after, this. by solve_pres. Qed.

Lemma awaiting_handle_send d : pres awaiting_pong (handle_send host d).
Proof. unfold handle_send, write, this. by solve_pres. Qed.

Lemma awaiting_call_function now u : pres awaiting_pong (call_function host manager now u).
Proof.
  unfold call_function, call_bound, this. solve_pres;
    try done; first [apply awaiting_close_session|apply awaiting_handle_send].
Qed.

Lemma awaiting_on_read now u ec : pres awaiting_pong (on_read host manager now u ec).
Proof.
  unfold on_read, read, this. solve_pres;
    try done; first [apply awaiting_close_session|apply awaiting_call_function].
Qed.

Lemma awaiting_on_write now ec : pres awaiting_pong (on_write host now ec).
Proof. unfold on_write, write, this. solve_pres; try done; apply awaiting_close_session. Qed.

Lemma awaiting_on_timer now o ec : pres awaiting_pong (on_timer now o ec).
Proof. unfold on_timer, shutdown, timer_expires_after, this. by solve_pres. Qed.

Lemma awaiting_on_accept now ec : pres awaiting_pong (on_accept now ec).
Proof. unfold on_accept, read, timer_expires_after, this. by solve_pres. Qed.

Lemma awaiting_on_read_handshake u ec : pres awaiting_pong (on_read_handshake manager srv_timeout u ec).
Proof. unfold on_read_handshake, this. by solve_pres. Qed.

Lemma awaiting_on_ssl_handshake ec n : pres awaiting_pong (on_ssl_handshake srv_timeout ec n).
Proof. unfold on_ssl_handshake. by solve_pres. Qed.

Abbreviation handle := (session_handle host manager srv_timeout).

Lemma deliver_pres P m s p t ns t' :
  pres P m → P s → deliver m s p t ns = Some t' → P (ses t').
Proof.
  unfold deliver. destruct (m s) as [a s' es| |] eqn:E; try done. intros Hm HP [= <-].
  by eapply Hm.
Qed.

Lemma awaiting_step t e t' :
  not_control e → awaiting_pong (ses t) → handle t e = Some t' → awaiting_pong (ses t').
Proof.
  intros He Ha. destruct e; simpl in *; try done;
    (eapply deliver_pres; [|exact Ha]); try apply pres_ret;
    auto using awaiting_on_read, awaiting_on_write, awaiting_on_timer, awaiting_on_accept,
      awaiting_on_read_handshake, awaiting_on_ssl_handshake, awaiting_handle_send.
Qed.

Lemma awaiting_steps t es t' :
  Forall not_control es → awaiting_pong (ses t) →
  session_steps host manager srv_timeout t es t' → awaiting_pong (ses t').
Proof.
  intros Hes Ha Hr. induction Hr as [t|t es t' e t'' Hr IH [_ Hh]]; [done|].
  apply Forall_app in Hes as [Hes [He _]%Forall_cons]. 
  eapply awaiting_step; [done|by apply IH|done].
Qed.

Lemma on_timer_pings now ec s :
  ec ≠ ec_failure → m_timer s ≤ now → m_ping_state s = ping_next →
  on_timer now true ec s =
    Done tt (set_m_timer (now + sn_ping_delay (m_config s)) (set_m_ping_state ping_send s))
      [eff_async_ping; eff_timer_cancel; eff_timer_wait].
Proof.
  intros Hec Ht Hp. unfold on_timer, timer_expires_after, this. run_act. rewrite Hp.
  destruct ec; try done; simpl; by rewrite decide_True by done.
Qed.

Lemma on_timer_closes now o ec s :
  ec ≠ ec_failure → m_timer s ≤ now → awaiting_pong s → on_timer now o ec s = shutdown s.
Proof.
  intros Hec Ht Hp. unfold on_timer, timer_expires_after, this. run_act.
  rewrite decide_True by done. rewrite (bool_decide_eq_false_2 _ Hp), andb_false_r.
  destruct ec; try done; simpl; by rewrite outcome_eta.
Qed.

(** C21. Keep-alive: when the timer of a session expires with no ping pending,
    a ping is sent and the timer set one [ping_delay] ahead; if then no
    control frame arrives, whatever else happens, the timer's next expiry
    ends the session: it has been closed, or the peer has closed it, and a
    session that was still open starts its [async_close] there. *)
Theorem keep_alive_closes t0 now0 ec0 t1 es t2 now is_open ec t3 :
  ec0 ≠ ec_failure → m_timer (ses t0) ≤ now0 → m_ping_state (ses t0) = ping_next →
  handle t0 (ev_timer now0 true ec0) = Some t1 →
  session_steps host manager srv_timeout t1 es t2 → Forall not_control es →
  ec ≠ ec_failure → m_timer (ses t2) ≤ now →
  handle t2 (ev_timer now is_open ec) = Some t3 →
  p_ping (pend t1) = S (p_ping (pend t0)) ∧
  m_timer (ses t1) = now0 + sn_ping_delay (m_config (ses t0)) ∧
  (m_close (ses t3) = true ∨ m_close_received (ses t3) = true) ∧
  (m_close (ses t2) = false → m_close_received (ses t2) = false →
     closes (pend t3) = S (closes (pend t2))).
Proof.
  intros Hec0 Ht0 Hp0 H1 Hr Hes Hec Ht H3. simpl in H1, H3. unfold deliver in H1, H3.
  rewrite on_timer_pings in H1 by done. injection H1 as <-.
  rewrite on_timer_closes in H3; [|done..|].
  - split; [by destruct (pend t0)|]. split; [done|].
    unfold shutdown, this in H3. run_act.
    destruct (m_close (ses t2)) eqn:Ec; [injection H3 as <-; (split; [by auto|done])|].
    destruct (m_close_received (ses t2)) eqn:Er; [injection H3 as <-; (split; [by auto|done])|].
    injection H3 as <-. destruct (pend t2). simpl. auto.
  - by eapply awaiting_steps; [done| |exact Hr].
Qed.

(** C40. A requested close can be lost: [close_session] only marks the session
    and lets the timer expire; when a pong (or a ping) arrives before the
    handler of that expiry has run, [on_control_callback] overwrites the mark
    and moves the timer, and the handler goes back to waiting: no close is
    started, and the session stays open until the next keep-alive round. *)
Theorem close_request_lost now now' now'' kind s :
  sn_ping_delay (m_config s) ≠ duration_zero → kind ≠ frame_close →
  now'' < now' + sn_ping_delay (m_config s) →
  ∃ s' es,
    (do! close_session now in (do! on_control_callback now' kind in
     on_timer now'' true ec_aborted)) s = Done tt s' es ∧
    (eff_async_close ∉ es) ∧ m_close s' = m_close s ∧ m_ping_state s' = ping_next ∧
    m_timer s' = now'' + sn_ping_delay (m_config s).
Proof.
  intros Hd Hk Hn. unfold close_session, on_control_callback, on_timer, timer_expires_after, this.
  run_act. rewrite (decide_True (P := sn_ping_delay (m_config s) ≠ duration_zero)) by done.
  destruct kind; try done; run_act; rewrite decide_False by lia; run_act;
    (eexists _, _; split; [done|]); split_and!; try done; set_solver.
Qed.

(** ** Accepting a connection *)

(** The event that lets a connection in. *)
Definition approval (e : session_event (B := B) (Req := Req) (U := U)) : Prop :=
  match e with
  | ev_http_request u ec req rest =>
      ec = ec_success ∧ fb_data rest = [] ∧
      match on_accept_handler manager with
      | None => True
      | Some f => ∃ i, info_request_handshake i = req ∧ (f u i).1.1 = true
      end
  | _ => False
  end.

(** The accept is started, or done. *)
Definition admitted (t : session_sys (B := B) (Req := Req) (Res := Res)) : Prop :=
  m_established (ses t) = true ∨ (0 < p_accept (pend t))%nat.

Lemma on_read_handshake_approval u ec req rest s s' es :
  on_read_handshake manager srv_timeout u ec
    (set_m_handshake_buffer rest (modify_ctx (set_m_req_handshake req) s)) = Done tt s' es →
  m_established s' = m_established s ∧
  (approval (ev_http_request u ec req rest) ∨ ∀ p, p_accept (pend_effects p es) = p_accept p).
Proof.
  unfold on_read_handshake, approval, this. run_act.
  destruct (ec_bool ec) eqn:Ee; simpl.
  { intros [= <- <-]. by auto. }
  destruct (bool_decide_reflect (length (fb_data rest) = 0%nat)) as [Hl|]; simpl;
    [|intros [= <- <-]; by auto].
  apply length_zero_iff_nil in Hl. assert (ec = ec_success) as -> by (by destruct ec).
  destruct (on_accept_handler manager) as [f|]; simpl; [|intros [= <- <-]; by auto].
  destruct (f u _) as [[[] cfg] res] eqn:Ef; simpl; intros [= <- <-]; [|by auto].
  split; [done|]. left. split_and!; try done. eexists. by rewrite Ef.
Qed.

(** The other events do not start an accept. *)
Lemma good_admitted w m s p t ns t' snt :
  good host w m s → core host s p snt → deliver m s p t ns = Some t' →
  m_established (ses t') = m_established s ∧ p_accept (pend t') = p_accept p.
Proof.
  intros Hm Hc. destruct (proj1 (wp_Done _ _ _) (Hm p snt Hc)) as (a & s' & es & E & _ & Hf).
  unfold deliver. rewrite E. intros [= <-]. simpl.
  by destruct Hf as [? ? ? ? ? ? ? ? [= ? ? ?] ?].
Qed.

Lemma admitted_step t e t' :
  session_inv host t → session_enabled t e = true → handle t e = Some t' → admitted t' →
  admitted t ∨ approval e.
Proof.
  intros [[Hc _ _] [L1 L2 L3 L4 L5]] He Hh Ha.
  destruct (m_established (ses t)) eqn:Ee; [by do 2 left|]. simpl in L1, L5.
  destruct e as [ec n|u ec req rest|now ec|d|now u ec msg|now ec|now o ec|now k|ec|ec];
    simpl in He, Hh; try apply Nat.ltb_lt in He; try congruence; try lia.
  - left. unfold deliver, on_ssl_handshake in Hh. unfold admitted in *.
    destruct (pend t), (ec_bool ec); injection Hh as <-; exact Ha.
  - unfold deliver in Hh.
    destruct (on_read_handshake _ _ _ _ _) as [[] s' es| |] eqn:E; try done.
    injection Hh as <-. apply on_read_handshake_approval in E as [E1 [E2|E2]];
      [by right|left].
    unfold admitted in *. simpl in Ha. by rewrite E1, E2 in Ha.
  - left. by right.
  - left. unfold admitted in *. pose proof (c_write _ _ _ _ Hc) as Hw.
    destruct (m_queue (ses t)) as [|d ds] eqn:Eq; [lia|].
    destruct (ec_bool ec || m_close (ses t) || m_close_received (ses t) || m_read_error (ses t))
      eqn:Eb.
    + rewrite (deliver_ext _ (close_session now) _ (set_m_queue [] (set_m_write_error true (ses t))))
        in Hh by by apply on_write_error.
      apply (good_admitted 0 _ _ _ _ _ _ []) in Hh as [H1 H2]; [|apply good_close_session|].
      * by rewrite H1, H2 in Ha.
      * destruct Hc. split; simpl; try done; [by rewrite Hw|lia].
    + unfold deliver in Hh. erewrite on_write_next in Hh by done. injection Hh as <-.
      destruct (pend t), ds; exact Ha.
  - left. injection Hh as <-. exact Ha.
  - left. injection Hh as <-. exact Ha.
Qed.

(** An admitted session was approved. *)
Lemma admitted_approved is_ssl s t es t' :
  new_session_like s → started is_ssl s t es t' → admitted t' → Exists approval es.
Proof.
  intros Hs [Hi Hr]. assert (¬ admitted t) as H0.
  { destruct Hs as (i & h & cfg & req0 & res0 & hb & ->). unfold session_sys_init, accept in Hi.
    destruct is_ssl; injection Hi as <-; intros [?|?]; simpl in *; (done || lia). }
  induction Hr as [t|t es t1 e t2 Hr IH [He Hh]]; [done|]. intros Ha.
  destruct (session_steps_inv host manager srv_timeout _ _ _ _ _ Hs Hi Hr) as [Hinv _].
  destruct (admitted_step _ _ _ Hinv He Hh Ha) as [Ha1|Hap]; apply Exists_app; [left|right].
  - by apply IH.
  - by apply Exists_cons_hd.
Qed.

(** C22. No connection is established, and none is being accepted, unless the
    handshake request was read without error and without trailing bytes and
    the server's accept handler, where there is one, was called with that
    request and returned true. *)
Theorem accept_requires_approval is_ssl s t es t' :
  new_session_like s → started is_ssl s t es t' → admitted t' → Exists approval es.
Proof. apply admitted_approved. Qed.

(** The size limit of a session: a connection that is accepted has its
    read limit set to [max_transfer_bytes] of the configuration the accept
    handler left, plus the header; the sum is a [size_t], so a configuration
    within 16 bytes of its maximum wraps to a limit below one header. *)
Theorem read_limit u ec s s' es :
  on_read_handshake manager srv_timeout u ec s = Done tt s' es → eff_async_accept ∈ es →
  is_u64 (sn_max_transfer_bytes (m_config s')) →
  ∃ n, eff_read_message_max n ∈ es ∧
    (sn_max_transfer_bytes (m_config s') + Z.of_nat sizeof_io_header < 2 ^ 64 →
       n = sn_max_transfer_bytes (m_config s') + Z.of_nat sizeof_io_header) ∧
    (2 ^ 64 ≤ sn_max_transfer_bytes (m_config s') + Z.of_nat sizeof_io_header →
       n = sn_max_transfer_bytes (m_config s') + Z.of_nat sizeof_io_header - 2 ^ 64 ∧
       n < Z.of_nat sizeof_io_header).
Proof.
  intros Hrun Hacc Hmax.
  exists (u64 (sn_max_transfer_bytes (m_config s') + Z.of_nat sizeof_io_header)).
  split.
  - revert Hrun Hacc. unfold on_read_handshake, this. run_act.
    destruct (_ || _); [intros [= <- <-] []%elem_of_nil|].
    destruct (on_accept_handler manager) as [f|]; simpl; [|intros [= <- <-] _; set_solver].
    destruct (f u _) as [[[] cfg] res]; simpl; intros [= <- <-]; [set_solver|].
    by intros []%elem_of_nil.
  - change (Z.of_nat sizeof_io_header) with 16. destruct Hmax as [H0 H1].
    unfold u64, wrap. split; intros Hs; [apply Z.mod_small; lia|].
    enough (sn_max_transfer_bytes (m_config s') + 16 - 2 ^ 64 =
      (sn_max_transfer_bytes (m_config s') + 16) mod 2 ^ 64) by lia.
    apply (Z.mod_unique _ _ 1); lia.
Qed.
End props.

(** ** Concrete sessions, for the witnesses *)

Module Demo.
(** A server that echoes on id 7, closes on id 8 and accepts one request. *)
Definition echo : bound_function (B := list byte) (Req := nat) (Res := unit) (U := unit) :=
  λ _ c, [ctx_set_response (ctx_data c)].
Definition bye : bound_function (B := list byte) (Req := nat) (Res := unit) (U := unit) :=
  λ _ c, [ctx_close].
Definition manager : manager_handlers (B := list byte) (Req := nat) (Res := unit) (U := unit) :=
  mk_manager_handlers (<[7 := Some echo]> {[8 := Some bye]})
    (Some (λ _ i, (bool_decide (info_request_handshake i = 1%nat), info_config i, tt))) true.
Definition cfg : session_config := mk_session_config 64 1000.
Definition timeout : server_timeout := mk_server_timeout 30000.
Definition fresh : session (B := list byte) (Req := nat) (Res := unit) :=
  new_session 1 "127.0.0.1" cfg 0%nat tt [].

Definition the (o : option (session_sys (B := list byte) (Req := nat) (Res := unit))) :=
  default (mk_session_sys fresh no_pending [] [] []) o.
Definition opened := the (session_sys_init timeout false fresh).
Definition drive es := the (session_run little_endian manager timeout opened es).

Definition connect : list (session_event (B := list byte) (Req := nat) (U := unit)) :=
  [ev_http_request tt ec_success 1%nat []; ev_accept 0 ec_success].
Definition request (id : Z) (body : list byte) :=
  header_bytes little_endian (new_io_header id 9) ++ body.
Definition exchange := connect ++ [ev_read 1 tt ec_success (request 7 [x61])].

Lemma fresh_like : new_session_like fresh.
Proof. by repeat eexists. Qed.
Lemma opened_start : session_sys_init timeout false fresh = Some opened.
Proof. reflexivity. Qed.
End Demo.

Import Demo.

Lemma server_session_discipline_witness :
  let t := drive exchange in
  safe session_enabled (session_handle little_endian manager timeout) t ∧
  (p_read (pend t) ≤ 1)%nat ∧ (p_write (pend t) ≤ 1)%nat ∧ (p_wait (pend t) ≤ 1)%nat ∧
  (closes (pend t) ≤ 1)%nat ∧ (length (m_queue (ses t)) ≤ config.queue_send_max)%nat.
Proof.
  apply (server_session_discipline little_endian manager timeout false fresh opened exchange);
    [apply fresh_like|split; [reflexivity|apply run_steps; vm_compute; reflexivity]].
Defined.

Lemma server_session_fifo_witness :
  let t := drive exchange in
  (wire (pend t) = [request 7 [x61]]) ∧
  wire (pend t) `prefix_of` (push_message little_endian <$> accepted t) ∧
  (m_write_error (ses t) = false →
     accepted t = sent t ++ m_queue (ses t) ∧
     wire (pend t) = push_message little_endian <$> sent t ++ take 1 (m_queue (ses t))).
Proof.
  split; [vm_compute; reflexivity|].
  apply (server_session_fifo little_endian manager timeout false fresh opened exchange);
    [apply fresh_like|split; [reflexivity|apply run_steps; vm_compute; reflexivity]].
Defined.

Lemma on_read_dispatch_witness :
  let s := modify_ctx (set_m_receive_buffer (request 7 [x61])) (ses (drive connect)) in
  ∃ s' es, on_read little_endian manager 1 tt ec_success s = Done tt s' (es ++ [eff_async_read]) ∧
    m_queue s' = [mk_data_push (new_io_header 7 9) [x61] None] ∧
    eff_async_write (request 7 [x61]) ∈ es.
Proof.
  intros s. destruct (on_read_dispatch little_endian manager 1 tt s) as (s' & es & E & _ & _ & H).
  { vm_compute. auto. }
  exists s', es. split; [exact E|]. vm_compute in H.
  destruct H as (_ & _ & Hq & Hw). split; [exact Hq|]. exact (Hw _ eq_refl eq_refl).
Defined.

Lemma keep_alive_closes_witness :
  let t1 := drive (connect ++ [ev_timer 1000 true ec_success]) in
  let t3 := drive (connect ++ [ev_timer 1000 true ec_success; ev_ping ec_success;
                               ev_timer 2000 true ec_success]) in
  p_ping (pend t1) = 1%nat ∧ m_timer (ses t1) = 2000 ∧
  (m_close (ses t3) = true ∨ m_close_received (ses t3) = true) ∧ closes (pend t3) = 1%nat.
Proof.
  intros t1 t3.
  destruct (keep_alive_closes little_endian manager timeout (drive connect) 1000 ec_success t1
    [ev_ping ec_success] (drive (connect ++ [ev_timer 1000 true ec_success; ev_ping ec_success]))
    2000 true ec_success t3) as (H1 & H2 & H3 & H4).
  - discriminate.
  - vm_compute. discriminate.
  - reflexivity.
  - vm_compute. reflexivity.
  - apply run_steps. vm_compute. reflexivity.
  - by constructor.
  - discriminate.
  - vm_compute. discriminate.
  - vm_compute. reflexivity.
  - split; [exact H1|]. split; [exact H2|]. split; [exact H3|]. apply H4; reflexivity.
Defined.

Lemma close_request_lost_witness :
  let s := ses (drive connect) in
  ∃ s' es,
    (do! close_session 10 in (do! on_control_callback 11 frame_pong in
     on_timer 12 true ec_aborted)) s = Done tt s' es ∧
    (eff_async_close ∉ es) ∧ m_close s' = m_close s ∧ m_ping_state s' = ping_next ∧
    m_timer s' = 12 + 1000.
Proof. apply (close_request_lost 10 11 12 frame_pong); vm_compute; discriminate || reflexivity. Defined.

Lemma accept_requires_approval_witness :
  m_established (ses (drive connect)) = true ∧ Exists (approval manager) connect.
Proof.
  split; [reflexivity|].
  apply (accept_requires_approval little_endian manager timeout false fresh opened connect (drive connect));
    [apply fresh_like|split; [reflexivity|apply run_steps; vm_compute; reflexivity]|by left].
Defined.

Lemma read_limit_witness :
  let s := modify_ctx (λ c, set_m_config (mk_session_config (2 ^ 64 - 1) 0)
             (set_m_req_handshake 1%nat c)) fresh in
  ∃ s' es n, on_read_handshake manager timeout tt ec_success s = Done tt s' es ∧
    eff_read_message_max n ∈ es ∧ n = 15.
Proof.
  intros s. destruct (on_read_handshake manager timeout tt ec_success s) as [[] s' es| |] eqn:E;
    vm_compute in E; try done.
  injection E as <- <-.
  eexists _, _. edestruct (read_limit manager timeout tt ec_success s) as (n & Hn & _ & Hw);
    [vm_compute; reflexivity|set_solver|vm_compute; split; [discriminate|reflexivity]|].
  exists n. split; [reflexivity|]. split; [exact Hn|].
  destruct Hw as [-> _]; [vm_compute; discriminate|reflexivity].
Defined.

(** Two pings can be outstanding at once, which Boost.Beast does not allow
    ([async_ping] may be active once at a time): any control frame puts the
    session back to [ping_next], whether or not its own ping was written. *)
Theorem two_pings_outstanding :
  ∃ t', session_steps little_endian manager timeout opened
          (connect ++ [ev_timer 1000 true ec_success; ev_control 1500 frame_ping;
                       ev_timer 2500 true ec_success]) t' ∧
        p_ping (pend t') = 2%nat.
Proof.
  exists (drive (connect ++ [ev_timer 1000 true ec_success; ev_control 1500 frame_ping;
                       ev_timer 2500 true ec_success])).
  split; [apply run_steps; vm_compute; reflexivity|reflexivity].
Qed.
