(* ===== verification/SessionManager.v ===== *)
(** * SessionManager: [session_manager] of
    include/radrpc/impl/server/server_session.hpp

    The manager keeps weak references to the sessions and sends one message to
    many of them.  It counts its connections by the use count of the shared
    pointers to itself, so the model keeps who owns one: the server and its
    listener ([holders]), every session object alive, and every broadcast
    message alive, whose deleter owns the manager. *)

From S2P Require Import Prelude Types Header ServerSession.

Inductive stream_type : Set := plain_stream | ssl_stream.

#[export] Instance stream_type_eq_dec : EqDecision stream_type.
Proof. solve_decision. Defined.

(** A [data_push] made by [broadcast], with the number of its owners. *)
Record shared_push := mk_shared_push { push_data : data_push; push_refs : nat }.

(** The manager and the objects that refer to it.  Sessions and messages are
    numbered; [alive] and [pushes] hold the objects not yet destroyed. *)
Record world := mk_world {
  m_sub_refs : Z;
  m_msg_queued : Z;
  m_plain_sessions : gmap Z nat;
  m_ssl_sessions : gmap Z nat;
  holders : Z;
  alive : gmap nat stream_type;
  pushes : gmap nat shared_push;
  fresh_session : nat;
  fresh_push : nat }.

Definition set_m_sub_refs (x : Z) (w : world) : world :=
  mk_world x (m_msg_queued w) (m_plain_sessions w) (m_ssl_sessions w) (holders w) (alive w)
    (pushes w) (fresh_session w) (fresh_push w).
Definition set_m_msg_queued (x : Z) (w : world) : world :=
  mk_world (m_sub_refs w) x (m_plain_sessions w) (m_ssl_sessions w) (holders w) (alive w)
    (pushes w) (fresh_session w) (fresh_push w).
Definition set_m_plain_sessions (x : gmap Z nat) (w : world) : world :=
  mk_world (m_sub_refs w) (m_msg_queued w) x (m_ssl_sessions w) (holders w) (alive w)
    (pushes w) (fresh_session w) (fresh_push w).
Definition set_m_ssl_sessions (x : gmap Z nat) (w : world) : world :=
  mk_world (m_sub_refs w) (m_msg_queued w) (m_plain_sessions w) x (holders w) (alive w)
    (pushes w) (fresh_session w) (fresh_push w).
Definition set_alive (x : gmap nat stream_type) (w : world) : world :=
  mk_world (m_sub_refs w) (m_msg_queued w) (m_plain_sessions w) (m_ssl_sessions w) (holders w) x
    (pushes w) (fresh_session w) (fresh_push w).
Definition set_pushes (x : gmap nat shared_push) (w : world) : world :=
  mk_world (m_sub_refs w) (m_msg_queued w) (m_plain_sessions w) (m_ssl_sessions w) (holders w)
    (alive w) x (fresh_session w) (fresh_push w).
Definition set_fresh_session (x : nat) (w : world) : world :=
  mk_world (m_sub_refs w) (m_msg_queued w) (m_plain_sessions w) (m_ssl_sessions w) (holders w)
    (alive w) (pushes w) x (fresh_push w).
Definition set_fresh_push (x : nat) (w : world) : world :=
  mk_world (m_sub_refs w) (m_msg_queued w) (m_plain_sessions w) (m_ssl_sessions w) (holders w)
    (alive w) (pushes w) (fresh_session w) x.

Inductive server_effect : Set :=
  | eff_send (o p : nat)                  (* [session->send(push_ptr)] *)
  | eff_on_listen (address : string)
  | eff_socket_close
  | eff_session_accept (o : nat)          (* [make_shared<session_accept>(..)->accept()] *)
  | eff_buffer_max_size (n : Z)           (* [m_buffer.max_size(..)] of a detection *)
  | eff_detect_expires_after              (* [expires_after(handshake_or_close_timeout)] *)
  | eff_async_detect_ssl
  | eff_async_accept_socket.

#[export] Instance server_effect_eq_dec : EqDecision server_effect.
Proof. solve_decision. Defined.

Abbreviation mact := (act world server_effect).

(** ** Construction and counting *)

(** [session_manager(p_server_cfg)], owned by [h] shared pointers. *)
Definition new_session_manager (h : Z) : world := mk_world 0 0 ∅ ∅ h ∅ ∅ 0 0.

Definition use_count (w : world) : Z :=
  holders w + Z.of_nat (size (alive w)) + Z.of_nat (size (pushes w)).

(** [shared_from_this().use_count()] counts the temporary pointer too. *)
Definition set_subtract_refs : mact unit :=
  let! w := act_get in
  if decide (m_sub_refs w = 0) then act_modify (set_m_sub_refs (use_count w + 1))
  else act_throw "assertion m_sub_refs == 0".

Definition connections (w : world) : Z := Z.max (use_count w + 1 - m_sub_refs w) 0.

Definition is_full (server_cfg : server_config) (w : world) : bool :=
  bool_decide (sc_max_sessions server_cfg ≤ connections w).

(** ** The tables of sessions *)

Definition add_session (st : stream_type) (id : Z) (o : nat) : mact unit :=
  act_modify (λ w, match st with
    | plain_stream => set_m_plain_sessions (<[id := o]> (m_plain_sessions w)) w
    | ssl_stream => set_m_ssl_sessions (<[id := o]> (m_ssl_sessions w)) w
    end).

Definition remove_session (st : stream_type) (id : Z) : mact unit :=
  let! w := act_get in
  match st with
  | plain_stream =>
      if decide (is_Some (m_plain_sessions w !! id))
      then act_modify (λ w, set_m_plain_sessions (delete id (m_plain_sessions w)) w)
      else act_ret tt
  | ssl_stream =>
      if decide (is_Some (m_ssl_sessions w !! id))
      then act_modify (λ w, set_m_ssl_sessions (delete id (m_ssl_sessions w)) w)
      else act_ret tt
  end.

(** The iteration order of the two [unordered_map]s is unspecified; here it is
    that of [map_to_list]. *)
Definition get_session_ids (w : world) : list Z :=
  (map_to_list (m_plain_sessions w)).*1 ++ (map_to_list (m_ssl_sessions w)).*1.

(** ** Messages shared among sessions *)

(** [on_msg_sent(p)], the deleter. *)
Definition on_msg_sent (p : nat) : mact unit :=
  do! act_modify (λ w, set_m_msg_queued (m_msg_queued w - 1) w) in
  act_modify (λ w, set_pushes (delete p (pushes w)) w).

(** One more or one less [shared_ptr] to message [p]; the last one calls the
    deleter. *)
Definition push_retain (p : nat) : mact unit :=
  let! w := act_get in
  match pushes w !! p with
  | None => act_undef
  | Some d => act_modify (λ w, set_pushes
      (<[p := mk_shared_push (push_data d) (S (push_refs d))]> (pushes w)) w)
  end.

Definition push_release (p : nat) : mact unit :=
  let! w := act_get in
  match pushes w !! p with
  | Some (mk_shared_push d (S (S n))) =>
      act_modify (λ w, set_pushes (<[p := mk_shared_push d (S n)]> (pushes w)) w)
  | Some (mk_shared_push d 1) => on_msg_sent p
  | _ => act_undef
  end.

(** ** Broadcast *)

Definition emplace (m : gmap Z nat) (id : Z) (o : nat) : gmap Z nat :=
  if decide (is_Some (m !! id)) then m else <[id := o]> m.

(** The sessions of one table a message goes to: all of them, or those named. *)
Definition copy_sessions (sessions : gmap Z nat) (session_ids : option (list Z)) : gmap Z nat :=
  match session_ids with
  | None => sessions
  | Some ids =>
      foldl (λ tmp id, match sessions !! id with
                       | Some o => emplace tmp id o
                       | None => tmp
                       end) ∅ ids
  end.

(** [if (auto session = s.second.lock()) session->send(push_ptr);]: posting
    takes a reference. *)
Definition post_one (p : nat) (o : nat) : mact unit :=
  let! w := act_get in
  if decide (is_Some (alive w !! o)) then
    do! push_retain p in act_emit (eff_send o p)
  else act_ret tt.

Fixpoint post_all (p : nat) (os : list nat) : mact unit :=
  match os with
  | [] => act_ret tt
  | o :: os' => do! post_one p o in post_all p os'
  end.

(** The parts of [broadcast], in order: the two early returns, the message, the
    two tables (each copied under its lock, then posted to without it) and the
    end of [push_ptr]. *)
Definition broadcast_check : mact bool :=
  let! w := act_get in
  if decide (Z.of_nat config.queue_send_max ≤ m_msg_queued w) then act_ret false
  else act_ret (negb (bool_decide (connections w = 0))).

Definition broadcast_create (call_id : Z) (send_bytes : list byte) : mact nat :=
  let! w := act_get in
  let p := fresh_push w in
  do! act_modify (λ w, set_fresh_push (S p)
        (set_pushes (<[p := mk_shared_push
           (mk_data_push (new_io_header call_id 0) send_bytes (Some p)) 1]> (pushes w)) w)) in
  do! act_modify (λ w, set_m_msg_queued (m_msg_queued w + 1) w) in
  act_ret p.

(** What is copied under [m_plain_mtx] and under [m_ssl_mtx]. *)
Definition copy_plain (session_ids : option (list Z)) : mact (list nat) :=
  act_gets (λ w, (map_to_list (copy_sessions (m_plain_sessions w) session_ids)).*2).

Definition copy_ssl (session_ids : option (list Z)) : mact (list nat) :=
  act_gets (λ w, (map_to_list (copy_sessions (m_ssl_sessions w) session_ids)).*2).

Definition broadcast_plain (p : nat) (session_ids : option (list Z)) : mact unit :=
  let! plain_sessions_tmp := copy_plain session_ids in post_all p plain_sessions_tmp.

Definition broadcast_ssl (p : nat) (session_ids : option (list Z)) : mact unit :=
  let! ssl_sessions_tmp := copy_ssl session_ids in post_all p ssl_sessions_tmp.

Definition broadcast (call_id : Z) (send_bytes : list byte) (session_ids : option (list Z)) :
    mact unit :=
  let! ok := broadcast_check in
  if negb ok then act_ret tt
  else
    let! p := broadcast_create call_id send_bytes in
    do! broadcast_plain p session_ids in
    do! broadcast_ssl p session_ids in
    push_release p.
