(* ===== verification/SessionManagerFacts.v ===== *)
(** * SessionManagerFacts: what a broadcast does

    The operations of the manager one by one, and the broadcast as a whole: who
    receives the message, how long it is counted. *)

From S2P Require Import Prelude Types Header ServerSession SessionManager.

Implicit Types (w : world) (os : list nat) (p o : nat).

(** The sessions of a list that can still be locked. *)
Definition lockable w os : list nat := filter (λ o, is_Some (alive w !! o)) os.

Definition sends p os : list server_effect := (λ o, eff_send o p) <$> os.

Definition push_set p (d : data_push) (n : nat) w : world :=
  set_pushes (<[p := mk_shared_push d n]> (pushes w)) w.

Lemma push_set_twice p d n d' n' w : push_set p d n (push_set p d' n' w) = push_set p d n w.
Proof. unfold push_set, set_pushes. simpl. by rewrite insert_insert_eq. Qed.

Lemma push_set_same p d n w : pushes w !! p = Some (mk_shared_push d n) → push_set p d n w = w.
Proof. intros E. unfold push_set, set_pushes. rewrite insert_id by done. by destruct w. Qed.

Lemma post_all_spec p d os w n :
  pushes w !! p = Some (mk_shared_push d n) →
  post_all p os w =
    Done tt (push_set p d (n + length (lockable w os)) w) (sends p (lockable w os)).
Proof.
  revert w n. induction os as [|o os IH]; intros w n E; simpl.
  - by rewrite Nat.add_0_r, push_set_same.
  - unfold lockable, act_bind, post_one, push_retain. simpl. unfold act_get, act_bind.
    rewrite filter_cons. destruct (decide (is_Some (alive w !! o))) as [Ho|Ho]; simpl.
    + rewrite E. simpl. rewrite (IH _ (S n)); [|by simpl; rewrite lookup_insert_eq].
      change (set_pushes _ w) with (push_set p d (S n) w). rewrite push_set_twice.
      simpl. unfold lockable, sends. simpl. by rewrite Nat.add_succ_r.
    + rewrite (IH _ n E). done.
Qed.

Lemma lookup_copy_sessions sessions session_ids id o :
  copy_sessions sessions session_ids !! id = Some o ↔
  sessions !! id = Some o ∧ (∀ ids, session_ids = Some ids → id ∈ ids).
Proof.
  destruct session_ids as [ids|]; simpl; [|naive_solver].
  assert (∀ tmp, (∀ i x, tmp !! i = Some x → sessions !! i = Some x) →
    foldl (λ tmp id, match sessions !! id with
                     | Some o => emplace tmp id o
                     | None => tmp
                     end) tmp ids !! id = Some o ↔
    sessions !! id = Some o ∧ (id ∈ ids ∨ is_Some (tmp !! id))) as Hfold.
  { induction ids as [|i ids IH]; intros tmp Htmp; simpl.
    - split; [intros E; split; eauto|]. intros [E [[]%elem_of_nil|[x Hx]]].
      rewrite Hx. f_equal. apply Htmp in Hx. congruence.
    - destruct (sessions !! i) as [x|] eqn:Ei; rewrite IH.
      + unfold emplace. case_decide as Hi.
        * rewrite elem_of_cons. naive_solver.
        * rewrite elem_of_cons. destruct (decide (id = i)) as [->|].
          -- rewrite lookup_insert_eq. naive_solver.
          -- rewrite lookup_insert_ne by done. naive_solver.
      + intros i' x'. unfold emplace. case_decide; [auto|].
        destruct (decide (i' = i)) as [->|];
          [rewrite lookup_insert_eq; congruence|rewrite lookup_insert_ne by done; auto].
      + rewrite elem_of_cons. naive_solver.
      + done. }
  etrans; [apply Hfold; intros i x; by rewrite lookup_empty|].
  rewrite lookup_empty. pose proof (is_Some_None (A := nat)). naive_solver.
Qed.

Lemma elem_of_copied sessions session_ids o :
  o ∈ (map_to_list (copy_sessions sessions session_ids)).*2 ↔
  ∃ id, sessions !! id = Some o ∧ (∀ ids, session_ids = Some ids → id ∈ ids).
Proof.
  rewrite list_elem_of_fmap. split.
  - intros ([id x] & -> & Hx%elem_of_map_to_list). exists id. by apply lookup_copy_sessions.
  - intros [id H]. exists (id, o). split; [done|].
    by apply elem_of_map_to_list, lookup_copy_sessions.
Qed.

(** No session is registered twice. *)
Definition injective_table (m : gmap Z nat) : Prop :=
  ∀ i j o, m !! i = Some o → m !! j = Some o → i = j.

Lemma NoDup_copied sessions session_ids :
  injective_table sessions → NoDup (map_to_list (copy_sessions sessions session_ids)).*2.
Proof.
  intros Hinj. apply NoDup_fmap_2_strong; [|apply NoDup_map_to_list].
  intros [i x] [j y] Hi%elem_of_map_to_list Hj%elem_of_map_to_list. simpl. intros ->.
  apply lookup_copy_sessions in Hi as [Hi _], Hj as [Hj _].
  f_equal. by eapply Hinj.
Qed.

(** ** The broadcast as a whole *)

Definition manager_inv w : Prop :=
  m_msg_queued w = Z.of_nat (size (pushes w)) ∧
  (∀ p x, pushes w !! p = Some x → (p < fresh_push w)%nat ∧ (0 < push_refs x)%nat) ∧
  (∀ o st, alive w !! o = Some st → (o < fresh_session w)%nat).

Definition broadcast_targets w session_ids : list nat :=
  lockable w ((map_to_list (copy_sessions (m_plain_sessions w) session_ids)).*2 ++
              (map_to_list (copy_sessions (m_ssl_sessions w) session_ids)).*2).

(** The message of a broadcast. *)
Definition broadcast_push call_id send_bytes w : data_push :=
  mk_data_push (new_io_header call_id 0) send_bytes (Some (fresh_push w)).

(** The manager after a broadcast to [k] sessions. *)
Definition after_broadcast call_id send_bytes (k : nat) w : world :=
  set_fresh_push (S (fresh_push w))
    match k with
    | 0%nat => w
    | _ => set_m_msg_queued (m_msg_queued w + 1)
             (push_set (fresh_push w) (broadcast_push call_id send_bytes w) k w)
    end.

Lemma broadcast_check_true w :
  m_msg_queued w < Z.of_nat config.queue_send_max → connections w ≠ 0 →
  broadcast_check w = Done true w [].
Proof.
  intros Hq Hc. unfold broadcast_check. run_act. rewrite decide_False by lia.
  by rewrite bool_decide_eq_false_2.
Qed.

Lemma broadcast_check_false w :
  (Z.of_nat config.queue_send_max ≤ m_msg_queued w ∨ connections w = 0) →
  broadcast_check w = Done false w [].
Proof.
  intros H. unfold broadcast_check. run_act. case_decide; [done|].
  rewrite bool_decide_eq_true_2; [done|]. lia.
Qed.

Lemma broadcast_run call_id send_bytes session_ids w :
  manager_inv w →
  m_msg_queued w < Z.of_nat config.queue_send_max → connections w ≠ 0 →
  broadcast call_id send_bytes session_ids w =
    Done tt (after_broadcast call_id send_bytes (length (broadcast_targets w session_ids)) w)
      (sends (fresh_push w) (broadcast_targets w session_ids)).
Proof.
  intros (_ & Hp & _) Hq Hc. unfold broadcast, act_bind. rewrite broadcast_check_true by done.
  assert (pushes w !! fresh_push w = None) as Hf.
  { destruct (pushes w !! fresh_push w) eqn:E; [|done]. apply Hp in E. lia. }
  unfold broadcast_create, broadcast_plain, broadcast_ssl, copy_plain, copy_ssl. run_act.
  fold (broadcast_push call_id send_bytes w).
  erewrite post_all_spec by (simpl; apply lookup_insert_eq). simpl.
  erewrite post_all_spec by (simpl; apply lookup_insert_eq). simpl.
  unfold broadcast_targets, lockable. rewrite filter_app, length_app.
  set (l1 := filter _ (map_to_list (copy_sessions (m_plain_sessions w) _)).*2).
  set (l2 := filter _ (map_to_list (copy_sessions (m_ssl_sessions w) _)).*2).
  unfold push_release, on_msg_sent. run_act. rewrite lookup_insert_eq.
  unfold sends. rewrite fmap_app. unfold after_broadcast, push_set, set_pushes.
  destruct (length l1 + length l2)%nat as [|k] eqn:Ek; simpl;
    rewrite !insert_insert_eq, app_nil_r; [|done].
  rewrite delete_insert_id by done. rewrite Z.add_simpl_r. by destruct w.
Qed.

(** C28. A broadcast posts its message, with the given call id and result id 0,
    exactly once to every session that is alive, registered and (when ids are
    given, however often an id is repeated) named, and to no other; the message
    then counts as queued until the last of those posts lets it go, and not at
    all when there are none.  With [config::queue_send_max] messages queued or no
    connection nothing happens. *)
Theorem broadcast_recipients call_id send_bytes session_ids w :
  manager_inv w → injective_table (m_plain_sessions w) → injective_table (m_ssl_sessions w) →
  (∀ i j o, m_plain_sessions w !! i = Some o → m_ssl_sessions w !! j = Some o → False) →
  ∃ w' es, broadcast call_id send_bytes session_ids w = Done tt w' es ∧ NoDup es ∧
    (if decide (m_msg_queued w < Z.of_nat config.queue_send_max ∧ connections w ≠ 0) then
       (∀ o p, eff_send o p ∈ es ↔ p = fresh_push w ∧ is_Some (alive w !! o) ∧
          ∃ id, (m_plain_sessions w !! id = Some o ∨ m_ssl_sessions w !! id = Some o) ∧
                (∀ ids, session_ids = Some ids → id ∈ ids)) ∧
       (es ≠ [] → m_msg_queued w' = m_msg_queued w + 1 ∧
          pushes w' !! fresh_push w = Some (mk_shared_push
            (mk_data_push (new_io_header call_id 0) send_bytes (Some (fresh_push w))) (length es))) ∧
       (es = [] → m_msg_queued w' = m_msg_queued w ∧ pushes w' = pushes w)
     else w' = w ∧ es = []).
Proof.
  intros Hw Hplain Hssl Hdis. case_decide as Hd.
  - destruct Hd as [Hq Hc]. eexists _, _. split; [by apply broadcast_run|].
    set (os := broadcast_targets w session_ids).
    assert (NoDup os) as Hnd.
    { apply NoDup_filter, NoDup_app. split_and!; try by apply NoDup_copied.
      intros o (i & Hi & _)%elem_of_copied (j & Hj & _)%elem_of_copied. by eapply Hdis. }
    assert (length (sends (fresh_push w) os) = length os) as Hlen by apply length_fmap.
    split; [apply NoDup_fmap_2_strong; [by intros ???? [=]|done]|]. split; [|split].
    + intros o p. unfold sends. rewrite list_elem_of_fmap.
      assert (o ∈ os ↔ is_Some (alive w !! o) ∧
        ∃ id, (m_plain_sessions w !! id = Some o ∨ m_ssl_sessions w !! id = Some o) ∧
              (∀ ids, session_ids = Some ids → id ∈ ids)) as Ho.
      { unfold os, broadcast_targets, lockable. rewrite list_elem_of_filter, elem_of_app, !elem_of_copied.
        naive_solver. }
      split; [intros (o' & [= -> ->] & Hin); split; [done|by apply Ho]|].
      intros (-> & Hin). exists o. split; [done|by apply Ho].
    + intros He. unfold after_broadcast. rewrite Hlen.
      destruct (length os) eqn:El; [|simpl; by rewrite lookup_insert_eq].
      apply length_zero_iff_nil in El. by rewrite El in He.
    + intros He. assert (length os = 0%nat) as -> by (by rewrite <-Hlen, He). done.
  - exists w, []. split; [|by split; [constructor|]].
    unfold broadcast, act_bind. rewrite broadcast_check_false; [done|]. lia.
Qed.

(** ** A concrete manager, for the witness *)

Definition demo_world : world :=
  mk_world 3 0 {[10 := 0%nat; 11 := 1%nat; 12 := 2%nat]} {[20 := 3%nat]} 2
    {[0%nat := plain_stream; 1%nat := plain_stream; 3%nat := ssl_stream]} ∅ 4 0.

Lemma broadcast_recipients_witness :
  ∃ w' es, broadcast 5 [x61] (Some [10; 12; 20; 10]) demo_world = Done tt w' es ∧
    NoDup es ∧ eff_send 3 0 ∈ es ∧ length es = 2%nat ∧ m_msg_queued w' = 1.
Proof.
  destruct (broadcast_recipients 5 [x61] (Some [10; 12; 20; 10]) demo_world)
    as (w' & es & E & Hnd & H).
  - split_and!; [reflexivity|by intros p x|].
    apply (bool_decide_unpack (map_Forall (λ o _, (o < fresh_session demo_world)%nat) (alive demo_world))).
    vm_compute. exact I.
  - intros i j o. simpl. rewrite !lookup_insert_Some, !lookup_singleton_Some. naive_solver.
  - intros i j o. simpl. rewrite !lookup_singleton_Some. naive_solver.
  - intros i j o. simpl. rewrite !lookup_insert_Some, !lookup_singleton_Some. naive_solver.
  - exists w', es. split; [exact E|]. split; [exact Hnd|].
    vm_compute in E. injection E as <- <-. split; [set_solver|]. split; reflexivity.
Defined.

