(* ===== verification/Listener.v ===== *)
(** * Listener: impl/server/listener.hpp, [detect_session], and the server's objects

    The acceptor and its loop, the detection of TLS, and the system they form
    with the session manager: sessions come and go, user threads broadcast, the
    owners of a broadcast message release it.  A broadcast is not atomic, so a
    thread inside one is a state of its own. *)

From S2P Require Import Prelude Types Header ServerSession SessionManager.

Section listener.
Context (server_cfg : server_config) (has_on_listen has_ssl_ctx : bool).

(** ** The acceptor *)

(** The constructor: the four results are those of [open], [set_option],
    [bind] and [listen]; what is left is whether the acceptor is open. *)
Definition listener_open (open_ok option_ok bind_ok listen_ok : bool) : bool :=
  if negb open_ok then false
  else if negb option_ok then true
  else if negb bind_ok then true
  else if negb listen_ok then true
  else true.

Definition handle_accept (is_open : bool) : mact unit :=
  if is_open then act_emit eff_async_accept_socket else act_ret tt.

(** [run()] *)
Definition listener_run (is_open : bool) : mact unit := handle_accept is_open.

(** [make_shared<session_accept<..>>(..)->accept()].  [peer]: the socket is still
    connected; the constructor asks it for [remote_endpoint()], in the overload
    that throws when it is not. *)
Definition make_session (peer : bool) (st : stream_type) : mact unit :=
  if negb peer then act_throw "remote_endpoint" else
  let! w := act_get in
  let o := fresh_session w in
  do! act_modify (λ w, set_fresh_session (S o) (set_alive (<[o := st]> (alive w)) w)) in
  act_emit (eff_session_accept o).

(** [detect_session::run()] of a new [detect_session]. *)
Definition detect_session_run : mact unit :=
  do! act_emit (eff_buffer_max_size (sc_max_handshake_bytes server_cfg)) in
  do! act_emit eff_detect_expires_after in
  act_emit eff_async_detect_ssl.

(** [address] and [ep_ec]: what [remote_endpoint(ec)] gives; [listen_ok]: the
    answer of the user's handler to that address; [peer]: whether the socket is
    still connected when its session is made.  An exception skips the next
    [handle_accept()]. *)
Definition on_accept (is_open : bool) (ec : error_code) (address : string) (ep_ec : bool)
    (listen_ok : string → bool) (peer : bool) : mact unit :=
  if decide (ec = ec_aborted) then act_ret tt
  else
    do!
      if ec_bool ec then act_ret tt
      else
        let! rejected :=
          if has_on_listen then
            do! act_emit (eff_on_listen address) in
            act_ret (negb (listen_ok address) || ep_ec)
          else act_ret false in
        let! w := act_get in
        if rejected || is_full server_cfg w then act_emit eff_socket_close
        else if has_ssl_ctx then detect_session_run
        else make_session peer plain_stream in
    handle_accept is_open.

(** [detect_session::on_detect]; [None] is the third value of a [tribool]. *)
Definition on_detect (ec : error_code) (result : option bool) (peer : bool) : mact unit :=
  if ec_bool ec then act_ret tt
  else if bool_decide (result = Some true) && server_mode_and (sc_mode server_cfg) server_mode_ssl
  then make_session peer ssl_stream
  else if bool_decide (result = Some false) && server_mode_and (sc_mode server_cfg) server_mode_plain
  then make_session peer plain_stream
  else act_ret tt.

(** The manager's side of [~session_accept()]; the session's reference to the
    manager goes with it. *)
Definition destroy_session (o : nat) (established : bool) (id : Z) : mact unit :=
  let! w := act_get in
  match alive w !! o with
  | None => act_undef
  | Some st =>
      do! act_when established (remove_session st id) in
      act_modify (λ w, set_alive (delete o (alive w)) w)
  end.

(** ** The system *)

(** A thread inside [broadcast]: about to make its message, to copy a table
    under its lock, to post to the next session of a copied table, or to drop
    its own pointer to the message. *)
Inductive broadcasting : Type :=
  | bt_create (call_id : Z) (send_bytes : list byte) (session_ids : option (list Z))
  | bt_plain (p : nat) (session_ids : option (list Z))
  | bt_post_plain (p : nat) (plain_sessions_tmp : list nat) (session_ids : option (list Z))
  | bt_ssl (p : nat) (session_ids : option (list Z))
  | bt_post_ssl (p : nat) (ssl_sessions_tmp : list nat)
  | bt_drop (p : nat).

Record server_sys := mk_server_sys {
  wld : world;
  threads : gmap nat broadcasting;
  detecting : nat;
  accepting : nat }.

(** The events of a process that goes on: an accepted socket is connected when
    its session is made.  One that is not throws out of the handler, hence out
    of [io_context::run()] in its thread ([peer_gone_escapes]). *)
Inductive server_event : Type :=
  | sv_accept (ec : error_code) (address : string) (ep_ec : bool) (listen_ok : string → bool)
  | sv_detect (ec : error_code) (result : option bool)
  | sv_add (o : nat) (id : Z)
  | sv_destroy (o : nat) (established : bool) (id : Z)
  | sv_release (p : nat)
  | sv_broadcast (th : nat) (call_id : Z) (send_bytes : list byte) (session_ids : option (list Z))
  | sv_thread (th : nat).

(** [is_open]: the acceptor; [T]: how many threads broadcast. *)
Context (is_open : bool) (T : nat).

Definition thread_holds (p : nat) (b : broadcasting) : bool :=
  match b with
  | bt_create _ _ _ => false
  | bt_plain q _ | bt_post_plain q _ _ | bt_ssl q _ | bt_post_ssl q _ | bt_drop q =>
      bool_decide (p = q)
  end.

(** A message is let go by a post or a queue that owns it, not by the
    broadcasting thread's own pointer. *)
Definition releasable (y : server_sys) (p : nat) : bool :=
  match pushes (wld y) !! p with
  | None => false
  | Some d =>
      (if existsb (λ b, thread_holds p b.2) (map_to_list (threads y)) then 1 <? push_refs d
       else 0 <? push_refs d)%nat
  end.

Definition server_enabled (y : server_sys) (e : server_event) : bool :=
  match e with
  | sv_accept _ _ _ _ => (0 <? accepting y)%nat
  | sv_detect _ _ => (0 <? detecting y)%nat
  | sv_add o _ | sv_destroy o _ _ => bool_decide (is_Some (alive (wld y) !! o))
  | sv_release p => releasable y p
  | sv_broadcast th _ _ _ => (th <? T)%nat && bool_decide (threads y !! th = None)
  | sv_thread th => bool_decide (is_Some (threads y !! th))
  end.

Definition count_eff (x : server_effect) (es : list server_effect) : nat :=
  length (filter (λ e, e = x) es).

(** Runs an operation of the manager. *)
Definition manage {A} (m : mact A) (y : server_sys) (k : A → server_sys → server_sys) :
    option server_sys :=
  match m (wld y) with
  | Done a w es =>
      Some (k a (mk_server_sys w (threads y) (detecting y + count_eff eff_async_detect_ssl es)
                   (accepting y + count_eff eff_async_accept_socket es)))
  | _ => None
  end.

Definition set_threads (x : gmap nat broadcasting) (y : server_sys) : server_sys :=
  mk_server_sys (wld y) x (detecting y) (accepting y).

Definition server_handle (y : server_sys) (e : server_event) : option server_sys :=
  match e with
  | sv_accept ec address ep_ec listen_ok =>
      manage (on_accept is_open ec address ep_ec listen_ok true)
        (mk_server_sys (wld y) (threads y) (detecting y) (pred (accepting y))) (λ _ y, y)
  | sv_detect ec result =>
      manage (on_detect ec result true)
        (mk_server_sys (wld y) (threads y) (pred (detecting y)) (accepting y)) (λ _ y, y)
  | sv_add o id =>
      match alive (wld y) !! o with
      | Some st => manage (add_session st id o) y (λ _ y, y)
      | None => None
      end
  | sv_destroy o established id => manage (destroy_session o established id) y (λ _ y, y)
  | sv_release p => manage (push_release p) y (λ _ y, y)
  | sv_broadcast th call_id send_bytes session_ids =>
      manage broadcast_check y (λ ok y,
        if ok : bool then
          set_threads (<[th := bt_create call_id send_bytes session_ids]> (threads y)) y
        else y)
  | sv_thread th =>
      match threads y !! th with
      | None => None
      | Some (bt_create call_id send_bytes session_ids) =>
          manage (broadcast_create call_id send_bytes) y (λ p y,
            set_threads (<[th := bt_plain p session_ids]> (threads y)) y)
      | Some (bt_plain p session_ids) =>
          manage (copy_plain session_ids) y (λ os y,
            set_threads (<[th := bt_post_plain p os session_ids]> (threads y)) y)
      | Some (bt_post_plain p (o :: os) session_ids) =>
          manage (post_one p o) y (λ _ y,
            set_threads (<[th := bt_post_plain p os session_ids]> (threads y)) y)
      | Some (bt_post_plain p [] session_ids) =>
          Some (set_threads (<[th := bt_ssl p session_ids]> (threads y)) y)
      | Some (bt_ssl p session_ids) =>
          manage (copy_ssl session_ids) y (λ os y,
            set_threads (<[th := bt_post_ssl p os]> (threads y)) y)
      | Some (bt_post_ssl p (o :: os)) =>
          manage (post_one p o) y (λ _ y,
            set_threads (<[th := bt_post_ssl p os]> (threads y)) y)
      | Some (bt_post_ssl p []) =>
          Some (set_threads (<[th := bt_drop p]> (threads y)) y)
      | Some (bt_drop p) =>
          manage (push_release p) y (λ _ y, set_threads (delete th (threads y)) y)
      end
  end.

(** The server's constructor: the manager is made and owned by the server,
    the listener takes a second reference and sets [m_sub_refs], and [run()]
    starts the first accept. *)
Definition server_sys_init : option server_sys :=
  manage (do! set_subtract_refs in listener_run is_open)
    (mk_server_sys (new_session_manager 2) ∅ 0 0) (λ _ y, y).

Definition server_steps := steps server_enabled server_handle.
Definition server_run := run server_enabled server_handle.
End listener.
