(* ===== verification/ListenerFacts.v ===== *)
(** * ListenerFacts: the invariants of the server's objects

    Messages are counted exactly, the connection count is what the manager can
    see, and how many sessions there can be. *)

From S2P Require Import Prelude Types Header ServerSession SessionManager SessionManagerFacts Listener.

#[local] Opaque config.queue_send_max.

Section facts.
Context (server_cfg : server_config) (has_on_listen has_ssl_ctx : bool) (is_open : bool) (T : nat).
Implicit Types (w : world) (y : server_sys) (p o th : nat) (b : broadcasting).

Abbreviation handle := (server_handle server_cfg has_on_listen has_ssl_ctx is_open).
Abbreviation enabled := (server_enabled T).

(** ** Operations that leave the messages alone *)

Record keeps_pushes w w' : Prop := {
  k_pushes : pushes w' = pushes w;
  k_queued : m_msg_queued w' = m_msg_queued w;
  k_fresh : fresh_push w' = fresh_push w;
  k_holders : holders w' = holders w;
  k_sub : m_sub_refs w' = m_sub_refs w;
  k_alive : (∀ o st, alive w !! o = Some st → (o < fresh_session w)%nat) →
            (∀ o st, alive w' !! o = Some st → (o < fresh_session w')%nat) }.

Lemma keeps_pushes_refl w : keeps_pushes w w.
Proof. by split. Qed.

Lemma make_session_run st w :
  make_session true st w = Done tt (set_fresh_session (S (fresh_session w))
    (set_alive (<[fresh_session w := st]> (alive w)) w)) [eff_session_accept (fresh_session w)].
Proof. done. Qed.

Lemma keeps_make_session st w :
  keeps_pushes w (set_fresh_session (S (fresh_session w))
    (set_alive (<[fresh_session w := st]> (alive w)) w)).
Proof.
  split; try done. simpl. intros H o st'. rewrite lookup_insert_Some.
  intros [[<- _]|[_ Ho]]; [lia|]. apply H in Ho. lia.
Qed.

(** A client that has gone between its acceptance and its session: nothing
    catches what the constructor throws, and no further accept is started. *)
Theorem peer_gone_escapes address listen_ok w :
  has_ssl_ctx = false → is_full server_cfg w = false →
  (has_on_listen = true → listen_ok address = true) →
  ∃ es, on_accept server_cfg has_on_listen has_ssl_ctx is_open ec_success address false listen_ok false w =
      Thrown "remote_endpoint" w es ∧
    count_eff eff_async_accept_socket es = 0%nat.
Proof.
  intros Hs Hf Hl. unfold on_accept. rewrite decide_False by done. run_act.
  destruct has_on_listen; simpl; [rewrite Hl by done|]; rewrite Hf; simpl; by eexists.
Qed.

(** What one accepted connection changes, and starts. *)
Lemma on_accept_run ec address ep_ec listen_ok w :
  ∃ w' es, on_accept server_cfg has_on_listen has_ssl_ctx is_open ec address ep_ec listen_ok true w =
      Done tt w' es ∧
    keeps_pushes w w' ∧ m_plain_sessions w' = m_plain_sessions w ∧
    (count_eff eff_async_accept_socket es ≤ 1)%nat ∧
    (alive w' = alive w ∨
     is_full server_cfg w = false ∧ has_ssl_ctx = false ∧
     alive w' = <[fresh_session w := plain_stream]> (alive w)) ∧
    (has_ssl_ctx = false → count_eff eff_async_detect_ssl es = 0%nat).
Proof.
  unfold on_accept, handle_accept. case_decide as Ha.
  { eexists _, _. split; [done|]. pose proof (keeps_pushes_refl w). simpl. auto 10 with lia. }
  destruct (ec_bool ec); run_act.
  { destruct is_open; (eexists _, _; split; [done|]); pose proof (keeps_pushes_refl w);
      simpl; auto 10 with lia. }
  destruct has_on_listen; simpl.
  all: destruct (is_full server_cfg w) eqn:Ef; rewrite ?orb_true_r; simpl.
  all: try (destruct (negb (listen_ok address) || ep_ec); simpl).
  all: destruct has_ssl_ctx, is_open; simpl; (eexists _, _; split; [reflexivity|]);
    pose proof (keeps_pushes_refl w); pose proof (keeps_make_session plain_stream w);
    simpl; auto 10 with lia.
Qed.

Lemma on_detect_run ec result w :
  ∃ w' es, on_detect server_cfg ec result true w = Done tt w' es ∧ keeps_pushes w w' ∧
    count_eff eff_async_accept_socket es = 0%nat ∧ count_eff eff_async_detect_ssl es = 0%nat ∧
    (alive w' = alive w ∨ ∃ st, alive w' = <[fresh_session w := st]> (alive w)).
Proof.
  pose proof (keeps_pushes_refl w). pose proof (λ st, keeps_make_session st w).
  unfold on_detect. run_act. repeat (case_match; simpl); (eexists _, _; split; [reflexivity|]);
    simpl; auto 10; split_and!; eauto.
Qed.

Lemma destroy_session_run o established id w :
  is_Some (alive w !! o) →
  ∃ w', destroy_session o established id w = Done tt w' [] ∧ keeps_pushes w w' ∧
    alive w' = delete o (alive w).
Proof.
  intros [st Ho]. unfold destroy_session, remove_session. run_act. rewrite Ho.
  destruct established, st; run_act; repeat (case_decide; simpl);
    (eexists; split; [reflexivity|]); (split; [|done]); (split; try done);
    simpl; intros Hf o' st' [_ Ho']%lookup_delete_Some; eauto.
Qed.

Lemma add_session_run st id o w :
  ∃ w', add_session st id o w = Done tt w' [] ∧ keeps_pushes w w' ∧ alive w' = alive w.
Proof. unfold add_session. run_act. eexists. split; [done|]. by destruct st. Qed.

(** ** Messages and threads *)

Definition is_create b : bool := match b with bt_create _ _ _ => true | _ => false end.

Definition creates b : nat := if is_create b then 1 else 0.

(** The threads that have passed the test and not yet made their message. *)
Definition creating : gmap nat broadcasting → nat := total creates.

Lemma creating_bound m : (∀ th b, m !! th = Some b → (th < T)%nat) → (creating m ≤ T)%nat.
Proof.
  intros Hm. etrans; [apply total_size; intros b; unfold creates; destruct (is_create b); lia|].
  rewrite <-size_dom, <-(size_set_seq (C := gset nat) 0 T).
  apply subseteq_size. intros th [b Hb]%elem_of_dom. apply elem_of_set_seq.
  apply Hm in Hb. lia.
Qed.

Record server_inv y : Prop := {
  v_manager : manager_inv (wld y);
  v_refs : m_sub_refs (wld y) = holders (wld y) + 1;
  v_accepting : (accepting y ≤ 1)%nat;
  v_threads th b : threads y !! th = Some b → (th < T)%nat;
  v_held th b p : threads y !! th = Some b → thread_holds p b = true →
    is_Some (pushes (wld y) !! p);
  v_single th th' b b' p : threads y !! th = Some b → threads y !! th' = Some b' →
    thread_holds p b = true → thread_holds p b' = true → th = th';
  v_bound : (size (pushes (wld y)) + creating (threads y) < config.queue_send_max + T)%nat }.

Lemma manager_inv_keeps w w' : manager_inv w → keeps_pushes w w' → manager_inv w'.
Proof.
  intros (H1 & H2 & H3) [K1 K2 K3 K4 K5 K6]. split_and!; [congruence|..|by apply K6].
  intros p x. rewrite K1, K3. apply H2.
Qed.

Lemma server_inv_keeps y w' d a :
  server_inv y → keeps_pushes (wld y) w' → (a ≤ 1)%nat →
  server_inv (mk_server_sys w' (threads y) d a).
Proof.
  intros [V1 V2 V3 V4 V5 V6 V7] K Ha. split; simpl; try done.
  - by eapply manager_inv_keeps.
  - destruct K; congruence.
  - intros th b p. rewrite (k_pushes _ _ K). apply V5.
  - by rewrite (k_pushes _ _ K).
Qed.

(** What the operations on messages keep of the others. *)
Record keeps_others (q : nat) (lost : Prop) w w' : Prop := {
  o_manager : manager_inv w';
  o_holders : holders w' = holders w;
  o_sub : m_sub_refs w' = m_sub_refs w;
  o_alive : alive w' = alive w;
  o_size : (size (pushes w') ≤ size (pushes w))%nat;
  o_held p : p ≠ q ∨ ¬ lost → is_Some (pushes w !! p) → is_Some (pushes w' !! p) }.

Lemma push_set_keeps q d n n' w :
  manager_inv w → pushes w !! q = Some (mk_shared_push d n) → (0 < n')%nat →
  keeps_others q False w (push_set q d n' w).
Proof.
  intros (H1 & H2 & H3) E Hn. assert (is_Some (pushes w !! q)) as Hq by (by eexists).
  assert (size (<[q := mk_shared_push d n']> (pushes w)) = size (pushes w)) as Hs
    by (rewrite map_size_insert_Some; done).
  split; try done; simpl.
  - split_and!; simpl; [by rewrite Hs|..|done]. intros p x. rewrite lookup_insert_Some.
    intros [[<- <-]|[_ Hp]]; [|by apply H2]. simpl. split; [|done]. by eapply H2.
  - by rewrite Hs.
  - intros p _ Hp. destruct (decide (p = q)) as [->|];
      [rewrite lookup_insert_eq; by eexists|by rewrite lookup_insert_ne].
Qed.

Lemma push_release_run q x w :
  manager_inv w → pushes w !! q = Some x →
  ∃ w', push_release q w = Done tt w' [] ∧ keeps_others q (push_refs x = 1%nat) w w'.
Proof.
  intros Hw E. destruct x as [d [|[|n]]].
  - destruct Hw as (_ & H2 & _). apply H2 in E. simpl in E. lia.
  - unfold push_release, on_msg_sent. run_act. rewrite E. run_act. eexists. split; [done|].
    destruct Hw as (H1 & H2 & H3). assert (is_Some (pushes w !! q)) as Hq by (by eexists).
    assert (size (pushes w) ≠ 0)%nat.
    { intros Hz%map_size_empty_inv. by rewrite Hz in E. }
    assert (size (delete q (pushes w)) = pred (size (pushes w))) as Hs
      by (by apply map_size_delete_Some).
    split; try done; simpl.
    + split_and!; simpl; [rewrite Hs, H1; lia|..|done].
      intros p x [_ Hp]%lookup_delete_Some. by apply H2.
    + rewrite Hs. lia.
    + intros p [Hp|[]] Hx; [by rewrite lookup_delete_ne|done].
  - unfold push_release. run_act. rewrite E. run_act. eexists. split; [done|].
    destruct (push_set_keeps q d (S (S n)) (S n) w) as [? ? ? ? ? Ho]; [done..|lia|].
    split; try done. intros p _. apply Ho. by right; intros [].
Qed.

Lemma post_all_run q os x w :
  manager_inv w → pushes w !! q = Some x →
  ∃ w' es, post_all q os w = Done tt w' es ∧ keeps_others q False w w' ∧
    count_eff eff_async_accept_socket es = 0%nat ∧ count_eff eff_async_detect_ssl es = 0%nat.
Proof.
  intros Hw E. destruct x as [d n]. rewrite (post_all_spec _ _ _ _ _ E).
  eexists _, _. split; [done|]. split.
  - eapply push_set_keeps; [done..|]. destruct Hw as (_ & H2 & _). apply H2 in E. simpl in E. lia.
  - unfold count_eff, sends. induction (lockable w os) as [|o l IH]; [done|].
    exact IH.
Qed.

Lemma broadcast_create_run call_id send_bytes w :
  manager_inv w →
  ∃ w', broadcast_create call_id send_bytes w = Done (fresh_push w) w' [] ∧
    manager_inv w' ∧ holders w' = holders w ∧ m_sub_refs w' = m_sub_refs w ∧ alive w' = alive w ∧
    pushes w !! fresh_push w = None ∧ is_Some (pushes w' !! fresh_push w) ∧
    size (pushes w') = S (size (pushes w)) ∧
    (∀ p, is_Some (pushes w !! p) → is_Some (pushes w' !! p)).
Proof.
  intros (H1 & H2 & H3). unfold broadcast_create. run_act. eexists. split; [done|].
  assert (pushes w !! fresh_push w = None) as Hf.
  { destruct (pushes w !! fresh_push w) eqn:E; [|done]. apply H2 in E. lia. }
  assert (∀ x, size (<[fresh_push w := x]> (pushes w)) = S (size (pushes w))) as Hs
    by (intros; by apply map_size_insert_None).
  simpl. split_and!; try done; try by rewrite Hs.
  - split_and!; simpl; [rewrite Hs, H1; lia| |done].
    intros p x. rewrite lookup_insert_Some. intros [[<- <-]|[_ Hp]]; [simpl; lia|].
    apply H2 in Hp. lia.
  - by rewrite lookup_insert_eq.
  - intros p [x Hp]. destruct (decide (p = fresh_push w)) as [->|]; [congruence|].
    rewrite lookup_insert_ne by done. by eexists.
Qed.

(** A step of a thread, or of an owner of message [q]. *)
Lemma server_inv_others y m' w' q lost d a :
  server_inv y → keeps_others q lost (wld y) w' → (a ≤ 1)%nat →
  (∀ th b, m' !! th = Some b → ∃ b0, threads y !! th = Some b0 ∧
     ∀ p, thread_holds p b = true → thread_holds p b0 = true ∧ (p ≠ q ∨ ¬ lost)) →
  (creating m' ≤ creating (threads y))%nat →
  server_inv (mk_server_sys w' m' d a).
Proof.
  intros [V1 V2 V3 V4 V5 V6 V7] [O1 O2 O3 O4 O5 O6] Ha Hm Hc. split; simpl; try done.
  - congruence.
  - intros th b (b0 & Hb & _)%Hm. by eapply V4.
  - intros th b p (b0 & Hb & H)%Hm [Hp Hq]%H. apply O6; [done|]. by eapply V5.
  - intros th th' b b' p (b0 & Hb & H)%Hm (b0' & Hb' & H')%Hm [Hp _]%H [Hp' _]%H'.
    by eapply V6.
  - lia.
Qed.

Lemma step_release y p :
  server_inv y → releasable y p = true → ∃ y', handle y (sv_release p) = Some y' ∧ server_inv y'.
Proof.
  intros Hi Hr. unfold releasable in Hr. destruct (pushes (wld y) !! p) as [x|] eqn:E; [|done].
  destruct (push_release_run p x _ (v_manager _ Hi) E) as (w' & Hw & Ho).
  simpl. unfold manage. rewrite Hw. eexists. split; [done|].
  eapply server_inv_others; [done|exact Ho|unfold count_eff; simpl; pose proof (v_accepting _ Hi); lia| |done].
  intros th b Hb. exists b. split; [done|]. intros q Hq. split; [done|].
  destruct (decide (q = p)) as [->|]; [right|by left].
  destruct (existsb _ _) eqn:Ex; [apply Nat.ltb_lt in Hr; lia|].
  assert (existsb (λ kb : nat * broadcasting, thread_holds p kb.2) (map_to_list (threads y)) = true);
    [|congruence].
  apply existsb_exists. exists (th, b). split; [|done].
  by apply list_elem_of_In, elem_of_map_to_list.
Qed.

(** What a thread does with its message between making and dropping it. *)
Definition uses_push {A} (q : nat) (m : mact A) w : Prop :=
  ∃ a w' es, m w = Done a w' es ∧ keeps_others q False w w' ∧
    count_eff eff_async_accept_socket es = 0%nat ∧ count_eff eff_async_detect_ssl es = 0%nat.

Lemma keeps_others_refl q lost w : manager_inv w → keeps_others q lost w w.
Proof. by split. Qed.

Lemma uses_push_one q o x w : manager_inv w → pushes w !! q = Some x → uses_push q (post_one q o) w.
Proof.
  intros Hw Hx. destruct (post_all_run q [o] x w Hw Hx) as (w' & es & E & H).
  simpl in E. unfold act_bind in E. destruct (post_one q o w) as [[] w1 es1| |] eqn:Ep; try done.
  simpl in E. injection E as <- <-. rewrite app_nil_r in H. by exists tt, w1, es1.
Qed.

Lemma uses_push_gets {A} q (f : world → A) w : manager_inv w → uses_push q (act_gets f) w.
Proof. intros Hw. exists (f w), w, []. by split; [|split; [apply keeps_others_refl|]]. Qed.

Lemma step_uses {A} y (m : mact A) th b (b' : A → broadcasting) q :
  server_inv y → threads y !! th = Some b → thread_holds q b = true → is_create b = false →
  (∀ x, pushes (wld y) !! q = Some x → uses_push q m (wld y)) →
  (∀ a p, thread_holds p (b' a) = thread_holds p b) → (∀ a, is_create (b' a) = false) →
  ∃ y', manage m y (λ a y, set_threads (<[th := b' a]> (threads y)) y) = Some y' ∧ server_inv y'.
Proof.
  intros Hi Hb Hq Hcb Hm Hh Hcb'. destruct (v_held _ Hi _ _ _ Hb Hq) as [x Hx].
  destruct (Hm x Hx) as (a & w' & es & Hw & Ho & Ha & Hd).
  unfold manage. rewrite Hw. eexists. split; [done|].
  eapply server_inv_others; [done|exact Ho|simpl; rewrite Ha; pose proof (v_accepting _ Hi); lia|..].
  - simpl. intros th' b0. rewrite lookup_insert_Some. intros [[<- <-]|[_ Hb0]].
    + exists b. split; [done|]. intros p. rewrite Hh. auto.
    + exists b0. by auto.
  - simpl. pose proof (total_insert creates (threads y) th (b' a)) as Hc. rewrite Hb in Hc. simpl in Hc.
    assert (creates b = 0%nat ∧ creates (b' a) = 0%nat) as [Hb0 Hb1] by (unfold creates; by rewrite Hcb, Hcb').
    unfold creating. lia.
Qed.

(** From one table to what follows it. *)
Lemma step_next y th b b' q :
  server_inv y → threads y !! th = Some b → thread_holds q b = true → is_create b = false →
  (∀ p, thread_holds p b' = thread_holds p b) → is_create b' = false →
  server_inv (set_threads (<[th := b']> (threads y)) y).
Proof.
  intros Hi Hb Hq Hcb Hh Hcb'.
  destruct (step_uses y (act_ret tt) th b (λ _, b') q) as (y' & E & Hi'); try done.
  - intros _ _. exists tt, (wld y), []. by split; [|split; [apply keeps_others_refl, Hi|]].
  - unfold manage in E. simpl in E. injection E as <-. unfold count_eff in Hi'. simpl in Hi'.
    by rewrite !Nat.add_0_r in Hi'.
Qed.

Lemma step_drop y th q :
  server_inv y → threads y !! th = Some (bt_drop q) →
  ∃ y', handle y (sv_thread th) = Some y' ∧ server_inv y'.
Proof.
  intros Hi Hb. simpl. rewrite Hb.
  assert (thread_holds q (bt_drop q) = true) as Hq by (by apply bool_decide_eq_true_2).
  destruct (v_held _ Hi _ _ _ Hb Hq) as [x Hx].
  destruct (push_release_run q x _ (v_manager _ Hi) Hx) as (w' & Hw & Ho).
  unfold manage. rewrite Hw. eexists. split; [done|].
  eapply server_inv_others; [done|exact Ho|unfold count_eff; simpl; pose proof (v_accepting _ Hi); lia|..].
  - simpl. intros th' b [Hne Hb']%lookup_delete_Some. exists b. split; [done|].
    intros p Hp. split; [done|]. left. intros ->. apply Hne. by eapply (v_single _ Hi).
  - simpl. pose proof (total_delete creates (threads y) th). unfold creating. lia.
Qed.

Lemma step_create y th call_id send_bytes session_ids :
  server_inv y → threads y !! th = Some (bt_create call_id send_bytes session_ids) →
  ∃ y', handle y (sv_thread th) = Some y' ∧ server_inv y'.
Proof.
  intros [V1 V2 V3 V4 V5 V6 V7] Hb. simpl. rewrite Hb. unfold manage.
  destruct (broadcast_create_run call_id send_bytes _ V1)
    as (w' & -> & H1 & H2 & H3 & H4 & H5 & H6 & H7 & H8).
  eexists. split; [done|]. set (q := fresh_push (wld y)) in *.
  assert (∀ th b p, threads y !! th = Some b → thread_holds p b = true → p ≠ q) as Hne.
  { intros th' b p Hb' Hp ->. destruct (V5 _ _ _ Hb' Hp). congruence. }
  split; simpl; try done.
  - congruence.
  - unfold count_eff. simpl. lia.
  - intros th' b. rewrite lookup_insert_Some. intros [[<- _]|[_ ?]]; by eapply V4.
  - intros th' b p. rewrite lookup_insert_Some. intros [[<- <-]|[_ Hb']] Hp.
    + simpl in Hp. by apply bool_decide_eq_true in Hp as ->.
    + apply H8. by eapply V5.
  - intros th1 th2 b1 b2 p. rewrite !lookup_insert_Some.
    intros [[<- <-]|[? Hb1]] [[<- <-]|[? Hb2]] Hp1 Hp2; simpl in *; try done.
    + apply bool_decide_eq_true in Hp1 as ->. by destruct (Hne _ _ _ Hb2 Hp2).
    + apply bool_decide_eq_true in Hp2 as ->. by destruct (Hne _ _ _ Hb1 Hp1).
    + by eapply V6.
  - pose proof (total_insert creates (threads y) th (bt_plain q session_ids)) as Hc.
    rewrite Hb in Hc. unfold creating, creates in *. simpl in Hc. lia.
Qed.

Lemma step_broadcast y th call_id send_bytes session_ids :
  server_inv y → (th < T)%nat → threads y !! th = None →
  ∃ y', handle y (sv_broadcast th call_id send_bytes session_ids) = Some y' ∧ server_inv y'.
Proof.
  intros Hi Hth Hn. simpl. unfold manage.
  destruct (decide (m_msg_queued (wld y) < Z.of_nat config.queue_send_max ∧ connections (wld y) ≠ 0))
    as [[Hq Hc]|Hno].
  - rewrite broadcast_check_true by done. eexists. split; [done|].
    destruct Hi as [V1 V2 V3 V4 V5 V6 V7]. split; simpl; try done.
    + unfold count_eff. simpl. lia.
    + intros th' b. rewrite lookup_insert_Some. intros [[<- _]|[_ ?]]; [done|by eapply V4].
    + intros th' b p. rewrite lookup_insert_Some. intros [[<- <-]|[_ ?]]; [done|by eapply V5].
    + intros th1 th2 b1 b2 p. rewrite !lookup_insert_Some.
      intros [[<- <-]|[_ Hb1]] [[<- <-]|[_ Hb2]]; try done. by eapply V6.
    + destruct V1 as [V1 _]. rewrite V1 in Hq.
      assert (creating (<[th := bt_create call_id send_bytes session_ids]> (threads y)) ≤ T)%nat;
        [|lia].
      apply creating_bound. intros th' b. rewrite lookup_insert_Some.
      intros [[<- _]|[_ ?]]; [done|by eapply V4].
  - rewrite broadcast_check_false by lia. eexists. split; [done|].
    apply server_inv_keeps; [done|apply keeps_pushes_refl|].
    unfold count_eff. simpl. pose proof (v_accepting _ Hi). lia.
Qed.

Lemma server_step y e :
  server_inv y → enabled y e = true → ∃ y', handle y e = Some y' ∧ server_inv y'.
Proof.
  intros Hi He. pose proof (v_accepting _ Hi) as Ha.
  destruct e as [ec address ep_ec listen_ok|ec result|o id|o est id|p|th call_id bs ids|th];
    simpl in He.
  - apply Nat.ltb_lt in He. simpl. unfold manage. simpl.
    destruct (on_accept_run ec address ep_ec listen_ok (wld y)) as (w' & es & -> & K & _ & Hc & _).
    eexists. split; [done|]. apply (server_inv_keeps y); [done|done|simpl; lia].
  - simpl. unfold manage. simpl.
    destruct (on_detect_run ec result (wld y)) as (w' & es & -> & K & Hc & _).
    eexists. split; [done|]. apply (server_inv_keeps y); [done|done|simpl; lia].
  - apply bool_decide_eq_true in He as [st Ho]. simpl. rewrite Ho. unfold manage.
    destruct (add_session_run st id o (wld y)) as (w' & -> & K & _).
    eexists. split; [done|]. apply server_inv_keeps; [done|done|unfold count_eff; simpl; lia].
  - apply bool_decide_eq_true in He. simpl. unfold manage.
    destruct (destroy_session_run o est id (wld y) He) as (w' & -> & K & _).
    eexists. split; [done|]. apply server_inv_keeps; [done|done|unfold count_eff; simpl; lia].
  - by apply step_release.
  - apply andb_true_iff in He as [Hth%Nat.ltb_lt Hn%bool_decide_eq_true]. by apply step_broadcast.
  - apply bool_decide_eq_true in He as [b Hb]. pose proof (v_manager _ Hi).
    destruct b as [call_id bs ids|q ids|q [|o os] ids|q ids|q [|o os]|q].
    + by eapply step_create.
    + simpl. rewrite Hb. eapply (step_uses y _ th _ _ q Hi Hb); try done;
        [by apply bool_decide_eq_true_2|intros; by apply uses_push_gets].
    + simpl. rewrite Hb. eexists. split; [done|].
      eapply (step_next y th _ _ q Hi Hb); try done. by apply bool_decide_eq_true_2.
    + simpl. rewrite Hb. eapply (step_uses y _ th _ _ q Hi Hb); try done;
        [by apply bool_decide_eq_true_2|intros; by eapply uses_push_one].
    + simpl. rewrite Hb. eapply (step_uses y _ th _ _ q Hi Hb); try done;
        [by apply bool_decide_eq_true_2|intros; by apply uses_push_gets].
    + simpl. rewrite Hb. eexists. split; [done|].
      eapply (step_next y th _ _ q Hi Hb); try done. by apply bool_decide_eq_true_2.
    + simpl. rewrite Hb. eapply (step_uses y _ th _ _ q Hi Hb); try done;
        [by apply bool_decide_eq_true_2|intros; by eapply uses_push_one].
    + by eapply step_drop.
Qed.

(** ** The number of sessions *)

Definition no_more w w' : Prop := (size (alive w') ≤ size (alive w))%nat.

Lemma manage_inv {A} (m : mact A) y k y' :
  manage m y k = Some y' → ∃ a w es, m (wld y) = Done a w es ∧
    y' = k a (mk_server_sys w (threads y) (detecting y + count_eff eff_async_detect_ssl es)
                (accepting y + count_eff eff_async_accept_socket es)).
Proof. unfold manage. destruct (m (wld y)) as [a w es| |]; [|done..]. intros [= <-]. eauto. Qed.

(** Operations on messages start no connection. *)
Lemma alive_push_release A p : pres (λ w, alive w = A) (push_release p).
Proof. unfold push_release, on_msg_sent. by solve_pres. Qed.
Lemma emits_push_release (P : server_effect → Prop) p : emits P (push_release p).
Proof. unfold push_release, on_msg_sent. by solve_emits. Qed.

Lemma alive_post_one A p o : pres (λ w, alive w = A) (post_one p o).
Proof. unfold post_one, push_retain. by solve_pres. Qed.
Lemma emits_post_one p o : emits (λ e, e ≠ eff_async_detect_ssl) (post_one p o).
Proof. unfold post_one, push_retain. by solve_emits. Qed.

(** An operation that neither makes a session nor detects one. *)
Definition calm {A} (m : mact A) : Prop :=
  (∀ a, pres (λ w, alive w = a) m) ∧ emits (λ e, e ≠ eff_async_detect_ssl) m.

Lemma count_eff_none x es : Forall (λ e, e ≠ x) es → count_eff x es = 0%nat.
Proof.
  intros He. unfold count_eff. induction He as [|e es He _ IH]; [done|].
  rewrite filter_cons, decide_False by done. exact IH.
Qed.

Lemma calm_manage {A} (m : mact A) y k y' :
  calm m → manage m y k = Some y' →
  ∃ a w es, y' = k a (mk_server_sys w (threads y) (detecting y) es) ∧ alive w = alive (wld y).
Proof.
  intros [Hp He] (a & w & es & E & ->)%manage_inv.
  rewrite (count_eff_none eff_async_detect_ssl es) by (by eapply He). rewrite Nat.add_0_r.
  eexists _, _, _. split; [done|]. by eapply (Hp _ _ _ _ _ E).
Qed.

Lemma calm_push_release p : calm (push_release p).
Proof. split; [intros; apply alive_push_release|apply emits_push_release]. Qed.
Lemma calm_post_one p o : calm (post_one p o).
Proof. split; [intros; apply alive_post_one|apply emits_post_one]. Qed.
Lemma calm_gets {A} (f : world → A) : calm (act_gets f).
Proof. split; [intros; apply pres_gets|]. intros s a s' es [= <- <- <-]. constructor. Qed.
Lemma calm_check : calm broadcast_check.
Proof. unfold broadcast_check. split; intros; [by solve_pres|by solve_emits]. Qed.
Lemma calm_create call_id bs : calm (broadcast_create call_id bs).
Proof. unfold broadcast_create. split; intros; [by solve_pres|by solve_emits]. Qed.
Lemma calm_add st id o : calm (add_session st id o).
Proof. unfold add_session. split; intros; [solve_pres; by destruct st|by solve_emits]. Qed.

Lemma calm_thread y th y' :
  handle y (sv_thread th) = Some y' →
  alive (wld y') = alive (wld y) ∧ detecting y' = detecting y.
Proof.
  simpl. destruct (threads y !! th)
    as [[call_id bs ids|q ids|q [|o os] ids|q ids|q [|o os]|q]|]; [..|done].
  3,6: by intros [= <-].
  all: intros (a & w & n & -> & ?)%calm_manage; [done|].
  all: first [apply calm_create|apply calm_gets|apply calm_post_one|apply calm_push_release].
Qed.

Lemma step_size y e y' :
  server_inv y → enabled y e = true → handle y e = Some y' → has_ssl_ctx = false →
  detecting y = 0%nat →
  detecting y' = 0%nat ∧
  (no_more (wld y) (wld y') ∨
   is_full server_cfg (wld y) = false ∧ size (alive (wld y')) = S (size (alive (wld y)))).
Proof.
  intros Hi He Hh Hssl Hd. unfold no_more.
  assert (alive (wld y') = alive (wld y) ∧ detecting y' = detecting y → detecting y' = 0%nat ∧
    ((size (alive (wld y')) ≤ size (alive (wld y)))%nat ∨
     is_full server_cfg (wld y) = false ∧ size (alive (wld y')) = S (size (alive (wld y)))))
    as Hcalm by (intros [-> ->]; by auto).
  destruct e as [ec address ep_ec listen_ok|ec result|o id|o est id|p|th call_id bs ids|th];
    simpl in He.
  - apply manage_inv in Hh as (a & w' & es & E & ->). simpl in *.
    destruct (on_accept_run ec address ep_ec listen_ok (wld y)) as (w1 & es1 & E1 & _ & _ & _ & H & Hx).
    rewrite E1 in E. injection E as <- <- <-. rewrite Hd, (Hx Hssl). split; [done|].
    destruct H as [->|(Hf & _ & ->)]; [by left|right]. split; [done|].
    apply map_size_insert_None. destruct (alive (wld y) !! _) eqn:Ea; [|done].
    destruct (v_manager _ Hi) as (_ & _ & H3). apply H3 in Ea. lia.
  - apply Nat.ltb_lt in He. lia.
  - simpl in Hh. destruct (alive (wld y) !! o) as [st|]; [|done].
    apply Hcalm. apply calm_manage in Hh as (a & w & n & -> & ?); [done|apply calm_add].
  - apply bool_decide_eq_true in He. apply manage_inv in Hh as (a & w' & es & E & ->).
    destruct (destroy_session_run o est id (wld y) He) as (w1 & E1 & _ & H). rewrite E1 in E.
    injection E as <- <- <-. simpl. rewrite H, Hd. split; [done|left].
    rewrite map_size_delete_Some by done. lia.
  - apply Hcalm. apply calm_manage in Hh as (a & w & n & -> & ?); [done|apply calm_push_release].
  - apply Hcalm. apply calm_manage in Hh as (a & w & n & -> & ?); [by destruct a|apply calm_check].
  - by apply Hcalm, (calm_thread y th).
Qed.

Lemma server_inv_init y : server_sys_init is_open = Some y →
  server_inv y ∧ size (alive (wld y)) = 0%nat ∧ detecting y = 0%nat.
Proof.
  unfold server_sys_init, manage, listener_run, handle_accept. run_act.
  intros Hy. assert (y = mk_server_sys (set_m_sub_refs 3 (new_session_manager 2)) ∅ 0
    (if is_open then 1 else 0)) as ->
    by (destruct is_open; injection Hy as <-; reflexivity).
  split; [|done]. split; simpl; try done.
  - by destruct is_open; lia.
  - unfold creating. rewrite total_empty. pose proof config.queue_send_max_pos. rewrite map_size_empty. lia.
Qed.

(** ** Properties *)

Abbreviation reachable y es y' :=
  (server_sys_init is_open = Some y ∧
   server_steps server_cfg has_on_listen has_ssl_ctx is_open T y es y').

Lemma server_steps_inv y es y' : reachable y es y' → server_inv y' ∧ safe enabled handle y'.
Proof.
  intros [Hi Hr]. apply server_inv_init in Hi as [Hi _].
  eapply steps_safe; [|exact Hi|exact Hr]. intros. by apply server_step.
Qed.

(** C27. With any number of threads broadcasting at once, while sessions come
    and go: no operation of the manager is undefined (no message is released
    after its end); [m_msg_queued] counts exactly the messages alive; it stays
    below [config::queue_send_max] plus the number of broadcasting threads
    (the test and the increment are not one step); at most one accept is
    outstanding. *)
Theorem manager_counts y es y' :
  reachable y es y' →
  safe enabled handle y' ∧
  m_msg_queued (wld y') = Z.of_nat (size (pushes (wld y'))) ∧
  (size (pushes (wld y')) < config.queue_send_max + T)%nat ∧
  (accepting y' ≤ 1)%nat.
Proof.
  intros [[V1 V2 V3 V4 V5 V6 V7] Hs]%server_steps_inv.
  split_and!; try done; [by destruct V1|lia].
Qed.

(** [connections()] is the number of sessions plus the number of
    broadcast messages not yet delivered: each owns the manager. *)
Theorem connections_value y es y' :
  reachable y es y' →
  connections (wld y') = Z.of_nat (size (alive (wld y'))) + Z.of_nat (size (pushes (wld y'))).
Proof.
  intros [[V1 V2 V3 V4 V5 V6 V7] _]%server_steps_inv.
  unfold connections, use_count. rewrite V2. lia.
Qed.

(** C37. Without a TLS context the listener never lets the sessions alive
    exceed [max_sessions]. *)
Theorem plain_max_sessions y es y' :
  is_u32 (sc_max_sessions server_cfg) → has_ssl_ctx = false → reachable y es y' →
  Z.of_nat (size (alive (wld y'))) ≤ sc_max_sessions server_cfg.
Proof.
  intros [Hm _] Hssl [Hi Hr]. pose proof (server_inv_init _ Hi) as (_ & Ha & Hd).
  enough (detecting y' = 0%nat ∧ Z.of_nat (size (alive (wld y'))) ≤ sc_max_sessions server_cfg)
    by (by destruct_and!).
  induction Hr as [y|y es y1 e y2 Hr IH [He Hh]]; [split; [done|lia]|].
  destruct (IH Hi Ha Hd) as [Hd1 Hs1].
  destruct (server_steps_inv _ _ _ (conj Hi Hr)) as [Hinv _].
  destruct (step_size _ _ _ Hinv He Hh Hssl Hd1) as [Hd2 [Hs2|[Hf Hs2]]]; (split; [done|]).
  - unfold no_more in Hs2. lia.
  - unfold is_full in Hf. apply bool_decide_eq_false in Hf.
    destruct Hinv as [_ V2 _ _ _ _ _]. unfold connections, use_count in Hf. lia.
Qed.
End facts.

(** ** Concrete servers *)

Module ListenerDemo.
Definition server_cfg (n : Z) : server_config :=
  mk_server_config "0.0.0.0" 3377 1 n 8192 (server_mode_or server_mode_plain server_mode_ssl).
Definition blank : server_sys := mk_server_sys (new_session_manager 0) ∅ 0 0.
Definition started : server_sys := default blank (server_sys_init true).
Definition drive (n : Z) (has_ssl_ctx : bool) (es : list server_event) : server_sys :=
  default blank (server_run (server_cfg n) false has_ssl_ctx true 2 started es).

Definition incoming : server_event := sv_accept ec_success "10.0.0.1" false (λ _, true).
(** A broadcast, up to the end of the call. *)
Definition broadcasts (th : nat) : list server_event :=
  sv_broadcast th 5 [x61] None :: replicate 7 (sv_thread th).
Definition scenario : list server_event := [incoming; sv_add 0 77] ++ broadcasts 1.
End ListenerDemo.

Import ListenerDemo.

Lemma manager_counts_witness :
  let y := drive 2 false scenario in
  m_msg_queued (wld y) = 1 ∧
  safe (server_enabled 2) (server_handle (server_cfg 2) false false true) y ∧
  m_msg_queued (wld y) = Z.of_nat (size (pushes (wld y))) ∧
  (size (pushes (wld y)) < config.queue_send_max + 2)%nat ∧ (accepting y ≤ 1)%nat.
Proof.
  split; [vm_compute; reflexivity|].
  apply (manager_counts (server_cfg 2) false false true 2 started scenario).
  split; [reflexivity|apply run_steps; vm_compute; reflexivity].
Defined.

Lemma connections_value_witness :
  let y := drive 2 false scenario in
  connections (wld y) = Z.of_nat (size (alive (wld y))) + Z.of_nat (size (pushes (wld y))).
Proof.
  apply (connections_value (server_cfg 2) false false true 2 started scenario).
  split; [reflexivity|apply run_steps; vm_compute; reflexivity].
Defined.

Lemma plain_max_sessions_witness :
  let y := drive 1 false [incoming; incoming; incoming] in
  size (alive (wld y)) = 1%nat ∧ Z.of_nat (size (alive (wld y))) ≤ 1.
Proof.
  split; [vm_compute; reflexivity|].
  apply (plain_max_sessions (server_cfg 1) false false true 2 started [incoming; incoming; incoming]);
    [split; [discriminate|reflexivity]|reflexivity|].
  split; [reflexivity|apply run_steps; vm_compute; reflexivity].
Defined.

(** A client is turned away although the server has room: with
    [max_sessions] 2, one session and one broadcast message on its way to it,
    the connection count is 2, and the next connection is closed. *)
Theorem broadcast_blocks_connection :
  ∃ y y', server_steps (server_cfg 2) false false true 2 started scenario y ∧
    server_handle (server_cfg 2) false false true y incoming = Some y' ∧
    size (alive (wld y)) = 1%nat ∧ is_full (server_cfg 2) (wld y) = true ∧
    size (alive (wld y')) = 1%nat.
Proof.
  exists (drive 2 false scenario), (drive 2 false (scenario ++ [incoming])).
  split; [apply run_steps; vm_compute; reflexivity|].
  split; [vm_compute; reflexivity|]. split_and!; vm_compute; reflexivity.
Qed.

(** With a TLS context [max_sessions] can be exceeded: a connection is
    counted only once its kind is detected, and nothing checks the limit
    then. *)
Theorem ssl_exceeds_max_sessions :
  ∃ y, server_steps (server_cfg 1) false true true 2 started
         [incoming; incoming; sv_detect ec_success (Some true); sv_detect ec_success (Some true)] y ∧
    sc_max_sessions (server_cfg 1) < Z.of_nat (size (alive (wld y))).
Proof.
  exists (drive 1 true [incoming; incoming; sv_detect ec_success (Some true);
                        sv_detect ec_success (Some true)]).
  split; [apply run_steps; vm_compute; reflexivity|vm_compute; reflexivity].
Qed.

(** A listener whose [bind] or [listen] failed stays open, so [run()]
    starts an accept; every accept that fails (they all do on such a socket)
    starts the next one at once: after any number of failures one is
    outstanding, and the loop never ends by itself. *)
Theorem failed_bind_accepts_forever server_cfg has_on_listen has_ssl_ctx T bind_ok listen_ok y n :
  bind_ok && listen_ok = false →
  server_sys_init (listener_open true true bind_ok listen_ok) = Some y →
  ∃ y', server_run server_cfg has_on_listen has_ssl_ctx (listener_open true true bind_ok listen_ok) T y
          (replicate n (sv_accept ec_failure "" false (λ _, true))) = Some y' ∧ accepting y' = 1%nat.
Proof.
  intros Hb Hi. assert (listener_open true true bind_ok listen_ok = true) as Ho
    by (by destruct bind_ok, listen_ok).
  rewrite Ho in *. assert (accepting y = 1%nat) as Ha by (by injection Hi as <-).
  clear Hi. revert y Ha. induction n as [|n IH]; intros y Ha; [by exists y|]. simpl.
  unfold server_run in *. simpl. rewrite Ha. simpl. by apply IH.
Qed.

Lemma failed_bind_accepts_forever_witness :
  ∃ y', server_run (server_cfg 1) false false (listener_open true true false true) 1 started
          (replicate 1000 (sv_accept ec_failure "" false (λ _, true))) = Some y' ∧
        accepting y' = 1%nat.
Proof. apply (failed_bind_accepts_forever _ _ _ _ false true started 1000); reflexivity. Defined.
