(* ===== verification/BroadcastSteps.v ===== *)
(** * BroadcastSteps: a broadcast alone and a broadcast among threads

    [broadcast] takes and drops the locks of the two tables and posts to one
    session at a time, so the system of Listener runs it step by step.  A thread
    that is not disturbed computes with those steps what [broadcast] computes
    at once. *)

From S2P Require Import Prelude Types Header ServerSession SessionManager SessionManagerFacts Listener ListenerFacts.

#[local] Opaque config.queue_send_max.

Section steps.
Context (server_cfg : server_config) (has_on_listen has_ssl_ctx is_open : bool) (T : nat).
Context (ths : gmap nat broadcasting) (d a : nat) (th : nat).
Implicit Types (w : world) (b : broadcasting).
Abbreviation handle := (server_handle server_cfg has_on_listen has_ssl_ctx is_open).
Abbreviation sys_run := (server_run server_cfg has_on_listen has_ssl_ctx is_open T).

(** The system while the thread is at [b]. *)
Definition at_step w b : server_sys := mk_server_sys w (<[th := b]> ths) d a.

Lemma set_threads_at w b b' : set_threads (<[th := b']> (threads (at_step w b))) (at_step w b) = at_step w b'.
Proof. unfold at_step, set_threads. simpl. by rewrite insert_insert_eq. Qed.

Lemma manage_at {A} (m : mact A) w w' es x b (b' : A → broadcasting) :
  m w = Done x w' es →
  count_eff eff_async_accept_socket es = 0%nat → count_eff eff_async_detect_ssl es = 0%nat →
  manage m (at_step w b) (λ a y, set_threads (<[th := b' a]> (threads y)) y) = Some (at_step w' (b' x)).
Proof.
  intros E H1 H2. unfold manage, at_step, set_threads. simpl.
  by rewrite E, H1, H2, !Nat.add_0_r, insert_insert_eq.
Qed.

(** One step, enabled because the thread is inside a broadcast. *)
Lemma run_thread w b y es :
  handle (at_step w b) (sv_thread th) = Some y →
  sys_run (at_step w b) (sv_thread th :: es) = sys_run y es.
Proof.
  intros E. unfold server_run. cbn [run server_enabled]. unfold at_step in *. simpl threads.
  rewrite lookup_insert_eq, bool_decide_eq_true_2 by by eexists. by rewrite E.
Qed.

Lemma post_one_sends p o w x :
  pushes w !! p = Some x →
  ∃ w' es, post_one p o w = Done tt w' es ∧ is_Some (pushes w' !! p) ∧
    count_eff eff_async_accept_socket es = 0%nat ∧ count_eff eff_async_detect_ssl es = 0%nat.
Proof.
  intros Hx. unfold post_one, push_retain. run_act. case_decide; run_act.
  - rewrite Hx. simpl. eexists _, _. split; [done|]. simpl. by rewrite lookup_insert_eq.
  - eexists _, _. by split.
Qed.

(** The posts of a copied table. *)
Lemma run_posts (mkb : list nat → broadcasting) p os w x es rest :
  (∀ o os w, handle (at_step w (mkb (o :: os))) (sv_thread th) =
     manage (post_one p o) (at_step w (mkb (o :: os))) (λ _ y, set_threads (<[th := mkb os]> (threads y)) y)) →
  pushes w !! p = Some x →
  ∀ w', post_all p os w = Done tt w' es →
  sys_run (at_step w (mkb os)) (replicate (length os) (sv_thread th) ++ rest) =
    sys_run (at_step w' (mkb [])) rest.
Proof.
  intros Hmk. revert w x es. induction os as [|o os IH]; intros w x es Hx w' E; simpl in E.
  { unfold act_ret in E. by injection E as <- <-. }
  change (replicate (length (o :: os)) (sv_thread th) ++ rest)
    with (sv_thread th :: (replicate (length os) (sv_thread th) ++ rest)).
  destruct (post_one_sends p o w x Hx) as (w1 & es1 & E1 & [x1 Hx1] & Ha & Hd).
  unfold act_bind in E. rewrite E1 in E.
  destruct (post_all p os w1) as [[] w2 es2| |] eqn:E2; try done. injection E as <- <-.
  erewrite run_thread by (rewrite Hmk; by eapply manage_at). by eapply IH.
Qed.

(** The posts leave the message alive. *)
Definition owned p w : Prop := ∃ x, pushes w !! p = Some x ∧ (0 < push_refs x)%nat.

Lemma post_all_keeps p os w :
  owned p w → ∃ w' es, post_all p os w = Done tt w' es ∧ owned p w'.
Proof.
  intros ([dp n] & Hx & Hn). rewrite (post_all_spec _ _ _ _ _ Hx). do 2 eexists.
  split; [done|]. eexists. simpl. rewrite lookup_insert_eq. simpl in *. split; [done|simpl; lia].
Qed.

(** From the copy of a table to its end. *)
Lemma run_table (mkb : list nat → broadcasting) (copy : mact (list nat)) (f : world → list nat) p b w :
  (∀ o os w, handle (at_step w (mkb (o :: os))) (sv_thread th) =
     manage (post_one p o) (at_step w (mkb (o :: os))) (λ _ y, set_threads (<[th := mkb os]> (threads y)) y)) →
  copy = act_gets f →
  handle (at_step w b) (sv_thread th) =
    manage copy (at_step w b) (λ os y, set_threads (<[th := mkb os]> (threads y)) y) →
  owned p w →
  ∃ n w' es, (let! os := copy in post_all p os) w = Done tt w' es ∧ owned p w' ∧
    ∀ rest, sys_run (at_step w b) (replicate n (sv_thread th) ++ rest) =
      sys_run (at_step w' (mkb [])) rest.
Proof.
  intros Hmk -> Hb Hx. destruct (post_all_keeps p (f w) w Hx) as (w' & es & E & Hx').
  destruct Hx as (x & Hx & _).
  exists (S (length (f w))), w', es. split; [unfold act_bind, act_gets; by rewrite E|]. split; [done|]. intros rest.
  change (replicate (S (length (f w))) (sv_thread th) ++ rest)
    with (sv_thread th :: (replicate (length (f w)) (sv_thread th) ++ rest)).
  rewrite (run_thread _ _ (at_step w (mkb (f w)))); [|rewrite Hb; by eapply manage_at].
  by eapply run_posts.
Qed.

Lemma release_done p w : owned p w → ∃ w', push_release p w = Done tt w' [].
Proof.
  intros (x & Hx & Hr). unfold push_release, on_msg_sent. run_act. rewrite Hx.
  destruct x as [dp [|[|n]]]; simpl in *; [lia|by eexists..].
Qed.
(** The threads that are not inside anything. *)
Definition alone w : server_sys := mk_server_sys w ths d a.

(** The first step of a broadcast: the test. *)
Lemma run_check call_id send_bytes session_ids w es :
  (th < T)%nat → ths !! th = None →
  sys_run (alone w) (sv_broadcast th call_id send_bytes session_ids :: es) =
    (if decide (m_msg_queued w < Z.of_nat config.queue_send_max ∧ connections w ≠ 0)
     then sys_run (at_step w (bt_create call_id send_bytes session_ids)) es
     else sys_run (alone w) es).
Proof.
  intros Hth Hn. unfold server_run, alone. cbn [run server_enabled threads].
  rewrite (proj2 (Nat.ltb_lt _ _)), bool_decide_eq_true_2 by done.
  simpl. unfold manage, count_eff. cbn [wld]. case_decide as Hc.
  - rewrite broadcast_check_true by tauto. simpl. by rewrite !Nat.add_0_r.
  - rewrite broadcast_check_false by lia. simpl. by rewrite !Nat.add_0_r.
Qed.

(** The steps after the message is made: two tables, and the end of the
    pointer. *)
Lemma run_copies p session_ids w :
  ths !! th = None → owned p w →
  ∃ w' es n, (do! broadcast_plain p session_ids in
              do! broadcast_ssl p session_ids in push_release p) w = Done tt w' es ∧
    sys_run (at_step w (bt_plain p session_ids)) (replicate n (sv_thread th)) = Some (alone w').
Proof.
  intros Hn Hown.
  destruct (run_table (λ os, bt_post_plain p os session_ids) (copy_plain session_ids) _ p
    (bt_plain p session_ids) w ltac:(intros; simpl; by rewrite lookup_insert_eq) eq_refl
    ltac:(simpl; by rewrite lookup_insert_eq) Hown) as (n1 & w2 & es2 & E2 & Hown2 & R2).
  destruct (run_table (λ os, bt_post_ssl p os) (copy_ssl session_ids) _ p
    (bt_ssl p session_ids) w2 ltac:(intros; simpl; by rewrite lookup_insert_eq) eq_refl
    ltac:(simpl; by rewrite lookup_insert_eq) Hown2) as (n2 & w3 & es3 & E3 & Hown3 & R3).
  destruct (release_done p w3 Hown3) as (w4 & E4).
  exists w4, (es2 ++ es3 ++ []), (n1 + (1 + (n2 + 2)))%nat. split.
  { change (broadcast_plain p session_ids w = Done tt w2 es2) in E2.
    change (broadcast_ssl p session_ids w2 = Done tt w3 es3) in E3.
    unfold act_bind. by rewrite E2, E3, E4. }
  rewrite !replicate_add. cbn [replicate app]. rewrite R2.
  rewrite (run_thread _ _ (at_step w2 (bt_ssl p session_ids))).
  2: { simpl. rewrite lookup_insert_eq. f_equal. apply set_threads_at. }
  rewrite R3, (run_thread _ _ (at_step w3 (bt_drop p))).
  2: { simpl. rewrite lookup_insert_eq. f_equal. apply set_threads_at. }
  rewrite (run_thread _ _ (alone w4)); [done|].
  simpl. rewrite lookup_insert_eq. unfold manage, alone. simpl. rewrite E4.
  unfold set_threads, count_eff. simpl. by rewrite !Nat.add_0_r, delete_insert_id.
Qed.
End steps.

(** C29. A broadcast among threads is the broadcast of SessionManager: a thread
    that enters [broadcast] and takes its steps (the test, the message, the
    copy of each table under its lock, one post per session, the end of its
    pointer) undisturbed leaves the manager, the listener and the other
    threads exactly as [broadcast] run at once does, and is then out of it. *)
Theorem broadcast_steps_atomic server_cfg has_on_listen has_ssl_ctx is_open T y th call_id send_bytes session_ids :
  (th < T)%nat → threads y !! th = None →
  ∃ w es n, broadcast call_id send_bytes session_ids (wld y) = Done tt w es ∧
    server_run server_cfg has_on_listen has_ssl_ctx is_open T y
      (sv_broadcast th call_id send_bytes session_ids :: replicate n (sv_thread th)) =
      Some (mk_server_sys w (threads y) (detecting y) (accepting y)).
Proof.
  intros Hth Hn. destruct y as [w ths d a]. cbn [wld threads detecting accepting] in *.
  change (mk_server_sys w ths d a) with (alone ths d a w).
  unfold broadcast. destruct (decide (m_msg_queued w < Z.of_nat config.queue_send_max ∧ connections w ≠ 0))
    as [Hc|Hno] eqn:Ed.
  2: { exists w, [], 0%nat. rewrite run_check, Ed by done. unfold act_bind.
       by rewrite broadcast_check_false by lia. }
  destruct (broadcast_create call_id send_bytes w) as [p w1 es1| |] eqn:E1; try done.
  assert (es1 = [] ∧ owned p w1) as (-> & Hown).
  { unfold broadcast_create in E1. run_act. split; [done|].
    eexists. simpl. rewrite lookup_insert_eq. split; [done|simpl; lia]. }
  destruct (run_copies server_cfg has_on_listen has_ssl_ctx is_open T ths d a th p session_ids w1 Hn Hown)
    as (w' & es & n & E & Hrun).
  exists w', es, (S n). rewrite run_check, Ed by done. split.
  - unfold act_bind in *. rewrite broadcast_check_true by apply Hc. cbv beta iota delta [negb]. by rewrite E1, E.
  - cbn [replicate]. rewrite (run_thread _ _ _ _ _ _ _ _ _ _ _ (at_step ths d a th w1 (bt_plain p session_ids))); [done|].
    simpl. rewrite lookup_insert_eq.
    by apply (manage_at ths d a th _ w w1 [] p _ (λ p, bt_plain p session_ids)).
Qed.

Lemma broadcast_steps_atomic_witness :
  let y := ListenerDemo.drive 2 false [ListenerDemo.incoming; sv_add 0 77] in
  ∃ w es n, broadcast 5 [x61] None (wld y) = Done tt w es ∧
    server_run (ListenerDemo.server_cfg 2) false false true 2 y
      (sv_broadcast 1 5 [x61] None :: replicate n (sv_thread 1)) =
      Some (mk_server_sys w (threads y) (detecting y) (accepting y)) ∧ m_msg_queued w = 1.
Proof.
  intros y. destruct (broadcast_steps_atomic (ListenerDemo.server_cfg 2) false false true 2 y 1 5 [x61] None)
    as (w & es & n & E & Hrun).
  - lia.
  - vm_compute. reflexivity.
  - exists w, es, n. split; [exact E|]. split; [exact Hrun|].
    vm_compute in E. injection E as <- _. reflexivity.
Defined.
