(* ===== verification/ServerNet.v ===== *)
(** * ServerNet: the server with all of its sessions

    The objects of Listener (the manager, the acceptor, the broadcasting
    threads) together with a session of ServerSystem for every session object:
    accepting creates them, they register themselves, a broadcast posts to
    them, their queues let its message go, and their end removes them. *)

From S2P Require Import Prelude Types Header ServerSession ServerSystem SessionManager Listener.

Section server_net.
Context {B : Type} `{FlatBuffer B} {Req Res U : Type}.
Context (host : byte_order) (manager : manager_handlers (B := B) (Req := Req) (Res := Res) (U := U)).
Context (srv_timeout : server_timeout) (server_cfg : server_config) (session_cfg : session_config).
Context (req0 : Req) (res0 : Res).
Context (has_on_listen has_ssl_ctx is_open : bool) (T : nat).
Abbreviation session_sys := (session_sys (B := B) (Req := Req) (Res := Res)).
Abbreviation session_event := (session_event (B := B) (Req := Req) (U := U)).
Abbreviation handle_server := (server_handle server_cfg has_on_listen has_ssl_ctx is_open).
Abbreviation handle_session := (session_handle host manager srv_timeout).

(** [net_posts]: the closures [send] has posted and no strand has run yet, each
    a session and a message. *)
Record server_net := mk_server_net {
  net_sys : server_sys;
  net_sessions : gmap nat session_sys;
  net_posts : list (nat * nat) }.

(** [id]: the address of the stream of the session the event may make;
    [remote_host], [handshake_buffer]: the client's address and the bytes that
    were read to detect TLS. *)
Inductive net_event : Type :=
  | ne_accept (ec : error_code) (address : string) (ep_ec : bool) (listen_ok : string → bool) (id : Z)
  | ne_detect (ec : error_code) (result : option bool) (id : Z) (remote_host : string)
      (handshake_buffer : B)
  | ne_broadcast (th : nat) (call_id : Z) (send_bytes : list byte) (session_ids : option (list Z))
  | ne_thread (th : nat)
  | ne_post (o : nat)                     (* the next closure of a session's strand *)
  | ne_session (o : nat) (e : session_event)
  | ne_destroy (o : nat).

(** ** What the events of one part mean to the others *)

Definition effects_of {A} (m : mact A) (w : world) : list server_effect :=
  match m w with Done _ _ es => es | _ => [] end.

Definition server_effects (y : server_sys) (e : server_event) : list server_effect :=
  match e with
  | sv_accept ec address ep_ec listen_ok =>
      effects_of (Listener.on_accept server_cfg has_on_listen has_ssl_ctx is_open ec address ep_ec listen_ok true)
        (wld y)
  | sv_detect ec result => effects_of (on_detect server_cfg ec result true) (wld y)
  | sv_thread th =>
      match threads y !! th with
      | Some (bt_post_plain p (o :: _) _) | Some (bt_post_ssl p (o :: _)) =>
          effects_of (post_one p o) (wld y)
      | _ => []
      end
  | _ => []
  end.

Definition posts_of (es : list server_effect) : list (nat * nat) :=
  omap (λ e, match e with eff_send o p => Some (o, p) | _ => None end) es.

Definition created_of (es : list server_effect) : list nat :=
  omap (λ e, match e with eff_session_accept o => Some o | _ => None end) es.

(** [make_shared<session_accept<..>>(..)->accept()] *)
Definition create_session (id : Z) (remote_host : string) (handshake_buffer : B) (w : world)
    (sessions : gmap nat session_sys) (o : nat) : option (gmap nat session_sys) :=
  st ← alive w !! o;
  t ← session_sys_init srv_timeout (bool_decide (st = ssl_stream))
        (new_session id remote_host session_cfg req0 res0 handshake_buffer);
  Some (<[o := t]> sessions).

(** An event of the listener or of a thread, with its effects. *)
Definition serve_event (n : server_net) (e : server_event) (id : Z) (remote_host : string)
    (handshake_buffer : B) : option server_net :=
  let es := server_effects (net_sys n) e in
  y ← handle_server (net_sys n) e;
  sessions ← foldr (λ o m, sessions ← m; create_session id remote_host handshake_buffer (wld y) sessions o)
               (Some (net_sessions n)) (created_of es);
  Some (mk_server_net y sessions (net_posts n ++ posts_of es)).

(** Several at once. *)
Fixpoint serve (y : server_sys) (es : list server_event) : option server_sys :=
  match es with
  | [] => Some y
  | e :: es' => y' ← handle_server y e; serve y' es'
  end.

(** The registration of session [o]. *)
Definition registers (o : nat) (t : session_sys) (e : session_event) : list server_event :=
  match e with
  | ev_accept now ec =>
      match ServerSession.on_accept now ec (ses t) with
      | Done _ _ es => omap (λ x, match x with eff_add_session i => Some (sv_add o i) | _ => None end) es
      | _ => []
      end
  | _ => []
  end.

(** The broadcast messages in a session's queue, and those it has let go: a
    queue only loses its front. *)
Definition shared (t : session_sys) : list nat := omap push_shared (m_queue (ses t)).

Definition let_go (t t' : session_sys) : list server_event :=
  sv_release <$> take (length (shared t) - length (shared t')) (shared t).

(** Nothing refers to the session object: no operation of it is outstanding. *)
Definition idle (p : pending) : bool :=
  bool_decide (p_read p = 0 ∧ p_write p = 0 ∧ p_ping p = 0 ∧ p_close p = 0 ∧ p_wait p = 0 ∧
    p_ssl p = 0 ∧ p_http p = 0 ∧ p_accept p = 0)%nat.

(** ** The system *)

Definition net_enabled (n : server_net) (e : net_event) : bool :=
  match e with
  | ne_accept ec address ep_ec listen_ok _ => server_enabled T (net_sys n) (sv_accept ec address ep_ec listen_ok)
  | ne_detect ec result _ _ _ => server_enabled T (net_sys n) (sv_detect ec result)
  | ne_broadcast th call_id send_bytes session_ids =>
      server_enabled T (net_sys n) (sv_broadcast th call_id send_bytes session_ids)
  | ne_thread th => server_enabled T (net_sys n) (sv_thread th)
  | ne_post o => bool_decide (o ∈ (net_posts n).*1)
  | ne_session o e =>
      match net_sessions n !! o with
      | Some t => session_enabled t e && match e with ev_send _ => false | _ => true end
      | None => false
      end
  | ne_destroy o =>
      match net_sessions n !! o with
      | Some t => idle (pend t) && bool_decide (o ∉ (net_posts n).*1)
      | None => false
      end
  end.

Definition net_handle (n : server_net) (e : net_event) : option server_net :=
  match e with
  | ne_accept ec address ep_ec listen_ok id =>
      serve_event n (sv_accept ec address ep_ec listen_ok) id address fb_empty
  | ne_detect ec result id remote_host handshake_buffer =>
      serve_event n (sv_detect ec result) id remote_host handshake_buffer
  | ne_broadcast th call_id send_bytes session_ids =>
      serve_event n (sv_broadcast th call_id send_bytes session_ids) 0 "" fb_empty
  | ne_thread th => serve_event n (sv_thread th) 0 "" fb_empty
  | ne_post o =>
      '(i, (_, p)) ← list_find (λ x, x.1 = o) (net_posts n);
      x ← pushes (wld (net_sys n)) !! p;
      t ← net_sessions n !! o;
      t' ← handle_session t (ev_send (push_data x));
      y ← serve (net_sys n)
            (if decide (length (shared t') = S (length (shared t))) then [] else [sv_release p]);
      Some (mk_server_net y (<[o := t']> (net_sessions n)) (delete i (net_posts n)))
  | ne_session o e =>
      t ← net_sessions n !! o;
      t' ← handle_session t e;
      y ← serve (net_sys n) (registers o t e ++ let_go t t');
      Some (mk_server_net y (<[o := t']> (net_sessions n)) (net_posts n))
  | ne_destroy o =>
      t ← net_sessions n !! o;
      y ← serve (net_sys n) (sv_destroy o (m_established (ses t)) (session_id (ses t)) ::
                             (sv_release <$> shared t));
      Some (mk_server_net y (delete o (net_sessions n)) (net_posts n))
  end.

Definition net_init : option server_net :=
  y ← server_sys_init is_open; Some (mk_server_net y ∅ []).

Definition net_steps := steps net_enabled net_handle.
Definition net_run := run net_enabled net_handle.

(** ** Who holds a message *)

Definition thread_refs (p : nat) : gmap nat broadcasting → nat :=
  total (λ b, if thread_holds p b then 1 else 0)%nat.

Definition times (p : nat) (ps : list nat) : nat := length (filter (λ q, q = p) ps).

Definition post_refs (p : nat) (posts : list (nat * nat)) : nat := times p posts.*2.

Definition queue_refs (p : nat) : gmap nat session_sys → nat := total (λ t, times p (shared t)).

Definition held (p : nat) (n : server_net) : nat :=
  thread_refs p (threads (net_sys n)) + post_refs p (net_posts n) + queue_refs p (net_sessions n).

(** The number of owners the shared pointers count. *)
Definition refs (p : nat) (w : world) : nat :=
  match pushes w !! p with Some x => push_refs x | None => 0 end.
End server_net.
