(* ===== verification/ServerNetFacts.v ===== *)
(** * ServerNetFacts: the server and its sessions agree

    What every event of Listener does to the owners of the broadcast messages,
    to the session objects and to those that know them; what every event of a
    session does to its queue; and the invariant that ties the two. *)

From S2P Require Import Prelude Types Header ServerSession ServerSystem ServerSystemFacts SessionManager SessionManagerFacts.
From S2P Require Import Listener ListenerFacts ServerNet.

#[local] Opaque config.queue_send_max.

(** ** Counting owners *)

Section refs.
Implicit Types (w : world) (p q o : nat).

Lemma times_app p l l' : times p (l ++ l') = (times p l + times p l')%nat.
Proof. unfold times. by rewrite filter_app, length_app. Qed.

Lemma times_one p q : times p [q] = if decide (q = p) then 1%nat else 0%nat.
Proof. unfold times. rewrite filter_cons. by case_decide. Qed.

Lemma refs_push_set q d n w p :
  refs p (push_set q d n w) = if decide (q = p) then n else refs p w.
Proof.
  unfold refs. simpl. case_decide as Hd; [subst; by rewrite lookup_insert_eq|].
  by rewrite lookup_insert_ne.
Qed.

(** The messages keep what they say. *)
Definition same_data w w' : Prop :=
  ∀ p x', pushes w' !! p = Some x' → ∃ x, pushes w !! p = Some x ∧ push_data x' = push_data x.

Lemma same_data_push_set q x n w :
  pushes w !! q = Some x → same_data w (push_set q (push_data x) n w).
Proof.
  intros Hq p x'. simpl. rewrite lookup_insert_Some. intros [[<- <-]|[_ Hp]]; eauto.
Qed.

(** What a part of the server does to the tables, the objects and the threads
    when it only deals with messages. *)
Record keeps_objects w w' : Prop := {
  ko_alive : alive w' = alive w;
  ko_fresh : fresh_session w' = fresh_session w;
  ko_plain : m_plain_sessions w' = m_plain_sessions w;
  ko_ssl : m_ssl_sessions w' = m_ssl_sessions w }.

Lemma push_release_refs q w :
  (0 < refs q w)%nat →
  ∃ w', push_release q w = Done tt w' [] ∧ keeps_objects w w' ∧ same_data w w' ∧
    ∀ p, (refs p w' + times p [q] = refs p w)%nat.
Proof.
  unfold refs at 1. destruct (pushes w !! q) as [[d [|[|n]]]|] eqn:E; simpl; try lia; intros _.
  - unfold push_release, on_msg_sent. run_act. rewrite E. run_act. eexists. split; [done|].
    split; [by split|]. split.
    + intros p x'. simpl. intros [_ Hp]%lookup_delete_Some. eauto.
    + intros p. rewrite times_one. unfold refs. simpl. case_decide as Hd.
      * subst p. by rewrite lookup_delete_eq, E.
      * rewrite lookup_delete_ne by done. lia.
  - unfold push_release. run_act. rewrite E. run_act. eexists. split; [done|].
    split; [by split|]. split; [by apply (same_data_push_set q (mk_shared_push d (S (S n))))|].
    intros p. change (refs p (push_set q d (S n) w) + times p [q] = refs p w)%nat.
    rewrite refs_push_set, times_one. case_decide; [subst; unfold refs; rewrite E; simpl|]; lia.
Qed.

Lemma post_one_refs q o w :
  (0 < refs q w)%nat →
  ∃ w', post_one q o w = Done tt w' (if decide (is_Some (alive w !! o)) then [eff_send o q] else []) ∧
    keeps_objects w w' ∧ same_data w w' ∧
    ∀ p, (refs p w' = refs p w + (if decide (is_Some (alive w !! o)) then times p [q] else 0))%nat.
Proof.
  unfold refs at 1. destruct (pushes w !! q) as [x|] eqn:E; simpl; [|lia]. intros _.
  unfold post_one, push_retain. run_act. case_decide; run_act.
  - rewrite E. simpl. eexists. split; [done|]. split; [by split|].
    split; [by apply same_data_push_set|]. intros p.
    change (refs p (push_set q (push_data x) (S (push_refs x)) w) = refs p w + times p [q])%nat.
    rewrite refs_push_set, times_one. case_decide; [subst; unfold refs; rewrite E|]; lia.
  - eexists. split; [done|]. split; [by split|]. split; [intros p x' Hp; eauto|]. intros p. lia.
Qed.

Lemma broadcast_create_refs call_id send_bytes w :
  refs (fresh_push w) w = 0%nat →
  ∃ w', broadcast_create call_id send_bytes w = Done (fresh_push w) w' [] ∧ keeps_objects w w' ∧
    (∀ p x', pushes w' !! p = Some x' →
       (∃ x, pushes w !! p = Some x ∧ push_data x' = push_data x) ∨
       p = fresh_push w ∧ push_data x' = broadcast_push call_id send_bytes w) ∧
    ∀ p, (refs p w' = refs p w + times p [fresh_push w])%nat.
Proof.
  intros Hf. unfold broadcast_create. run_act. eexists. split; [done|]. split; [by split|]. split.
  - intros p x'. simpl. rewrite lookup_insert_Some. intros [[<- <-]|[_ Hp]]; [by right|eauto].
  - intros p. rewrite times_one. unfold refs. simpl. case_decide.
    + subst p. rewrite lookup_insert_eq. unfold refs in Hf. simpl. lia.
    + rewrite lookup_insert_ne by done. lia.
Qed.
End refs.

(** ** The events of the server *)

Section server_events.
Context (server_cfg : server_config) (has_on_listen has_ssl_ctx is_open : bool) (T : nat).
Implicit Types (w : world) (y : server_sys) (p q o th : nat) (b : broadcasting).
Abbreviation handle := (server_handle server_cfg has_on_listen has_ssl_ctx is_open).
Abbreviation effects := (server_effects server_cfg has_on_listen has_ssl_ctx is_open).
Abbreviation enabled := (server_enabled T).

(** The sessions a thread still has to post to. *)
Definition targets b : list nat :=
  match b with bt_post_plain _ os _ | bt_post_ssl _ os => os | _ => [] end.

Definition known o y : Prop :=
  (∃ id, m_plain_sessions (wld y) !! id = Some o ∨ m_ssl_sessions (wld y) !! id = Some o) ∨
  (∃ th b, threads y !! th = Some b ∧ o ∈ targets b).

(** The owner that an event takes away. *)
Definition gone p (e : server_event) : nat := match e with sv_release q => times p [q] | _ => 0 end.

Definition made (st : stream_type) w : world :=
  set_fresh_session (S (fresh_session w)) (set_alive (<[fresh_session w := st]> (alive w)) w).

(** What an event does to the session objects, given those it creates. *)
Definition objects_after y (e : server_event) (created : list nat) y' : Prop :=
  match e with
  | sv_destroy o _ _ =>
      created = [] ∧ alive (wld y') = delete o (alive (wld y)) ∧ fresh_session (wld y') = fresh_session (wld y)
  | _ =>
      created = [] ∧ alive (wld y') = alive (wld y) ∧ fresh_session (wld y') = fresh_session (wld y) ∨
      created = [fresh_session (wld y)] ∧ fresh_session (wld y') = S (fresh_session (wld y)) ∧
      ∃ st, alive (wld y') = <[fresh_session (wld y) := st]> (alive (wld y))
  end.

Record server_change y e y' : Prop := {
  sc_refs p : (refs p (wld y') + thread_refs p (threads y) + gone p e =
               refs p (wld y) + thread_refs p (threads y') + times p (posts_of (effects y e)).*2)%nat;
  sc_data p x' : pushes (wld y') !! p = Some x' →
    (∃ x, pushes (wld y) !! p = Some x ∧ push_data x' = push_data x) ∨
    pushes (wld y) !! p = None ∧ push_shared (push_data x') = Some p;
  sc_objects : objects_after y e (created_of (effects y e)) y';
  sc_known o : known o y' → known o y ∨ ∃ id, e = sv_add o id;
  sc_posts o p : (o, p) ∈ posts_of (effects y e) → known o y ∧ is_Some (alive (wld y) !! o) }.

Lemma on_accept_makes ec address ep_ec listen_ok w :
  ∃ w' es, Listener.on_accept server_cfg has_on_listen has_ssl_ctx is_open ec address ep_ec listen_ok true w =
      Done tt w' es ∧ posts_of es = [] ∧
    (w' = w ∧ created_of es = [] ∨ w' = made plain_stream w ∧ created_of es = [fresh_session w]).
Proof.
  unfold Listener.on_accept, handle_accept. case_decide; [eexists _, _; split; [done|]; by auto|].
  destruct (ec_bool ec); run_act.
  { destruct is_open; (eexists _, _; split; [done|]); by auto. }
  destruct has_on_listen; simpl.
  all: destruct (is_full server_cfg w); rewrite ?orb_true_r; simpl.
  all: try (destruct (negb (listen_ok address) || ep_ec); simpl).
  all: destruct has_ssl_ctx, is_open; simpl; (eexists _, _; split; [reflexivity|]); by auto.
Qed.

Lemma on_detect_makes ec result w :
  ∃ w' es, on_detect server_cfg ec result true w = Done tt w' es ∧ posts_of es = [] ∧
    (w' = w ∧ created_of es = [] ∨ ∃ st, w' = made st w ∧ created_of es = [fresh_session w]).
Proof.
  unfold on_detect. run_act. repeat (case_match; simpl); (eexists _, _; split; [reflexivity|]);
    (split; [done|]); eauto.
Qed.

(** An event that leaves the messages and the threads alone. *)
Lemma change_objects y e w' d a :
  pushes w' = pushes (wld y) → (∀ p, gone p e = 0%nat) → posts_of (effects y e) = [] →
  let y' := mk_server_sys w' (threads y) d a in
  objects_after y e (created_of (effects y e)) y' →
  (∀ o, known o y' → known o y ∨ ∃ id, e = sv_add o id) →
  server_change y e y'.
Proof.
  intros Hp Hg He y' Ho Hk. split; try done; unfold refs; simpl; rewrite ?Hp, ?He, ?Hg; simpl; eauto.
  by intros o p ?%not_elem_of_nil.
Qed.

Definition holds p b : nat := if thread_holds p b then 1 else 0.

Lemma holds_one p q b : thread_holds p b = bool_decide (p = q) → holds p b = times p [q].
Proof.
  intros E. unfold holds. rewrite E, times_one. by case_bool_decide; case_decide; simplify_eq.
Qed.

Lemma known_table o y id :
  (m_plain_sessions (wld y) !! id = Some o ∨ m_ssl_sessions (wld y) !! id = Some o) → known o y.
Proof. intros H. left. by exists id. Qed.

Lemma known_copied o y ids :
  o ∈ (map_to_list (copy_sessions (m_plain_sessions (wld y)) ids)).*2 ∨
  o ∈ (map_to_list (copy_sessions (m_ssl_sessions (wld y)) ids)).*2 → known o y.
Proof. intros [H|H]; apply elem_of_copied in H as (id & H & _); eapply known_table; eauto. Qed.

(** A step of a thread: [m'] are the threads after it. *)
Lemma change_thread y th b w' m' d a :
  keeps_objects (wld y) w' → threads y !! th = Some b →
  (∀ p x', pushes w' !! p = Some x' →
     (∃ x, pushes (wld y) !! p = Some x ∧ push_data x' = push_data x) ∨
     pushes (wld y) !! p = None ∧ push_shared (push_data x') = Some p) →
  (∀ p, refs p w' + thread_refs p (threads y) =
        refs p (wld y) + thread_refs p m' + times p (posts_of (effects y (sv_thread th))).*2)%nat →
  created_of (effects y (sv_thread th)) = [] →
  (∀ th' b' o, m' !! th' = Some b' → o ∈ targets b' → known o y) →
  (∀ o p, (o, p) ∈ posts_of (effects y (sv_thread th)) → o ∈ targets b ∧ is_Some (alive (wld y) !! o)) →
  server_change y (sv_thread th) (mk_server_sys w' m' d a).
Proof.
  intros [K1 K2 K3 K4] Hb Hd Hr Hc Hk Hp. split; simpl.
  - intros p. rewrite <-Hr. lia.
  - exact Hd.
  - left. by split_and!.
  - intros o [Ho|(th' & b' & Hb' & Ho)]; left; [left; simpl in Ho; by rewrite K3, K4 in Ho|by eapply Hk].
  - intros o p [Ho Ha]%Hp. split; [|done]. right. eauto.
Qed.

Lemma thread_refs_insert p th b b' (m : gmap nat broadcasting) :
  m !! th = Some b → (thread_refs p (<[th := b']> m) + holds p b = thread_refs p m + holds p b')%nat.
Proof. intros E. pose proof (total_insert (holds p) m th b') as H. by rewrite E in H. Qed.

Lemma thread_refs_delete p th b (m : gmap nat broadcasting) :
  m !! th = Some b → (thread_refs p (delete th m) + holds p b = thread_refs p m)%nat.
Proof. intros E. pose proof (total_delete (holds p) m th) as H. by rewrite E in H. Qed.

Lemma held_refs y th b q : server_inv T y → threads y !! th = Some b → thread_holds q b = true → (0 < refs q (wld y))%nat.
Proof.
  intros Hi Hb Hq. destruct (v_held _ _ Hi _ _ _ Hb Hq) as [x Hx]. unfold refs. rewrite Hx.
  by eapply (v_manager _ _ Hi).
Qed.

(** The threads after one of them has gone on to [b'], which has no new
    target. *)
Lemma known_insert y th b b' :
  threads y !! th = Some b → (∀ o, o ∈ targets b' → known o y) →
  ∀ th' b1 o, <[th := b']> (threads y) !! th' = Some b1 → o ∈ targets b1 → known o y.
Proof.
  intros Hb Hk th' b1 o. rewrite lookup_insert_Some. intros [[<- <-]|[_ Hl]] Ho; [auto|].
  right. eauto.
Qed.

Lemma change_move y th b b' d a :
  threads y !! th = Some b → (∀ p, thread_holds p b' = thread_holds p b) →
  effects y (sv_thread th) = [] → (∀ o, o ∈ targets b' → known o y) →
  server_change y (sv_thread th) (mk_server_sys (wld y) (<[th := b']> (threads y)) d a).
Proof.
  intros Hb Hh He Hk. apply (change_thread y th b); rewrite ?He; try done; eauto.
  - intros p. pose proof (thread_refs_insert p th b b' _ Hb) as H. unfold holds in H. rewrite Hh in H.
    change (times p _) with 0%nat. lia.
  - by apply (known_insert y th b).
  - by intros o p ?%not_elem_of_nil.
Qed.

(** One post: the message has one more owner when the session is alive. *)
Lemma change_post y th b b' q o os y' :
  server_inv T y → threads y !! th = Some b → thread_holds q b = true →
  (∀ p, thread_holds p b' = thread_holds p b) → targets b = o :: os → targets b' = os →
  effects y (sv_thread th) = effects_of (post_one q o) (wld y) →
  manage (post_one q o) y (λ _ y, set_threads (<[th := b']> (threads y)) y) = Some y' →
  server_change y (sv_thread th) y'.
Proof.
  intros Hi Hb Hq Hh Ht Ht' He Hm.
  destruct (post_one_refs q o (wld y) (held_refs _ _ _ _ Hi Hb Hq)) as (w' & E & Hk & Hd & Hr).
  unfold manage in Hm. rewrite E in Hm. injection Hm as <-.
  unfold effects_of in He. rewrite E in He.
  assert (∀ p, times p (posts_of (effects y (sv_thread th))).*2 =
    if decide (is_Some (alive (wld y) !! o)) then times p [q] else 0%nat) as Hposts
    by (intros p; rewrite He; by case_decide).
  apply (change_thread y th b); try done.
  - intros p x' Hp. left. by apply Hd.
  - intros p. rewrite Hr, Hposts. pose proof (thread_refs_insert p th b b' _ Hb) as H.
    unfold holds in H. rewrite Hh in H. lia.
  - rewrite He. by case_decide.
  - apply (known_insert y th b _ Hb). intros o' Ho. right. exists th, b. split; [done|].
    rewrite Ht. rewrite Ht' in Ho. by right.
  - intros o' p'. rewrite He, Ht. case_decide; [|by intros ?%not_elem_of_nil].
    intros [= -> ->]%list_elem_of_singleton. split; [by left|done].
Qed.

Lemma thread_step_change y th y' :
  server_inv T y → handle y (sv_thread th) = Some y' → server_change y (sv_thread th) y'.
Proof.
  intros Hi Hh. simpl in Hh. destruct (threads y !! th) as [b|] eqn:Hb; [|done].
  assert (∀ q b', thread_holds q b' = bool_decide (q = q) → thread_holds q b' = true) as Hown
    by (intros q b' ->; by apply bool_decide_eq_true_2).
  destruct b as [call_id bs ids|q ids|q [|o os] ids|q ids|q [|o os]|q].
  - assert (pushes (wld y) !! fresh_push (wld y) = None) as Hnone.
    { destruct (pushes (wld y) !! _) eqn:Ep; [|done]. apply (v_manager _ _ Hi) in Ep. lia. }
    assert (refs (fresh_push (wld y)) (wld y) = 0%nat) as Hf by (unfold refs; by rewrite Hnone).
    destruct (broadcast_create_refs call_id bs (wld y) Hf) as (w' & E & Hk & Hd & Hr).
    unfold manage in Hh. rewrite E in Hh. injection Hh as <-.
    apply (change_thread y th _ _ _ _ _ Hk Hb); simpl; rewrite ?Hb; try done.
    + intros p x' [?|[-> ->]]%Hd; [by left|by right].
    + intros p. rewrite Hr. pose proof (thread_refs_insert p th _ (bt_plain (fresh_push (wld y)) ids) _ Hb) as H.
      rewrite (holds_one p (fresh_push (wld y)) (bt_plain _ _)) in H by done. unfold holds in H. simpl in H.
      change (times p (posts_of []).*2) with 0%nat. lia.
    + apply (known_insert y th _ _ Hb). by intros o ?%not_elem_of_nil.
    + by intros o p ?%not_elem_of_nil.
  - unfold manage, copy_plain, act_gets in Hh. injection Hh as <-.
    apply (change_move y th _ _ _ _ Hb); [done|simpl; by rewrite Hb|].
    intros o Ho. eapply known_copied. by left.
  - injection Hh as <-. apply (change_move y th _ _ _ _ Hb); [done|simpl; by rewrite Hb|].
    by intros o ?%not_elem_of_nil.
  - apply (change_post y th _ (bt_post_plain q os ids) q o os _ Hi Hb); [by apply Hown|done..|simpl; by rewrite Hb|exact Hh].
  - unfold manage, copy_ssl, act_gets in Hh. injection Hh as <-.
    apply (change_move y th _ _ _ _ Hb); [done|simpl; by rewrite Hb|].
    intros o Ho. eapply known_copied. by right.
  - injection Hh as <-. apply (change_move y th _ _ _ _ Hb); [done|simpl; by rewrite Hb|].
    by intros o ?%not_elem_of_nil.
  - apply (change_post y th _ (bt_post_ssl q os) q o os _ Hi Hb); [by apply Hown|done..|simpl; by rewrite Hb|exact Hh].
  - destruct (push_release_refs q (wld y) (held_refs _ _ _ _ Hi Hb (Hown q (bt_drop q) eq_refl)))
      as (w' & E & Hk & Hd & Hr).
    unfold manage in Hh. rewrite E in Hh. injection Hh as <-.
    apply (change_thread y th _ _ _ _ _ Hk Hb); simpl; rewrite ?Hb; try done.
    + intros p x' Hp. left. by apply Hd.
    + intros p. specialize (Hr p). pose proof (thread_refs_delete p th _ _ Hb) as H.
      rewrite (holds_one p q (bt_drop q)) in H by done. change (times p (posts_of []).*2) with 0%nat. lia.
    + intros th' b' o [_ Hl]%lookup_delete_Some Ho. right. eauto.
    + by intros o p ?%not_elem_of_nil.
Qed.

Lemma destroy_change y o est id y' :
  server_inv T y → enabled y (sv_destroy o est id) = true → handle y (sv_destroy o est id) = Some y' →
  server_change y (sv_destroy o est id) y'.
Proof.
  intros Hi He Hh. apply bool_decide_eq_true in He as [st Ho]. simpl in Hh. unfold manage, destroy_session in Hh.
  unfold act_bind at 1, act_get in Hh. rewrite Ho in Hh.
  destruct (act_bind _ _ (wld y)) as [[] w' es| |] eqn:E; try done. injection Hh as <-.
  assert (pushes w' = pushes (wld y) ∧ alive w' = delete o (alive (wld y)) ∧
    fresh_session w' = fresh_session (wld y) ∧ m_plain_sessions w' ⊆ m_plain_sessions (wld y) ∧
    m_ssl_sessions w' ⊆ m_ssl_sessions (wld y)) as (H1 & H2 & H3 & H4 & H5).
  { unfold remove_session in E. destruct est, st; run_act; repeat (case_decide; run_act);
      split_and!; try done; apply delete_subseteq. }
  apply change_objects; try done.
  intros o' [(id' & [Hid|Hid])|Hth]; left; [..|by right]; eapply known_table; [left|right];
    by eapply lookup_weaken.
Qed.

Lemma release_change y p y' :
  server_inv T y → enabled y (sv_release p) = true → handle y (sv_release p) = Some y' →
  server_change y (sv_release p) y'.
Proof.
  intros Hi He Hh. assert (0 < refs p (wld y))%nat as Hp.
  { simpl in He. unfold releasable in He. unfold refs. destruct (pushes (wld y) !! p) as [x|] eqn:Ep; [|done].
    destruct (existsb _ _); apply Nat.ltb_lt in He; lia. }
  destruct (push_release_refs p (wld y) Hp) as (w' & E & [K1 K2 K3 K4] & Hd & Hr).
  simpl in Hh. unfold manage in Hh. rewrite E in Hh. injection Hh as <-. split; cbn [wld threads]; try done.
  - intros q. unfold gone. rewrite <-(Hr q). change (times q (posts_of (effects y (sv_release p))).*2) with 0%nat. lia.
  - intros q x' Hq. left. by apply Hd.
  - left. by split_and!.
  - intros o [(id & Ho)|Ho]; left; [|by right]. simpl in Ho. rewrite K3, K4 in Ho.
    by eapply known_table.
  - by intros o q ?%not_elem_of_nil.
Qed.

Lemma broadcast_change y th call_id bs ids y' :
  enabled y (sv_broadcast th call_id bs ids) = true → handle y (sv_broadcast th call_id bs ids) = Some y' →
  server_change y (sv_broadcast th call_id bs ids) y'.
Proof.
  intros [Hth%Nat.ltb_lt Hn%bool_decide_eq_true]%andb_true_iff Hh.
  assert (∃ ok, broadcast_check (wld y) = Done ok (wld y) []) as [ok E].
  { unfold broadcast_check. run_act. case_decide; eauto. }
  simpl in Hh. unfold manage in Hh. rewrite E in Hh. injection Hh as <-.
  destruct ok; [|apply change_objects; try done; [by left|intros o Ho; by left]].
  split; cbn [wld threads].
  - intros p. pose proof (total_insert (holds p) (threads y) th (bt_create call_id bs ids)) as H.
    rewrite Hn in H. change (from_option (holds p) 0%nat None) with 0%nat in H.
    change (holds p (bt_create call_id bs ids)) with 0%nat in H.
    change (total (holds p)) with (thread_refs p) in H. unfold gone.
    change (times p (posts_of (effects y (sv_broadcast th call_id bs ids))).*2) with 0%nat. simpl. lia.
  - eauto.
  - left. by split_and!.
  - intros o [(id & Ho)|(th' & b & Hb & Ho)]; left; [by eapply known_table|right].
    simpl in Hb. apply lookup_insert_Some in Hb as [[<- <-]|[_ Hb]]; [by apply not_elem_of_nil in Ho|eauto].
  - by intros o q ?%not_elem_of_nil.
Qed.

Lemma server_event_change y e y' :
  server_inv T y → enabled y e = true → handle y e = Some y' → server_change y e y'.
Proof.
  intros Hi He Hh.
  destruct e as [ec address ep_ec listen_ok|ec result|o id|o est id|p|th call_id bs ids|th].
  - destruct (on_accept_makes ec address ep_ec listen_ok (wld y)) as (w' & es & E & Hp & Hw).
    simpl in Hh. unfold manage in Hh. simpl in Hh. rewrite E in Hh. injection Hh as <-.
    apply change_objects; simpl; unfold effects_of; rewrite ?E; try done.
    + by destruct Hw as [[-> _]|[-> _]].
    + destruct Hw as [[-> ->]|[-> ->]]; [by left|right]. simpl. eauto.
    + by destruct Hw as [[-> _]|[-> _]]; left.
  - destruct (on_detect_makes ec result (wld y)) as (w' & es & E & Hp & Hw).
    simpl in Hh. unfold manage in Hh. simpl in Hh. rewrite E in Hh. injection Hh as <-.
    apply change_objects; simpl; unfold effects_of; rewrite ?E; try done.
    + by destruct Hw as [[-> _]|(st & -> & _)].
    + destruct Hw as [[-> ->]|(st & -> & ->)]; [by left|right]. simpl. eauto.
    + by destruct Hw as [[-> _]|(st & -> & _)]; left.
  - simpl in Hh. destruct (alive (wld y) !! o) as [st|]; [|done].
    unfold manage, add_session, act_modify in Hh. injection Hh as <-.
    apply change_objects; try done; [by destruct st|left; by destruct st|].
    intros o' [(id' & Hid)|Hth]; [|by left; right].
    assert (o' = o ∨ m_plain_sessions (wld y) !! id' = Some o' ∨ m_ssl_sessions (wld y) !! id' = Some o')
      as [->|?]; [|right; eauto|left; by eapply known_table].
    destruct st; simpl in Hid; rewrite lookup_insert_Some in Hid; naive_solver.
  - by apply destroy_change.
  - by apply release_change.
  - by apply broadcast_change.
  - by apply thread_step_change.
Qed.
End server_events.

(** ** The events of a session *)

Section session_events.
Context {B : Type} `{FlatBuffer B} {Req Res U : Type}.
Context (host : byte_order) (manager : manager_handlers (B := B) (Req := Req) (Res := Res) (U := U)).
Context (srv_timeout : server_timeout).
Abbreviation session := (session (B := B) (Req := Req) (Res := Res)).
Abbreviation session_sys := (session_sys (B := B) (Req := Req) (Res := Res)).
Abbreviation sact := (act session (session_effect (Res := Res)) unit).
Abbreviation handle := (session_handle host manager srv_timeout).
Implicit Types (s : session) (t : session_sys) (d : data_push).

(** The queue has only grown, by answers; the session is established if it
    was. *)
Definition keeps (q : list data_push) (est : bool) s : Prop :=
  (∃ l, m_queue s = q ++ l ∧ omap push_shared l = []) ∧ (est = true → m_established s = true).

Lemma keeps_start s : keeps (m_queue s) (m_established s) s.
Proof. split; [|done]. exists []. by rewrite app_nil_r. Qed.

Lemma keeps_answer q est s d :
  push_shared d = None → keeps q est s → keeps q est (set_m_queue (m_queue s ++ [d]) s).
Proof.
  intros Hd [(l & Hl & Hn) He]. split; [|done]. exists (l ++ [d]). simpl.
  rewrite Hl, (assoc_L (++)), omap_app, Hn. simpl. by rewrite Hd.
Qed.

Lemma keeps_established q est s : keeps q est s → keeps q est (set_m_established true s).
Proof. by intros [? _]. Qed.

Ltac solve_keeps := solve_pres; try assumption; try (by intros; subst); try (by apply keeps_answer); eauto.

Lemma keeps_close_session q est now : pres (keeps q est) (close_session now : sact).
Proof. unfold close_session, shutdown, timer_expires_after, this. solve_keeps. Qed.

Lemma keeps_handle_answer q est d :
  push_shared d = None → pres (keeps q est) (handle_send host d : sact).
Proof. intros Hd. unfold handle_send, write, this. solve_keeps. Qed.

Lemma keeps_on_read q est now u ec : pres (keeps q est) (on_read host manager now u ec).
Proof. unfold on_read, call_function, call_bound, close_session, shutdown, read, this. solve_keeps. Qed.

Lemma keeps_on_timer q est now is_open ec : pres (keeps q est) (on_timer now is_open ec : sact).
Proof. unfold on_timer, timer_expires_after, shutdown, this. solve_keeps. Qed.

Lemma keeps_on_accept q est now ec : pres (keeps q est) (ServerSession.on_accept now ec : sact).
Proof. unfold ServerSession.on_accept, timer_expires_after, read, this. solve_keeps. by apply keeps_established. Qed.

Lemma keeps_handshake q est u ec : pres (keeps q est) (on_read_handshake manager srv_timeout u ec).
Proof. unfold on_read_handshake, this. solve_keeps. Qed.

Lemma keeps_ssl q est ec n : pres (keeps q est) (on_ssl_handshake srv_timeout ec n : sact).
Proof. unfold on_ssl_handshake. solve_keeps. Qed.

Lemma keeps_control q est now k : pres (keeps q est) (on_control_callback now k : sact).
Proof. unfold on_control_callback, timer_expires_after, this. solve_keeps. Qed.

(** What an event that is not a post leaves in the queue: what was there
    without some of its front, and new answers. *)
Record session_change t t' : Prop := {
  se_shared : ∃ l, shared t = l ++ shared t';
  se_queue d p : d ∈ m_queue (ses t') → push_shared d = Some p → d ∈ m_queue (ses t);
  se_established : m_established (ses t) = true → m_established (ses t') = true }.

Lemma change_keeps t t' : keeps (m_queue (ses t)) (m_established (ses t)) (ses t') → session_change t t'.
Proof.
  intros [(l & Hl & Hn) He]. unfold shared. split; [|..|exact He].
  - exists []. unfold shared. by rewrite Hl, omap_app, Hn, app_nil_r.
  - intros d p. rewrite Hl. intros [?|Hd]%elem_of_app Hp; [done|].
    assert (p ∈ omap push_shared l) as Hin by (apply list_elem_of_omap; eauto).
    rewrite Hn in Hin. by apply not_elem_of_nil in Hin.
Qed.

Lemma deliver_keeps (m : sact) s p t ns t' :
  (∀ q est, pres (keeps q est) m) → keeps (m_queue (ses t)) (m_established (ses t)) s →
  deliver m s p t ns = Some t' → session_change t t'.
Proof.
  intros Hm Hk. unfold deliver. destruct (m s) as [[] s' es| |] eqn:E; try done. intros [= <-].
  apply change_keeps. by eapply Hm.
Qed.

Lemma on_write_change t now ec t' : handle t (ev_write now ec) = Some t' → session_change t t'.
Proof.
  simpl. unfold deliver.
  destruct (ec_bool ec || m_close (ses t) || m_close_received (ses t) || m_read_error (ses t)) eqn:Eb.
  - rewrite on_write_error by done. destruct (close_session _ _) as [[] s' es| |] eqn:E; try done.
    intros [= <-]. destruct (keeps_close_session [] (m_established (ses t)) _ _ _ _ _ E) as [(l & Hl & Hn) He];
      [split; [by exists []|done]|]. simpl in Hl. unfold shared. split; [|..|exact He]; simpl; rewrite Hl.
    + unfold shared. simpl. rewrite Hl, Hn. exists (omap push_shared (m_queue (ses t))). by rewrite app_nil_r.
    + intros d p Hd Hp. assert (p ∈ omap push_shared l) as Hin by (apply list_elem_of_omap; eauto).
      rewrite Hn in Hin. by apply not_elem_of_nil in Hin.
  - destruct (m_queue (ses t)) as [|d ds] eqn:Eq.
    + unfold on_write. run_act. by rewrite Eb, Eq.
    + rewrite (on_write_next host now ec (ses t) d ds) by done. intros [= <-]. split; simpl.
      * unfold shared. simpl. rewrite Eq. exists (option_list (push_shared d)). simpl. by destruct (push_shared d).
      * intros d' p Hd _. rewrite Eq. by right.
      * done.
Qed.

Lemma session_event_change t e t' :
  handle t e = Some t' → match e with ev_send _ => True | _ => session_change t t' end.
Proof.
  destruct e; simpl; try done; try apply on_write_change;
    (eapply deliver_keeps; [|exact (keeps_start (ses t))]); intros;
    first [apply keeps_on_read|apply keeps_on_timer|apply keeps_on_accept|apply keeps_handshake
          |apply keeps_ssl|apply keeps_control|apply pres_ret].
Qed.

(** A post adds its message at the end, or not. *)
Lemma send_change t d t' :
  handle t (ev_send d) = Some t' →
  m_established (ses t') = m_established (ses t) ∧
  (m_queue (ses t') = m_queue (ses t) ++ [d] ∨ m_queue (ses t') = m_queue (ses t)).
Proof.
  simpl. unfold deliver, handle_send, write, this. run_act.
  destruct (_ || _); [intros [= <-]; by auto|]. case_decide; [intros [= <-]; by auto|]. simpl.
  case_decide; [intros [= <-]; by auto|]. simpl.
  destruct (m_queue (ses t) ++ [d]) eqn:E; [by destruct (m_queue (ses t))|].
  intros [= <-]. simpl. auto.
Qed.

(** Who registers is established afterwards. *)
Lemma registers_established o t e t' :
  handle t e = Some t' →
  registers o t e = [] ∨ m_established (ses t') = true ∧ ∃ id, registers o t e = [sv_add o id].
Proof.
  destruct e as [| |now ec| | | | | | |]; try (intros _; by left). simpl. unfold deliver.
  unfold ServerSession.on_accept, timer_expires_after, read, this. destruct (ec_bool ec); [intros _; by left|]. run_act.
  case_bool_decide; run_act; intros [= <-]; right; simpl; eauto.
Qed.
End session_events.

(** ** The whole server *)

Section net.
Context {B : Type} `{FlatBuffer B, !FlatBufferLaws B} {Req Res U : Type}.
Context (host : byte_order) (manager : manager_handlers (B := B) (Req := Req) (Res := Res) (U := U)).
Context (srv_timeout : server_timeout) (server_cfg : server_config) (session_cfg : session_config).
Context (req0 : Req) (res0 : Res).
Context (has_on_listen has_ssl_ctx is_open : bool) (T : nat).
Abbreviation session_sys := (session_sys (B := B) (Req := Req) (Res := Res)).
Abbreviation server_net := (server_net (B := B) (Req := Req) (Res := Res)).
Abbreviation net_event := (net_event (B := B) (Req := Req) (U := U)).
Abbreviation handle_server := (server_handle server_cfg has_on_listen has_ssl_ctx is_open).
Abbreviation server_runs := (server_steps server_cfg has_on_listen has_ssl_ctx is_open T).
Abbreviation serve := (serve server_cfg has_on_listen has_ssl_ctx is_open).
Abbreviation effects := (server_effects server_cfg has_on_listen has_ssl_ctx is_open).
Abbreviation handle := (net_handle host manager srv_timeout server_cfg session_cfg req0 res0
  has_on_listen has_ssl_ctx is_open).
Abbreviation enabled := (net_enabled (Req := Req) (U := U) T).
Implicit Types (n : server_net) (y : server_sys) (t : session_sys) (p o : nat).

(** A session and its own history. *)
Definition has_history t : Prop :=
  ∃ is_ssl s0 t0 es, new_session_like s0 ∧ session_sys_init srv_timeout is_ssl s0 = Some t0 ∧
    session_steps host manager srv_timeout t0 es t.

Record net_inv n : Prop := {
  n_server : server_inv T (net_sys n);
  n_alive o : is_Some (alive (wld (net_sys n)) !! o) ↔ is_Some (net_sessions n !! o);
  n_history o t : net_sessions n !! o = Some t → has_history t;
  n_refs p : refs p (wld (net_sys n)) = held p n;
  n_shared p x : pushes (wld (net_sys n)) !! p = Some x → push_shared (push_data x) = Some p;
  n_known o : known o (net_sys n) ∨ o ∈ (net_posts n).*1 →
    (o < fresh_session (wld (net_sys n)))%nat ∧
    ∀ t, net_sessions n !! o = Some t → m_established (ses t) = true;
  n_posts o : o ∈ (net_posts n).*1 → is_Some (net_sessions n !! o);
  n_data o t d p : net_sessions n !! o = Some t → d ∈ m_queue (ses t) → push_shared d = Some p →
    ∃ x, pushes (wld (net_sys n)) !! p = Some x ∧ push_data x = d }.

(** *** Runs of the server *)

Lemma serve_app es es' y : serve y (es ++ es') = serve y es ≫= λ y', serve y' es'.
Proof.
  revert y. induction es as [|e es IH]; intros y; [done|]. simpl.
  destruct (handle_server y e); simpl; [apply IH|done].
Qed.

Lemma serve_one y e : server_inv T y → server_enabled T y e = true →
  ∃ y', serve y [e] = Some y' ∧ server_runs y [e] y' ∧ server_inv T y' ∧
    server_change server_cfg has_on_listen has_ssl_ctx is_open y e y'.
Proof.
  intros Hi He. destruct (server_step server_cfg has_on_listen has_ssl_ctx is_open T y e Hi He) as (y' & Hh & Hi').
  exists y'. simpl. rewrite Hh. split; [done|]. split; [by apply steps_one|]. split; [done|].
  by eapply server_event_change.
Qed.

(** Releasing what somebody beside the threads owns. *)
Lemma serve_releases ps y (rest : nat → nat) :
  server_inv T y → (∀ p, refs p (wld y) = thread_refs p (threads y) + times p ps + rest p)%nat →
  ∃ y', serve y (sv_release <$> ps) = Some y' ∧ server_runs y (sv_release <$> ps) y' ∧
    server_inv T y' ∧ threads y' = threads y ∧ keeps_objects (wld y) (wld y') ∧
    same_data (wld y) (wld y') ∧ ∀ p, (refs p (wld y') = thread_refs p (threads y') + rest p)%nat.
Proof.
  revert y. induction ps as [|q ps IH]; intros y Hi Hr.
  { exists y. split; [done|]. split; [constructor|]. split; [done|]. split; [done|]. split; [by split|].
    split; [intros p x Hp; eauto|]. intros p. rewrite Hr. change (times p []) with 0%nat. lia. }
  assert (∀ p, times p (q :: ps) = times p [q] + times p ps)%nat as Hcons by (intros; apply (times_app p [q])).
  assert (thread_refs q (threads y) < refs q (wld y))%nat as Hlt.
  { rewrite Hr, Hcons, times_one, decide_True by done. lia. }
  assert (server_enabled T y (sv_release q) = true) as He.
  { simpl. unfold releasable. unfold refs in Hlt. destruct (pushes (wld y) !! q) as [x|]; [|lia].
    destruct (existsb _ _) eqn:Ex; [|apply Nat.ltb_lt; lia].
    apply existsb_exists in Ex as ([th b] & Hin & Hb). apply list_elem_of_In, elem_of_map_to_list in Hin.
    pose proof (total_lookup (λ b, if thread_holds q b then 1 else 0)%nat _ _ _ Hin) as Ht.
    simpl in Ht, Hb. rewrite Hb in Ht. unfold thread_refs in Hlt. apply Nat.ltb_lt. lia. }
  destruct (serve_one y _ Hi He) as (y1 & E1 & S1 & Hi1 & _).
  destruct (push_release_refs q (wld y)) as (w1 & Ew & K1 & D1 & R1); [lia|].
  assert (y1 = mk_server_sys w1 (threads y) (detecting y + 0) (accepting y + 0)) as ->.
  { simpl in E1. unfold manage in E1. rewrite Ew in E1. by injection E1 as <-. }
  destruct (IH _ Hi1) as (y2 & E2 & S2 & Hi2 & T2 & [K2 K3 K4 K5] & D2 & R2).
  { intros p. simpl. specialize (R1 p). rewrite Hr, Hcons in R1. lia. }
  exists y2. split; [|split; [by eapply (steps_app _ _ _ [_])|]].
  - simpl. unfold manage. rewrite Ew. simpl. exact E2.
  - split; [done|]. split; [done|]. destruct K1. simpl in *. split; [split; congruence|]. split; [|done].
    intros p x' Hp. destruct (D2 _ _ Hp) as (x & Hx & ->). apply D1 in Hx as (x0 & ? & ->). eauto.
Qed.

(** *** Sessions *)

Lemma history_inv t : has_history t → session_inv host t.
Proof. intros (is_ssl & s0 & t0 & es & H0 & H1 & H2). by eapply session_steps_inv. Qed.

Lemma history_step t e :
  has_history t → session_enabled t e = true →
  ∃ t', session_handle host manager srv_timeout t e = Some t' ∧ has_history t'.
Proof.
  intros Ht He. destruct (session_step host manager srv_timeout t e (history_inv _ Ht) He) as (t' & Hh & _).
  exists t'. split; [done|]. destruct Ht as (is_ssl & s0 & t0 & es & H0 & H1 & H2).
  exists is_ssl, s0, t0, (es ++ [e]). split_and!; try done. by econstructor.
Qed.

Lemma history_new is_ssl id rhost hb :
  ∃ t, session_sys_init srv_timeout is_ssl (new_session id rhost session_cfg req0 res0 hb) = Some t ∧
    has_history t ∧ shared t = [] ∧ m_queue (ses t) = [].
Proof.
  assert (∃ t, session_sys_init srv_timeout is_ssl (new_session id rhost session_cfg req0 res0 hb) = Some t ∧
    m_queue (ses t) = []) as (t & E & Hq) by (destruct is_ssl; eauto).
  exists t. split; [done|]. split; [|unfold shared; by rewrite Hq].
  do 4 eexists. split; [by do 6 eexists|]. split; [exact E|constructor].
Qed.

Lemma queue_refs_insert p o t t' (m : gmap nat session_sys) :
  m !! o = Some t →
  (queue_refs p (<[o := t']> m) + times p (shared t) = queue_refs p m + times p (shared t'))%nat.
Proof. intros E. pose proof (total_insert (λ t, times p (shared t)) m o t') as Ht. by rewrite E in Ht. Qed.

Lemma queue_refs_new p o t (m : gmap nat session_sys) :
  m !! o = None → shared t = [] → queue_refs p (<[o := t]> m) = queue_refs p m.
Proof.
  intros E Hs. pose proof (total_insert (λ t, times p (shared t)) m o t) as Ht. rewrite E, Hs in Ht.
  change (times p []) with 0%nat in Ht. simpl in Ht. unfold queue_refs. lia.
Qed.

Lemma queue_refs_delete p o t (m : gmap nat session_sys) :
  m !! o = Some t → (queue_refs p (delete o m) + times p (shared t) = queue_refs p m)%nat.
Proof. intros E. pose proof (total_delete (λ t, times p (shared t)) m o) as Ht. by rewrite E in Ht. Qed.

(** A message somebody holds is there, and says what it said. *)
Lemma held_data (w w' : world) p d :
  (0 < refs p w')%nat →
  (∀ x', pushes w' !! p = Some x' → (∃ x, pushes w !! p = Some x ∧ push_data x' = push_data x) ∨
     pushes w !! p = None ∧ push_shared (push_data x') = Some p) →
  (∃ x, pushes w !! p = Some x ∧ push_data x = d) →
  ∃ x', pushes w' !! p = Some x' ∧ push_data x' = d.
Proof.
  intros Hr Hd (x & Hx & <-). unfold refs in Hr. destruct (pushes w' !! p) as [x'|]; [|lia].
  destruct (Hd _ eq_refl) as [(x1 & Hx1 & E)|[Hn _]]; [|congruence]. exists x'. split; congruence.
Qed.

Lemma times_pos p ps : p ∈ ps → (0 < times p ps)%nat.
Proof.
  intros (l1 & l2 & ->)%list_elem_of_split. rewrite times_app.
  change (p :: l2) with ([p] ++ l2). rewrite times_app, times_one, decide_True by done. lia.
Qed.

Lemma queue_held p d t o (m : gmap nat session_sys) :
  m !! o = Some t → d ∈ m_queue (ses t) → push_shared d = Some p → (0 < queue_refs p m)%nat.
Proof.
  intros Hm Hd Hp. pose proof (total_lookup (λ t, times p (shared t)) m o t Hm) as Ht. simpl in Ht.
  assert (0 < times p (shared t))%nat; [|unfold queue_refs; lia].
  apply times_pos, list_elem_of_omap. eauto.
Qed.

(** *** The listener and the threads *)

(** The sessions after an event of the listener. *)
Lemma sessions_created n e y' id rhost hb :
  net_inv n → objects_after (net_sys n) e (created_of (effects (net_sys n) e)) y' →
  (∀ o est i, e ≠ sv_destroy o est i) →
  ∃ sessions, foldr (λ o m, sessions ← m;
      create_session srv_timeout session_cfg req0 res0 id rhost hb (wld y') sessions o)
      (Some (net_sessions n)) (created_of (effects (net_sys n) e)) = Some sessions ∧
    (∀ o, is_Some (alive (wld y') !! o) ↔ is_Some (sessions !! o)) ∧
    (∀ o t, sessions !! o = Some t → net_sessions n !! o = Some t ∨
       o = fresh_session (wld (net_sys n)) ∧ has_history t ∧ m_queue (ses t) = []) ∧
    (∀ p, queue_refs p sessions = queue_refs p (net_sessions n)) ∧
    net_sessions n ⊆ sessions ∧
    (fresh_session (wld (net_sys n)) ≤ fresh_session (wld y'))%nat.
Proof.
  intros Hi Ho Hd. set (fresh := fresh_session (wld (net_sys n))) in *.
  assert (objects_after (net_sys n) (sv_thread 0) (created_of (effects (net_sys n) e)) y') as Ho'
    by (destruct e; try exact Ho; by destruct (Hd _ _ _ eq_refl)).
  destruct Ho' as [(-> & Ha & Hf)|(-> & Hf & st & Ha)]; fold fresh in Hf |- *.
  - exists (net_sessions n). split; [done|]. rewrite Ha, Hf. split; [apply Hi|]. split; [by left|].
    by split_and!.
  - assert (net_sessions n !! fresh = None) as Hn.
    { apply eq_None_not_Some. rewrite <-(n_alive _ Hi). intros [st' Hs].
      apply (v_manager _ _ (n_server _ Hi)) in Hs. unfold fresh in Hs. lia. }
    destruct (history_new (bool_decide (st = ssl_stream)) id rhost hb) as (t & Et & Ht & Hs & Hq).
    exists (<[fresh := t]> (net_sessions n)). simpl. unfold create_session.
    fold fresh in Ha. rewrite Ha, lookup_insert_eq. simpl. rewrite Et. simpl.
    split; [done|]. split.
    { intros o. rewrite !lookup_insert_is_Some, (n_alive _ Hi). done. }
    split.
    { intros o t'. rewrite lookup_insert_Some. intros [[<- <-]|[_ ?]]; [by right|by left]. }
    split; [intros; by apply queue_refs_new|]. split; [by apply insert_subseteq|rewrite Hf; lia].
Qed.

Abbreviation serve_event := (serve_event srv_timeout server_cfg session_cfg req0 res0
  has_on_listen has_ssl_ctx is_open).

Lemma net_serve n e id rhost hb :
  net_inv n → server_enabled T (net_sys n) e = true →
  match e with sv_accept _ _ _ _ | sv_detect _ _ | sv_broadcast _ _ _ _ | sv_thread _ => True | _ => False end →
  ∃ n', serve_event n e id rhost hb = Some n' ∧ net_inv n' ∧ server_runs (net_sys n) [e] (net_sys n').
Proof.
  intros Hi He Hkind.
  destruct (serve_one _ e (n_server _ Hi) He) as (y' & E & Hrun & Hi' & [Crefs Cdata Cobj Cknown Cposts]).
  simpl in E. destruct (handle_server (net_sys n) e) as [y1|] eqn:Eh; [|done]. injection E as ->.
  destruct (sessions_created n e y' id rhost hb Hi Cobj) as (sessions & Es & Ha & Hnew & Hq & Hsub & Hf).
  { by intros o est i ->. }
  unfold ServerNet.serve_event. rewrite Eh. cbn [mbind option_bind]. rewrite Es. cbn [mbind option_bind].
  eexists. split; [done|]. split; [|done].
  set (posts := posts_of (effects (net_sys n) e)) in *.
  assert (∀ o, known o y' ∨ o ∈ (net_posts n ++ posts).*1 → known o (net_sys n) ∨ o ∈ (net_posts n).*1) as Hk.
  { intros o [Ho|Ho].
    - destruct (Cknown o Ho) as [?|[i ->]]; [by left|done].
    - rewrite fmap_app in Ho. apply elem_of_app in Ho as [?|([o' p'] & -> & Hp)%list_elem_of_fmap]; [by right|].
      left. by apply Cposts in Hp as [? _]. }
  assert (∀ p, refs p (wld y') = held p (mk_server_net y' sessions (net_posts n ++ posts))) as Hrefs.
  { intros p. specialize (Crefs p). rewrite (n_refs _ Hi p) in Crefs. unfold held, post_refs in *. simpl in *.
    rewrite fmap_app, times_app, Hq. assert (gone p e = 0%nat) as Hg by (by destruct e). lia. }
  split; simpl; try done.
  - intros o t Ho. destruct (Hnew _ _ Ho) as [?|(_ & ? & _)]; [by eapply n_history|done].
  - intros p x Hp. destruct (Cdata _ _ Hp) as [(x0 & Hx0 & ->)|[_ ?]]; [by eapply n_shared|done].
  - intros o Ho%Hk. destruct (n_known _ Hi o Ho) as [Hlt Hest]. split; [lia|]. intros t Ht.
    destruct (Hnew _ _ Ht) as [?|(-> & _)]; [by apply Hest|lia].
  - intros o. rewrite fmap_app. intros [Ho|([o' p'] & -> & Hp)%list_elem_of_fmap]%elem_of_app.
    + destruct (n_posts _ Hi o Ho) as [t Ht]. exists t. by eapply lookup_weaken.
    + apply Cposts in Hp as [_ Hal]. apply (n_alive _ Hi) in Hal as [t Ht]. exists t. by eapply lookup_weaken.
  - intros o t d p Ho Hd Hp. destruct (Hnew _ _ Ho) as [Ho'|(_ & _ & Hnil)];
      [|rewrite Hnil in Hd; by apply not_elem_of_nil in Hd].
    apply (held_data (wld (net_sys n))); [|by apply Cdata|by eapply n_data].
    rewrite Hrefs. unfold held. simpl. pose proof (queue_held p d t o sessions Ho Hd Hp). lia.
Qed.

(** *** The sessions *)

(** What remains of the invariant when a session took a step and the server
    followed. *)
Lemma net_session_inv n y' o t t' posts :
  net_inv n → net_sessions n !! o = Some t → has_history t' → server_inv T y' →
  (∀ o', is_Some (alive (wld y') !! o') ↔ is_Some (alive (wld (net_sys n)) !! o')) →
  (fresh_session (wld (net_sys n)) ≤ fresh_session (wld y'))%nat →
  (∀ p, refs p (wld y') = held p (mk_server_net y' (<[o := t']> (net_sessions n)) posts)) →
  (∀ p x', pushes (wld y') !! p = Some x' →
     ∃ x, pushes (wld (net_sys n)) !! p = Some x ∧ push_data x' = push_data x) →
  (m_established (ses t) = true → m_established (ses t') = true) →
  (∀ o', known o' y' → known o' (net_sys n) ∨ o' = o ∧ m_established (ses t') = true) →
  (∀ o', o' ∈ posts.*1 → o' ∈ (net_posts n).*1) →
  (∀ d p, d ∈ m_queue (ses t') → push_shared d = Some p →
     ∃ x, pushes (wld (net_sys n)) !! p = Some x ∧ push_data x = d) →
  net_inv (mk_server_net y' (<[o := t']> (net_sessions n)) posts).
Proof.
  intros Hi Ho Ht' Hi' Ha Hf Hr Hd Hest Hk Hp Hdata. split; simpl; try done.
  - intros o'. rewrite Ha, (n_alive _ Hi), lookup_insert_is_Some.
    destruct (decide (o = o')) as [<-|]; [split; eauto|naive_solver].
  - intros o' t1. rewrite lookup_insert_Some. intros [[<- <-]|[_ ?]]; [done|by eapply n_history].
  - intros p x' Hx. destruct (Hd _ _ Hx) as (x & Hx0 & ->). by eapply n_shared.
  - intros o' Hko.
    assert ((o' < fresh_session (wld (net_sys n)))%nat ∧ (o' = o → m_established (ses t') = true) ∧
      (∀ t1, o' ≠ o → net_sessions n !! o' = Some t1 → m_established (ses t1) = true)) as (H1 & H2 & H3).
    { assert (known o' (net_sys n) ∨ o' ∈ (net_posts n).*1 ∨ o' = o ∧ m_established (ses t') = true)
        as [Hkn|[Hkn|[-> He]]].
      { destruct Hko as [[?|?]%Hk|?%Hp]; auto. }
      1,2: destruct (n_known _ Hi o') as [Hlt He]; [auto|];
        split; [done|]; split; [|by intros t1 _; apply He]; intros ->; by apply Hest, He.
      split; [|by split]. assert (is_Some (net_sessions n !! o)) as Hs%(n_alive _ Hi) by eauto.
      destruct Hs as [st Hs]. by eapply (v_manager _ _ (n_server _ Hi)). }
    split; [lia|]. intros t1. rewrite lookup_insert_Some. intros [[<- <-]|[Hne ?]]; auto.
  - intros o' Hin%Hp%(n_posts _ Hi). rewrite lookup_insert_is_Some. destruct (decide (o = o')); auto.
  - intros o' t1 d p Hl Hin Hs. apply (held_data (wld (net_sys n))).
    + rewrite Hr. unfold held. simpl.
      pose proof (queue_held p d t1 o' (<[o := t']> (net_sessions n)) Hl Hin Hs). lia.
    + intros x' Hx. left. by apply Hd.
    + apply lookup_insert_Some in Hl as [[<- <-]|[_ Hl]]; [by apply Hdata|by eapply n_data].
Qed.

Lemma known_same y y' o :
  threads y' = threads y → keeps_objects (wld y) (wld y') → known o y' → known o y.
Proof.
  intros Ht [_ _ K3 K4] [(id & Ho)|(th & b & Hb & Ho)]; [left|right].
  - exists id. by rewrite <-K3, <-K4.
  - exists th, b. by rewrite <-Ht.
Qed.

Lemma post_refs_delete p i o q posts :
  posts !! i = Some (o, q) → (post_refs p (delete i posts) + times p [q] = post_refs p posts)%nat.
Proof.
  intros Hi. unfold post_refs. rewrite delete_take_drop, fmap_app, times_app.
  assert (times p posts.*2 = times p (take i posts).*2 + times p ([q] ++ (drop (S i) posts).*2))%nat as ->.
  { rewrite <-times_app. f_equal. by rewrite <-(take_drop_middle posts i (o, q) Hi) at 1; rewrite fmap_app. }
  rewrite times_app. lia.
Qed.

(** The closure the strand runs next: its message and its session are there. *)
Lemma next_post n o :
  net_inv n → o ∈ (net_posts n).*1 →
  ∃ i p x t, list_find (λ x, x.1 = o) (net_posts n) = Some (i, (o, p)) ∧
    pushes (wld (net_sys n)) !! p = Some x ∧ net_sessions n !! o = Some t ∧
    m_established (ses t) = true ∧ push_shared (push_data x) = Some p ∧
    (∀ r, post_refs r (delete i (net_posts n)) + times r [p] = post_refs r (net_posts n))%nat ∧
    (∀ o', o' ∈ (delete i (net_posts n)).*1 → o' ∈ (net_posts n).*1).
Proof.
  intros Hi Ho. destruct (n_posts _ Hi o Ho) as [t Ht]. destruct (n_known _ Hi o (or_intror Ho)) as [_ Hest].
  apply list_elem_of_fmap in Ho as ([o' q] & Hoq & Hin). simpl in Hoq. subst o'.
  destruct (list_find_elem_of (λ x : nat * nat, x.1 = o) _ _ Hin eq_refl) as [[i [o' p]] Hfind].
  pose proof Hfind as (Hl & Ho & _)%list_find_Some. simpl in Ho. subst o'.
  pose proof (λ r, post_refs_delete r i o p _ Hl) as Hpr.
  assert (0 < refs p (wld (net_sys n)))%nat as Hp.
  { rewrite (n_refs _ Hi). unfold held. specialize (Hpr p).
    rewrite times_one, decide_True in Hpr by done. lia. }
  unfold refs in Hp. destruct (pushes (wld (net_sys n)) !! p) as [x|] eqn:Hx; [|lia].
  exists i, p, x, t. split_and!; try done; [by apply Hest|by eapply n_shared|].
  intros o'. rewrite !list_elem_of_fmap. intros (a & -> & Ha). exists a. split; [done|].
  rewrite delete_take_drop in Ha. rewrite <-(take_drop_middle _ i (o, p) Hl). set_solver.
Qed.

Lemma net_post n o :
  net_inv n → enabled n (ne_post o) = true →
  ∃ n' evs, handle n (ne_post o) = Some n' ∧ net_inv n' ∧ server_runs (net_sys n) evs (net_sys n').
Proof.
  intros Hi He%bool_decide_eq_true.
  destruct (next_post n o Hi He) as (i & p & x & t & Hfind & Hx & Ht & Hest & Hps & Hpr & Hposts).
  destruct (history_step t (ev_send (push_data x)) (n_history _ Hi _ _ Ht) Hest) as (t' & Eh & Ht').
  destruct (send_change _ _ _ _ _ _ Eh) as [Hest' Hq].
  cbn [net_handle]. rewrite Hfind. cbn [mbind option_bind]. rewrite Hx. cbn [mbind option_bind].
  rewrite Ht. cbn [mbind option_bind]. rewrite Eh. cbn [mbind option_bind].
  pose proof (λ r : nat, queue_refs_insert r o t t' _ Ht) as Hqr.
  destruct Hq as [Hq|Hq].
  - assert (shared t' = shared t ++ [p]) as Hs.
    { unfold shared. rewrite Hq, omap_app. simpl. by rewrite Hps. }
    rewrite decide_True by (rewrite Hs, length_app; simpl; lia).
    do 2 eexists. split; [done|]. split; [|constructor].
    apply (net_session_inv n _ o t); try done; [apply Hi| |eauto|congruence|by left|].
    + intros r. rewrite (n_refs _ Hi). unfold held. simpl. specialize (Hqr r). specialize (Hpr r).
      rewrite Hs, times_app in Hqr. lia.
    + intros d r. rewrite Hq. intros [Hd|Hd]%elem_of_app Hr; [by eapply n_data|].
      apply list_elem_of_singleton in Hd as ->. rewrite Hps in Hr. injection Hr as <-. eauto.
  - assert (shared t' = shared t) as Hs by (unfold shared; by rewrite Hq).
    rewrite decide_False by (rewrite Hs; lia).
    destruct (serve_releases [p] (net_sys n)
      (λ r, post_refs r (delete i (net_posts n)) + queue_refs r (<[o := t']> (net_sessions n)))%nat (n_server _ Hi))
      as (y' & E & Hrun & Hi' & Hth & Hko & Hd & Hr).
    { intros r. rewrite (n_refs _ Hi). unfold held. specialize (Hqr r). specialize (Hpr r).
      rewrite Hs in Hqr. lia. }
    change (sv_release <$> [p]) with [sv_release p] in E. rewrite E.
    do 2 eexists. split; [done|]. split; [|exact Hrun].
    apply (net_session_inv n _ o t); try done; [by rewrite (ko_alive _ _ Hko)|by rewrite (ko_fresh _ _ Hko)|..].
    + intros r. rewrite Hr. unfold held. simpl. lia.
    + congruence.
    + intros o' Ho'. left. by eapply known_same.
    + rewrite Hq. intros d r Hdq Hs'. by eapply n_data.
Qed.

(** The registration of a session, if the event brings one. *)
Lemma serve_registers n o t e t' :
  net_inv n → net_sessions n !! o = Some t → session_handle host manager srv_timeout t e = Some t' →
  ∃ y1, serve (net_sys n) (registers o t e) = Some y1 ∧ server_runs (net_sys n) (registers o t e) y1 ∧
    server_inv T y1 ∧ threads y1 = threads (net_sys n) ∧ pushes (wld y1) = pushes (wld (net_sys n)) ∧
    alive (wld y1) = alive (wld (net_sys n)) ∧ fresh_session (wld y1) = fresh_session (wld (net_sys n)) ∧
    ∀ o', known o' y1 → known o' (net_sys n) ∨ o' = o ∧ m_established (ses t') = true.
Proof.
  intros Hi Ht Eh. pose proof (n_server _ Hi) as Hs.
  destruct (registers_established host manager srv_timeout o t e t' Eh) as [->|[He [id ->]]].
  { exists (net_sys n). split_and!; try done; [constructor|by left]. }
  assert (is_Some (alive (wld (net_sys n)) !! o)) as Ha by (apply (n_alive _ Hi); eauto).
  destruct (serve_one (net_sys n) (sv_add o id) Hs) as (y1 & E & Hrun & Hi1 & [_ _ _ Hk _]);
    [by apply bool_decide_eq_true|].
  exists y1. split; [exact E|]. split; [done|]. split; [done|].
  assert (threads y1 = threads (net_sys n) ∧ pushes (wld y1) = pushes (wld (net_sys n)) ∧
    alive (wld y1) = alive (wld (net_sys n)) ∧ fresh_session (wld y1) = fresh_session (wld (net_sys n)))
    as (? & ? & ? & ?).
  { simpl in E. destruct Ha as [st Ha]. rewrite Ha in E. unfold manage, add_session, act_modify in E.
    injection E as <-. by destruct st. }
  split_and!; try done. intros o' [?|[i [= <- _]]]%Hk; auto.
Qed.

Lemma net_session n o e :
  net_inv n → enabled n (ne_session o e) = true →
  ∃ n' evs, handle n (ne_session o e) = Some n' ∧ net_inv n' ∧ server_runs (net_sys n) evs (net_sys n').
Proof.
  intros Hi He. simpl in He. destruct (net_sessions n !! o) as [t|] eqn:Ht; [|done].
  apply andb_true_iff in He as [He Hns].
  destruct (history_step t e (n_history _ Hi _ _ Ht) He) as (t' & Eh & Ht').
  assert (session_change t t') as [(l & Hl) Hdata Hest].
  { pose proof (session_event_change _ _ _ _ _ _ Eh). by destruct e. }
  destruct (serve_registers n o t e t' Hi Ht Eh) as (y1 & E1 & R1 & Hi1 & Th1 & P1 & A1 & F1 & K1).
  assert (let_go t t' = sv_release <$> l) as Hgo.
  { unfold let_go. f_equal. rewrite Hl, length_app, Nat.add_sub. apply take_app_length. }
  destruct (serve_releases l y1
    (λ r, post_refs r (net_posts n) + queue_refs r (<[o := t']> (net_sessions n)))%nat Hi1)
    as (y' & E & R & Hi' & Th' & Hko & Hd & Hr).
  { intros r. unfold refs. rewrite P1, Th1. change (refs r (wld (net_sys n)) =
      thread_refs r (threads (net_sys n)) + times r l +
      (post_refs r (net_posts n) + queue_refs r (<[o := t']> (net_sessions n))))%nat.
    rewrite (n_refs _ Hi). unfold held. pose proof (queue_refs_insert r o t t' _ Ht) as Hq.
    rewrite Hl, times_app in Hq. lia. }
  simpl. rewrite Ht. cbn [mbind option_bind]. rewrite Eh. cbn [mbind option_bind].
  rewrite Hgo, serve_app, E1. cbn [mbind option_bind]. rewrite E.
  do 2 eexists. split; [done|]. split; [|by eapply steps_app].
  apply (net_session_inv n _ o t); try done.
  - by rewrite (ko_alive _ _ Hko), A1.
  - by rewrite (ko_fresh _ _ Hko), F1.
  - intros r. rewrite Hr. unfold held. simpl. lia.
  - intros r x' Hx. destruct (Hd _ _ Hx) as (x & Hx1 & Hx2). rewrite P1 in Hx1. eauto.
  - intros o' Ho'. apply K1. by eapply known_same.
  - intros d r Hdq Hs. eapply n_data; eauto.
Qed.

(** What remains of it when a session is gone. *)
Lemma net_destroy_inv n y' o :
  net_inv n → o ∉ (net_posts n).*1 → server_inv T y' →
  alive (wld y') = delete o (alive (wld (net_sys n))) →
  fresh_session (wld y') = fresh_session (wld (net_sys n)) →
  (∀ r, refs r (wld y') = held r (mk_server_net y' (delete o (net_sessions n)) (net_posts n))) →
  (∀ r x', pushes (wld y') !! r = Some x' →
     ∃ x, pushes (wld (net_sys n)) !! r = Some x ∧ push_data x' = push_data x) →
  (∀ o', known o' y' → known o' (net_sys n)) →
  net_inv (mk_server_net y' (delete o (net_sessions n)) (net_posts n)).
Proof.
  intros Hi Hnp Hi' Ha Hf Hr Hd Hk. split; simpl; try done.
  - intros o'. rewrite Ha. pose proof (n_alive _ Hi o').
    unfold is_Some in *. setoid_rewrite lookup_delete_Some. naive_solver.
  - intros o' t1 [_ Hl]%lookup_delete_Some. by eapply n_history.
  - intros r x' Hx. destruct (Hd _ _ Hx) as (x & Hx0 & ->). by eapply n_shared.
  - intros o' Ho'. rewrite Hf. destruct (n_known _ Hi o') as [? Hest]; [naive_solver|].
    split; [done|]. intros t1 [_ Hl]%lookup_delete_Some. by apply Hest.
  - intros o' Ho'. rewrite lookup_delete_ne by (by intros ->). by apply n_posts.
  - intros o' t1 d r Hl Hdq Hs. apply (held_data (wld (net_sys n))).
    + rewrite Hr. unfold held. simpl. pose proof (queue_held r d t1 o' _ Hl Hdq Hs). lia.
    + intros x' Hx. left. by apply Hd.
    + apply lookup_delete_Some in Hl as [_ Hl]. by eapply n_data.
Qed.

Lemma net_destroy n o :
  net_inv n → enabled n (ne_destroy o) = true →
  ∃ n' evs, handle n (ne_destroy o) = Some n' ∧ net_inv n' ∧ server_runs (net_sys n) evs (net_sys n').
Proof.
  intros Hi He. simpl in He. destruct (net_sessions n !! o) as [t|] eqn:Ht; [|done].
  apply andb_true_iff in He as [_ Hnp%bool_decide_eq_true].
  set (ev := sv_destroy o (m_established (ses t)) (session_id (ses t))).
  assert (is_Some (alive (wld (net_sys n)) !! o)) as Ha by (apply (n_alive _ Hi); eauto).
  destruct (serve_one (net_sys n) ev (n_server _ Hi)) as (y1 & E1 & R1 & Hi1 & [Cr Cd (_ & Ca & Cf) Ck _]);
    [by apply bool_decide_eq_true|].
  assert (threads y1 = threads (net_sys n) ∧ pushes (wld y1) = pushes (wld (net_sys n))) as [Th1 P1].
  { destruct (destroy_session_run o (m_established (ses t)) (session_id (ses t)) _ Ha) as (w & Ew & Kp & _).
    simpl in E1. unfold manage in E1. rewrite Ew in E1. injection E1 as <-. split; [done|apply Kp]. }
  destruct (serve_releases (shared t) y1
    (λ r, post_refs r (net_posts n) + queue_refs r (delete o (net_sessions n)))%nat Hi1)
    as (y' & E & R & Hi' & Th' & Hko & Hd & Hr).
  { intros r. specialize (Cr r). rewrite Th1 in Cr |- *. change (gone r ev) with 0%nat in Cr.
    change (times r (posts_of (effects (net_sys n) ev)).*2) with 0%nat in Cr.
    pose proof (n_refs _ Hi r) as Hn. unfold held in Hn.
    pose proof (queue_refs_delete r o t _ Ht) as Hq. lia. }
  cbn [net_handle]. rewrite Ht. cbn [mbind option_bind]. fold ev.
  change (ev :: (sv_release <$> shared t)) with ([ev] ++ (sv_release <$> shared t)).
  rewrite serve_app, E1. cbn [mbind option_bind]. rewrite E. do 2 eexists. split; [done|].
  split; [|by eapply steps_app]. apply net_destroy_inv; try done.
  - by rewrite (ko_alive _ _ Hko).
  - by rewrite (ko_fresh _ _ Hko).
  - intros r. rewrite Hr. unfold held. simpl. lia.
  - intros r x' Hx. destruct (Hd _ _ Hx) as (x & Hx1 & ->). rewrite P1 in Hx1. eauto.
  - intros o' Ho'. assert (known o' y1) as [?|[i Heq]]%Ck by (by eapply known_same); done.
Qed.

Lemma net_step n e :
  net_inv n → enabled n e = true →
  ∃ n' evs, handle n e = Some n' ∧ net_inv n' ∧ server_runs (net_sys n) evs (net_sys n').
Proof.
  intros Hi He. destruct e as [ec address ep_ec listen_ok id|ec result id rhost hb|th call_id bs ids|th|o|o e|o];
    [..|by apply net_post|by apply net_session|by apply net_destroy].
  - destruct (net_serve n (sv_accept ec address ep_ec listen_ok) id address fb_empty Hi He I) as (n' & E & ?). eauto.
  - destruct (net_serve n (sv_detect ec result) id rhost hb Hi He I) as (n' & E & ?). eauto.
  - destruct (net_serve n (sv_broadcast th call_id bs ids) 0 "" fb_empty Hi He I) as (n' & E & ?). eauto.
  - destruct (net_serve n (sv_thread th) 0 "" fb_empty Hi He I) as (n' & E & ?). eauto.
Qed.

Lemma net_inv_init n : net_init is_open = Some n → net_inv n.
Proof.
  unfold net_init. destruct (server_sys_init is_open) as [y|] eqn:E; [|done]. intros [= <-].
  pose proof (server_inv_init is_open T y E) as (Hi & _ & _).
  assert (wld y = set_m_sub_refs 3 (new_session_manager 2) ∧ threads y = ∅) as [Hw Ht].
  { unfold server_sys_init, manage, listener_run, handle_accept in E. run_act.
    by destruct is_open; injection E as <-. }
  split; simpl; try done; rewrite ?Hw; simpl.
  - intros o. by rewrite !lookup_empty.
  - intros p. unfold refs, held. simpl. by rewrite Ht, lookup_empty.
  - intros p x. by rewrite lookup_empty.
  - intros o [[(id & Hid)|(th & b & Hb & _)]|Ho]; [|by rewrite Ht, lookup_empty in Hb|by apply not_elem_of_nil in Ho].
    rewrite Hw in Hid. simpl in Hid. rewrite !lookup_empty in Hid. by destruct Hid.
  - intros o Ho. by apply not_elem_of_nil in Ho.
Qed.

Lemma net_steps_inv n es n' :
  net_init is_open = Some n →
  net_steps host manager srv_timeout server_cfg session_cfg req0 res0 has_on_listen has_ssl_ctx is_open T n es n' →
  net_inv n' ∧ safe enabled handle n'.
Proof.
  intros Hi Hr. eapply (steps_safe enabled handle net_inv); [|by apply net_inv_init|exact Hr].
  intros m e Hm He. destruct (net_step m e Hm He) as (m' & evs & ? & ? & _). eauto.
Qed.
End net.
