(* ===== verification/BroadcastCount.v ===== *)
(** * BroadcastCount: how often a broadcast can reach a session

    For one session and one message: what the broadcasting threads and the
    posted closures may still deliver never grows, except by a call of
    [broadcast] with that message that names the session. *)

From S2P Require Import Prelude Types Header ServerSession SessionManager SessionManagerFacts.
From S2P Require Import Listener ListenerFacts ServerNet ServerNetFacts.

#[local] Opaque config.queue_send_max.

(** A call of [broadcast] that goes to session id [sid]: to all, or to named
    sessions of which it is one. *)
Definition names (sid : Z) (session_ids : option (list Z)) : bool :=
  match session_ids with None => true | Some ids => bool_decide (sid ∈ ids) end.

(** How often a call counts that broadcasts [bs] under [cid] to the session. *)
Definition called (sid cid : Z) (bs : list byte) (call_id : Z) (send_bytes : list byte)
    (session_ids : option (list Z)) : nat :=
  Nat.b2n (bool_decide (call_id = cid ∧ send_bytes = bs) && names sid session_ids).

(** A message of a broadcast of [bs] under [cid]. *)
Definition says (cid : Z) (bs : list byte) (d : data_push) : bool :=
  bool_decide (call_id (push_header d) = cid ∧ push_body d = bs ∧ is_Some (push_shared d)).

(** The message [p]. *)
Definition is_message (p : nat) (d : data_push) : bool := bool_decide (push_shared d = Some p).

Section count.
Context (server_cfg : server_config) (has_on_listen has_ssl_ctx is_open : bool) (T : nat).
(** The session and its id; the messages that are counted; what a call counts
    before its message is made. *)
Context (o : nat) (sid : Z) (sees : data_push → bool) (due : Z → list byte → option (list Z) → nat).
Implicit Types (w : world) (y : server_sys) (p q th : nat) (b : broadcasting) (posts : list (nat * nat)).
Abbreviation handle := (server_handle server_cfg has_on_listen has_ssl_ctx is_open).
Abbreviation effects := (server_effects server_cfg has_on_listen has_ssl_ctx is_open).
Abbreviation enabled := (server_enabled T).

(** ** What is still to come *)

Definition about w p : bool :=
  match pushes w !! p with Some x => sees (push_data x) | None => false end.

(** The session is not gone, and may be found in the second table. *)
Definition in_reach w : bool := bool_decide ((fresh_session w ≤ o)%nat ∨ is_Some (alive w !! o)).

Definition may_ssl w : bool := bool_decide ((fresh_session w ≤ o)%nat ∨ alive w !! o = Some ssl_stream).

(** How many posts to the session a thread may still make. *)
Definition weight w b : nat :=
  match b with
  | bt_create call_id send_bytes session_ids => due call_id send_bytes session_ids
  | bt_plain p session_ids => Nat.b2n (about w p && names sid session_ids)
  | bt_post_plain p os session_ids =>
      if about w p then times o os + Nat.b2n (may_ssl w && names sid session_ids) else 0
  | bt_ssl p session_ids => Nat.b2n (about w p && (may_ssl w && names sid session_ids))
  | bt_post_ssl p os => if about w p then times o os else 0
  | bt_drop _ => 0
  end.

Definition post_weight w (x : nat * nat) : nat := Nat.b2n (bool_decide (x.1 = o) && about w x.2).

Definition posts_weight w posts : nat := sum_list_with (post_weight w) posts.

Definition coming y posts : nat :=
  (if in_reach (wld y) then total (weight (wld y)) (threads y) else 0) + posts_weight (wld y) posts.

(** The session is in the tables under one id at most, in the table of its
    stream. *)
Record listed w : Prop := {
  li_plain id : m_plain_sessions w !! id = Some o →
    id = sid ∧ (o < fresh_session w)%nat ∧ alive w !! o ≠ Some ssl_stream;
  li_ssl id : m_ssl_sessions w !! id = Some o →
    id = sid ∧ (o < fresh_session w)%nat ∧ alive w !! o ≠ Some plain_stream }.

Lemma names_elem session_ids : names sid session_ids = true ↔ ∀ ids, session_ids = Some ids → sid ∈ ids.
Proof.
  destruct session_ids as [ids|]; simpl; [|done]. rewrite bool_decide_eq_true. naive_solver.
Qed.

Lemma times_fmap {K} (l : list (K * nat)) : times o l.*2 = length (filter (λ x, x.2 = o) l).
Proof.
  induction l as [|[k x] l IH]; [done|]. change ((k, x) :: l).*2 with ([x] ++ l.*2).
  rewrite times_app, times_one, IH, filter_cons. simpl. by case_decide.
Qed.

(** A copied table holds the session once at most, and only if it is named. *)
Lemma times_copied (m : gmap Z nat) session_ids :
  (∀ id, m !! id = Some o → id = sid) →
  (times o (map_to_list (copy_sessions m session_ids)).*2 ≤
   Nat.b2n (bool_decide (m !! sid = Some o) && names sid session_ids))%nat.
Proof.
  intros Hm. rewrite times_fmap. set (l := filter _ _).
  assert (∀ x, x ∈ l → x = (sid, o) ∧ m !! sid = Some o ∧ names sid session_ids = true) as Hl.
  { intros [id x] [Hx [Hid Hn]%elem_of_map_to_list%lookup_copy_sessions]%list_elem_of_filter.
    simpl in Hx. subst x. apply Hm in Hid as Hs. subst id. by rewrite names_elem. }
  destruct l as [|x l'] eqn:El; [simpl; lia|].
  destruct (Hl x) as (_ & Hs & Hn); [by left|]. rewrite bool_decide_eq_true_2, Hn by done.
  change (length (x :: l') ≤ length [(sid, o)])%nat. rewrite <-El. apply submseteq_length, NoDup_submseteq.
  - apply NoDup_filter, NoDup_map_to_list.
  - intros z Hz. rewrite El in Hz. destruct (Hl z Hz) as [-> _]. by left.
Qed.

(** ** A change of the world *)

(** The messages that exist keep what they say, and the session does not come
    back. *)
Record later w w' : Prop := {
  la_data p x' : pushes w' !! p = Some x' → is_Some (pushes w !! p) →
    ∃ x, pushes w !! p = Some x ∧ push_data x' = push_data x;
  la_reach : in_reach w' = true → in_reach w = true;
  la_ssl : in_reach w' = true → may_ssl w' = true → may_ssl w = true }.

Lemma about_later w w' p : later w w' → is_Some (pushes w !! p) → about w' p = true → about w p = true.
Proof.
  intros Hl Hp. unfold about. destruct (pushes w' !! p) as [x'|] eqn:E; [|done].
  destruct (la_data _ _ Hl _ _ E Hp) as (x & -> & ->). done.
Qed.

Lemma b2n_mono (b1 b2 : bool) : (b1 = true → b2 = true) → (Nat.b2n b1 ≤ Nat.b2n b2)%nat.
Proof. destruct b1, b2; simpl; intros H; try lia. Qed.

Lemma weight_later w w' b :
  later w w' → in_reach w' = true → (∀ p, thread_holds p b = true → is_Some (pushes w !! p)) →
  (weight w' b ≤ weight w b)%nat.
Proof.
  intros Hl Hr Hp.
  assert (∀ p, thread_holds p b = true → about w' p = true → about w p = true) as Ha.
  { intros p Hh. apply (about_later w w'); auto. }
  pose proof (la_ssl _ _ Hl Hr) as Hs. clear Hp Hl.
  destruct b as [|p ids|p os ids|p ids|p os|p]; simpl in *; try lia;
    specialize (Ha p (bool_decide_eq_true_2 _ eq_refl)).
  - apply b2n_mono. rewrite !andb_true_iff. tauto.
  - destruct (about w' p); [|lia]. rewrite Ha by done.
    pose proof (b2n_mono (may_ssl w' && names sid ids) (may_ssl w && names sid ids)) as Hb.
    rewrite !andb_true_iff in Hb. specialize (Hb ltac:(tauto)). lia.
  - apply b2n_mono. rewrite !andb_true_iff. tauto.
  - destruct (about w' p); [|lia]. by rewrite Ha.
Qed.

Lemma posts_later w w' posts :
  later w w' → (∀ x, x ∈ posts → is_Some (pushes w !! x.2)) →
  (posts_weight w' posts ≤ posts_weight w posts)%nat.
Proof.
  intros Hl. unfold posts_weight. induction posts as [|x posts IH]; intros Hp; simpl; [lia|].
  assert (post_weight w' x ≤ post_weight w x)%nat.
  { apply b2n_mono. rewrite !andb_true_iff. intros [? ?]. split; [done|].
    eapply about_later; [done|apply Hp; by left|done]. }
  specialize (IH ltac:(intros z Hz; apply Hp; by right)). lia.
Qed.

Lemma posts_weight_app w posts posts' :
  posts_weight w (posts ++ posts') = (posts_weight w posts + posts_weight w posts')%nat.
Proof. apply sum_list_with_app. Qed.

Lemma server_later y e y' :
  server_change server_cfg has_on_listen has_ssl_ctx is_open y e y' → (∀ x, alive (wld y) !! o = Some x → (o < fresh_session (wld y))%nat) →
  later (wld y) (wld y').
Proof.
  intros [_ Hd Ho _ _] Hlt.
  assert ((fresh_session (wld y') = fresh_session (wld y) ∧
      (alive (wld y') !! o = alive (wld y) !! o ∨ alive (wld y') !! o = None ∧ is_Some (alive (wld y) !! o))) ∨
    (fresh_session (wld y') = S (fresh_session (wld y)) ∧
      (alive (wld y') !! o = alive (wld y) !! o ∨ o = fresh_session (wld y)))) as Hcases.
  { assert (created_of (effects y e) = [] ∧ alive (wld y') = alive (wld y) ∧
        fresh_session (wld y') = fresh_session (wld y) ∨
      (∃ o', alive (wld y') = delete o' (alive (wld y)) ∧ fresh_session (wld y') = fresh_session (wld y)) ∨
      fresh_session (wld y') = S (fresh_session (wld y)) ∧
      ∃ st, alive (wld y') = <[fresh_session (wld y) := st]> (alive (wld y))) as Ho'
      by (destruct e; simpl in Ho; naive_solver). clear Ho.
    destruct Ho' as [(_ & -> & ->)|[(o' & -> & ->)|(-> & st & ->)]].
    - left. auto.
    - left. split; [done|]. rewrite lookup_delete. case_decide; [|by left]. subst o'.
      destruct (alive (wld y) !! o); [right|left]; eauto.
    - right. split; [done|]. rewrite lookup_insert. case_decide; auto. }
  split.
  - intros p x' Hp [x Hx]. destruct (Hd p x' Hp) as [?|[Hn _]]; [done|congruence].
  - unfold in_reach. rewrite !bool_decide_eq_true.
    destruct Hcases as [[-> [-> | [-> ?]]]|[-> [-> | ->]]]; naive_solver lia.
  - unfold in_reach, may_ssl. rewrite !bool_decide_eq_true.
    destruct Hcases as [[-> [-> | [-> [x Hx]]]]|[-> [-> | ->]]]; [auto| |naive_solver lia..].
    apply Hlt in Hx. intros [?|[]]; [lia|done].
Qed.

(** ** The events *)

(** What a call of [broadcast] brings, and what the making of its message brings
    beyond that. *)
Definition brings y (e : server_event) : nat :=
  match e with
  | sv_broadcast _ call_id send_bytes ids => due call_id send_bytes ids
  | sv_thread th =>
      match threads y !! th with
      | Some (bt_create call_id send_bytes ids) =>
          Nat.b2n (sees (broadcast_push call_id send_bytes (wld y)) && names sid ids) -
          due call_id send_bytes ids
      | _ => 0
      end
  | _ => 0
  end.

Definition posted y posts : Prop := ∀ x, x ∈ posts → is_Some (pushes (wld y) !! x.2).

(** What an event adds to what is still to come. *)
Definition adds y e y' (n : nat) : Prop :=
  ∀ posts, posted y posts →
    (coming y' (posts ++ posts_of (effects y e)) ≤ coming y posts + n)%nat.

Lemma weights_later y w' :
  server_inv T y → later (wld y) w' → in_reach w' = true →
  ∀ th b, threads y !! th = Some b → (weight w' b ≤ weight (wld y) b)%nat.
Proof.
  intros Hi Hl Hr th b Hb. apply weight_later; [done..|].
  intros p Hp. by eapply (v_held _ _ Hi).
Qed.

Lemma adds_same y e y' :
  server_inv T y → later (wld y) (wld y') → threads y' = threads y → posts_of (effects y e) = [] →
  adds y e y' 0.
Proof.
  intros Hi Hl Ht He posts Hp. rewrite He, app_nil_r, Nat.add_0_r. unfold coming. rewrite Ht.
  pose proof (posts_later _ _ posts Hl Hp). pose proof (la_reach _ _ Hl) as Hr.
  destruct (in_reach (wld y')) eqn:Er; [|lia]. rewrite Hr by done.
  pose proof (total_mono (weight (wld y')) (weight (wld y)) (threads y) (weights_later y _ Hi Hl Er)). lia.
Qed.

(** One thread goes on to [b']. *)
Lemma adds_thread y e y' th b b' k :
  server_inv T y → later (wld y) (wld y') → threads y !! th = Some b →
  threads y' = <[th := b']> (threads y) →
  (in_reach (wld y') = true →
     (weight (wld y') b' + posts_weight (wld y') (posts_of (effects y e)) ≤ weight (wld y) b + k)%nat) →
  (in_reach (wld y') = false → posts_weight (wld y') (posts_of (effects y e)) = 0%nat) →
  adds y e y' k.
Proof.
  intros Hi Hl Hb Ht Hw Hz posts Hp. unfold coming. rewrite Ht, posts_weight_app.
  pose proof (posts_later _ _ posts Hl Hp). pose proof (la_reach _ _ Hl) as Hr.
  destruct (in_reach (wld y')) eqn:Er; [|rewrite Hz by done; lia]. rewrite Hr by done.
  pose proof (total_insert_mono (weight (wld y')) (weight (wld y)) (threads y) th b b' Hb
    (weights_later y _ Hi Hl Er)). specialize (Hw eq_refl). lia.
Qed.
(** One that keeps to its message: what it may still do is counted before. *)
Lemma adds_move y e y' th b b' :
  server_inv T y → later (wld y) (wld y') → in_reach (wld y') = in_reach (wld y) →
  threads y !! th = Some b → threads y' = <[th := b']> (threads y) →
  (∀ p, thread_holds p b' = true → thread_holds p b = true) →
  posted y (posts_of (effects y e)) →
  (in_reach (wld y) = true →
     (weight (wld y) b' + posts_weight (wld y) (posts_of (effects y e)) ≤ weight (wld y) b)%nat) →
  (in_reach (wld y) = false → posts_weight (wld y) (posts_of (effects y e)) = 0%nat) →
  adds y e y' 0.
Proof.
  intros Hi Hl Hreach Hb Ht Hh Hp Hw Hz. pose proof (posts_later _ _ _ Hl Hp) as Hposts.
  apply (adds_thread y e y' th b b' 0 Hi Hl Hb Ht); rewrite Hreach; intros Hr; [|specialize (Hz Hr); lia].
  rewrite Nat.add_0_r. specialize (Hw Hr). rewrite <-Hreach in Hr.
  pose proof (weight_later _ _ b' Hl Hr) as Hb'. specialize (Hb' ltac:(intros p ?%Hh; by eapply (v_held _ _ Hi))).
  lia.
Qed.

Lemma adds_quiet y e y' th b b' :
  server_inv T y → later (wld y) (wld y') → in_reach (wld y') = in_reach (wld y) →
  threads y !! th = Some b → threads y' = <[th := b']> (threads y) →
  (∀ p, thread_holds p b' = true → thread_holds p b = true) → posts_of (effects y e) = [] →
  (in_reach (wld y) = true → (weight (wld y) b' ≤ weight (wld y) b)%nat) →
  adds y e y' 0.
Proof.
  intros Hi Hl Hreach Hb Ht Hh He Hw. apply (adds_move y e y' th b b' Hi Hl Hreach Hb Ht Hh); rewrite He.
  - by intros ? ?%not_elem_of_nil.
  - intros Hr. specialize (Hw Hr). simpl. lia.
  - done.
Qed.

(** A post to the first of [o' :: os]. *)
Lemma adds_post y y' th b b' q o' os k :
  server_inv T y → later (wld y) (wld y') → in_reach (wld y') = in_reach (wld y) →
  threads y !! th = Some b → threads y' = <[th := b']> (threads y) →
  (∀ p, thread_holds p b' = thread_holds p b) → thread_holds q b = true →
  effects y (sv_thread th) = effects_of (post_one q o') (wld y) →
  weight (wld y) b = (if about (wld y) q then times o (o' :: os) + k else 0)%nat →
  weight (wld y) b' = (if about (wld y) q then times o os + k else 0)%nat →
  adds y (sv_thread th) y' 0.
Proof.
  intros Hi Hl Hreach Hb Ht Hh Hq He W W'.
  pose proof (v_held _ _ Hi _ _ _ Hb Hq) as Hpush.
  assert (effects_of (post_one q o') (wld y) =
    if decide (is_Some (alive (wld y) !! o')) then [eff_send o' q] else []) as Heff.
  { destruct (post_one_refs q o' (wld y)) as (w' & E & _); [|unfold effects_of; by rewrite E].
    by eapply (held_refs T). }
  change (o' :: os) with ([o'] ++ os) in W. rewrite times_app, times_one in W.
  apply (adds_move y _ y' th b b' Hi Hl Hreach Hb Ht); [intros p; by rewrite Hh|..]; rewrite He, Heff.
  - case_decide; [|by intros ? ?%not_elem_of_nil]. intros x Hx. by apply list_elem_of_singleton in Hx as ->.
  - intros _. rewrite W, W'. destruct (decide (is_Some _)); simpl; [|destruct (about _ _); lia].
    unfold post_weight. simpl. case_decide as Hd; [rewrite bool_decide_eq_true_2 by done|rewrite bool_decide_eq_false_2 by done];
      destruct (about _ _); simpl; lia.
  - intros Hr. case_decide as Ha; [|done]. simpl. unfold post_weight. simpl.
    case_bool_decide as Hd; [|done]. subst o'. unfold in_reach in Hr. apply bool_decide_eq_false in Hr. tauto.
Qed.
Lemma adds_end y y' th b :
  server_inv T y → later (wld y) (wld y') → threads y !! th = Some b → threads y' = delete th (threads y) →
  posts_of (effects y (sv_thread th)) = [] → adds y (sv_thread th) y' 0.
Proof.
  intros Hi Hl Hb Ht He posts Hp. rewrite He, app_nil_r, Nat.add_0_r. unfold coming. rewrite Ht.
  pose proof (posts_later _ _ posts Hl Hp). pose proof (la_reach _ _ Hl) as Hr.
  destruct (in_reach (wld y')) eqn:Er; [|lia]. rewrite Hr by done.
  pose proof (total_delete_mono (weight (wld y')) (weight (wld y)) (threads y) th
    (weights_later y _ Hi Hl Er)). lia.
Qed.

Lemma alive_numbered y x : server_inv T y → alive (wld y) !! o = Some x → (o < fresh_session (wld y))%nat.
Proof. intros Hi. apply (v_manager _ _ Hi). Qed.

Lemma objects_reach y e y' :
  objects_after y e [] y' → (∀ o est id, e ≠ sv_destroy o est id) → in_reach (wld y') = in_reach (wld y).
Proof.
  intros Ho He. assert (alive (wld y') = alive (wld y) ∧ fresh_session (wld y') = fresh_session (wld y)) as [Ha Hf].
  { destruct e; simpl in Ho; try (by destruct Ho as [(_ & ? & ?)|(? & _)]). by destruct (He o0 established id). }
  unfold in_reach. by rewrite Ha, Hf.
Qed.

(** A copy of the tables finds the session in one of them at most. *)
Lemma copy_plain_weight y session_ids :
  listed (wld y) → in_reach (wld y) = true →
  (times o (map_to_list (copy_sessions (m_plain_sessions (wld y)) session_ids)).*2 +
   Nat.b2n (may_ssl (wld y) && names sid session_ids) ≤ Nat.b2n (names sid session_ids))%nat.
Proof.
  intros [Hp _] Hr. pose proof (times_copied (m_plain_sessions (wld y)) session_ids) as Ht.
  specialize (Ht ltac:(intros id Hid; by apply Hp in Hid as [? _])).
  case_bool_decide as Hs; [|simpl in Ht; destruct (may_ssl _), (names _ _); simpl; lia].
  apply Hp in Hs as (_ & Hlt & Hna).
  assert (may_ssl (wld y) = false) as ->; [|simpl in *; lia].
  apply bool_decide_eq_false. intros [?|?]; [lia|done].
Qed.

Lemma copy_ssl_weight y session_ids :
  listed (wld y) → in_reach (wld y) = true →
  (times o (map_to_list (copy_sessions (m_ssl_sessions (wld y)) session_ids)).*2 ≤
   Nat.b2n (may_ssl (wld y) && names sid session_ids))%nat.
Proof.
  intros [_ Hs] Hr. pose proof (times_copied (m_ssl_sessions (wld y)) session_ids) as Ht.
  specialize (Ht ltac:(intros id Hid; by apply Hs in Hid as [? _])).
  case_bool_decide as Hd; [|simpl in Ht; lia]. apply Hs in Hd as (_ & Hlt & Hna).
  assert (may_ssl (wld y) = true) as ->; [|done].
  apply bool_decide_eq_true. right. apply bool_decide_eq_true in Hr as [?|[[] Ha]]; [lia|done..].
Qed.

Lemma adds_sv_thread y th y' :
  server_inv T y → listed (wld y) → handle y (sv_thread th) = Some y' →
  adds y (sv_thread th) y' (brings y (sv_thread th)).
Proof.
  intros Hi Hli Hh.
  pose proof (thread_step_change server_cfg has_on_listen has_ssl_ctx is_open T y th y' Hi Hh) as Hc.
  pose proof (server_later _ _ _ Hc (λ x, alive_numbered y x Hi)) as Hl.
  pose proof (objects_reach y (sv_thread th) y') as Hreach. pose proof (sc_objects _ _ _ _ _ _ _ Hc) as Hobj.
  simpl in Hh. unfold brings. destruct (threads y !! th) as [b|] eqn:Hb; [|done].
  assert (created_of (effects y (sv_thread th)) = []) as Hcr.
  { simpl. rewrite Hb. destruct b as [| |q [|o' os] ids| |q [|o' os]|]; try done; unfold effects_of, post_one, push_retain;
      run_act; case_decide; run_act; try done; by destruct (pushes _ !! _). }
  rewrite Hcr in Hobj. specialize (Hreach Hobj ltac:(done)). clear Hobj Hcr Hc.
  assert (∀ q b', thread_holds q b' = bool_decide (q = q) → thread_holds q b' = true) as Hown
    by (intros q b' ->; by apply bool_decide_eq_true_2).
  destruct b as [call_id sb ids|q ids|q [|o' os] ids|q ids|q [|o' os]|q].
  - unfold manage in Hh. destruct (broadcast_create _ _ _) as [p w' es| |] eqn:E; try done. injection Hh as <-.
    apply (adds_thread y _ _ th _ _ _ Hi Hl Hb eq_refl); simpl; rewrite Hb; [|done]. intros _.
    unfold broadcast_create in E. run_act. unfold about. simpl. rewrite lookup_insert_eq. simpl.
    change (mk_data_push _ sb (Some _)) with (broadcast_push call_id sb (wld y)). lia.
  - unfold manage, copy_plain, act_gets in Hh. injection Hh as <-.
    apply (adds_quiet y _ _ th _ _ Hi Hl Hreach Hb eq_refl); [done|simpl; by rewrite Hb|].
    intros Hr. simpl. destruct (about (wld y) q); [|done].
      by apply copy_plain_weight.
  - injection Hh as <-. apply (adds_quiet y _ _ th _ _ Hi Hl Hreach Hb eq_refl); [done|simpl; by rewrite Hb|].
    intros _. simpl. destruct (about (wld y) q); simpl; lia.
  - unfold manage in Hh. destruct (post_one q o' (wld y)) as [[] w' es| |] eqn:E; try done. injection Hh as <-.
    eapply (adds_post y _ th _ _ q o' os _ Hi Hl Hreach Hb eq_refl); try done; [by apply Hown|simpl; by rewrite Hb].
  - unfold manage, copy_ssl, act_gets in Hh. injection Hh as <-.
    apply (adds_quiet y _ _ th _ _ Hi Hl Hreach Hb eq_refl); [done|simpl; by rewrite Hb|].
    intros Hr. simpl. destruct (about (wld y) q); [|done]. by apply copy_ssl_weight.
  - injection Hh as <-. apply (adds_quiet y _ _ th _ _ Hi Hl Hreach Hb eq_refl); [done|simpl; by rewrite Hb|].
    intros _. simpl. lia.
  - unfold manage in Hh. destruct (post_one q o' (wld y)) as [[] w' es| |] eqn:E; try done. injection Hh as <-.
    eapply (adds_post y _ th _ _ q o' os 0 Hi Hl Hreach Hb eq_refl); try done; [by apply Hown|simpl; by rewrite Hb|..];
      simpl; destruct (about _ _); lia.
  - unfold manage in Hh. destruct (push_release q (wld y)) as [[] w' es| |] eqn:E; try done. injection Hh as <-.
    apply (adds_end y _ th _ Hi Hl Hb eq_refl). simpl. by rewrite Hb.
Qed.

Lemma adds_sv_broadcast y th call_id sb ids y' :
  server_inv T y → enabled y (sv_broadcast th call_id sb ids) = true →
  handle y (sv_broadcast th call_id sb ids) = Some y' →
  adds y (sv_broadcast th call_id sb ids) y' (due call_id sb ids).
Proof.
  intros Hi He Hh.
  pose proof (broadcast_change server_cfg has_on_listen has_ssl_ctx is_open T y th call_id sb ids y' He Hh) as Hc.
  pose proof (server_later _ _ _ Hc (λ x, alive_numbered y x Hi)) as Hl.
  apply andb_true_iff in He as [_ Hn%bool_decide_eq_true].
  assert (∃ ok, broadcast_check (wld y) = Done ok (wld y) []) as [ok E].
  { unfold broadcast_check. run_act. case_decide; eauto. }
  simpl in Hh. unfold manage in Hh. rewrite E in Hh. injection Hh as <-.
  intros posts Hp. change (posts_of (effects _ _)) with (@nil (nat * nat)). rewrite app_nil_r.
  destruct ok; [|unfold coming; simpl; lia].
  unfold coming. cbn [wld threads set_threads].
  pose proof (total_insert (weight (wld y)) (threads y) th (bt_create call_id sb ids)) as H.
  rewrite Hn in H. simpl in H. destruct (in_reach _); lia.
Qed.

(** ** Every event *)

Lemma adds_event y e y' :
  server_inv T y → listed (wld y) → enabled y e = true → handle y e = Some y' → adds y e y' (brings y e).
Proof.
  intros Hi Hli He Hh.
  pose proof (server_event_change server_cfg has_on_listen has_ssl_ctx is_open T y e y' Hi He Hh) as Hc.
  pose proof (server_later _ _ _ Hc (λ x, alive_numbered y x Hi)) as Hl.
  destruct e as [ec address ep_ec listen_ok|ec result|o' id|o' est id|p|th call_id sb ids|th].
  - destruct (on_accept_makes server_cfg has_on_listen has_ssl_ctx is_open ec address ep_ec listen_ok (wld y))
      as (w' & es & E & Hp & _).
    simpl in Hh. unfold manage in Hh. simpl in Hh. rewrite E in Hh. injection Hh as <-.
    apply adds_same; try done. simpl. unfold effects_of. by rewrite E.
  - destruct (on_detect_makes server_cfg ec result (wld y)) as (w' & es & E & Hp & _).
    simpl in Hh. unfold manage in Hh. simpl in Hh. rewrite E in Hh. injection Hh as <-.
    apply adds_same; try done. simpl. unfold effects_of. by rewrite E.
  - apply adds_same; try done. simpl in Hh. destruct (alive (wld y) !! o'); [|done]. unfold manage in Hh.
    destruct (add_session _ _ _ _); try done. by injection Hh as <-.
  - apply adds_same; try done. simpl in Hh. unfold manage in Hh. destruct (destroy_session _ _ _ _); try done.
    by injection Hh as <-.
  - apply adds_same; try done. simpl in Hh. unfold manage in Hh. destruct (push_release _ _); try done.
    by injection Hh as <-.
  - by apply adds_sv_broadcast.
  - by apply adds_sv_thread.
Qed.
End count.

(** ** The events of a session among those of the server *)

Section tables.
Context (server_cfg : server_config) (has_on_listen has_ssl_ctx is_open : bool) (T : nat).
Context (o : nat) (sid : Z).
Implicit Types (w : world) (y : server_sys) (p q th : nat) (b : broadcasting).
Abbreviation handle := (server_handle server_cfg has_on_listen has_ssl_ctx is_open).
Abbreviation in_reach := (in_reach o).
Abbreviation may_ssl := (may_ssl o).
Abbreviation listed := (listed o sid).

(** What a session makes the server do. *)
Definition settles (e : server_event) : Prop :=
  match e with sv_add _ _ | sv_destroy _ _ _ | sv_release _ => True | _ => False end.

Record settled y y' : Prop := {
  st_threads : threads y' = threads y;
  st_data : same_data (wld y) (wld y');
  st_reach : in_reach (wld y') = true → in_reach (wld y) = true;
  st_ssl : in_reach (wld y') = true → may_ssl (wld y') = true → may_ssl (wld y) = true;
  st_alive x : alive (wld y') !! o = Some x → alive (wld y) !! o = Some x;
  st_fresh : fresh_session (wld y') = fresh_session (wld y) }.

Lemma settled_objects y y' :
  threads y' = threads y → same_data (wld y) (wld y') → fresh_session (wld y') = fresh_session (wld y) →
  alive (wld y') !! o = alive (wld y) !! o ∨ alive (wld y') !! o = None → settled y y'.
Proof.
  intros Ht Hd Hf Ha. unfold in_reach, may_ssl.
  split; try done; unfold in_reach, may_ssl; rewrite ?bool_decide_eq_true, ?Hf;
    destruct Ha as [-> | ->]; try done; naive_solver.
Qed.

Lemma same_data_refl w w' : pushes w' = pushes w → same_data w w'.
Proof. intros E p x. rewrite E. eauto. Qed.

Lemma push_release_settled p y w' es d a :
  push_release p (wld y) = Done tt w' es → settled y (mk_server_sys w' (threads y) d a).
Proof.
  intros E. assert (0 < refs p (wld y))%nat as Hp.
  { unfold push_release, refs in *. run_act. destruct (pushes (wld y) !! p) as [[dp [|n]]|]; simpl; done || lia. }
  destruct (push_release_refs p (wld y) Hp) as (w1 & E1 & [K1 K2 _ _] & Hd & _).
  rewrite E in E1. injection E1 as <- _. apply settled_objects; simpl; auto. left. by rewrite K1.
Qed.

Lemma settle_step y e y' : settles e → handle y e = Some y' → settled y y'.
Proof.
  destruct e as [| |o' id|o' est id|p| |]; try done; intros _ Hh; simpl in Hh.
  - destruct (alive (wld y) !! o') as [st|]; [|done]. unfold manage, add_session, act_modify in Hh.
    injection Hh as <-. apply settled_objects; destruct st; simpl; auto; by apply same_data_refl.
  - unfold manage in Hh. destruct (destroy_session o' est id (wld y)) as [[] w' es| |] eqn:E; try done.
    injection Hh as <-.
    assert (pushes w' = pushes (wld y) ∧ alive w' = delete o' (alive (wld y)) ∧
      fresh_session w' = fresh_session (wld y)) as (H1 & H2 & H3).
    { unfold destroy_session, remove_session in E. run_act. destruct (alive (wld y) !! o') as [st|]; [|done].
      destruct est, st; run_act; repeat (case_decide; run_act); done. }
    apply settled_objects; simpl; [done|by apply same_data_refl|done|]. rewrite H2, lookup_delete.
    case_decide; auto.
  - unfold manage in Hh. destruct (push_release p (wld y)) as [[] w' es| |] eqn:E; try done.
    injection Hh as <-. by eapply push_release_settled.
Qed.

Lemma settled_refl y : settled y y.
Proof. by apply settled_objects; [|apply same_data_refl|..|left]. Qed.

Lemma settled_trans y y' y'' : settled y y' → settled y' y'' → settled y y''.
Proof.
  intros [T1 D1 R1 S1 A1 F1] [T2 D2 R2 S2 A2 F2]. split; try congruence; auto.
  intros p x Hp. destruct (D2 p x Hp) as (x' & Hx' & ->). apply D1 in Hx' as (x'' & ? & ->). eauto.
Qed.

Lemma settle_steps es y y' :
  Forall settles es → serve server_cfg has_on_listen has_ssl_ctx is_open y es = Some y' → settled y y'.
Proof.
  intros Hes. revert y. induction Hes as [|e es He _ IH]; intros y Hs; simpl in Hs.
  { injection Hs as <-. apply settled_refl. }
  destruct (handle y e) as [y1|] eqn:E; [|done]. eapply settled_trans; [by eapply settle_step|by apply IH].
Qed.

(** ** The tables *)

(** What a step of a broadcasting thread leaves alone. *)
Record thread_step y y' : Prop := {
  ts_objects : keeps_objects (wld y) (wld y');
  ts_data p x' : pushes (wld y') !! p = Some x' →
    (∃ x, pushes (wld y) !! p = Some x ∧ push_data x' = push_data x) ∨
    ∃ th call_id sb ids, threads y !! th = Some (bt_create call_id sb ids) ∧
      push_data x' = broadcast_push call_id sb (wld y);
  ts_create th call_id sb ids : threads y' !! th = Some (bt_create call_id sb ids) →
    threads y !! th = Some (bt_create call_id sb ids) }.

Definition creates b : bool := match b with bt_create _ _ _ => true | _ => false end.

(** One that makes no message. *)
Lemma thread_step_keeps y th b' y' :
  keeps_objects (wld y) (wld y') → same_data (wld y) (wld y') →
  threads y' = <[th := b']> (threads y) ∧ creates b' = false ∨ threads y' = delete th (threads y) → thread_step y y'.
Proof.
  intros Hk Hd Ht. split; [done|by left; apply Hd|].
  intros th' call_id sb ids. destruct Ht as [[-> Hb]| ->].
  - rewrite lookup_insert_Some. intros [[_ ->]|[_ ?]]; done.
  - by intros [_ ?]%lookup_delete_Some.
Qed.

Lemma thread_stepped y th y' : server_inv T y → handle y (sv_thread th) = Some y' → thread_step y y'.
Proof.
  intros Hi Hh. simpl in Hh. destruct (threads y !! th) as [b|] eqn:Hb; [|done].
  assert (∀ q o' b', thread_holds q b = true → creates b' = false →
    manage (post_one q o') y (λ _ y, set_threads (<[th := b']> (threads y)) y) = Some y' → thread_step y y') as Hpost.
  { intros q o' b' Hq Hb' Hm. destruct (post_one_refs q o' (wld y) (held_refs _ _ _ _ _ Hi Hb Hq)) as (w' & E & ? & ? & _).
    unfold manage in Hm. rewrite E in Hm. injection Hm as <-. apply (thread_step_keeps y th b'); auto. }
  destruct b as [call_id sb ids|q ids|q [|o' os] ids|q ids|q [|o' os]|q];
    try (unfold manage, copy_plain, copy_ssl, act_gets in Hh; injection Hh as <-;
      eapply (thread_step_keeps y th); [by split|by apply same_data_refl|by left]);
    try (eapply (Hpost q o'); [by apply bool_decide_eq_true_2| |exact Hh]; done).
  - unfold manage in Hh. destruct (broadcast_create _ _ _) as [p w' es| |] eqn:E; try done. injection Hh as <-.
    unfold broadcast_create in E. run_act. split; [by split|..]; simpl.
    + intros p x'. rewrite lookup_insert_Some. intros [[<- <-]|[_ Hp]]; [right|left; eauto]. by exists th, call_id, sb, ids.
    + intros th' c' sb' ids'. rewrite lookup_insert_Some. by intros [[_ ?]|[_ ?]].
  - destruct (push_release_refs q (wld y)) as (w' & E & ? & ? & _).
    { eapply (held_refs T); [done..|by apply bool_decide_eq_true_2]. }
    unfold manage in Hh. rewrite E in Hh. injection Hh as <-. apply (thread_step_keeps y th (bt_drop q)); auto.
Qed.

Lemma listed_same w w' :
  m_plain_sessions w' ⊆ m_plain_sessions w → m_ssl_sessions w' ⊆ m_ssl_sessions w →
  (fresh_session w ≤ fresh_session w')%nat →
  ((o < fresh_session w)%nat → ∀ x, alive w' !! o = Some x → alive w !! o = Some x) → listed w → listed w'.
Proof.
  intros Hp Hs Hf Ha [L1 L2].
  split; intros id Hid; eapply lookup_weaken in Hid; try done;
    [destruct (L1 _ Hid) as (-> & Hlt & Hn)|destruct (L2 _ Hid) as (-> & Hlt & Hn)];
    (split; [done|]; split; [lia|]; intros ?%Ha; done).
Qed.

Lemma listed_settle y e y' :
  settles e → (∀ x, alive (wld y) !! o = Some x → (o < fresh_session (wld y))%nat) →
  (∀ id, e = sv_add o id → id = sid) → handle y e = Some y' → listed (wld y) → listed (wld y').
Proof.
  intros He Hnum Hid Hh Hl. destruct e as [| |o' id|o' est id|p| |]; try done.
  - simpl in Hh. destruct (alive (wld y) !! o') as [st|] eqn:Ho; [|done]. unfold manage, add_session, act_modify in Hh.
    injection Hh as <-. destruct Hl as [L1 L2].
    destruct st; split; intros i; simpl; rewrite ?lookup_insert_Some; try (by apply L1); try (by apply L2);
      (intros [[<- ->]|[_ Hi']]; [|by auto]);
      (split; [by apply Hid|]); (split; [by eapply Hnum|congruence]).
  - simpl in Hh. unfold manage in Hh. destruct (destroy_session o' est id (wld y)) as [[] w' es| |] eqn:E; try done.
    injection Hh as <-. simpl.
    assert (alive w' = delete o' (alive (wld y)) ∧ fresh_session w' = fresh_session (wld y) ∧
      m_plain_sessions w' ⊆ m_plain_sessions (wld y) ∧ m_ssl_sessions w' ⊆ m_ssl_sessions (wld y)) as (H2 & H3 & H4 & H5).
    { unfold destroy_session, remove_session in E. run_act. destruct (alive (wld y) !! o') as [st|]; [|done].
      destruct est, st; run_act; repeat (case_decide; run_act); split_and!; try done; apply delete_subseteq. }
    apply (listed_same (wld y)); [done|done|lia| |done]. intros _ x. rewrite H2. by intros [_ ?]%lookup_delete_Some.
  - simpl in Hh. unfold manage in Hh. destruct (push_release p (wld y)) as [[] w' es| |] eqn:E; try done.
    injection Hh as <-. simpl. assert (keeps_objects (wld y) w') as [K1 K2 K3 K4].
    { unfold push_release, on_msg_sent in E. run_act. destruct (pushes (wld y) !! p) as [[dp [|[|n]]]|]; run_act; done. }
    apply (listed_same (wld y)); rewrite ?K1, ?K2, ?K3, ?K4; done || lia.
Qed.

Lemma listed_settles es y y' :
  Forall (λ e, settles e ∧ ∀ id, e = sv_add o id → id = sid) es →
  (∀ x, alive (wld y) !! o = Some x → (o < fresh_session (wld y))%nat) →
  serve server_cfg has_on_listen has_ssl_ctx is_open y es = Some y' → listed (wld y) → listed (wld y').
Proof.
  intros Hes. revert y. induction Hes as [|e es [He Hid] _ IH]; intros y Hnum Hs Hl; simpl in Hs.
  { by injection Hs as <-. }
  destruct (handle y e) as [y1|] eqn:E; [|done]. apply (IH y1); [|done|by eapply listed_settle].
  destruct (settle_step _ _ _ He E) as [_ _ _ _ Ha Hf]. intros x Hx%Ha. rewrite Hf. by eapply Hnum.
Qed.

Lemma listed_event y e y' :
  server_inv T y → (∀ id, e = sv_add o id → id = sid) → handle y e = Some y' →
  listed (wld y) → listed (wld y').
Proof.
  intros Hi Hid Hh Hl.
  destruct e as [ec address ep_ec listen_ok|ec result|o' id|o' est id|p|th call_id sb ids|th];
    try (by eapply listed_settle; [..|exact Hh|]; [|intros x; by eapply alive_numbered|..]).
  - destruct (on_accept_makes server_cfg has_on_listen has_ssl_ctx is_open ec address ep_ec listen_ok (wld y))
      as (w' & es & E & _ & Hw).
    simpl in Hh. unfold manage in Hh. simpl in Hh. rewrite E in Hh. injection Hh as <-. simpl.
    destruct Hw as [[-> _]|[-> _]]; [done|]. apply (listed_same (wld y)); simpl; try done; [lia|].
    intros Hlt x. by rewrite lookup_insert_ne by lia.
  - destruct (on_detect_makes server_cfg ec result (wld y)) as (w' & es & E & _ & Hw).
    simpl in Hh. unfold manage in Hh. simpl in Hh. rewrite E in Hh. injection Hh as <-. simpl.
    destruct Hw as [[-> _]|(st & -> & _)]; [done|]. apply (listed_same (wld y)); simpl; try done; [lia|].
    intros Hlt x. by rewrite lookup_insert_ne by lia.
  - assert (∃ ok, broadcast_check (wld y) = Done ok (wld y) []) as [ok E].
    { unfold broadcast_check. run_act. case_decide; eauto. }
    simpl in Hh. unfold manage in Hh. rewrite E in Hh. injection Hh as <-. by destruct ok.
  - destruct (thread_stepped y th y' Hi Hh) as [[K1 K2 K3 K4] _ _].
    apply (listed_same (wld y)); rewrite ?K1, ?K2, ?K3, ?K4; done || lia.
Qed.
End tables.

Section settled.
Context (T o : nat) (sid : Z) (sees : data_push → bool) (due : Z → list byte → option (list Z) → nat).
Implicit Types (y : server_sys) (posts : list (nat * nat)).

Lemma settled_coming y y' posts :
  server_inv T y → settled o y y' → posted y posts →
  (coming o sid sees due y' posts ≤ coming o sid sees due y posts)%nat.
Proof.
  intros Hi [Ht Hd Hr Hs _ _] Hp. assert (later o (wld y) (wld y')) as Hl.
  { split; [|done..]. intros p x' Hx _. by apply Hd. }
  unfold coming. rewrite Ht.
  pose proof (posts_later o sees _ _ posts Hl Hp). destruct (in_reach o (wld y')) eqn:Er; [|lia].
  rewrite Hr by done. pose proof (total_mono _ _ (threads y) (weights_later T o sid sees due y _ Hi Hl Er)). lia.
Qed.
End settled.
