(* ===== verification/BroadcastHistory.v ===== *)
(** * BroadcastHistory: which call a broadcast message belongs to

    Every message of a broadcast is made by one call of [broadcast]; a thread
    makes and posts the messages of its calls in their order.  The calls are
    numbered as they come, the messages as they are made. *)

From S2P Require Import Prelude Types Header ServerSession SessionManager SessionManagerFacts.
From S2P Require Import Listener ListenerFacts ServerNet ServerNetFacts BroadcastCount.

#[local] Opaque config.queue_send_max.

(** A call of [server::broadcast], by a thread. *)
Record broadcast_call := mk_broadcast_call {
  bc_thread : nat;
  bc_call_id : Z;
  bc_bytes : list byte;
  bc_session_ids : option (list Z) }.

(** The last call of each thread, and the call of each message. *)
Record tags := mk_tags {
  tg_last : gmap nat nat;
  tg_made : list nat }.

Definition no_tags : tags := mk_tags ∅ [].

Implicit Types (bcs : list broadcast_call) (tg : tags) (p q j th o : nat) (c : broadcast_call).

Definition call_of bcs tg p : option broadcast_call := j ← tg_made tg !! p; bcs !! j.

(** The message [p] of call [c]. *)
Definition message_of c p : data_push :=
  mk_data_push (new_io_header (bc_call_id c) 0) (bc_bytes c) (Some p).

Section history.
Context (server_cfg : server_config) (has_on_listen has_ssl_ctx is_open : bool) (T : nat).
Implicit Types (w : world) (y : server_sys) (b : broadcasting) (posts : list (nat * nat)).
Abbreviation handle := (server_handle server_cfg has_on_listen has_ssl_ctx is_open).
Abbreviation effects := (server_effects server_cfg has_on_listen has_ssl_ctx is_open).

(** ** A step of a broadcasting thread *)

(** From [b] to [b'], with the posts it makes. *)
Inductive advance y : broadcasting → broadcasting → list (nat * nat) → Prop :=
  | adv_plain q ids :
      advance y (bt_plain q ids)
        (bt_post_plain q (map_to_list (copy_sessions (m_plain_sessions (wld y)) ids)).*2 ids) []
  | adv_post_plain q o os ids ps :
      ps = [] ∨ ps = [(o, q)] →
      advance y (bt_post_plain q (o :: os) ids) (bt_post_plain q os ids) ps
  | adv_plain_end q ids : advance y (bt_post_plain q [] ids) (bt_ssl q ids) []
  | adv_ssl q ids :
      advance y (bt_ssl q ids)
        (bt_post_ssl q (map_to_list (copy_sessions (m_ssl_sessions (wld y)) ids)).*2) []
  | adv_post_ssl q o os ps :
      ps = [] ∨ ps = [(o, q)] → advance y (bt_post_ssl q (o :: os)) (bt_post_ssl q os) ps
  | adv_ssl_end q : advance y (bt_post_ssl q []) (bt_drop q) [].

Record same_messages y y' : Prop := {
  sm_fresh : fresh_push (wld y') = fresh_push (wld y);
  sm_data : same_data (wld y) (wld y') }.

Inductive thread_went y th y' : Prop :=
  | went_create call_id sb ids :
      threads y !! th = Some (bt_create call_id sb ids) →
      threads y' = <[th := bt_plain (fresh_push (wld y)) ids]> (threads y) →
      fresh_push (wld y') = S (fresh_push (wld y)) →
      pushes (wld y') = <[fresh_push (wld y) := mk_shared_push (broadcast_push call_id sb (wld y)) 1]> (pushes (wld y)) →
      posts_of (effects y (sv_thread th)) = [] → thread_went y th y'
  | went_on b b' ps :
      threads y !! th = Some b → advance y b b' ps → threads y' = <[th := b']> (threads y) →
      same_messages y y' → posts_of (effects y (sv_thread th)) = ps → thread_went y th y'
  | went_out q :
      threads y !! th = Some (bt_drop q) → threads y' = delete th (threads y) →
      same_messages y y' → posts_of (effects y (sv_thread th)) = [] → thread_went y th y'.

Lemma post_one_same q o w :
  (0 < refs q w)%nat →
  ∃ w' es, post_one q o w = Done tt w' es ∧ fresh_push w' = fresh_push w ∧ same_data w w' ∧
    (posts_of es = [] ∨ posts_of es = [(o, q)]).
Proof.
  intros Hq. destruct (post_one_refs q o w Hq) as (w' & E & _ & Hd & _).
  exists w'. eexists. split; [exact E|]. split; [|split; [done|by case_decide; [right|left]]].
  unfold post_one, push_retain in E. run_act. case_decide; run_act; [|done].
  by destruct (pushes w !! q); simplify_eq.
Qed.

Lemma release_same q w w' es :
  push_release q w = Done tt w' es → fresh_push w' = fresh_push w ∧ same_data w w' ∧ es = [].
Proof.
  intros E. assert (0 < refs q w)%nat as Hq.
  { unfold push_release, refs in *. run_act. destruct (pushes w !! q) as [[dp [|n]]|]; simpl; done || lia. }
  destruct (push_release_refs q w Hq) as (w1 & E1 & _ & Hd & _). rewrite E in E1. injection E1 as <- ->.
  split; [|done]. unfold push_release, on_msg_sent in E. run_act.
  by destruct (pushes w !! q) as [[dp [|[|n]]]|]; run_act.
Qed.

Lemma thread_goes y th y' : server_inv T y → handle y (sv_thread th) = Some y' → thread_went y th y'.
Proof.
  intros Hi Hh. simpl in Hh. destruct (threads y !! th) as [b|] eqn:Hb; [|done].
  assert (∀ q o' b', thread_holds q b = true → (∀ ps, ps = [] ∨ ps = [(o', q)] → advance y b b' ps) →
    effects y (sv_thread th) = effects_of (post_one q o') (wld y) →
    manage (post_one q o') y (λ _ y, set_threads (<[th := b']> (threads y)) y) = Some y' → thread_went y th y') as Hpost.
  { intros q o' b' Hq Hadv He Hm.
    destruct (post_one_same q o' (wld y) (held_refs _ _ _ _ _ Hi Hb Hq)) as (w' & es & E & Hf & Hd & Hps).
    unfold manage in Hm. rewrite E in Hm. injection Hm as <-.
    apply (went_on _ _ _ b b' (posts_of es)); auto; [by split|]. rewrite He. unfold effects_of. by rewrite E. }
  destruct b as [call_id sb ids|q ids|q [|o' os] ids|q ids|q [|o' os]|q].
  - unfold manage in Hh. destruct (broadcast_create _ _ _) as [p w' es| |] eqn:E; try done. injection Hh as <-.
    unfold broadcast_create in E. run_act. eapply went_create; try done. simpl. by rewrite Hb.
  - unfold manage, copy_plain, act_gets in Hh. injection Hh as <-.
    eapply went_on; [done|constructor|done|split; [done|by apply same_data_refl]|simpl; by rewrite Hb].
  - injection Hh as <-.
    eapply went_on; [done|constructor|done|split; [done|by apply same_data_refl]|simpl; by rewrite Hb].
  - eapply (Hpost q o'); [by apply bool_decide_eq_true_2|intros; by constructor|simpl; by rewrite Hb|exact Hh].
  - unfold manage, copy_ssl, act_gets in Hh. injection Hh as <-.
    eapply went_on; [done|constructor|done|split; [done|by apply same_data_refl]|simpl; by rewrite Hb].
  - injection Hh as <-.
    eapply went_on; [done|constructor|done|split; [done|by apply same_data_refl]|simpl; by rewrite Hb].
  - eapply (Hpost q o'); [by apply bool_decide_eq_true_2|intros; by constructor|simpl; by rewrite Hb|exact Hh].
  - unfold manage in Hh. destruct (push_release q (wld y)) as [[] w' es| |] eqn:E; try done. injection Hh as <-.
    destruct (release_same _ _ _ _ E) as (Hf & Hd & _). eapply went_out; try done. simpl. by rewrite Hb.
Qed.

(** ** The messages and their calls *)

(** The session ids a thread still looks up. *)
Definition ids_left b : option (option (list Z)) :=
  match b with bt_plain _ ids | bt_post_plain _ _ ids | bt_ssl _ ids => Some ids | _ => None end.

Record made_inv bcs tg y : Prop := {
  mi_fresh : length (tg_made tg) = fresh_push (wld y);
  mi_calls p j : tg_made tg !! p = Some j → is_Some (bcs !! j);
  mi_order p q jp jq cp cq :
    (p < q)%nat → tg_made tg !! p = Some jp → tg_made tg !! q = Some jq →
    bcs !! jp = Some cp → bcs !! jq = Some cq → bc_thread cp = bc_thread cq → (jp < jq)%nat;
  mi_create th call_id sb ids :
    threads y !! th = Some (bt_create call_id sb ids) →
    ∃ j, tg_last tg !! th = Some j ∧ bcs !! j = Some (mk_broadcast_call th call_id sb ids) ∧
      ∀ p jp cp, tg_made tg !! p = Some jp → bcs !! jp = Some cp → bc_thread cp = th → (jp < j)%nat;
  mi_thread th b p :
    threads y !! th = Some b → thread_holds p b = true →
    ∃ c, call_of bcs tg p = Some c ∧ bc_thread c = th ∧
      (∀ ids, ids_left b = Some ids → bc_session_ids c = ids) ∧
      ∀ q cq, call_of bcs tg q = Some cq → bc_thread cq = th → (q ≤ p)%nat;
  mi_data p x :
    pushes (wld y) !! p = Some x → ∃ c, call_of bcs tg p = Some c ∧ push_data x = message_of c p }.

Lemma call_of_Some bcs tg p c :
  call_of bcs tg p = Some c ↔ ∃ j, tg_made tg !! p = Some j ∧ bcs !! j = Some c.
Proof. unfold call_of. by rewrite bind_Some. Qed.

(** Calls and messages are added. *)
Definition grows bcs tg bcs' tg' : Prop :=
  ∀ p c, call_of bcs tg p = Some c → call_of bcs' tg' p = Some c.

(** No message is made, and no thread comes to hold one. *)
Lemma made_kept bcs tg y y' :
  same_messages y y' →
  (∀ th b', threads y' !! th = Some b' → ∃ b, threads y !! th = Some b ∧
     (∀ p, thread_holds p b' = true → thread_holds p b = true) ∧
     (∀ ids, ids_left b' = Some ids → ids_left b = Some ids) ∧ (creates b' = true → b' = b)) →
  made_inv bcs tg y → made_inv bcs tg y'.
Proof.
  intros [Hf Hd] Ht [M1 M2 M3 M4 M5 M6]. split; try done.
  - congruence.
  - intros th call_id sb ids Hb. destruct (Ht _ _ Hb) as (b & Hb0 & _ & _ & Hc).
    specialize (Hc eq_refl). subst b. by apply (M4 th call_id sb ids).
  - intros th b' p Hb' Hp. destruct (Ht _ _ Hb') as (b & Hb & Hh & Hids & _).
    destruct (M5 th b p Hb (Hh _ Hp)) as (c & ? & ? & ? & ?). eauto 7.
  - intros p x' Hx. destruct (Hd _ _ Hx) as (x & Hx0 & ->). by apply M6.
Qed.

(** Another call. *)
Lemma made_called bcs tg y y' th call_id sb ids :
  same_messages y y' → threads y !! th = None →
  threads y' = threads y ∨ threads y' = <[th := bt_create call_id sb ids]> (threads y) →
  made_inv bcs tg y →
  ∃ tg', grows bcs tg (bcs ++ [mk_broadcast_call th call_id sb ids]) tg' ∧
    made_inv (bcs ++ [mk_broadcast_call th call_id sb ids]) tg' y'.
Proof.
  intros [Hf Hd] Hn Ht [M1 M2 M3 M4 M5 M6]. set (new := mk_broadcast_call _ _ _ _). set (bcs' := bcs ++ [new]).
  assert (∀ p j c, tg_made tg !! p = Some j → bcs' !! j = Some c → bcs !! j = Some c) as Hold.
  { intros p j c Hp Hc. unfold bcs' in Hc. rewrite lookup_app_l in Hc; [done|]. apply lookup_lt_is_Some. eauto. }
  assert (∀ j c, bcs !! j = Some c → bcs' !! j = Some c) as Hnew by (intros; by apply lookup_app_l_Some).
  assert (∀ p c, call_of bcs' (mk_tags (<[th := length bcs]> (tg_last tg)) (tg_made tg)) p = Some c ↔
    call_of bcs tg p = Some c) as Hcall by (intros p c; rewrite !call_of_Some; naive_solver).
  eexists. split; [intros p c; apply Hcall|].
  split; cbn [tg_made tg_last].
  - congruence.
  - intros p j [c Hc]%M2. eauto.
  - intros p q jp jq cp cq Hlt Hp Hq Hcp Hcq. eapply M3; eauto.
  - intros th' call_id' sb' ids' Hb.
    assert (threads y !! th' = Some (bt_create call_id' sb' ids') ∧ th ≠ th' ∨
      th' = th ∧ bt_create call_id' sb' ids' = bt_create call_id sb ids) as [[Hb0 Hne]|[-> [= -> -> ->]]].
    { destruct Ht as [E|E]; rewrite E in Hb; [left; split; [done|intros <-; congruence]|].
      apply lookup_insert_Some in Hb as [[<- <-]|[? ?]]; auto. }
    + destruct (M4 _ _ _ _ Hb0) as (j & Hj & Hc & Hlt). exists j. rewrite lookup_insert_ne by done.
      split; [done|]. split; [by apply Hnew|]. intros p jp cp Hp Hcp. eapply Hlt; eauto.
    + exists (length bcs). rewrite lookup_insert_eq. split; [done|].
      split; [unfold bcs'; by rewrite lookup_app_r, Nat.sub_diag by lia|].
      intros p jp cp Hp _ _. apply M2 in Hp. by apply lookup_lt_is_Some.
  - intros th' b p Hb Hp.
    assert (threads y !! th' = Some b) as Hb0.
    { destruct Ht as [E|E]; rewrite E in Hb; [done|]. apply lookup_insert_Some in Hb as [[_ <-]|[_ ?]]; done. }
    destruct (M5 _ _ _ Hb0 Hp) as (c & Hc & Hth & Hids & Hlast). exists c. rewrite Hcall. do 3 (split; [done|]).
    intros q cq Hq. apply Hlast. by apply Hcall.
  - intros p x' Hx. destruct (Hd _ _ Hx) as (x & Hx0 & ->). destruct (M6 _ _ Hx0) as (c & ? & ?).
    exists c. by rewrite Hcall.
Qed.

(** Another message, of call [j]. *)
Definition make_message tg j : tags := mk_tags (tg_last tg) (tg_made tg ++ [j]).

Lemma made_message tg j q jq :
  tg_made (make_message tg j) !! q = Some jq ↔ tg_made tg !! q = Some jq ∨ q = length (tg_made tg) ∧ jq = j.
Proof.
  simpl. rewrite lookup_snoc_Some. split; [intros [[_ ?]|[-> ->]]; auto|].
  intros [Hq|[-> ->]]; [left|by right]. split; [by eapply lookup_lt_Some|done].
Qed.

Lemma call_message bcs tg j q c :
  call_of bcs (make_message tg j) q = Some c ↔
  call_of bcs tg q = Some c ∨ q = length (tg_made tg) ∧ bcs !! j = Some c.
Proof. rewrite !call_of_Some. setoid_rewrite made_message. naive_solver. Qed.

Lemma call_made bcs tg q c : call_of bcs tg q = Some c → (q < length (tg_made tg))%nat.
Proof. by intros (j & ?%lookup_lt_Some & _)%call_of_Some. Qed.

Lemma made_new bcs tg y y' th call_id sb ids :
  let p := fresh_push (wld y) in
  server_inv T y → threads y !! th = Some (bt_create call_id sb ids) →
  threads y' = <[th := bt_plain p ids]> (threads y) → fresh_push (wld y') = S p →
  pushes (wld y') = <[p := mk_shared_push (broadcast_push call_id sb (wld y)) 1]> (pushes (wld y)) →
  made_inv bcs tg y →
  ∃ tg', grows bcs tg bcs tg' ∧ made_inv bcs tg' y'.
Proof.
  intros p Hi Hb Ht Hf Hp [M1 M2 M3 M4 M5 M6]. destruct (M4 _ _ _ _ Hb) as (j & Hj & Hc & Hlt).
  fold p in M1. pose proof (λ q jq, made_message tg j q jq) as Hmade. pose proof (call_message bcs tg j) as Hcall.
  rewrite M1 in Hcall. setoid_rewrite M1 in Hmade.
  exists (make_message tg j). split; [intros q c ?; apply Hcall; by left|]. split; cbn [tg_last make_message].
  - simpl. rewrite length_app. simpl. lia.
  - intros q jq [Hq|[-> ->]]%Hmade; [by eapply M2|eauto].
  - intros q r jq jr cq cr Hqr [Hq|[-> ->]]%Hmade [Hr|[-> ->]]%Hmade Hcq Hcr Hth.
    + by apply (M3 q r jq jr cq cr).
    + simplify_eq. by apply (Hlt q jq cq).
    + apply lookup_lt_Some in Hr. lia.
    + lia.
  - intros th' c' sb' ids'. rewrite Ht, lookup_insert_Some. intros [[_ ?]|[Hne Hb']]; [done|].
    destruct (M4 _ _ _ _ Hb') as (j' & Hj' & Hc' & Hlt'). exists j'. split; [done|]. split; [done|].
    intros q jq cq [Hq|[-> ->]]%Hmade Hcq Hth; [by eapply Hlt'|]. simplify_eq/=.
  - intros th' b q. rewrite Ht, lookup_insert_Some. setoid_rewrite Hcall. intros [[<- <-]|[Hne Hb']] Hq.
    + apply bool_decide_eq_true in Hq. subst q. eexists. split; [by right|]. split; [done|].
      split; [by intros ? [= <-] |]. intros r cr [Hr%call_made|[-> _]] _; [lia|done].
    + destruct (M5 _ _ _ Hb' Hq) as (c & Hcq & Hth & Hids & Hlast). exists c. split; [by left|]. do 2 (split; [done|]).
      intros r cr [Hr|[-> Hr]] Hthr; [by eapply Hlast|]. simplify_eq/=.
  - intros q x. rewrite Hp, lookup_insert_Some. setoid_rewrite Hcall. intros [[<- <-]|[_ Hx]]; [eexists; split; [by right|done]|].
    destruct (M6 _ _ Hx) as (c & ? & ?). eauto.
Qed.
End history.
