(* ===== verification/BroadcastOrder.v ===== *)
(** * BroadcastOrder: the order in which a session gets broadcasts

    For one session: the messages it has accepted, then those posted to it, all
    belong to calls of [broadcast] that named it, and those of one thread are in
    the order of its calls. *)

From stdpp Require Import sorting.
From S2P Require Import Prelude Types Header ServerSession SessionManager SessionManagerFacts.
From S2P Require Import Listener ListenerFacts ServerNet ServerNetFacts BroadcastCount BroadcastHistory.

#[local] Opaque config.queue_send_max.

(** The sessions a thread is about to post to. *)
Definition targets (b : broadcasting) : list nat :=
  match b with bt_post_plain _ os _ | bt_post_ssl _ os => os | _ => [] end.

(** The messages posted to session [o]. *)
Definition posts_for (o : nat) (posts : list (nat * nat)) : list nat :=
  omap (λ x, if decide (x.1 = o) then Some x.2 else None) posts.

Lemma posts_for_delete o i p posts :
  list_find (λ x, x.1 = o) posts = Some (i, (o, p)) →
  posts_for o posts = p :: posts_for o (delete i posts).
Proof.
  unfold posts_for. revert i. induction posts as [|x posts IH]; intros i; [done|]. simpl.
  destruct (decide (x.1 = o)) as [Hx|Hx]; simpl.
  - by intros [= <- ->].
  - intros ([i' y] & Hf & E)%fmap_Some. simplify_eq/=. rewrite decide_False by done. by apply IH.
Qed.

Lemma posts_for_other o o' i p posts :
  posts !! i = Some (o', p) → o' ≠ o → posts_for o (delete i posts) = posts_for o posts.
Proof.
  unfold posts_for. revert i. induction posts as [|x posts IH]; intros [|i] Hi Hne; simplify_eq/=.
  - by rewrite decide_False.
  - by rewrite IH.
Qed.

Lemma StronglySorted_mono {A} (R R' : A → A → Prop) l :
  (∀ x y, R x y → R' x y) → StronglySorted R l → StronglySorted R' l.
Proof. intros HR. induction 1; constructor; [done|]. eapply Forall_impl; eauto. Qed.

Lemma Forall_sublist {A} (P : A → Prop) l l' : sublist l l' → Forall P l' → Forall P l.
Proof. rewrite !Forall_forall. intros Hl HP x Hx. by eapply HP, elem_of_sublist. Qed.

Lemma StronglySorted_sublist {A} (R : A → A → Prop) l l' :
  sublist l l' → StronglySorted R l' → StronglySorted R l.
Proof.
  induction 1 as [|x l l' Hl IH|x l l' _ IH]; intros Hs; [done|..]; apply StronglySorted_cons in Hs as [Hx Hs]; [|auto].
  apply StronglySorted_cons. split; [|auto].
  eapply Forall_sublist; eauto.
Qed.

Section order.
Context (server_cfg : server_config) (has_on_listen has_ssl_ctx is_open : bool) (T : nat).
Context (o : nat) (sid : Z).
Implicit Types (bcs : list broadcast_call) (tg : tags) (p q : nat) (y : server_sys) (b : broadcasting)
  (ds : list data_push) (posts : list (nat * nat)).
Abbreviation effects := (server_effects server_cfg has_on_listen has_ssl_ctx is_open).

(** The message is of a call that named the session. *)
Definition to_us bcs tg p : Prop :=
  ∃ c, call_of bcs tg p = Some c ∧ names sid (bc_session_ids c) = true.

(** If of one thread, in the order they were made. *)
Definition in_turn bcs tg p q : Prop :=
  ∃ cp cq, call_of bcs tg p = Some cp ∧ call_of bcs tg q = Some cq ∧
    (bc_thread cp = bc_thread cq → (p ≤ q)%nat).

Definition stream ds posts : list nat := omap push_shared ds ++ posts_for o posts.

(** [ds]: what the session accepted for writing. *)
Record sent bcs tg y posts ds : Prop := {
  se_targets th b p :
    threads y !! th = Some b → thread_holds p b = true → o ∈ targets b → to_us bcs tg p;
  se_stream : Forall (to_us bcs tg) (stream ds posts);
  se_sorted : StronglySorted (in_turn bcs tg) (stream ds posts);
  se_says : Forall (λ d, ∀ p, push_shared d = Some p →
    ∃ c, call_of bcs tg p = Some c ∧ d = message_of c p) ds }.

Lemma to_us_grows bcs tg bcs' tg' p : grows bcs tg bcs' tg' → to_us bcs tg p → to_us bcs' tg' p.
Proof. intros Hg (c & ?%Hg & ?). by exists c. Qed.

Lemma in_turn_grows bcs tg bcs' tg' p q :
  grows bcs tg bcs' tg' → in_turn bcs tg p q → in_turn bcs' tg' p q.
Proof. intros Hg (cp & cq & ?%Hg & ?%Hg & ?). by exists cp, cq. Qed.

Lemma stream_snoc ds posts o' q :
  stream ds (posts ++ [(o', q)]) = stream ds posts ++ (if decide (o' = o) then [q] else []).
Proof. unfold stream, posts_for. rewrite omap_app, (assoc_L (++)). simpl. by case_decide. Qed.

(** What the session accepted and what is posted to it stay in line. *)
Lemma sent_kept bcs tg y posts ds bcs' tg' y' posts' ds' new :
  grows bcs tg bcs' tg' →
  (∀ th b' p, threads y' !! th = Some b' → thread_holds p b' = true → o ∈ targets b' →
     (∃ b, threads y !! th = Some b ∧ thread_holds p b = true ∧ o ∈ targets b) ∨ to_us bcs' tg' p) →
  sublist (stream ds' posts') (stream ds posts) → ds' = ds ++ new →
  Forall (λ d, ∀ p, push_shared d = Some p → ∃ c, call_of bcs' tg' p = Some c ∧ d = message_of c p) new →
  sent bcs tg y posts ds → sent bcs' tg' y' posts' ds'.
Proof.
  intros Hg Ht Hsub -> Hnew [S1 S2 S3 S4]. split.
  - intros th b' p Hb Hp Ho. destruct (Ht _ _ _ Hb Hp Ho) as [(b & Hb0 & Hp0 & Ho0)|?]; [|done].
    eapply to_us_grows, S1; eauto.
  - eapply Forall_sublist; [exact Hsub|]. eapply Forall_impl; [exact S2|]. intros p. by apply to_us_grows.
  - eapply StronglySorted_sublist; [exact Hsub|]. eapply StronglySorted_mono, S3. intros p q. by apply in_turn_grows.
  - apply Forall_app. split; [|done]. eapply Forall_impl; [exact S4|].
    intros d Hd p (c & ?%Hg & ?)%Hd. eauto.
Qed.

(** The message a thread posts is the last one it made. *)
Lemma sent_posted bcs tg y posts ds o' q c :
  call_of bcs tg q = Some c → (o' = o → names sid (bc_session_ids c) = true) →
  (∀ p cp, call_of bcs tg p = Some cp → bc_thread cp = bc_thread c → (p ≤ q)%nat) →
  sent bcs tg y posts ds → sent bcs tg y (posts ++ [(o', q)]) ds.
Proof.
  intros Hc Hn Hlast [S1 S2 S3 S4]. split; [done| | |done]; rewrite stream_snoc; case_decide as Ho;
    rewrite ?app_nil_r; try done.
  - apply Forall_app. split; [done|]. constructor; [|done]. exists c. auto.
  - apply StronglySorted_app_2; [|done|by repeat constructor].
    intros p q' Hp ->%list_elem_of_singleton. rewrite Forall_forall in S2.
    destruct (S2 p Hp) as (cp & Hcp & _). exists cp, c. eauto.
Qed.
End order.

(** ** The events *)

Section events.
Context (server_cfg : server_config) (has_on_listen has_ssl_ctx is_open : bool) (T : nat).
Implicit Types (bcs : list broadcast_call) (tg : tags) (p q th o : nat) (sid : Z) (y : server_sys)
  (b : broadcasting) (ds : list data_push) (posts : list (nat * nat)).
Abbreviation handle := (server_handle server_cfg has_on_listen has_ssl_ctx is_open).
Abbreviation effects := (server_effects server_cfg has_on_listen has_ssl_ctx is_open).

Lemma advance_holds y b b' ps :
  advance y b b' ps →
  (∀ p, thread_holds p b' = thread_holds p b) ∧ (∀ ids, ids_left b' = Some ids → ids_left b = Some ids) ∧
  creates b' = false.
Proof. by destruct 1. Qed.

Lemma advance_posts y b b' ps :
  advance y b b' ps → ps = [] ∨ ∃ o q, ps = [(o, q)] ∧ o ∈ targets b ∧ thread_holds q b = true.
Proof.
  destruct 1 as [|q o os ids ps [-> | ->]| | |q o os ps [-> | ->]|]; auto; right; exists o, q;
    (split; [done|]; split; [by left|by apply bool_decide_eq_true_2]).
Qed.

(** A copied table holds the sessions that were named. *)
Lemma copied_names o sid (m : gmap Z nat) ids :
  (∀ id, m !! id = Some o → id = sid) → o ∈ (map_to_list (copy_sessions m ids)).*2 → names sid ids = true.
Proof. intros Hm (id & Hid & Hn)%elem_of_copied. apply Hm in Hid as ->. by apply names_elem. Qed.

Lemma advance_targets y b b' ps o sid :
  listed o sid (wld y) → advance y b b' ps → o ∈ targets b' →
  o ∈ targets b ∨ ∃ ids, ids_left b = Some ids ∧ names sid ids = true.
Proof.
  intros [Lp Ls]. destruct 1 as [q ids|q o' os ids ps _| |q ids|q o' os ps _|]; simpl; intros Ho;
    try (by apply not_elem_of_nil in Ho); try (by left; right).
  - right. exists ids. split; [done|]. eapply copied_names; [|exact Ho]. intros id Hid. by apply Lp in Hid as [? _].
  - right. exists ids. split; [done|]. eapply copied_names; [|exact Ho]. intros id Hid. by apply Ls in Hid as [? _].
Qed.

(** A step of a thread. *)
Lemma thread_in_line bcs tg y th y' :
  server_inv T y → handle y (sv_thread th) = Some y' → made_inv bcs tg y →
  ∃ tg', made_inv bcs tg' y' ∧ ∀ o sid posts ds,
    listed o sid (wld y) → sent o sid bcs tg y posts ds →
    sent o sid bcs tg' y' (posts ++ posts_of (effects y (sv_thread th))) ds.
Proof.
  intros Hi Hh Hm.
  destruct (thread_goes _ _ _ _ T y th y' Hi Hh)
    as [call_id sb ids Hb Ht Hf Hp ->|b b' ps Hb Hadv Ht Hsame ->|q Hb Ht Hsame ->].
  - destruct (made_new T bcs tg y y' th call_id sb ids Hi Hb Ht Hf Hp Hm) as (tg' & Hg & Hm').
    exists tg'. split; [done|]. intros o sid posts ds _ Hs. rewrite app_nil_r.
    eapply (sent_kept o sid); [exact Hg| |done|by rewrite app_nil_r|done|exact Hs].
    intros th' b' p. rewrite Ht, lookup_insert_Some. intros [[_ <-]|[_ ?]]; [|eauto]. by intros _ ?%not_elem_of_nil.
  - destruct (advance_holds _ _ _ _ Hadv) as (Hholds & Hids & Hcr).
    exists tg. split.
    { eapply made_kept; [done| |done]. intros th' b''. rewrite Ht, lookup_insert_Some.
      intros [[<- <-]|[_ ?]]; [|eauto 6]. exists b. rewrite Hcr. split; [done|]. split; [|done]. intros p. by rewrite Hholds. }
    intros o sid posts ds Hl Hs.
    assert (sent o sid bcs tg y' posts ds) as Hs'.
    { eapply (sent_kept o sid); [by intros ? ?| |done|by rewrite app_nil_r|done|exact Hs].
      intros th' b'' p. rewrite Ht, lookup_insert_Some. intros [[<- <-]|[_ ?]]; [|eauto]. rewrite Hholds. intros Hp Ho.
      destruct (advance_targets _ _ _ _ _ _ Hl Hadv Ho) as [?|(ids & Hi1 & Hn)]; [eauto|right].
      destruct (mi_thread _ _ _ Hm _ _ _ Hb Hp) as (c & Hc & _ & Hci & _). exists c. split; [done|].
      by rewrite (Hci _ Hi1). }
    destruct (advance_posts _ _ _ _ Hadv) as [-> |(o' & q & -> & Ho & Hq)]; [by rewrite app_nil_r|].
    destruct (mi_thread _ _ _ Hm _ _ _ Hb Hq) as (c & Hc & Hth & _ & Hlast).
    eapply sent_posted; [exact Hc| | |exact Hs'].
    + intros ->. destruct (se_targets _ _ _ _ _ _ _ Hs _ _ _ Hb Hq Ho) as (c' & Hc' & ?). by simplify_eq.
    + intros p cp Hcp Heq. eapply Hlast; [done|congruence].
  - exists tg. split.
    { eapply made_kept; [done| |done]. intros th' b'. rewrite Ht. intros [_ ?]%lookup_delete_Some. eauto 6. }
    intros o sid posts ds _ Hs. rewrite app_nil_r.
    eapply (sent_kept o sid); [by intros ? ?| |done|by rewrite app_nil_r|done|exact Hs].
    intros th' b' p. rewrite Ht. intros [_ ?]%lookup_delete_Some. eauto.
Qed.

(** An event that broadcasts nothing. *)
Lemma quiet_in_line bcs tg y y' :
  threads y' = threads y → same_messages y y' → made_inv bcs tg y →
  made_inv bcs tg y' ∧ ∀ o sid posts ds, sent o sid bcs tg y posts ds → sent o sid bcs tg y' posts ds.
Proof.
  intros Ht Hs Hm. split.
  - eapply made_kept; [done| |done]. intros th b. rewrite Ht. eauto 6.
  - intros o sid posts ds [S1 S2 S3 S4]. split; try done. by rewrite Ht.
Qed.

(** A call. *)
Lemma call_messages y th call_id sb ids y' :
  handle y (sv_broadcast th call_id sb ids) = Some y' →
  same_messages y y' ∧ (threads y' = threads y ∨ threads y' = <[th := bt_create call_id sb ids]> (threads y)).
Proof.
  assert (∃ ok, broadcast_check (wld y) = Done ok (wld y) []) as [ok E].
  { unfold broadcast_check. run_act. case_decide; eauto. }
  simpl. unfold manage. rewrite E. intros [= <-].
  destruct ok; (split; [split; [done|by apply same_data_refl]|]); [by right|by left].
Qed.

Lemma call_in_line bcs tg y th call_id sb ids y' :
  server_enabled T y (sv_broadcast th call_id sb ids) = true →
  handle y (sv_broadcast th call_id sb ids) = Some y' → made_inv bcs tg y →
  ∃ tg', made_inv (bcs ++ [mk_broadcast_call th call_id sb ids]) tg' y' ∧ ∀ o sid posts ds,
    sent o sid bcs tg y posts ds →
    sent o sid (bcs ++ [mk_broadcast_call th call_id sb ids]) tg' y' posts ds.
Proof.
  intros [_ Hn%bool_decide_eq_true]%andb_true_iff [Hs Ht]%call_messages Hm.
  destruct (made_called bcs tg y y' th call_id sb ids Hs Hn Ht Hm) as (tg' & Hg & Hm').
  exists tg'. split; [done|]. intros o sid posts ds Hsent.
  eapply (sent_kept o sid); [exact Hg| |done|by rewrite app_nil_r|done|exact Hsent].
  intros th' b' p Hb' Hp Ho. destruct Ht as [E|E]; rewrite E in Hb'; [left; by eauto|].
  apply lookup_insert_Some in Hb' as [[_ <-]|[_ ?]]; [by apply not_elem_of_nil in Ho|]. left. eauto.
Qed.

(** What a session makes the server do. *)
Lemma settle_messages y e y' : settles e → handle y e = Some y' → same_messages y y'.
Proof.
  intros He Hh. split; [|by apply (settle_step server_cfg has_on_listen has_ssl_ctx is_open 0 y e y' He Hh)].
  destruct e as [| |o' id|o' est id|p| |]; try done; simpl in Hh.
  - destruct (alive (wld y) !! o') as [st|]; [|done]. unfold manage, add_session, act_modify in Hh.
    injection Hh as <-. by destruct st.
  - unfold manage in Hh. destruct (destroy_session o' est id (wld y)) as [[] w' es| |] eqn:E; try done.
    injection Hh as <-. unfold destroy_session, remove_session in E. run_act. destruct (alive (wld y) !! o') as [st|]; [|done].
    destruct est, st; run_act; repeat (case_decide; run_act); done.
  - unfold manage in Hh. destruct (push_release p (wld y)) as [[] w' es| |] eqn:E; try done.
    injection Hh as <-. by apply (release_same _ _ _ _ E).
Qed.

Lemma settle_all_messages es y y' :
  Forall settles es → serve server_cfg has_on_listen has_ssl_ctx is_open y es = Some y' → same_messages y y'.
Proof.
  intros Hes. revert y. induction Hes as [|e es He _ IH]; intros y Hs; simpl in Hs.
  { injection Hs as <-. split; [done|by apply same_data_refl]. }
  destruct (handle y e) as [y1|] eqn:E; [|done]. destruct (settle_messages _ _ _ He E) as [F1 D1].
  destruct (IH _ Hs) as [F2 D2]. split; [congruence|].
  intros p x Hp. destruct (D2 p x Hp) as (x' & Hx' & ->). apply D1 in Hx' as (x'' & ? & ->). eauto.
Qed.

(** The listener. *)
Lemma listener_messages y e y' :
  match e with sv_accept _ _ _ _ | sv_detect _ _ => True | _ => False end → handle y e = Some y' →
  threads y' = threads y ∧ same_messages y y' ∧ posts_of (effects y e) = [].
Proof.
  destruct e as [ec address ep_ec listen_ok|ec result| | | | |]; try done; intros _ Hh.
  - destruct (on_accept_makes server_cfg has_on_listen has_ssl_ctx is_open ec address ep_ec listen_ok (wld y))
      as (w' & es & E & Hp & Hw).
    simpl in Hh. unfold manage in Hh. simpl in Hh. rewrite E in Hh. injection Hh as <-. split; [done|].
    split; [|simpl; unfold effects_of; by rewrite E].
    destruct Hw as [[-> _]|[-> _]]; (split; [done|by apply same_data_refl]).
  - destruct (on_detect_makes server_cfg ec result (wld y)) as (w' & es & E & Hp & Hw).
    simpl in Hh. unfold manage in Hh. simpl in Hh. rewrite E in Hh. injection Hh as <-. split; [done|].
    split; [|simpl; unfold effects_of; by rewrite E].
    destruct Hw as [[-> _]|(st & -> & _)]; (split; [done|by apply same_data_refl]).
Qed.
End events.
