(* ===== verification/ServerNetProps.v ===== *)
(** * ServerNetProps: what holds of the server with all of its sessions

    Its runs are runs of Listener and of every session, and a broadcast message
    lives exactly as long as somebody has to send it. *)

From S2P Require Import Prelude Types Header ServerSession ServerSystem ServerSystemFacts ServerProps.
From S2P Require Import SessionManager SessionManagerFacts Listener ListenerFacts ServerNet ServerNetFacts.

#[local] Opaque config.queue_send_max.

Section props.
Context {B : Type} `{FlatBuffer B, !FlatBufferLaws B} {Req Res U : Type}.
Context (host : byte_order) (manager : manager_handlers (B := B) (Req := Req) (Res := Res) (U := U)).
Context (srv_timeout : server_timeout) (server_cfg : server_config) (session_cfg : session_config).
Context (req0 : Req) (res0 : Res).
Context (has_on_listen has_ssl_ctx is_open : bool) (T : nat).
Abbreviation server_net := (server_net (B := B) (Req := Req) (Res := Res)).
Abbreviation net_event := (net_event (B := B) (Req := Req) (U := U)).
Abbreviation server_runs := (server_steps server_cfg has_on_listen has_ssl_ctx is_open T).
Abbreviation handle := (net_handle host manager srv_timeout server_cfg session_cfg req0 res0
  has_on_listen has_ssl_ctx is_open).
Abbreviation enabled := (net_enabled (Req := Req) (U := U) T).
Abbreviation runs := (net_steps host manager srv_timeout server_cfg session_cfg req0 res0
  has_on_listen has_ssl_ctx is_open T).
Implicit Types (n : server_net).

(** ** Properties *)

(** C26. The whole server is its parts: in any run of the server with any number
    of sessions and of broadcasting threads, the manager, the listener and the
    threads do what Listener does on its own, from its own start, and every
    session has done what a session of ServerSystem does on its own; so what is
    proved of each part alone holds of all of them together. *)
Theorem server_parts n es n' :
  net_init is_open = Some n → runs n es n' →
  server_sys_init is_open = Some (net_sys n) ∧
  (∃ evs, server_runs (net_sys n) evs (net_sys n')) ∧
  ∀ o t, net_sessions n' !! o = Some t →
    ∃ is_ssl s0 t0 evs, new_session_like s0 ∧ session_sys_init srv_timeout is_ssl s0 = Some t0 ∧
      session_steps host manager srv_timeout t0 evs t.
Proof.
  intros Hi Hr. split.
  { unfold net_init in Hi. destruct (server_sys_init is_open); [|done]. by injection Hi as <-. }
  pose proof (net_steps_inv host manager srv_timeout server_cfg session_cfg req0 res0 has_on_listen has_ssl_ctx
    is_open T _ _ _ Hi Hr) as [Hinv _].
  split; [|intros o t Ht; by eapply n_history].
  induction Hr as [n|n es n1 e n2 Hr IH [He Hh]]; [exists []; constructor|].
  pose proof (net_steps_inv host manager srv_timeout server_cfg session_cfg req0 res0 has_on_listen has_ssl_ctx
    is_open T _ _ _ Hi Hr) as [Hinv1 _].
  destruct (IH Hi Hinv1) as [evs Hrun].
  destruct (net_step host manager srv_timeout server_cfg session_cfg req0 res0 has_on_listen has_ssl_ctx is_open T
    n1 e Hinv1 He) as (n2' & evs' & Hh' & _ & Hrun').
  rewrite Hh in Hh'. injection Hh' as <-. exists (evs ++ evs'). by eapply steps_app.
Qed.

(** C23. Who owns a broadcast message.  However accepting, the handlers of the
    sessions, the broadcasting threads and the ends of sessions interleave,
    nothing is undefined; the session objects are those the manager counts; a
    broadcast message has exactly as many owners as there are threads inside
    its broadcast, closures posted for it and entries for it in the queues, and
    it exists exactly as long as there is one; the entries of the queues are
    that message, and [m_msg_queued] is the number of those that exist. *)
Theorem broadcast_owners n es n' :
  net_init is_open = Some n → runs n es n' →
  safe enabled handle n' ∧
  (∀ o, is_Some (alive (wld (net_sys n')) !! o) ↔ is_Some (net_sessions n' !! o)) ∧
  (∀ p x, pushes (wld (net_sys n')) !! p = Some x → push_refs x = held p n') ∧
  (∀ p, is_Some (pushes (wld (net_sys n')) !! p) ↔ (0 < held p n')%nat) ∧
  (∀ o t d p, net_sessions n' !! o = Some t → d ∈ m_queue (ses t) → push_shared d = Some p →
     ∃ x, pushes (wld (net_sys n')) !! p = Some x ∧ push_data x = d) ∧
  m_msg_queued (wld (net_sys n')) = Z.of_nat (size (pushes (wld (net_sys n')))).
Proof.
  intros Hi Hr.
  pose proof (net_steps_inv host manager srv_timeout server_cfg session_cfg req0 res0 has_on_listen has_ssl_ctx
    is_open T _ _ _ Hi Hr) as [[I1 I2 I3 I4 I5 I6 I7 I8] Hs].
  split; [done|]. split; [done|]. split; [|split; [|split; [done|apply (v_manager _ _ I1)]]].
  - intros p x Hx. rewrite <-I4. unfold refs. by rewrite Hx.
  - intros p. rewrite <-I4. unfold refs. destruct (pushes (wld (net_sys n')) !! p) as [x|] eqn:E.
    + split; [|by eexists]. intros _. by eapply (v_manager _ _ I1).
    + split; [by intros []|lia].
Qed.
End props.

(** ** A broadcast that one session has queued *)

Module NetDemo.
Definition net : Type := server_net (B := list byte) (Req := nat) (Res := unit).
Definition event : Type := net_event (B := list byte) (Req := nat) (U := unit).
Definition started : net := default (mk_server_net ListenerDemo.blank ∅ []) (net_init true).
Definition run_net (es : list event) : option net :=
  net_run little_endian Demo.manager Demo.timeout (ListenerDemo.server_cfg 2) Demo.cfg 0%nat tt
    false false true 2 started es.
Definition queued : list event :=
  [ne_accept ec_success "10.0.0.1" false (λ _, true) 77;
   ne_session 0 (ev_http_request tt ec_success 1%nat []); ne_session 0 (ev_accept 0 ec_success);
   ne_broadcast 1 5 [x61] None] ++ replicate 7 (ne_thread 1) ++ [ne_post 0].
Definition written : list event := queued ++ [ne_session 0 (ev_write 1 ec_success)].
Definition reached (es : list event) : net := default started (run_net es).
End NetDemo.

Lemma server_parts_witness :
  let n := NetDemo.reached NetDemo.queued in
  is_Some (net_sessions n !! 0%nat) ∧
  server_sys_init true = Some (net_sys NetDemo.started) ∧
  (∃ evs, server_steps (ListenerDemo.server_cfg 2) false false true 2 (net_sys NetDemo.started) evs (net_sys n)) ∧
  ∀ o t, net_sessions n !! o = Some t →
    ∃ is_ssl s0 t0 evs, new_session_like s0 ∧ session_sys_init Demo.timeout is_ssl s0 = Some t0 ∧
      session_steps little_endian Demo.manager Demo.timeout t0 evs t.
Proof.
  split; [vm_compute; by eexists|].
  apply (server_parts little_endian Demo.manager Demo.timeout (ListenerDemo.server_cfg 2) Demo.cfg 0%nat tt
    false false true 2 NetDemo.started NetDemo.queued).
  - reflexivity.
  - apply run_steps. vm_compute. reflexivity.
Defined.

Lemma broadcast_owners_witness :
  let n := NetDemo.reached NetDemo.queued in
  held 0 n = 1%nat ∧ queue_refs 0 (net_sessions n) = 1%nat ∧ m_msg_queued (wld (net_sys n)) = 1 ∧
  m_msg_queued (wld (net_sys (NetDemo.reached NetDemo.written))) = 0 ∧
  (∀ p, is_Some (pushes (wld (net_sys n)) !! p) ↔ (0 < held p n)%nat).
Proof.
  split; [vm_compute; reflexivity|]. split; [vm_compute; reflexivity|]. split; [vm_compute; reflexivity|].
  split; [vm_compute; reflexivity|].
  apply (broadcast_owners little_endian Demo.manager Demo.timeout (ListenerDemo.server_cfg 2) Demo.cfg 0%nat tt
    false false true 2 NetDemo.started NetDemo.queued).
  - reflexivity.
  - apply run_steps. vm_compute. reflexivity.
Defined.

(** ** A bound function that changes [session_context::id]

    The member is public and not const.  The destructor removes the session that
    is registered under the changed id. *)

Module RenameDemo.
Definition rename : bound_function (B := list byte) (Req := nat) (Res := unit) (U := unit) :=
  λ _ _, [ctx_set_id 78].
Definition manager : manager_handlers (B := list byte) (Req := nat) (Res := unit) (U := unit) :=
  mk_manager_handlers {[9 := Some rename]} None true.
Definition up (o : nat) (id : Z) : list NetDemo.event :=
  [ne_accept ec_success "10.0.0.1" false (λ _, true) id;
   ne_session o (ev_http_request tt ec_success 1%nat []); ne_session o (ev_accept 0 ec_success)].
Definition call : list byte := header_bytes little_endian (new_io_header 9 1).
Definition events : list NetDemo.event :=
  up 0 77 ++ up 1 78 ++
  [ne_session 0 (ev_read 0 tt ec_success call); ne_session 0 (ev_read 0 tt ec_failure []);
   ne_session 0 (ev_timer 0 false ec_success); ne_session 0 (ev_close ec_success); ne_destroy 0].
Definition reached : NetDemo.net := default NetDemo.started
  (net_run little_endian manager Demo.timeout (ListenerDemo.server_cfg 4) Demo.cfg 0%nat tt
    false false true 2 NetDemo.started events).
End RenameDemo.

(** The session with id 78 is there and established, and in no table; the one
    that is gone still is. *)
Lemma renamed_session_unlists_another :
  let n := RenameDemo.reached in
  (λ t, m_established (ses t)) <$> net_sessions n !! 1%nat = Some true ∧
  net_sessions n !! 0%nat = None ∧
  m_plain_sessions (wld (net_sys n)) !! 78 = None ∧ m_plain_sessions (wld (net_sys n)) !! 77 = Some 0%nat.
Proof. vm_compute. done. Qed.
