(* ===== verification/Server.v ===== *)
(** * Server: [server] of include/radrpc/server.hpp

    Starting and stopping the workers that run the io context, and binding
    handlers.  Any number of user threads call [start()], [async_start()] and
    [stop()]; what they do between two blocking points is one step, under the
    mutex where the code holds one.  [io_context::run()] returns only when the
    context is stopped: the pending wait for signals keeps it busy. *)

From S2P Require Import Prelude Types.

Section server.
(** [F]: the user's function objects. *)
Context {F : Type} (m_server_cfg : server_config).

(** The handlers kept by the session manager. *)
Record handlers := mk_handlers {
  bound : gmap Z F;
  on_listen : option F;
  on_accept : option F;
  on_disconnect : option F }.

(** A worker thread: in [m_io_ctx.run()]; returned from it; the last one to
    return, about to notify; finished. *)
Inductive worker : Set := wk_running | wk_returned | wk_last | wk_done.

(** A user thread inside the blocking [run()] of [start()], before the lock
    of [stop()], or waiting in [stop()]. *)
Inductive caller : Set := in_start | at_stop | in_stop.

Record server := mk_server {
  m_running : bool;
  m_async_start : bool;
  m_workers_done : Z;
  m_workers : list worker;
  launched : Z;                    (* [workers], as the worker threads captured it *)
  io_stopped : bool;
  m_mtx : option nat;              (* the thread that owns the mutex *)
  callers : gmap nat caller;
  stopped_handler : bool;          (* the [io_stopped_handler] of the workers *)
  registered : handlers }.

Inductive run_effect : Set :=
  | eff_spawn (n : Z)              (* that many threads *)
  | eff_notify_all
  | eff_io_stopped_handler.

Abbreviation vact := (act server run_effect).

Definition set_m_running (x : bool) (s : server) : server :=
  mk_server x (m_async_start s) (m_workers_done s) (m_workers s) (launched s) (io_stopped s)
    (m_mtx s) (callers s) (stopped_handler s) (registered s).
Definition set_m_async_start (x : bool) (s : server) : server :=
  mk_server (m_running s) x (m_workers_done s) (m_workers s) (launched s) (io_stopped s)
    (m_mtx s) (callers s) (stopped_handler s) (registered s).
Definition set_m_workers_done (x : Z) (s : server) : server :=
  mk_server (m_running s) (m_async_start s) x (m_workers s) (launched s) (io_stopped s)
    (m_mtx s) (callers s) (stopped_handler s) (registered s).
Definition set_m_workers (x : list worker) (s : server) : server :=
  mk_server (m_running s) (m_async_start s) (m_workers_done s) x (launched s) (io_stopped s)
    (m_mtx s) (callers s) (stopped_handler s) (registered s).
Definition set_launched (x : Z) (s : server) : server :=
  mk_server (m_running s) (m_async_start s) (m_workers_done s) (m_workers s) x (io_stopped s)
    (m_mtx s) (callers s) (stopped_handler s) (registered s).
Definition set_io_stopped (x : bool) (s : server) : server :=
  mk_server (m_running s) (m_async_start s) (m_workers_done s) (m_workers s) (launched s) x
    (m_mtx s) (callers s) (stopped_handler s) (registered s).
Definition set_m_mtx (x : option nat) (s : server) : server :=
  mk_server (m_running s) (m_async_start s) (m_workers_done s) (m_workers s) (launched s)
    (io_stopped s) x (callers s) (stopped_handler s) (registered s).
Definition set_callers (x : gmap nat caller) (s : server) : server :=
  mk_server (m_running s) (m_async_start s) (m_workers_done s) (m_workers s) (launched s)
    (io_stopped s) (m_mtx s) x (stopped_handler s) (registered s).
Definition set_stopped_handler (x : bool) (s : server) : server :=
  mk_server (m_running s) (m_async_start s) (m_workers_done s) (m_workers s) (launched s)
    (io_stopped s) (m_mtx s) (callers s) x (registered s).
Definition set_registered (x : handlers) (s : server) : server :=
  mk_server (m_running s) (m_async_start s) (m_workers_done s) (m_workers s) (launched s)
    (io_stopped s) (m_mtx s) (callers s) (stopped_handler s) x.

(** The constructor. *)
Definition new_server : server :=
  mk_server false false 0 [] 0 false None ∅ false (mk_handlers ∅ None None None).

(** ** Starting *)

(** [m_async_start ? m_server_cfg.workers : m_server_cfg.workers - 1],
    unsigned. *)
Definition workers (async : bool) : Z :=
  if async then sc_workers m_server_cfg else u32 (sc_workers m_server_cfg - 1).

Definition run_async_workers (io_stopped_handler : bool) : vact unit :=
  do! act_modify (λ s, if io_stopped s then set_io_stopped false s else s) in
  do! act_modify (set_m_workers []) in
  do! act_modify (set_m_workers_done 0) in
  let! s := act_get in
  let n := workers (m_async_start s) in
  do! act_modify (λ s, set_stopped_handler io_stopped_handler
        (set_launched n (set_m_workers (replicate (Z.to_nat n) wk_running) s))) in
  act_emit (eff_spawn n).

(** [start()] up to its blocking [run()]. *)
Definition start (th : nat) : vact unit :=
  let! s := act_get in
  if m_running s then act_ret tt
  else
    do! act_modify (set_m_running true) in
    do! act_modify (set_m_async_start false) in
    do! run_async_workers false in
    act_modify (λ s, set_callers (<[th := in_start]> (callers s)) s).

Definition async_start (io_stopped_handler : bool) : vact unit :=
  let! s := act_get in
  if m_running s then act_ret tt
  else
    do! act_modify (set_m_running true) in
    do! act_modify (set_m_async_start true) in
    run_async_workers io_stopped_handler.

(** The body of a worker, step by step. *)
Definition worker_step (i : nat) : vact unit :=
  let! s := act_get in
  match m_workers s !! i with
  | Some wk_running => act_modify (set_m_workers (<[i := wk_returned]> (m_workers s)))
  | Some wk_returned =>
      do! act_modify (λ s, set_m_workers_done (u32 (m_workers_done s + 1)) s) in
      let! s := act_get in
      act_modify (set_m_workers (<[i := if m_workers_done s =? launched s
                                        then wk_last else wk_done]> (m_workers s)))
  | Some wk_last =>
      do! act_emit eff_notify_all in
      do! act_when (stopped_handler s) (act_emit eff_io_stopped_handler) in
      act_modify (set_m_workers (<[i := wk_done]> (m_workers s)))
  | _ => act_undef
  end.

(** ** Stopping *)

(** [on_signal], and [stop()] in a thread that runs the io context. *)
Definition stop_io : vact unit := act_modify (set_io_stopped true).

(** [stop()] in another thread: before the lock, up to the wait, after it. *)
Definition stop_begin (th : nat) : vact unit :=
  do! act_modify (set_io_stopped true) in
  act_modify (λ s, set_callers (<[th := at_stop]> (callers s)) s).

Definition stop_lock (th : nat) : vact unit :=
  let! s := act_get in
  if negb (m_running s) then act_modify (set_callers (delete th (callers s)))
  else
    do! act_modify (set_m_mtx (Some th)) in
    act_modify (λ s, set_callers (<[th := in_stop]> (callers s)) s).

(** The predicate of the wait. *)
Definition stop_ready (s : server) : bool :=
  bool_decide (workers (m_async_start s) = m_workers_done s).

Definition all_done (s : server) : bool := forallb (λ w, match w with wk_done => true | _ => false end) (m_workers s).

Definition stop_finish (th : nat) : vact unit :=
  do! act_modify (set_m_running false) in
  do! act_modify (set_m_mtx None) in
  act_modify (λ s, set_callers (delete th (callers s)) s).

(** ** Binding handlers

    [conns]: what [m_manager->connections()] answers. *)

Definition bind (conns : Z) (bind_id : Z) (handler : F) : vact bool :=
  let! s := act_get in
  if m_running s || negb (conns =? 0) then act_ret false
  else
    let r := registered s in
    if decide (is_Some (bound r !! bind_id)) then
      act_throw "server::bind: already bound"
    else
      do! act_modify (set_registered (mk_handlers (<[bind_id := handler]> (bound r))
            (on_listen r) (on_accept r) (on_disconnect r))) in
      act_ret true.

Definition bind_listen (conns : Z) (handler : F) : vact bool :=
  let! s := act_get in
  if m_running s || negb (conns =? 0) then act_ret false
  else
    let r := registered s in
    do! act_modify (set_registered (mk_handlers (bound r) (Some handler) (on_accept r)
          (on_disconnect r))) in
    act_ret true.

Definition bind_accept (conns : Z) (handler : F) : vact bool :=
  let! s := act_get in
  if m_running s || negb (conns =? 0) then act_ret false
  else
    let r := registered s in
    do! act_modify (set_registered (mk_handlers (bound r) (on_listen r) (Some handler)
          (on_disconnect r))) in
    act_ret true.

Definition bind_disconnect (conns : Z) (handler : F) : vact bool :=
  let! s := act_get in
  if m_running s || negb (conns =? 0) then act_ret false
  else
    let r := registered s in
    do! act_modify (set_registered (mk_handlers (bound r) (on_listen r) (on_accept r)
          (Some handler))) in
    act_ret true.

(** ** The system of threads *)

Inductive thread_event : Type :=
  | te_start (th : nat)
  | te_async_start (io_stopped_handler : bool)
  | te_start_returns (th : nat)
  | te_stop_io
  | te_stop (th : nat)
  | te_stop_lock (th : nat)
  | te_stop_finish (th : nat)
  | te_worker (i : nat)
  | te_bind (conns : Z) (bind_id : Z) (handler : F).

Definition unlocked (s : server) : bool := bool_decide (m_mtx s = None).

Definition caller_is (c : caller) (th : nat) (s : server) : bool :=
  match callers s !! th, c with
  | Some in_start, in_start | Some at_stop, at_stop | Some in_stop, in_stop => true
  | _, _ => false
  end.

Definition worker_can_step (s : server) (i : nat) : bool :=
  match m_workers s !! i with
  | Some wk_running => io_stopped s
  | Some wk_returned | Some wk_last => true
  | _ => false
  end.

(** A worker's last step comes before the join that waits for it. *)
Definition thread_enabled (s : server) (e : thread_event) : bool :=
  match e with
  | te_start th => unlocked s && bool_decide (callers s !! th = None)
  | te_async_start _ | te_bind _ _ _ => unlocked s
  | te_start_returns th => caller_is in_start th s && io_stopped s
  | te_stop_io => true
  | te_stop th => bool_decide (callers s !! th = None)
  | te_stop_lock th => caller_is at_stop th s && unlocked s
  | te_stop_finish th => caller_is in_stop th s && stop_ready s && all_done s
  | te_worker i => worker_can_step s i
  end.

(** The server, with the number of notifications since the last launch
    (ghost). *)
Record thread_sys := mk_thread_sys { srv : server; notified : nat }.

Definition count_notified (n : nat) (e : run_effect) : nat :=
  match e with eff_spawn _ => 0 | eff_notify_all => S n | eff_io_stopped_handler => n end.

Definition perform {A} (m : vact A) (t : thread_sys) : option thread_sys :=
  match m (srv t) with
  | Done _ s es => Some (mk_thread_sys s (foldl count_notified (notified t) es))
  | Thrown _ s es => Some (mk_thread_sys s (foldl count_notified (notified t) es))
  | Undefined => None
  end.

Definition start_returns (th : nat) : vact unit :=
  act_modify (λ s, set_callers (delete th (callers s)) s).

(** What [bind] throws goes to its caller. *)
Definition thread_handle (t : thread_sys) (e : thread_event) : option thread_sys :=
  match e with
  | te_start th => perform (start th) t
  | te_async_start h => perform (async_start h) t
  | te_start_returns th => perform (start_returns th) t
  | te_stop_io => perform stop_io t
  | te_stop th => perform (stop_begin th) t
  | te_stop_lock th => perform (stop_lock th) t
  | te_stop_finish th => perform (stop_finish th) t
  | te_worker i => perform (worker_step i) t
  | te_bind conns i h => perform (bind conns i h) t
  end.

Definition threads_enabled (t : thread_sys) (e : thread_event) : bool :=
  thread_enabled (srv t) e.

Definition threads_init : thread_sys := mk_thread_sys new_server 0.
Definition thread_steps := steps threads_enabled thread_handle.
Definition thread_run := run threads_enabled thread_handle.

(** The whole of [stop()] in thread [th], where no other user thread is at work
    in the server: [ws1] and [ws2] are the workers that step before the lock and
    during the wait.  [in_io]: the thread runs the io context. *)
Definition stop (in_io : bool) (th : nat) (ws1 ws2 : list nat) (t : thread_sys) : option thread_sys :=
  if in_io then thread_run t [te_stop_io]
  else
    t ← thread_run t (te_stop th :: (te_worker <$> ws1) ++ [te_stop_lock th]);
    match callers (srv t) !! th with
    | None => Some t            (* [!m_running] *)
    | Some _ => thread_run t ((te_worker <$> ws2) ++ [te_stop_finish th])
    end.
End server.
