(* ===== verification/ServerFacts.v ===== *)
(** * ServerFacts: starting, stopping and binding

    The workers of a server leave together and say so once, a stop whose io
    context stays stopped completes, handlers are frozen while the server runs;
    and what goes wrong with no workers and with a start racing a stop. *)

From S2P Require Import Prelude Types Server.

Section facts.
Context {F : Type} (cfg : server_config) (Hcfg : is_u32 (sc_workers cfg)).
Abbreviation server := (server (F := F)).
Abbreviation thread_sys := (thread_sys (F := F)).
Abbreviation handle := (thread_handle (F := F) cfg).
Abbreviation enabled := (threads_enabled (F := F) cfg).
Implicit Types (s : server) (t : thread_sys) (th i : nat) (ws : list worker).

(** ** Counting workers *)

Definition left_run (w : worker) : nat :=
  match w with wk_last | wk_done => 1 | wk_running | wk_returned => 0 end.
Definition is_last (w : worker) : nat := match w with wk_last => 1 | _ => 0 end.
Definition remaining (w : worker) : nat :=
  match w with wk_running => 3 | wk_returned => 2 | wk_last => 1 | wk_done => 0 end.

Lemma sum_insert (f : worker → nat) ws i x y :
  ws !! i = Some y →
  (sum_list_with f (<[i := x]> ws) + f y = sum_list_with f ws + f x)%nat.
Proof.
  revert i. induction ws as [|w ws IH]; intros [|i] Hi; simplify_eq/=; [lia|].
  specialize (IH i Hi). lia.
Qed.

Lemma sum_replicate (f : worker → nat) n x : sum_list_with f (replicate n x) = (n * f x)%nat.
Proof. induction n; simpl; lia. Qed.

Lemma left_le ws : (sum_list_with left_run ws ≤ length ws)%nat.
Proof. induction ws as [|[] ws IH]; simpl; lia. Qed.

Lemma left_lt ws i : ws !! i = Some wk_returned → (sum_list_with left_run ws < length ws)%nat.
Proof.
  revert i. induction ws as [|w ws IH]; intros [|i] Hi; simplify_eq/=.
  - pose proof (left_le ws). lia.
  - specialize (IH i Hi). destruct w; simpl; lia.
Qed.

Lemma last_pos ws i : ws !! i = Some wk_last → (0 < sum_list_with is_last ws)%nat.
Proof.
  intros Hi. pose proof (sum_insert is_last ws i wk_done wk_last Hi). simpl in *. lia.
Qed.

Lemma all_done_left s :
  all_done s = true →
  sum_list_with left_run (m_workers s) = length (m_workers s) ∧
  sum_list_with is_last (m_workers s) = 0%nat.
Proof.
  unfold all_done. induction (m_workers s) as [|[] ws IH]; simpl; try done.
  intros H. destruct (IH H) as [-> ->]. done.
Qed.

(** ** The invariant *)

Definition expected s : nat :=
  if decide (0 < launched s ∧ m_workers_done s = launched s) then 1 else 0.

Record threads_inv t : Prop := {
  i_launched : launched (srv t) = Z.of_nat (length (m_workers (srv t))) ∧ is_u32 (launched (srv t));
  i_done : m_workers_done (srv t) = Z.of_nat (sum_list_with left_run (m_workers (srv t)));
  i_workers : m_running (srv t) = true → launched (srv t) = workers cfg (m_async_start (srv t));
  i_notified : (notified t + sum_list_with is_last (m_workers (srv t)))%nat = expected (srv t);
  i_mtx th : callers (srv t) !! th = Some in_stop ↔ m_mtx (srv t) = Some th;
  i_locked th : m_mtx (srv t) = Some th → m_running (srv t) = true;
  i_idle : m_running (srv t) = false → all_done (srv t) = true }.

Lemma workers_u32 b : is_u32 (workers cfg b).
Proof using Hcfg. destruct b; [done|]. by apply wrap_range. Qed.

Lemma threads_inv_init : threads_inv threads_init.
Proof. split; simpl; try done. Qed.

(** Changes that leave the workers and the mutex alone. *)
Lemma threads_inv_caller t s' :
  m_running s' = m_running (srv t) → m_async_start s' = m_async_start (srv t) →
  m_workers_done s' = m_workers_done (srv t) → m_workers s' = m_workers (srv t) →
  launched s' = launched (srv t) → m_mtx s' = m_mtx (srv t) →
  (∀ th, callers s' !! th = Some in_stop ↔ callers (srv t) !! th = Some in_stop) →
  threads_inv t → threads_inv (mk_thread_sys s' (notified t)).
Proof.
  intros E1 E2 E3 E4 E5 E6 E7 [I1 I2 I3 I4 I5 I6 I7].
  unfold expected, all_done in *. split; simpl; unfold expected, all_done;
    rewrite ?E1, ?E2, ?E3, ?E4, ?E5, ?E6; try done.
  intros th. rewrite E7. apply I5.
Qed.

(** A launch. *)
Lemma threads_inv_launch t s' b h c :
  threads_inv t → m_mtx (srv t) = None →
  s' = set_callers c (set_stopped_handler h (set_launched (workers cfg b)
    (set_m_workers (replicate (Z.to_nat (workers cfg b)) wk_running)
      (set_m_workers_done 0 (set_io_stopped false (set_m_async_start b (set_m_running true (srv t)))))))) →
  (∀ th, c !! th = Some in_stop ↔ callers (srv t) !! th = Some in_stop) →
  threads_inv (mk_thread_sys s' 0).
Proof using Hcfg.
  intros [I1 I2 I3 I4 I5 I6 I7] Hm -> Hc. destruct (workers_u32 b) as [H0 H1].
  split; simpl; rewrite ?length_replicate, ?sum_replicate; simpl; try done.
  - by rewrite Z2Nat.id.
  - lia.
  - unfold expected. simpl. rewrite decide_False by lia. lia.
  - intros th. rewrite Hc. apply I5.
Qed.

(** ** Every step *)

Lemma start_launch th s :
  m_running s = false →
  start cfg th s = Done tt (set_callers (<[th := in_start]> (callers s))
    (set_stopped_handler false (set_launched (workers cfg false)
      (set_m_workers (replicate (Z.to_nat (workers cfg false)) wk_running)
        (set_m_workers_done 0 (set_io_stopped false (set_m_async_start false (set_m_running true s))))))))
    [eff_spawn (workers cfg false)].
Proof.
  intros Hr. unfold start, run_async_workers. run_act. rewrite Hr. run_act.
  destruct s as [? ? ? ? ? [] ? ? ? ?]; done.
Qed.

Lemma async_start_launch h s :
  m_running s = false →
  async_start cfg h s = Done tt (set_callers (callers s)
    (set_stopped_handler h (set_launched (workers cfg true)
      (set_m_workers (replicate (Z.to_nat (workers cfg true)) wk_running)
        (set_m_workers_done 0 (set_io_stopped false (set_m_async_start true (set_m_running true s))))))))
    [eff_spawn (workers cfg true)].
Proof.
  intros Hr. unfold async_start, run_async_workers. run_act. rewrite Hr. run_act.
  destruct s as [? ? ? ? ? [] ? ? ? ?]; done.
Qed.

(** The three steps of a worker. *)
Lemma worker_step_run i s :
  m_workers s !! i = Some wk_running →
  worker_step i s = Done tt (set_m_workers (<[i := wk_returned]> (m_workers s)) s) [].
Proof. intros E. unfold worker_step. run_act. by rewrite E. Qed.

Lemma worker_step_leave i s :
  m_workers s !! i = Some wk_returned →
  worker_step i s =
    Done tt (set_m_workers (<[i := if u32 (m_workers_done s + 1) =? launched s then wk_last else wk_done]>
      (m_workers s)) (set_m_workers_done (u32 (m_workers_done s + 1)) s)) [].
Proof. intros E. unfold worker_step. run_act. by rewrite E. Qed.

Lemma worker_step_last i s :
  m_workers s !! i = Some wk_last →
  ∃ es, worker_step i s = Done tt (set_m_workers (<[i := wk_done]> (m_workers s)) s) es ∧
    ∀ n, foldl count_notified n es = S n.
Proof.
  intros E. unfold worker_step. run_act. rewrite E. run_act.
  by destruct (stopped_handler s); eexists.
Qed.

Lemma all_done_no_step s i : all_done s = true → worker_can_step s i = false.
Proof.
  intros Hd. unfold worker_can_step, all_done in *. rewrite forallb_forall in Hd.
  destruct (m_workers s !! i) as [w|] eqn:E; [|done].
  apply list_elem_of_lookup_2, list_elem_of_In, Hd in E. by destruct w.
Qed.

Lemma running_of_step t i :
  threads_inv t → worker_can_step (srv t) i = true → m_running (srv t) = true.
Proof.
  intros Hi Hs. destruct (m_running (srv t)) eqn:Er; [done|].
  apply (i_idle _ Hi) in Er. by rewrite (all_done_no_step _ i Er) in Hs.
Qed.

Lemma step_worker t i :
  threads_inv t → worker_can_step (srv t) i = true →
  ∃ t', handle t (te_worker i) = Some t' ∧ threads_inv t'.
Proof.
  intros Hi Hs. pose proof (running_of_step _ _ Hi Hs) as Hrun.
  destruct Hi as [[I1 I1'] I2 I3 I4 I5 I6 I7]. unfold worker_can_step in Hs.
  destruct t as [s n]. simpl in *. unfold perform. simpl.
  destruct (m_workers s !! i) as [w|] eqn:E; [|done].
  assert (∀ f x, (sum_list_with f (<[i:=x]> (m_workers s)) + f w = sum_list_with f (m_workers s) + f x)%nat)
    as Hsum by (intros f x; by apply sum_insert).
  destruct w; [| | |done].
  - rewrite worker_step_run by done. eexists. split; [done|].
    pose proof (Hsum left_run wk_returned) as Hl. pose proof (Hsum is_last wk_returned) as Hla.
    simpl in Hl, Hla. split; simpl; rewrite ?length_insert; try done; try congruence.
    + rewrite I2. lia.
    + unfold expected in *. simpl. rewrite <-I4. lia.
  - rewrite worker_step_leave by done. eexists. split; [done|].
    pose proof (left_lt _ _ E) as Hlt. destruct I1' as [_ Hmax].
    assert (u32 (m_workers_done s + 1) = m_workers_done s + 1) as ->
      by (apply wrap_small; split; [lia|]; rewrite I2; lia).
    set (x := if m_workers_done s + 1 =? launched s then wk_last else wk_done).
    pose proof (Hsum left_run x) as Hl. pose proof (Hsum is_last x) as Hla.
    assert (left_run x = 1%nat) as Hx by (unfold x; by destruct (_ =? _)).
    rewrite Hx in Hl. simpl in Hl, Hla.
    assert (expected s = 0%nat) as He.
    { unfold expected. rewrite decide_False; [done|]. intros [_ H]. lia. }
    split; simpl; rewrite ?length_insert; try done; try congruence.
    + split; [done|]. split; [lia|done].
    + rewrite I2. lia.
    + unfold expected. simpl. rewrite He in I4. subst x.
      destruct (Z.eqb_spec (m_workers_done s + 1) (launched s)); simpl in *.
      * rewrite decide_True by lia. lia.
      * rewrite decide_False by lia. lia.
  - destruct (worker_step_last i s E) as (es & -> & Hes). eexists. split; [done|].
    pose proof (Hsum left_run wk_done) as Hl. pose proof (Hsum is_last wk_done) as Hla.
    simpl in Hl, Hla. split; simpl; rewrite ?length_insert; try done; try congruence.
    + rewrite I2. lia.
    + rewrite Hes. unfold expected in *. simpl. rewrite <-I4. lia.
Qed.

Lemma caller_is_spec c th s : caller_is c th s = true ↔ callers s !! th = Some c.
Proof. unfold caller_is. destruct (callers s !! th) as [[]|], c; naive_solver. Qed.

(** A caller other than a waiting stop comes or goes. *)
Lemma in_stop_insert s th c th' :
  callers s !! th ≠ Some in_stop → c ≠ in_stop →
  <[th := c]> (callers s) !! th' = Some in_stop ↔ callers s !! th' = Some in_stop.
Proof. intros Hn Hc. rewrite lookup_insert_Some. destruct (decide (th = th')) as [<-|]; naive_solver. Qed.

Lemma in_stop_delete s th th' :
  callers s !! th ≠ Some in_stop →
  delete th (callers s) !! th' = Some in_stop ↔ callers s !! th' = Some in_stop.
Proof. intros Hn. rewrite lookup_delete_Some. destruct (decide (th = th')) as [<-|]; naive_solver. Qed.

Lemma step_stop_lock t th :
  threads_inv t → callers (srv t) !! th = Some at_stop → m_mtx (srv t) = None →
  ∃ t', handle t (te_stop_lock th) = Some t' ∧ threads_inv t'.
Proof.
  intros Hi Hc Hm. simpl. unfold perform, stop_lock. run_act.
  destruct (m_running (srv t)) eqn:Er; simpl; (eexists; split; [done|]).
  - destruct Hi as [I1 I2 I3 I4 I5 I6 I7]. split; simpl; try done; try (by rewrite Er).
    intros th'. rewrite lookup_insert_Some, I5, Hm. naive_solver.
  - apply threads_inv_caller; try done. intros th'. apply in_stop_delete. congruence.
Qed.

Lemma step_stop_finish t th :
  threads_inv t → callers (srv t) !! th = Some in_stop → all_done (srv t) = true →
  ∃ t', handle t (te_stop_finish th) = Some t' ∧ threads_inv t'.
Proof.
  intros [I1 I2 I3 I4 I5 I6 I7] Hc Hd. simpl. eexists. split; [done|].
  split; simpl; try done. intros th'. rewrite lookup_delete_Some, I5.
  apply I5 in Hc. split; [|done]. intros [Hne Hm]. congruence.
Qed.

Lemma step_bind t conns (j : Z) (f : F) :
  threads_inv t → ∃ t', handle t (te_bind conns j f) = Some t' ∧ threads_inv t'.
Proof.
  intros Hi. simpl. unfold perform, bind. run_act.
  destruct (m_running (srv t) || _); simpl; [|case_decide; simpl];
    (eexists; split; [done|]); by apply threads_inv_caller.
Qed.

Lemma threads_step t e :
  threads_inv t → enabled t e = true → ∃ t', handle t e = Some t' ∧ threads_inv t'.
Proof using Hcfg.
  intros Hi He. unfold threads_enabled in He.
  destruct e as [th|h|th| |th|th|th|i|conns j f]; simpl in He.
  - apply andb_true_iff in He as [Hm%bool_decide_eq_true Hc%bool_decide_eq_true].
    simpl. unfold perform. destruct (m_running (srv t)) eqn:Er.
    + unfold start. run_act. rewrite Er. run_act. eexists. split; [done|].
      by apply threads_inv_caller.
    + rewrite start_launch by done. eexists. split; [done|].
      eapply threads_inv_launch; [done|done|done|]. simpl. intros th'.
      apply in_stop_insert; congruence.
  - apply bool_decide_eq_true in He. simpl. unfold perform.
    destruct (m_running (srv t)) eqn:Er.
    + unfold async_start. run_act. rewrite Er. run_act. eexists. split; [done|].
      by apply threads_inv_caller.
    + rewrite async_start_launch by done. eexists. split; [done|].
      by eapply threads_inv_launch.
  - apply andb_true_iff in He as [Hc%caller_is_spec _]. eexists. split; [done|].
    apply threads_inv_caller; try done. intros th'. apply in_stop_delete. congruence.
  - eexists. split; [done|]. by apply threads_inv_caller.
  - apply bool_decide_eq_true in He. eexists. split; [done|]. apply threads_inv_caller; try done.
    intros th'. apply (in_stop_insert (srv t)); congruence.
  - apply andb_true_iff in He as [Hc%caller_is_spec Hm%bool_decide_eq_true].
    by apply step_stop_lock.
  - apply andb_true_iff in He as [[Hc%caller_is_spec _]%andb_true_iff Hd].
    by apply step_stop_finish.
  - by apply step_worker.
  - by apply step_bind.
Qed.

Lemma threads_steps_inv es t :
  thread_steps cfg threads_init es t → threads_inv t ∧ safe enabled handle t.
Proof using Hcfg.
  intros Hr. eapply steps_safe; [|exact threads_inv_init|exact Hr].
  intros. by apply threads_step.
Qed.

(** ** Properties *)

(** C32. However calls of [start()], [async_start()], [stop()] and [bind()]
    interleave with the workers and with signals: exactly the workers that
    have left [run()] are counted; they are notified for at most once per
    start, and exactly once when all of at least one worker are done; one
    stop at a time waits; and whenever the server is not running, in
    particular when a stop has returned, no worker is left. *)
Theorem workers_leave_once es t :
  thread_steps cfg threads_init es t →
  safe enabled handle t ∧
  m_workers_done (srv t) = Z.of_nat (sum_list_with left_run (m_workers (srv t))) ∧
  (notified t ≤ 1)%nat ∧
  (all_done (srv t) = true → m_workers (srv t) ≠ [] → notified t = 1%nat) ∧
  (∀ th th', callers (srv t) !! th = Some in_stop → callers (srv t) !! th' = Some in_stop → th = th') ∧
  (m_running (srv t) = false → all_done (srv t) = true).
Proof using Hcfg.
  intros [[I1 I2 I3 I4 I5 I6 I7] Hsafe]%threads_steps_inv.
  split_and!; try done.
  - unfold expected in I4. case_decide; lia.
  - intros [Hl Hla]%all_done_left Hne. rewrite Hla in I4. unfold expected in I4.
    rewrite decide_True in I4; [lia|].
    destruct (m_workers (srv t)); [done|]. simpl in *. lia.
  - intros th th' H1%I5 H2%I5. congruence.
Qed.

(** ** Stopping completes *)

Lemma some_worker_steps s :
  io_stopped s = true → all_done s = false → ∃ i, worker_can_step s i = true.
Proof.
  unfold all_done, worker_can_step. intros -> Hd. induction (m_workers s) as [|w ws IH]; [done|].
  simpl in Hd. destruct w; simpl in Hd; try (by exists 0%nat).
  destruct (IH Hd) as [i Hi]. by exists (S i).
Qed.

Lemma worker_step_measure t i t' :
  worker_can_step (srv t) i = true → handle t (te_worker i) = Some t' →
  (sum_list_with remaining (m_workers (srv t')) < sum_list_with remaining (m_workers (srv t)))%nat ∧
  io_stopped (srv t') = io_stopped (srv t) ∧ callers (srv t') = callers (srv t).
Proof.
  unfold worker_can_step. simpl. unfold perform. intros Hs.
  destruct (m_workers (srv t) !! i) as [w|] eqn:E; [|done].
  assert (∀ x, (sum_list_with remaining (<[i:=x]> (m_workers (srv t))) + remaining w =
    sum_list_with remaining (m_workers (srv t)) + remaining x)%nat) as Hsum
    by (intros x; by apply sum_insert).
  destruct w; try done.
  - rewrite worker_step_run by done. intros [= <-]. specialize (Hsum wk_returned). simpl in *. auto with lia.
  - rewrite worker_step_leave by done. intros [= <-].
    match goal with |- context [<[i := ?x]> _] => specialize (Hsum x); destruct x eqn:Ex end;
      simpl in *; split_and!; try done; try lia; by destruct (_ =? _).
  - destruct (worker_step_last i _ E) as (es & -> & _). intros [= <-].
    specialize (Hsum wk_done). simpl in *. auto with lia.
Qed.

Lemma stop_finish_enabled t th :
  threads_inv t → callers (srv t) !! th = Some in_stop → all_done (srv t) = true →
  enabled t (te_stop_finish th) = true.
Proof.
  intros [[I1 _] I2 I3 I4 I5 I6 I7] Hc Hd. unfold threads_enabled. simpl.
  rewrite (proj2 (caller_is_spec _ _ _) Hc), Hd, andb_true_r. simpl.
  apply bool_decide_eq_true. rewrite <-I3 by (by eapply I6, I5).
  apply all_done_left in Hd as [Hl _]. lia.
Qed.

(** C33. A stop completes: once it waits, and as long as the io context stays
    stopped, the workers' own steps, at most three for each, lead to its
    return with no worker left; and it can never be stuck, since until then
    some worker can step and each such step brings the end closer. *)
Theorem stop_completes es t th :
  thread_steps cfg threads_init es t →
  callers (srv t) !! th = Some in_stop → io_stopped (srv t) = true →
  (∃ js t', (length js ≤ 3 * length (m_workers (srv t)))%nat ∧
     thread_run cfg t ((te_worker <$> js) ++ [te_stop_finish th]) = Some t' ∧
     m_running (srv t') = false ∧ all_done (srv t') = true) ∧
  (all_done (srv t) = false → ∃ i, enabled t (te_worker i) = true) ∧
  (∀ i t', enabled t (te_worker i) = true → handle t (te_worker i) = Some t' →
     (sum_list_with remaining (m_workers (srv t')) < sum_list_with remaining (m_workers (srv t)))%nat).
Proof using Hcfg.
  intros [Hi _]%threads_steps_inv Hc Hio. split; [|split].
  - assert (∃ js t', (length js ≤ sum_list_with remaining (m_workers (srv t)))%nat ∧
      thread_run cfg t ((te_worker <$> js) ++ [te_stop_finish th]) = Some t' ∧
      m_running (srv t') = false ∧ all_done (srv t') = true) as (js & t' & Hl & H).
    { remember (sum_list_with remaining (m_workers (srv t))) as n eqn:Hn.
      revert t Hi Hc Hio Hn. induction (lt_wf n) as [n _ IH]; intros t Hi Hc Hio ->.
      destruct (all_done (srv t)) eqn:Hd.
      - destruct (step_stop_finish t th Hi Hc Hd) as (t' & Ht & _). exists [], t'.
        split; [simpl; lia|]. unfold thread_run. cbn [app fmap list_fmap run].
        rewrite stop_finish_enabled by done. rewrite Ht. injection Ht as <-. done.
      - destruct (some_worker_steps _ Hio Hd) as [i Hs].
        destruct (step_worker t i Hi Hs) as (t1 & H1 & Hi1).
        destruct (worker_step_measure t i t1 Hs H1) as (Hm & Hio1 & Hc1).
        destruct (IH _ Hm t1) as (js & t' & Hl & Hr & H); [done|congruence..|].
        exists (i :: js), t'. split; [simpl; lia|]. split; [|done].
        unfold thread_run. cbn [app fmap list_fmap run].
        unfold threads_enabled at 1. cbn [thread_enabled]. rewrite Hs, H1. exact Hr. }
    exists js, t'. split; [|done]. etrans; [exact Hl|].
    clear. induction (m_workers (srv t)) as [|[] ws IH]; simpl; lia.
  - by apply some_worker_steps.
  - intros i t' Hs Hh. by eapply worker_step_measure.
Qed.

(** ** The whole of [stop()] *)

Lemma workers_run_frame js t t' :
  thread_run cfg t (te_worker <$> js) = Some t' →
  io_stopped (srv t') = io_stopped (srv t) ∧ callers (srv t') = callers (srv t).
Proof.
  revert t. induction js as [|i js IH]; intros t; unfold thread_run in *; cbn [fmap list_fmap run].
  { by intros [= <-]. }
  destruct (enabled t (te_worker i)) eqn:He; [|done].
  destruct (handle t (te_worker i)) as [t1|] eqn:Hh; [|done]. simpl.
  intros [-> ->]%IH. by destruct (worker_step_measure t i t1 He Hh) as (_ & -> & ->).
Qed.

Lemma run_reachable es es' t t' :
  thread_steps cfg threads_init es t → thread_run cfg t es' = Some t' →
  ∃ es'', thread_steps cfg threads_init es'' t'.
Proof. intros Hs Hr%run_steps. eexists. by eapply steps_app. Qed.

(** Up to the lock: the thread has returned, or waits. *)
Lemma stop_begins t th :
  callers (srv t) = ∅ →
  thread_run cfg t [te_stop th] =
    Some (mk_thread_sys (set_callers {[th := at_stop]} (set_io_stopped true (srv t))) (notified t)).
Proof.
  intros Hc. unfold thread_run. cbn [run]. unfold threads_enabled. cbn [thread_enabled]. rewrite Hc. simpl.
  unfold perform, stop_begin. run_act. by rewrite Hc.
Qed.

Lemma stop_to_lock t th js t2 :
  callers (srv t) = ∅ →
  thread_run cfg t (te_stop th :: (te_worker <$> js) ++ [te_stop_lock th]) = Some t2 →
  io_stopped (srv t2) = true ∧
  (callers (srv t2) = ∅ ∧ m_running (srv t2) = false ∨ callers (srv t2) = {[th := in_stop]}).
Proof.
  intros Hc Hr.
  change (te_stop th :: (te_worker <$> js) ++ [te_stop_lock th])
    with ([te_stop th] ++ (te_worker <$> js) ++ [te_stop_lock (F := F) th]) in Hr.
  pose proof (stop_begins t th Hc) as H1. unfold thread_run in *.
  rewrite run_app, H1 in Hr. cbn [mbind option_bind] in Hr.
  rewrite run_app in Hr. destruct (run _ _ _ (te_worker <$> js)) as [t1|] eqn:E1; [|done].
  apply workers_run_frame in E1 as [Eio Ec]. cbn [mbind option_bind run] in Hr.
  destruct (enabled t1 _); [|done]. simpl in Hr. unfold perform, stop_lock in Hr. revert Hr. run_act.
  destruct (m_running (srv t1)) eqn:Er; simpl; intros [= <-]; simpl; rewrite Ec, Eio; simpl;
    (split; [done|]); [right|left]; rewrite ?insert_singleton_eq, ?delete_singleton_eq; done.
Qed.

Lemma stop_reaches_lock t th :
  callers (srv t) = ∅ → m_mtx (srv t) = None →
  ∃ t2, thread_run cfg t (te_stop th :: (te_worker <$> []) ++ [te_stop_lock th]) = Some t2.
Proof.
  intros Hc Hm. cbn [fmap list_fmap app].
  change [te_stop th; te_stop_lock th] with ([te_stop th] ++ [te_stop_lock (F := F) th]).
  pose proof (stop_begins t th Hc) as H1. unfold thread_run in *.
  rewrite run_app, H1. cbn [mbind option_bind run].
  unfold threads_enabled. simpl. unfold caller_is, unlocked. simpl. rewrite lookup_singleton_eq.
  rewrite bool_decide_eq_true_2 by done. simpl. unfold perform, stop_lock. run_act.
  destruct (m_running _); by eexists.
Qed.

(** [stop()] joins.  Called in a thread that does not run the io context, when
    no other thread is in the server (as in the destructor): it returns, for
    some steps of the workers, and whatever steps they take, once it has
    returned the server does not run, no worker is left and no thread is in
    it. *)
Theorem stop_joins es t th :
  thread_steps cfg threads_init es t → callers (srv t) = ∅ →
  (∃ js t', stop cfg false th [] js t = Some t') ∧
  ∀ js1 js2 t', stop cfg false th js1 js2 t = Some t' →
    callers (srv t') = ∅ ∧ m_running (srv t') = false ∧ all_done (srv t') = true.
Proof using Hcfg.
  intros Hs Hc. pose proof (threads_steps_inv es t Hs) as [Hi _].
  assert (m_mtx (srv t) = None) as Hm.
  { destruct (m_mtx (srv t)) as [th'|] eqn:E; [|done]. apply (i_mtx t Hi) in E. by rewrite Hc in E. }
  split.
  - destruct (stop_reaches_lock t th Hc Hm) as [t2 E2].
    destruct (run_reachable _ _ _ _ Hs E2) as [es2 Hs2]. unfold stop. rewrite E2. simpl.
    destruct (stop_to_lock t th [] t2 Hc E2) as (Hio & [[Hc2 _]|Hc2]); rewrite Hc2; [by exists [], t2|].
    rewrite lookup_singleton_eq.
    destruct (stop_completes es2 t2 th Hs2) as [(js & t' & _ & Hr & _) _];
      [by rewrite Hc2, lookup_singleton_eq|done|].
    by exists js, t'.
  - intros js1 js2 t'. unfold stop.
    destruct (thread_run cfg t (te_stop th :: (te_worker (F := F) <$> js1) ++ [te_stop_lock th]))
      as [t2|] eqn:E2; [|done]. simpl. destruct (run_reachable _ _ _ _ Hs E2) as [es2 Hs2].
    destruct (stop_to_lock t th js1 t2 Hc E2) as (_ & [[Hc2 Hr2]|Hc2]); rewrite Hc2; [|rewrite lookup_singleton_eq].
    + simpl. intros [= <-]. split; [done|]. split; [done|].
      by apply (i_idle t2 (proj1 (threads_steps_inv es2 t2 Hs2))).
    + intros Hr. unfold thread_run in *. rewrite run_app in Hr.
      destruct (run _ _ t2 _) as [t3|] eqn:E3; [|done]. simpl in Hr.
      pose proof (workers_run_frame _ _ _ E3) as [_ Ec].
      unfold threads_enabled in Hr. simpl in Hr.
      destruct (_ && all_done (srv t3)) eqn:He; [|done]. apply andb_true_iff in He as [_ Hd].
      injection Hr as <-. simpl. rewrite Ec, Hc2, delete_singleton_eq. by split.
Qed.

(** ** Bindings *)

Lemma registered_step t e t' :
  handle t e = Some t' →
  registered (srv t') = registered (srv t) ∨
  m_running (srv t) = false ∧ ∃ j f, e = te_bind 0 j f ∧ bound (registered (srv t)) !! j = None ∧
    registered (srv t') = mk_handlers (<[j := f]> (bound (registered (srv t))))
      (on_listen (registered (srv t))) (on_accept (registered (srv t))) (on_disconnect (registered (srv t))).
Proof.
  destruct e as [th|h|th| |th|th|th|i|conns j f]; simpl; unfold perform.
  - destruct (m_running (srv t)) eqn:Er; [|rewrite start_launch by done; intros [= <-]; by left].
    unfold start. run_act. rewrite Er. intros [= <-]. by left.
  - destruct (m_running (srv t)) eqn:Er; [|rewrite async_start_launch by done; intros [= <-]; by left].
    unfold async_start. run_act. rewrite Er. intros [= <-]. by left.
  - intros [= <-]. by left.
  - intros [= <-]. by left.
  - intros [= <-]. by left.
  - unfold stop_lock. run_act. destruct (m_running (srv t)); intros [= <-]; by left.
  - intros [= <-]. by left.
  - intros H. left. destruct (worker_step i (srv t)) as [[] s' es| |] eqn:E; try done;
      injection H as <-; revert E; unfold worker_step; run_act;
      repeat (case_match; simpl; try done); intros ?; by simplify_eq.
  - unfold bind. run_act. destruct (m_running (srv t)) eqn:Er; [intros [= <-]; by left|].
    destruct (Z.eqb_spec conns 0) as [->|]; simpl; [|intros [= <-]; by left].
    case_decide as Hb; simpl; intros [= <-]; [by left|right]. split; [done|].
    exists j, f. split; [done|]. split; [|done].
    destruct (bound _ !! j) eqn:Ej; [|done]. by destruct Hb.
Qed.

(** Handlers are bound once and for all: a handler bound to an id stays
    bound to it whatever is called afterwards (binding the id again throws),
    and while the server runs no handler changes at all. *)
Theorem bindings_frozen t es t' :
  thread_steps cfg t es t' →
  (∀ j f, bound (registered (srv t)) !! j = Some f → bound (registered (srv t')) !! j = Some f) ∧
  (∀ e t'', m_running (srv t') = true → handle t' e = Some t'' →
     registered (srv t'') = registered (srv t')).
Proof.
  intros Hr. split.
  - intros j f Hj. induction Hr as [t|t es t1 e t2 Hr IH [_ Hh]]; [done|].
    destruct (registered_step _ _ _ Hh) as [->|(_ & j' & f' & _ & Hn & ->)]; [auto|].
    simpl. rewrite lookup_insert_ne; [auto|]. intros ->. specialize (IH Hj). congruence.
  - intros e t'' Hrun Hh. destruct (registered_step _ _ _ Hh) as [?|[? _]]; [done|congruence].
Qed.

(** [bind] answers false and changes nothing while the server runs or has
    connections, throws and changes nothing when the id is taken, and
    otherwise records exactly that handler and answers true. *)
Lemma bind_spec conns (j : Z) (f : F) s :
  bind conns j f s =
    if m_running s || negb (conns =? 0) then Done false s []
    else if decide (is_Some (bound (registered s) !! j))
    then Thrown "server::bind: already bound" s []
    else Done true (set_registered (mk_handlers (<[j := f]> (bound (registered s)))
           (on_listen (registered s)) (on_accept (registered s)) (on_disconnect (registered s))) s) [].
Proof. unfold bind. run_act. destruct (_ || _); [done|]. by case_decide. Qed.

(** ** What goes wrong *)

(** With [workers] 0, the default of [server_config], [start()] asks for
    2^32 - 1 threads ([workers - 1] is unsigned), and [async_start()] for none:
    the server is then running with no thread to run its io context. *)
Theorem zero_workers s h :
  sc_workers cfg = 0 → m_running s = false →
  (∃ th s' , start cfg th s = Done tt s' [eff_spawn (2 ^ 32 - 1)]) ∧
  (∃ s', async_start cfg h s = Done tt s' [eff_spawn 0] ∧ m_running s' = true ∧ m_workers s' = []).
Proof using.
  intros H0 Hr. split.
  - exists 0%nat. eexists. rewrite start_launch by done. unfold workers. by rewrite H0.
  - eexists. rewrite async_start_launch by done. unfold workers. by rewrite H0.
Qed.
End facts.

(** ** Concrete servers *)

Module ServerDemo.
Definition two_workers : server_config := mk_server_config "0.0.0.0" 3377 2 8 8192 server_mode_plain.
Definition no_workers : server_config := mk_server_config "0.0.0.0" 3377 0 8 8192 server_mode_plain.
Definition drive (es : list (thread_event (F := nat))) : thread_sys :=
  default threads_init (thread_run two_workers threads_init es).
(** A stop from thread 5 of a server started asynchronously. *)
Definition stopping : list (thread_event (F := nat)) :=
  [te_bind 0 7 70%nat; te_async_start true; te_stop 5; te_stop_lock 5].
(** What a start between the two halves of a stop leaves. *)
Definition raced : thread_sys (F := nat) :=
  mk_thread_sys (mk_server true true 0 [wk_running; wk_running] 2 false (Some 5%nat)
    {[5%nat := in_stop]} true (mk_handlers ∅ None None None)) 0.
End ServerDemo.

Import ServerDemo.

Lemma two_workers_u32 : is_u32 (sc_workers two_workers).
Proof. split; [discriminate|reflexivity]. Qed.

Lemma workers_leave_once_witness :
  let t := drive (stopping ++ [te_worker 0; te_worker 1; te_worker 1; te_worker 0; te_worker 0]) in
  m_workers (srv t) = [wk_done; wk_done] ∧
  safe (threads_enabled two_workers) (thread_handle two_workers) t ∧
  (all_done (srv t) = true → m_workers (srv t) ≠ [] → notified t = 1%nat).
Proof.
  split; [vm_compute; reflexivity|].
  destruct (workers_leave_once two_workers two_workers_u32
    (stopping ++ [te_worker 0; te_worker 1; te_worker 1; te_worker 0; te_worker 0])
    (drive (stopping ++ [te_worker 0; te_worker 1; te_worker 1; te_worker 0; te_worker 0])))
    as (H1 & _ & _ & H2 & _); [apply run_steps; vm_compute; reflexivity|].
  split; [exact H1|exact H2].
Defined.

Lemma stop_completes_witness :
  ∃ js t', (length js ≤ 6)%nat ∧
    thread_run two_workers (drive stopping) ((te_worker <$> js) ++ [te_stop_finish 5]) = Some t' ∧
    m_running (srv t') = false ∧ all_done (srv t') = true.
Proof.
  apply (stop_completes two_workers two_workers_u32 stopping (drive stopping) 5);
    [apply run_steps; vm_compute; reflexivity|reflexivity|reflexivity].
Defined.

Lemma bindings_frozen_witness :
  let t := drive [te_bind 0 7 70%nat] in
  let t' := drive [te_bind 0 7 70%nat; te_bind 0 8 80%nat; te_async_start true; te_bind 0 9 90%nat] in
  bound (registered (srv t')) = {[7 := 70%nat; 8 := 80%nat]} ∧
  (bound (registered (srv t)) !! 7 = Some 70%nat → bound (registered (srv t')) !! 7 = Some 70%nat).
Proof.
  intros t t'. split; [vm_compute; reflexivity|].
  destruct (bindings_frozen two_workers t
    [te_bind 0 8 80%nat; te_async_start true; te_bind 0 9 90%nat] t') as [H _];
    [apply run_steps; vm_compute; reflexivity|apply H].
Defined.

Lemma zero_workers_witness :
  ∃ th s', start (F := nat) no_workers th new_server = Done tt s' [eff_spawn (2 ^ 32 - 1)].
Proof. apply (zero_workers no_workers new_server true); reflexivity. Defined.

(** A start racing a stop can leave the stop waiting forever: a stop of an
    idle server stops the io context before it takes the mutex; if a start comes
    in between, it restarts the context, and the stop then waits, holding the
    mutex, for workers nobody stops.  The server goes on serving and nothing
    but a further stop or a signal can happen to its threads. *)
Theorem stop_start_race :
  ∃ t, thread_steps two_workers threads_init
         [te_stop 5; te_async_start true; te_stop_lock 5] t ∧
    callers (srv t) !! 5%nat = Some in_stop ∧ io_stopped (srv t) = false ∧
    ∀ e : thread_event (F := nat), threads_enabled two_workers t e = true →
      e = te_stop_io ∨ ∃ th, e = te_stop th.
Proof.
  exists raced. split; [apply run_steps; vm_compute; reflexivity|].
  split; [vm_compute; reflexivity|]. split; [reflexivity|].
  intros [th|h|th| |th|th|th|i|conns j f] He; unfold threads_enabled, raced in He; simpl in He;
    try discriminate; eauto.
  - by rewrite andb_false_r in He.
  - by rewrite andb_false_r in He.
  - by rewrite andb_false_r in He.
  - by destruct i as [|[|i]].
Qed.
