(* ===== verification/ServerApi.v ===== *)
(** * ServerApi: what [server] passes on to its session manager

    The public members of server.hpp that are not about threads: broadcasts,
    the counts, and the life of the object, which owns the manager, the
    listener and the workers. *)

From S2P Require Import Prelude Types Header ServerSession SessionManager SessionManagerFacts Listener ListenerFacts Server.

(** ** The overloads of [session_manager::broadcast] *)

Definition broadcast_all (call_id : Z) (send_bytes : list byte) : mact unit :=
  broadcast call_id send_bytes None.
Definition broadcast_to (call_id : Z) (send_bytes : list byte) (session_ids : list Z) : mact unit :=
  broadcast call_id send_bytes (Some session_ids).

(** ** [server] *)

Definition server_broadcast (call_id : Z) (send_bytes : list byte) : mact unit :=
  broadcast_all call_id send_bytes.
Definition server_broadcast_to (call_id : Z) (send_bytes : list byte) (session_ids : list Z) : mact unit :=
  broadcast_to call_id send_bytes session_ids.
Definition server_connections : mact Z := act_gets connections.
Definition server_get_session_ids : mact (list Z) := act_gets get_session_ids.

(** The constructors.  Both make the manager, open the listener on it (the
    four results are those of the acceptor) and run it; the second one owns a
    TLS context and gives the listener a pointer to it.  The result is whether
    there is such a context, and the objects. *)
Definition construct_server (open_ok option_ok bind_ok listen_ok : bool) : option (bool * server_sys) :=
  (λ y, (false, y)) <$> server_sys_init (listener_open open_ok option_ok bind_ok listen_ok).
Definition construct_ssl_server (open_ok option_ok bind_ok listen_ok : bool) : option (bool * server_sys) :=
  (λ y, (true, y)) <$> server_sys_init (listener_open open_ok option_ok bind_ok listen_ok).

(** [~server()]: the whole of [stop()] in the destroying thread. *)
Definition server_destructor {F : Type} (cfg : server_config) (in_io : bool) (th : nat)
    (ws1 ws2 : list nat) (t : thread_sys (F := F)) : option thread_sys :=
  stop cfg in_io th ws1 ws2 t.

(** [bind] on the server with this manager: its test is [m_manager->connections()]. *)
Definition bind_on {F : Type} (w : world) (bind_id : Z) (handler : F) :
    act (server (F := F)) run_effect bool :=
  bind (connections w) bind_id handler.

(** Handlers cannot be bound while a session or a message exists, whether or
    not the workers run. *)
Lemma bind_needs_no_session {F : Type} T y bind_id (handler : F) (s : server (F := F)) :
  server_inv T y → (alive (wld y) ≠ ∅ ∨ pushes (wld y) ≠ ∅) →
  bind_on (wld y) bind_id handler s = Done false s [].
Proof.
  intros [_ V2 _ _ _ _ _] Ha. unfold bind_on, bind. run_act.
  assert (connections (wld y) ≠ 0) as Hc.
  { unfold connections, use_count. rewrite V2.
    assert (size (alive (wld y)) ≠ 0 ∨ size (pushes (wld y)) ≠ 0)%nat; [|lia].
    destruct Ha as [Ha|Ha]; [left|right]; by intros ?%map_size_empty_inv. }
  by rewrite (proj2 (Z.eqb_neq _ _) Hc), orb_true_r.
Qed.

(** A new server has one accept outstanding, if its acceptor is open, no
    session, and nothing to count. *)
Lemma construct_server_ready open_ok option_ok bind_ok listen_ok :
  ∃ y, construct_server open_ok option_ok bind_ok listen_ok = Some (false, y) ∧
    construct_ssl_server open_ok option_ok bind_ok listen_ok = Some (true, y) ∧
    accepting y = (if open_ok then 1 else 0)%nat ∧ connections (wld y) = 0.
Proof.
  destruct open_ok, option_ok, bind_ok, listen_ok; (eexists; split; [reflexivity|]); done.
Qed.
