(* ===== verification/ClientSession.v ===== *)
(** * ClientSession: [client_session] of impl/client/client_session.hpp

    The session of a client once it is connected: the write queue, the cache of
    awaited responses, the read loop and the pings.  [session_connect]'s part of
    the same object that is needed here is [close_session]; connecting is in
    ClientConnect.  The handlers run in the client's only io thread, [send],
    [send_recv] and [ping] in user threads: those are split at the points where
    they block. *)

From S2P Require Import Prelude Types Header Operations DataCache DataQueue.

Section client_session.
Context {B : Type} `{FlatBuffer B}.

Record client_session := mk_client_session {
  m_read_buffer : B;
  m_cache : data_cache B;
  m_queue : data_queue;
  m_ping : bool;
  m_pong : bool;
  m_read_error : bool;
  m_write_error : bool;
  m_close : bool;
  m_close_received : bool;
  live : promises;           (* the promises of the sends not yet returned *)
  fresh_promise : nat }.

Definition set_m_read_buffer (x : B) (s : client_session) : client_session :=
  mk_client_session x (m_cache s) (m_queue s) (m_ping s) (m_pong s) (m_read_error s)
    (m_write_error s) (m_close s) (m_close_received s) (live s) (fresh_promise s).
Definition set_m_cache (x : data_cache B) (s : client_session) : client_session :=
  mk_client_session (m_read_buffer s) x (m_queue s) (m_ping s) (m_pong s) (m_read_error s)
    (m_write_error s) (m_close s) (m_close_received s) (live s) (fresh_promise s).
Definition set_m_queue (x : data_queue) (s : client_session) : client_session :=
  mk_client_session (m_read_buffer s) (m_cache s) x (m_ping s) (m_pong s) (m_read_error s)
    (m_write_error s) (m_close s) (m_close_received s) (live s) (fresh_promise s).
Definition set_m_ping (x : bool) (s : client_session) : client_session :=
  mk_client_session (m_read_buffer s) (m_cache s) (m_queue s) x (m_pong s) (m_read_error s)
    (m_write_error s) (m_close s) (m_close_received s) (live s) (fresh_promise s).
Definition set_m_pong (x : bool) (s : client_session) : client_session :=
  mk_client_session (m_read_buffer s) (m_cache s) (m_queue s) (m_ping s) x (m_read_error s)
    (m_write_error s) (m_close s) (m_close_received s) (live s) (fresh_promise s).
Definition set_m_read_error (x : bool) (s : client_session) : client_session :=
  mk_client_session (m_read_buffer s) (m_cache s) (m_queue s) (m_ping s) (m_pong s) x
    (m_write_error s) (m_close s) (m_close_received s) (live s) (fresh_promise s).
Definition set_m_write_error (x : bool) (s : client_session) : client_session :=
  mk_client_session (m_read_buffer s) (m_cache s) (m_queue s) (m_ping s) (m_pong s)
    (m_read_error s) x (m_close s) (m_close_received s) (live s) (fresh_promise s).
Definition set_m_close (x : bool) (s : client_session) : client_session :=
  mk_client_session (m_read_buffer s) (m_cache s) (m_queue s) (m_ping s) (m_pong s)
    (m_read_error s) (m_write_error s) x (m_close_received s) (live s) (fresh_promise s).
Definition set_m_close_received (x : bool) (s : client_session) : client_session :=
  mk_client_session (m_read_buffer s) (m_cache s) (m_queue s) (m_ping s) (m_pong s)
    (m_read_error s) (m_write_error s) (m_close s) x (live s) (fresh_promise s).
Definition set_live (x : promises) (s : client_session) : client_session :=
  mk_client_session (m_read_buffer s) (m_cache s) (m_queue s) (m_ping s) (m_pong s)
    (m_read_error s) (m_write_error s) (m_close s) (m_close_received s) x (fresh_promise s).
Definition set_fresh_promise (x : nat) (s : client_session) : client_session :=
  mk_client_session (m_read_buffer s) (m_cache s) (m_queue s) (m_ping s) (m_pong s)
    (m_read_error s) (m_write_error s) (m_close s) (m_close_received s) (live s) x.

Inductive client_effect : Type :=
  | eff_read
  | eff_write (msg : list byte)
  | eff_ping
  | eff_close
  | eff_notify (l : nat)                       (* [row->cv.notify_all()] *)
  | eff_notify_ping                            (* [m_ping_cv.notify_all()] *)
  | eff_broadcast (f : Z) (data : list byte)   (* a bound broadcast handler *)
  | eff_post (d : data_send)                   (* [weak_post(.. handle_send ..)] *)
  | eff_post_ping.

Abbreviation kact := (act client_session client_effect).

Definition kthis : kact client_session := act_get.

(** An operation of [m_cache]. *)
Definition on_cache {A} (m : act (data_cache B) cache_effect A) : kact A := λ s,
  match m (m_cache s) with
  | Done a c es => Done a (set_m_cache c s) ((λ '(notify_row l), eff_notify l) <$> es)
  | Thrown w c es => Thrown w (set_m_cache c s) ((λ '(notify_row l), eff_notify l) <$> es)
  | Undefined => Undefined
  end.

(** The bound broadcast handlers; [None] is an empty function.  What a handler
    does to the buffer it is given is lost: the buffer is emptied after it. *)
Context (host : byte_order) (m_bound_funcs : gmap Z bool).

Definition new_client_session : client_session :=
  mk_client_session fb_empty (new_data_cache config.queue_recv_max)
    (new_data_queue config.queue_send_max) false false false false false false ∅ 0.

(** ** Closing *)

Definition close_session : kact unit :=
  let! s := kthis in
  if m_close s || m_close_received s then act_ret tt
  else do! act_modify (set_m_close true) in act_emit eff_close.

(** [on_close] only logs. *)
Definition on_close (ec : error_code) : kact unit := act_ret tt.

(** ** Ping *)

Definition handle_ping : kact unit :=
  let! s := kthis in
  if m_ping s then act_ret tt
  else do! act_modify (set_m_ping true) in act_emit eff_ping.

Definition on_ping (ec : error_code) : kact unit := act_modify (set_m_ping false).

(** [ping()] up to the post, and under the lock up to the wait; the wait ends
    with [m_pong] or with the time out. *)
Definition ping_post : kact unit := act_emit eff_post_ping.
Definition ping_lock : kact unit := act_modify (set_m_pong false).
Definition ping_result (s : client_session) : bool := m_pong s.

(** ** Writing *)

Definition write : kact unit :=
  let! s := kthis in
  match queue_front (m_queue s) with
  | None => act_undef
  | Some d => act_emit (eff_write (header_bytes host (send_header d) ++ body d))
  end.

Definition handle_send (d : data_send) : kact unit :=
  let! s := kthis in
  if m_close s || m_close_received s || m_write_error s || m_read_error s then act_ret tt
  else
    let '(ok, q) := queue_push d (m_queue s) in
    do! act_modify (set_m_queue q) in
    if negb ok then act_ret tt
    else if queue_is_writing q then act_ret tt
    else write.

Definition on_write (ec : error_code) : kact unit :=
  let! s := kthis in
  if ec_bool ec || m_close s || m_close_received s || m_read_error s then
    let '(q, ps) := queue_clear (m_queue s) (live s) in
    do! act_modify (λ s, set_live ps (set_m_queue q s)) in
    do! act_modify (set_m_write_error true) in
    close_session
  else
    match queue_write_next (m_queue s) (live s) with
    | None => act_undef
    | Some (more, q, ps) =>
        do! act_modify (λ s, set_live ps (set_m_queue q s)) in
        act_when more write
    end.

(** ** Reading *)

Definition read : kact unit := act_emit eff_read.

(** The message in the buffer of [s0]: to the broadcast handler bound to its call
    id, else to the caller that waits for its result id. *)
Definition handle_message (s0 : client_session) : kact unit :=
  if decide (sizeof_io_header ≤ length (fb_data (m_read_buffer s0)))%nat then
    match header_of_bytes host (fb_data (m_read_buffer s0)) with
    | None => act_undef
    | Some header =>
        do! act_modify (λ s, set_m_read_buffer (fb_consume sizeof_io_header (m_read_buffer s)) s) in
        let! s := kthis in
        match m_bound_funcs !! call_id header with
        | Some has_handler =>
            act_when has_handler
              (act_emit (eff_broadcast (call_id header) (fb_data (m_read_buffer s))))
        | None =>
            let! buffer := on_cache (swap_notify (result_id header) (m_read_buffer s)) in
            act_modify (set_m_read_buffer buffer)
        end
    end
  else act_ret tt.              (* logged: invalid buffer *)

(** [clock]: the readings of the clock in [remove_obsolete]. *)
Definition on_read (clock : nat → time_point) (ec : error_code) : kact unit :=
  let! s := kthis in
  if ec_bool ec || m_close_received s then
    do! on_cache cache_clear in
    do! act_modify (set_m_read_error true) in
    close_session
  else
    do! handle_message s in
    do! on_cache (remove_obsolete clock) in
    do! act_modify (λ s, set_m_read_buffer
          (fb_consume (length (fb_data (m_read_buffer s))) (m_read_buffer s)) s) in
    read.

Definition on_control_callback (kind : frame_type) : kact unit :=
  match kind with
  | frame_pong => do! act_modify (set_m_pong true) in act_emit eff_notify_ping
  | frame_close => act_modify (set_m_close_received true)
  | frame_ping => act_ret tt
  end.

(** ** Sending, in a user thread *)

(** [send()] and [send_recv()] up to their wait: a promise, and the posted
    [handle_send]; the result is the promise. *)
Definition post_send (p_call_id p_result_id : Z) (data : list byte) : kact nat :=
  let! s := kthis in
  let p := fresh_promise s in
  do! act_modify (λ s, set_fresh_promise (S p) (set_live (<[p := None]> (live s)) s)) in
  do! act_emit (eff_post (new_data_send p_call_id p_result_id p data)) in
  act_ret p.

(** The end of [written.wait_for(..)] and of the scope of the promise: whether
    it was ready, the value itself being ignored. *)
Definition send_done (p : nat) : kact bool :=
  let! s := kthis in
  do! act_modify (set_live (delete p (live s))) in
  act_ret (promise_ready p (live s)).

Definition send (p_call_id : Z) (data : list byte) : kact nat := post_send p_call_id 0 data.

(** The outcomes of [send_recv]: its [ec], or none. *)
Inductive recv_error : Set := operation_aborted | timed_out.

(** [send_recv()] up to its first wait.  [response_timeout * 2] is signed
    arithmetic. *)
Definition send_recv (now : time_point) (response_timeout : duration) (p_call_id : Z)
    (data : list byte) : kact (recv_error + (Z * nat)) :=
  match duration_mul response_timeout 2 with
  | None => act_undef
  | Some valid =>
      let! result_id := on_cache (cache_queue now valid) in
      if decide (result_id = 0) then act_ret (inl operation_aborted)
      else
        let! p := post_send p_call_id result_id data in
        act_ret (inr (result_id, p))
  end.

(** After the first wait: [Some] is the final [ec]. *)
Definition send_recv_written (result_id : Z) (p : nat) : kact (recv_error + wait_result) :=
  let! ready := send_done p in
  if ready then let! r := on_cache (cache_wait_begin result_id) in act_ret (inr r)
  else act_ret (inl timed_out).

(** The second wait, [m_cache.wait(..)], ends in two sections under the lock of
    the row: [wait_for] returns, which decides [ec], ... *)
Definition send_recv_waited (l : nat) : kact (option recv_error) :=
  let! ok := on_cache (cache_wait_done l) in
  act_ret (if ok : bool then None else Some timed_out).

(** ... and, after whatever other threads did in between, [recv_bytes] is swapped
    with the buffer of the row. *)
Definition send_recv_done (l : nat) (recv_bytes : B) : kact B :=
  on_cache (cache_take_buffer l recv_bytes).
End client_session.
