(* ===== verification/ClientSystem.v ===== *)
(** * ClientSystem: a connected client session, its io thread and its users

    The io thread runs the handlers of the session and the closures posted to
    it, in order; user threads send, wait for responses and ping at any time.
    The invariants are those Boost.Beast requires and those [send] relies on. *)

From S2P Require Import Prelude Types Header Operations DataCache DataCacheFacts DataQueue ClientSession.

Section client_system.
Context {B : Type} `{FlatBuffer B}.
Context (host : byte_order) (m_bound_funcs : gmap Z bool).
Abbreviation client_session := (client_session (B := B)).
Abbreviation kact := (act client_session client_effect).

(** Operations started and not completed, the closes ever started, what was
    given to [async_write], and the closures posted and not yet run. *)
Record pending := mk_pending {
  p_read : nat; p_write : nat; p_ping : nat; p_close : nat;
  closes : nat; wire : list (list byte); posted : list data_send; posted_pings : nat }.

Definition pend_effect (p : pending) (e : client_effect) : pending :=
  let '(mk_pending r w g c n l q k) := p in
  match e with
  | eff_read => mk_pending (S r) w g c n l q k
  | eff_write msg => mk_pending r (S w) g c n (l ++ [msg]) q k
  | eff_ping => mk_pending r w (S g) c n l q k
  | eff_close => mk_pending r w g (S c) (S n) l q k
  | eff_post d => mk_pending r w g c n l (q ++ [d]) k
  | eff_post_ping => mk_pending r w g c n l q (S k)
  | eff_notify _ | eff_notify_ping | eff_broadcast _ _ => p
  end.

Definition pend_effects : pending → list client_effect → pending := foldl pend_effect.

(** A call of a broadcast handler: its id and the bytes it is given. *)
Definition handler_call (e : client_effect) : option (Z * list byte) :=
  match e with eff_broadcast f data => Some (f, data) | _ => None end.

(** [accepted]: the sends [handle_send] queued; [sent]: those written;
    [handled]: the calls of the broadcast handlers (ghost). *)
Record client_sys := mk_client_sys {
  cl : client_session;
  pend : pending;
  accepted : list data_send;
  sent : list data_send;
  handled : list (Z * list byte) }.

Inductive client_event : Type :=
  | ce_read (clock : nat → time_point) (ec : error_code) (msg : list byte)
  | ce_write (ec : error_code)
  | ce_control (kind : frame_type)
  | ce_ping (ec : error_code)
  | ce_close (ec : error_code)
  | ce_run_send                                   (* a posted [handle_send] *)
  | ce_run_ping                                   (* a posted [handle_ping] *)
  | ce_run_close                                  (* [close_session], by [close()] *)
  | ce_user_send (p_call_id p_result_id : Z) (data : list byte)
  | ce_user_sent (p : nat)                        (* the wait for [written] ends *)
  | ce_user_queue (now : time_point) (valid : duration)
  | ce_user_wait (result_id : Z)
  | ce_user_take (l : nat) (recv_bytes : B)       (* the wait for the row ends *)
  | ce_user_ping
  | ce_user_ping_lock.

Definition client_enabled (t : client_sys) (e : client_event) : bool :=
  let p := pend t in
  match e with
  | ce_read _ _ _ => (0 <? p_read p)%nat
  | ce_write _ => (0 <? p_write p)%nat
  | ce_ping _ => (0 <? p_ping p)%nat
  | ce_close _ => (0 <? p_close p)%nat
  | ce_run_send => bool_decide (posted p ≠ [])
  | ce_run_ping => (0 <? posted_pings p)%nat
  | ce_user_sent q => bool_decide (is_Some (live (cl t) !! q))
  | ce_user_queue _ _ => bool_decide (dc_id_counter (m_cache (cl t)) + 1 < 2 ^ 64)
  | ce_user_take l _ => (l <? length (dc_rows (m_cache (cl t))))%nat
  | _ => true
  end.

Definition done_read p := mk_pending (pred (p_read p)) (p_write p) (p_ping p) (p_close p)
  (closes p) (wire p) (posted p) (posted_pings p).
Definition done_write p := mk_pending (p_read p) (pred (p_write p)) (p_ping p) (p_close p)
  (closes p) (wire p) (posted p) (posted_pings p).
Definition done_ping p := mk_pending (p_read p) (p_write p) (pred (p_ping p)) (p_close p)
  (closes p) (wire p) (posted p) (posted_pings p).
Definition done_close p := mk_pending (p_read p) (p_write p) (p_ping p) (pred (p_close p))
  (closes p) (wire p) (posted p) (posted_pings p).
Definition run_posted p := mk_pending (p_read p) (p_write p) (p_ping p) (p_close p)
  (closes p) (wire p) (tail (posted p)) (posted_pings p).
Definition run_posted_ping p := mk_pending (p_read p) (p_write p) (p_ping p) (p_close p)
  (closes p) (wire p) (posted p) (pred (posted_pings p)).

Definition entries (s : client_session) : list data_send := dq_entries (m_queue s).

Definition deliver {A} (m : kact A) (s : client_session) (p : pending) (t : client_sys)
    (new_sent : client_session → list data_send) : option client_sys :=
  match m s with
  | Done _ s' es =>
      Some (mk_client_sys s' (pend_effects p es)
              (accepted t ++ drop (length (entries (cl t))) (entries s')) (new_sent s')
              (handled t ++ omap handler_call es))
  | _ => None
  end.

Definition client_handle (t : client_sys) (e : client_event) : option client_sys :=
  let s := cl t in let p := pend t in
  match e with
  | ce_read clock ec msg =>
      deliver (on_read host m_bound_funcs clock ec)
        (set_m_read_buffer (fb_append msg (m_read_buffer s)) s) (done_read p) t (λ _, sent t)
  | ce_write ec =>
      deliver (on_write host ec) s (done_write p) t
        (λ s', if m_write_error s' then sent t else sent t ++ take 1 (entries s))
  | ce_control kind => deliver (on_control_callback kind) s p t (λ _, sent t)
  | ce_ping ec => deliver (on_ping ec) s (done_ping p) t (λ _, sent t)
  | ce_close ec => deliver (on_close ec) s (done_close p) t (λ _, sent t)
  | ce_run_send =>
      match posted p with
      | [] => None
      | d :: _ => deliver (handle_send host d) s (run_posted p) t (λ _, sent t)
      end
  | ce_run_ping => deliver handle_ping s (run_posted_ping p) t (λ _, sent t)
  | ce_run_close => deliver close_session s p t (λ _, sent t)
  | ce_user_send id rid data => deliver (post_send id rid data) s p t (λ _, sent t)
  | ce_user_sent q => deliver (send_done q) s p t (λ _, sent t)
  | ce_user_queue now valid => deliver (on_cache (cache_queue now valid)) s p t (λ _, sent t)
  | ce_user_wait rid => deliver (on_cache (cache_wait_begin rid)) s p t (λ _, sent t)
  | ce_user_take l b => deliver (send_recv_done l b) s p t (λ _, sent t)
  | ce_user_ping => deliver ping_post s p t (λ _, sent t)
  | ce_user_ping_lock => deliver ping_lock s p t (λ _, sent t)
  end.

(** After a successful handshake: [read()] has been called. *)
Definition client_sys_init : client_sys :=
  mk_client_sys new_client_session (pend_effects (mk_pending 0 0 0 0 0 [] [] 0) [eff_read]) [] [] [].

Definition client_steps := steps client_enabled client_handle.
Definition client_run := run client_enabled client_handle.
End client_system.
