(* ===== verification/ClientSystemFacts.v ===== *)
(** * ClientSystemFacts: the invariants of a client session *)

From S2P Require Import Prelude Types Header Operations DataCache DataCacheFacts DataQueue.
From S2P Require Import ClientSession ClientSystem.

#[local] Opaque config.queue_send_max.

Section facts.
Context {B : Type} `{FlatBuffer B, !FlatBufferLaws B}.
Context (host : byte_order) (m_bound_funcs : gmap Z bool).
Abbreviation client_session := (client_session (B := B)).
Abbreviation client_sys := (client_sys (B := B)).
Abbreviation kact := (act client_session client_effect).
Implicit Types (s : client_session) (p : pending) (t : client_sys) (c : data_cache B).

(** The bytes of a message on the wire. *)
Definition send_message (d : data_send) : list byte :=
  header_bytes host (send_header d) ++ body d.

Lemma client_pend_effects_app p es es' : pend_effects p (es ++ es') = pend_effects (pend_effects p es) es'.
Proof. apply foldl_app. Qed.

Record core s p (snt : list data_send) : Prop := {
  c_write : p_write p = match entries s with [] => 0%nat | _ => 1%nat end;
  c_max : dq_max_entries (m_queue s) = config.queue_send_max;
  c_length : (length (entries s) ≤ config.queue_send_max)%nat;
  c_write_error : m_write_error s = true → entries s = [];
  c_close : closes p = if m_close s then 1%nat else 0%nat;
  c_ping : p_ping p = if m_ping s then 1%nat else 0%nat;
  c_cache : cache_wf (m_cache s);
  c_fifo : m_write_error s = false → wire p = send_message <$> snt ++ take 1 (entries s) }.

Record frame s p s' p' : Prop := {
  f_read_error : m_read_error s' = m_read_error s;
  f_write_error : m_write_error s' = m_write_error s;
  f_queue : entries s `prefix_of` entries s';
  f_read : p_read p' = p_read p;
  f_wire : m_write_error s = true → wire p' = wire p }.

Lemma client_frame_refl s p : frame s p s p.
Proof. by split. Qed.

Lemma client_frame_trans s p s' p' s'' p'' : frame s p s' p' → frame s' p' s'' p'' → frame s p s'' p''.
Proof.
  intros [] []. split; try (by etrans; eauto); auto.
  intros Hw. rewrite f_wire1 by congruence. auto.
Qed.

(** Handlers that keep [core] and [frame]. *)
Definition good {A} (m : kact A) s : Prop :=
  ∀ p snt, core s p snt →
    wp m (λ _ s' es, core s' (pend_effects p es) snt ∧ frame s p s' (pend_effects p es)) s.

Lemma client_good_ret {A} (a : A) s : good (act_ret a) s.
Proof. intros p snt Hc. apply wp_ret. split; [done|apply client_frame_refl]. Qed.

Lemma good_get {A} (k : client_session → kact A) s :
  good (k s) s → good (let! s0 := kthis in k s0) s.
Proof.
  intros Hk p snt Hc. apply wp_bind, wp_get. simpl. eapply wp_mono; [by apply Hk|]. auto.
Qed.

Lemma client_good_bind {A C} (m : kact A) (k : A → kact C) s :
  good m s → (∀ a s', good (k a) s') → good (act_bind m k) s.
Proof.
  intros Hm Hk p snt Hc. apply wp_bind. eapply wp_mono; [by apply Hm|].
  intros a s' es [Hc' Hf]. eapply wp_mono; [by apply Hk|].
  intros b s'' es' [Hc'' Hf']. rewrite client_pend_effects_app.
  split; [done|by eapply client_frame_trans].
Qed.

Lemma client_good_when b m s : good m s → good (act_when b m) s.
Proof. intros Hm. destruct b; [done|apply client_good_ret]. Qed.

(** Effects that start none of the counted operations. *)
Definition quiet (e : client_effect) : Prop :=
  ∀ p, p_read (pend_effect p e) = p_read p ∧ p_write (pend_effect p e) = p_write p ∧
    p_ping (pend_effect p e) = p_ping p ∧ closes (pend_effect p e) = closes p ∧
    wire (pend_effect p e) = wire p.

Lemma quiet_pend es p : Forall quiet es →
  p_read (pend_effects p es) = p_read p ∧ p_write (pend_effects p es) = p_write p ∧
  p_ping (pend_effects p es) = p_ping p ∧ closes (pend_effects p es) = closes p ∧
  wire (pend_effects p es) = wire p.
Proof.
  intros He. revert p. induction He as [|e es He _ IH]; intros p; [done|]. simpl.
  destruct (IH (pend_effect p e)) as (-> & -> & -> & -> & ->). apply He.
Qed.

(** States that agree on what the invariant mentions. *)
Definition agree s s' : Prop :=
  m_read_error s' = m_read_error s ∧ m_write_error s' = m_write_error s ∧ m_queue s' = m_queue s ∧
  m_close s' = m_close s ∧ m_ping s' = m_ping s ∧ (cache_wf (m_cache s) → cache_wf (m_cache s')).

Lemma good_agree {A} (m : kact A) s a s' es :
  m s = Done a s' es → agree s s' → Forall quiet es → good m s.
Proof.
  intros Hm (A1 & A2 & A3 & A4 & A5 & A6) Hes p snt [C1 C2 C3 C4 C5 C6 C7 C8].
  unfold wp. rewrite Hm. destruct (quiet_pend es p Hes) as (E1 & E2 & E3 & E4 & E5).
  unfold entries in *. split; split; unfold entries;
    rewrite ?A1, ?A2, ?A3, ?A4, ?A5, ?E1, ?E2, ?E3, ?E4, ?E5; auto.
Qed.

Lemma client_good_modify f s : agree s (f s) → good (act_modify f) s.
Proof. intros Ha. by eapply good_agree. Qed.

Lemma client_good_emit e s : quiet e → good (act_emit e) s.
Proof. intros He. eapply good_agree; [done|split_and!; try done; auto|]. by constructor. Qed.

(** ** The handlers *)

Lemma client_good_close_session s : good close_session s.
Proof.
  apply good_get. destruct (m_close s) eqn:Ec; [apply client_good_ret|].
  destruct (m_close_received s); [apply client_good_ret|]. simpl.
  intros [] snt [C1 C2 C3 C4 C5 C6 C7 C8]. simpl in *. rewrite Ec in C5. run_act.
  split; split; simpl; try done; lia.
Qed.

Lemma good_handle_ping s : good handle_ping s.
Proof.
  apply good_get. destruct (m_ping s) eqn:Ec; [apply client_good_ret|].
  intros [] snt [C1 C2 C3 C4 C5 C6 C7 C8]. simpl in *. rewrite Ec in C6. run_act.
  split; split; simpl; try done; lia.
Qed.

Definition sending s : Prop :=
  m_close s = false ∧ m_close_received s = false ∧ m_write_error s = false ∧ m_read_error s = false.

#[export] Instance sending_dec s : Decision (sending s).
Proof. unfold sending. apply _. Defined.

Lemma client_handle_send_stopped d s : ¬ sending s → handle_send host d s = Done tt s [].
Proof.
  intros Hs. unfold handle_send. run_act.
  destruct (m_close s || m_close_received s || m_write_error s || m_read_error s) eqn:E; [done|].
  exfalso. apply Hs. by prop_bools.
Qed.

Lemma client_handle_send_full d s :
  (dq_max_entries (m_queue s) ≤ length (entries s))%nat → handle_send host d s = Done tt s [].
Proof.
  intros Hl. unfold handle_send. run_act. destruct (_ || _); [done|].
  rewrite queue_push_full by done. by destruct s.
Qed.

Lemma client_handle_send_room d s :
  sending s → (length (entries s) < dq_max_entries (m_queue s))%nat →
  handle_send host d s =
    Done tt (set_m_queue (mk_data_queue (dq_max_entries (m_queue s)) (entries s ++ [d])) s)
      (match entries s with [] => [eff_write (send_message d)] | _ => [] end).
Proof.
  intros (E1 & E2 & E3 & E4) Hl. unfold handle_send, write. run_act.
  rewrite E1, E2, E3, E4. simpl. rewrite queue_push_room by done. run_act.
  unfold entries, queue_is_writing in *. simpl.
  destruct (dq_entries (m_queue s)) as [|d0 ds] eqn:Eq; simpl; [done|].
  rewrite bool_decide_eq_true_2; [done|]. rewrite length_app. simpl. lia.
Qed.

Lemma client_good_handle_send d s : good (handle_send host d) s.
Proof.
  intros p snt Hc. unfold wp. pose proof (client_frame_refl s p).
  destruct (decide (sending s)) as [Hs|Hs]; [|by rewrite client_handle_send_stopped].
  destruct (decide (dq_max_entries (m_queue s) ≤ length (entries s))%nat) as [Hl|Hl];
    [by rewrite client_handle_send_full|].
  rewrite client_handle_send_room by (done || lia). destruct Hs as (E1 & E2 & E3 & E4).
  destruct p, Hc as [C1 C2 C3 C4 C5 C6 C7 C8]. specialize (C8 E3). unfold entries in *. simpl in *.
  destruct (dq_entries (m_queue s)) as [|d0 ds] eqn:Eq; simpl in *; subst; split; split;
    unfold entries; simpl in *; try done; try congruence; rewrite ?Eq, ?length_app; simpl; try lia.
  - by rewrite app_nil_r, fmap_app.
  - by apply prefix_nil.
  - by rewrite app_comm_cons; apply prefix_app_r.
Qed.

(** ** Operations of the cache *)

Lemma good_on_cache {A} (m : act (data_cache B) cache_effect A) s :
  (cache_wf (m_cache s) → ∃ a c es, m (m_cache s) = Done a c es ∧ cache_wf c) →
  good (on_cache m) s.
Proof.
  intros Hm p snt Hc. destruct (Hm (c_cache _ _ _ Hc)) as (a & c & es & E & Hwf).
  revert p snt Hc. change (good (on_cache m) s). eapply good_agree.
  - unfold on_cache. by rewrite E.
  - unfold agree; simpl; split_and!; auto.
  - apply Forall_fmap, Forall_true. by intros [l] [].
Qed.

Lemma good_cache_clear s : good (on_cache cache_clear) s.
Proof.
  apply good_on_cache. intros Hw. destruct (cache_clear_spec _ Hw) as (c & es & ? & ? & _). eauto.
Qed.

Lemma good_remove_obsolete clock s : good (on_cache (remove_obsolete clock)) s.
Proof.
  apply good_on_cache. intros Hw. destruct (remove_obsolete_spec clock _ Hw) as (m & ? & ? & _).
  do 3 eexists. split; [done|by apply set_entries_wf].
Qed.

Lemma swap_notify_wf id buffer c :
  cache_wf c → ∃ b c' es, swap_notify id buffer c = Done b c' es ∧ cache_wf c'.
Proof.
  intros Hw. destruct (dc_entries c !! id) as [l|] eqn:E.
  - destruct (wf_row_lookup _ _ _ Hw E) as [row Hr].
    rewrite (swap_notify_Some _ _ l row) by done. simpl.
    case_decide; do 3 eexists; (split; [done|]); [|by apply update_row_wf].
    by apply (delete_entry_wf id (update_row _ l c)), update_row_wf.
  - rewrite swap_notify_None by done. eauto.
Qed.

Lemma cache_queue_total now valid c :
  cache_wf c → dc_id_counter c + 1 < 2 ^ 64 →
  ∃ id c' es, cache_queue now valid c = Done id c' es ∧ cache_wf c'.
Proof.
  intros Hw Hc. destruct (decide (dc_max_entries c ≤ size (dc_entries c))%nat) as [Hf|Hf].
  - rewrite cache_queue_full by done. eauto.
  - pose proof (cache_queue_room now valid c ltac:(lia) Hc Hw) as E.
    do 3 eexists. split; [exact E|]. by eapply cache_queue_wf.
Qed.

Lemma cache_wait_begin_total id c :
  cache_wf c → ∃ r c' es, cache_wait_begin id c = Done r c' es ∧ cache_wf c'.
Proof.
  intros Hw. destruct (dc_entries c !! id) as [l|] eqn:E.
  - destruct (wf_row_lookup _ _ _ Hw E) as [row Hr].
    destruct (decide (state row = ds_swapped)).
    + erewrite cache_wait_begin_swapped by done. do 3 eexists. split; [done|by apply delete_entry_wf].
    + erewrite cache_wait_begin_blocked by done. do 3 eexists. split; [done|by apply update_row_wf].
  - rewrite cache_wait_begin_None by done. eauto.
Qed.

Lemma send_recv_done_run l b s row :
  dc_rows (m_cache s) !! l = Some row →
  send_recv_done l b s =
    Done (read_buffer row) (set_m_cache (update_row (set_read_buffer b) l (m_cache s)) s) [].
Proof.
  intros Hr. unfold send_recv_done, on_cache. by rewrite (cache_take_buffer_Some _ _ row).
Qed.

(** The end of [wait_for] changes nothing. *)
Lemma send_recv_waited_run l s row :
  dc_rows (m_cache s) !! l = Some row →
  send_recv_waited l s =
    Done (if bool_decide (state row = ds_swapped) then None else Some timed_out) s [].
Proof.
  intros Hr. unfold send_recv_waited, on_cache, act_bind.
  rewrite (cache_wait_done_Some _ _ row) by done. simpl. by destruct s.
Qed.

(** ** The steps of the users' threads *)

Lemma client_good_post_send id rid data s : good (post_send id rid data) s.
Proof.
  eapply good_agree; [done|unfold agree; simpl; by auto 10|]. repeat constructor; by destruct p.
Qed.

Lemma client_good_send_done q s : good (send_done q) s.
Proof. eapply good_agree; [done|unfold agree; simpl; by auto 10|constructor]. Qed.

Lemma client_good_cache_queue now valid s :
  dc_id_counter (m_cache s) + 1 < 2 ^ 64 → good (on_cache (cache_queue now valid)) s.
Proof. intros. apply good_on_cache. intros. by apply cache_queue_total. Qed.

Lemma client_good_cache_wait rid s : good (on_cache (cache_wait_begin rid)) s.
Proof. apply good_on_cache. intros. by apply cache_wait_begin_total. Qed.

Lemma client_good_send_recv_done l b s row :
  dc_rows (m_cache s) !! l = Some row → good (send_recv_done l b) s.
Proof.
  intros Hr. eapply good_agree; [by apply send_recv_done_run|unfold agree; simpl|constructor].
  split_and!; auto. apply update_row_wf.
Qed.

Lemma client_good_send_recv_waited l s row :
  dc_rows (m_cache s) !! l = Some row → good (send_recv_waited l) s.
Proof.
  intros Hr. eapply good_agree; [by apply send_recv_waited_run|unfold agree; by auto 10|constructor].
Qed.

(** The three steps of [send_recv]. *)
Lemma client_good_send_recv now response_timeout id data s :
  is_Some (duration_mul response_timeout 2) → dc_id_counter (m_cache s) + 1 < 2 ^ 64 →
  good (send_recv now response_timeout id data) s.
Proof.
  intros [valid Hv] Hc. unfold send_recv. rewrite Hv.
  apply client_good_bind; [by apply client_good_cache_queue|]. intros rid s1.
  case_decide; [apply client_good_ret|].
  apply client_good_bind; [apply client_good_post_send|]. intros. apply client_good_ret.
Qed.

Lemma client_good_send_recv_written rid q s : good (send_recv_written rid q) s.
Proof.
  apply client_good_bind; [apply client_good_send_done|]. intros [] s1; [|apply client_good_ret].
  apply client_good_bind; [apply client_good_cache_wait|]. intros. apply client_good_ret.
Qed.

(** ** The invariant of the system *)

Record client_inv t : Prop := {
  k_core : core (cl t) (pend t) (sent t);
  k_accepted : m_write_error (cl t) = false → accepted t = sent t ++ entries (cl t);
  k_prefix : wire (pend t) `prefix_of` (send_message <$> accepted t);
  k_read : p_read (pend t) = if m_read_error (cl t) then 0%nat else 1%nat;
  k_buffer : m_read_error (cl t) = false → fb_data (m_read_buffer (cl t)) = [] }.

Definition empty_buffer s : Prop := fb_data (m_read_buffer s) = [].

Lemma pres_on_cache {A} (m : act (data_cache B) cache_effect A) : pres empty_buffer (on_cache m).
Proof.
  intros s a s' es. unfold on_cache. destruct (m (m_cache s)); try done. by intros [= <- <- <-].
Qed.

Lemma empty_close_session : pres empty_buffer close_session.
Proof. unfold close_session, kthis. by solve_pres. Qed.
Lemma empty_handle_send d : pres empty_buffer (handle_send host d).
Proof. unfold handle_send, write, kthis. by solve_pres. Qed.
Lemma empty_handle_ping : pres empty_buffer handle_ping.
Proof. unfold handle_ping, kthis. by solve_pres. Qed.
Lemma empty_post_send id rid data : pres empty_buffer (post_send id rid data).
Proof. unfold post_send, kthis. by solve_pres. Qed.
Lemma empty_send_done q : pres empty_buffer (send_done q).
Proof. unfold send_done, kthis. by solve_pres. Qed.
Lemma empty_send_recv_done l b : pres empty_buffer (send_recv_done l b).
Proof. apply pres_on_cache. Qed.
Lemma empty_send_recv_waited l : pres empty_buffer (send_recv_waited l).
Proof. apply pres_bind; [apply pres_on_cache|]. intros. apply pres_ret. Qed.
Lemma empty_send_recv now rt id data : pres empty_buffer (send_recv now rt id data).
Proof.
  unfold send_recv. destruct (duration_mul rt 2); [|apply pres_undef].
  apply pres_bind; [apply pres_on_cache|]. intros rid. case_decide; [apply pres_ret|].
  apply pres_bind; [apply empty_post_send|]. intros. apply pres_ret.
Qed.
Lemma empty_send_recv_written rid q : pres empty_buffer (send_recv_written rid q).
Proof.
  unfold send_recv_written. apply pres_bind; [apply empty_send_done|]. intros [].
  - apply pres_bind; [apply pres_on_cache|]. intros. apply pres_ret.
  - apply pres_ret.
Qed.

Lemma client_fifo_prefix s p acc snt :
  core s p snt → m_write_error s = false → acc = snt ++ entries s →
  wire p `prefix_of` (send_message <$> acc).
Proof.
  intros Hc Hw ->. rewrite (c_fifo s p snt Hc Hw). apply prefix_fmap, prefix_app, take_prefix.
Qed.

(** The histories after a handler. *)
Lemma histories_kept s p s' p' acc snt :
  (m_write_error s = false → acc = snt ++ entries s) →
  wire p `prefix_of` (send_message <$> acc) →
  core s' p' snt → m_write_error s' = m_write_error s → entries s `prefix_of` entries s' →
  (m_write_error s = true → wire p' = wire p) →
  let acc' := acc ++ drop (length (entries s)) (entries s') in
  (m_write_error s' = false → acc' = snt ++ entries s') ∧
  wire p' `prefix_of` (send_message <$> acc').
Proof.
  intros Ha Hp Hc' Hw [r Hr] Hwire acc'. unfold acc'.
  rewrite Hr, drop_app_length, <-Hr.
  assert (m_write_error s' = false → acc ++ r = snt ++ entries s') as Ha'.
  { intros Hf. rewrite Ha, Hr, app_assoc; [done|congruence]. }
  split; [done|]. destruct (m_write_error s) eqn:Ew.
  - rewrite Hwire, fmap_app by done. by apply prefix_app_r.
  - eapply client_fifo_prefix; [done|done|by apply Ha'].
Qed.

(** A [good] handler run in state [s], after its completion was consumed. *)
Lemma good_kept {A} (m : kact A) s p t :
  good m s → core s p (sent t) →
  (m_write_error s = false → accepted t = sent t ++ entries s) →
  wire p `prefix_of` (send_message <$> accepted t) → entries (cl t) = entries s →
  ∃ a s' es, m s = Done a s' es ∧
    let acc' := accepted t ++ drop (length (entries (cl t))) (entries s') in
    core s' (pend_effects p es) (sent t) ∧ frame s p s' (pend_effects p es) ∧
    (m_write_error s' = false → acc' = sent t ++ entries s') ∧
    wire (pend_effects p es) `prefix_of` (send_message <$> acc').
Proof.
  intros Hm Hc Ha Hp Hq. destruct (proj1 (wp_Done _ _ _) (Hm p (sent t) Hc))
    as (a & s' & es & E & Hc' & Hf).
  exists a, s', es. split; [done|]. simpl. rewrite Hq. split; [done|]. split; [done|].
  destruct Hf. by eapply histories_kept.
Qed.

Abbreviation handle := (client_handle host m_bound_funcs).
Abbreviation kept t e := (∃ t', handle t e = Some t' ∧ client_inv t').

(** Handlers that neither read nor complete a read. *)
Lemma client_inv_good {A} (m : kact A) p t :
  client_inv t → good m (cl t) → pres empty_buffer m →
  p_read p = p_read (pend t) → p_write p = p_write (pend t) → closes p = closes (pend t) →
  p_ping p = p_ping (pend t) → wire p = wire (pend t) →
  ∃ t', deliver m (cl t) p t (λ _, sent t) = Some t' ∧ client_inv t'.
Proof.
  intros [[C1 C2 C3 C4 C5 C6 C7 C8] Ha Hp Hr Hb] Hm Hpres E1 E2 E3 E4 E5.
  destruct (good_kept m (cl t) p t Hm) as (a & s' & es & E & Hc' & [F1 F2 F3 F5 F6] & Ha' & Hp');
    [by split; rewrite ?E2, ?E3, ?E4, ?E5|done|by rewrite E5|done|].
  unfold deliver. rewrite E. eexists. split; [done|].
  split; simpl; rewrite ?F1, ?F5, ?E1; auto.
  intros He. by eapply Hpres; [exact E|apply Hb].
Qed.

Lemma step_ping_done t ec : client_inv t → (0 < p_ping (pend t))%nat → kept t (ce_ping ec).
Proof.
  intros [[C1 C2 C3 C4 C5 C6 C7 C8] Ha Hp Hr Hb] Hpos.
  assert (m_ping (cl t) = true) as Ep by (destruct (m_ping (cl t)); [done|lia]).
  rewrite Ep in C6. simpl. unfold deliver. simpl. eexists. split; [done|].
  unfold entries in *. split; simpl; rewrite ?drop_all, ?app_nil_r; auto.
  split; simpl; auto. by rewrite C6.
Qed.

Lemma client_on_write_error ec s :
  ec_bool ec || m_close s || m_close_received s || m_read_error s = true →
  on_write host ec s = close_session (set_m_write_error true
    (set_live (snd (queue_clear (m_queue s) (live s)))
      (set_m_queue (fst (queue_clear (m_queue s) (live s))) s))).
Proof. intros Eb. unfold on_write. run_act. rewrite Eb. run_act. by rewrite !outcome_eta. Qed.

Lemma client_on_write_next ec s d ds :
  ec_bool ec || m_close s || m_close_received s || m_read_error s = false →
  entries s = d :: ds →
  on_write host ec s =
    Done tt (set_live (set_value (result_callback d) true (live s))
      (set_m_queue (mk_data_queue (dq_max_entries (m_queue s)) ds) s))
    (match ds with [] => [] | d' :: _ => [eff_write (send_message d')] end).
Proof.
  intros Eb Eq. unfold on_write, write, queue_write_next, entries in *. run_act. rewrite Eb, Eq.
  run_act. by destruct ds.
Qed.

Lemma client_step_write t ec : client_inv t → (0 < p_write (pend t))%nat → kept t (ce_write ec).
Proof.
  intros [[C1 C2 C3 C4 C5 C6 C7 C8] Ha Hp Hr Hb] Hpos. simpl.
  destruct t as [s p acc snt hd]; simpl in *.
  destruct (entries s) as [|d ds] eqn:Eq; [lia|].
  assert (m_write_error s = false) as Ew by (destruct (m_write_error s); naive_solver).
  destruct (ec_bool ec || m_close s || m_close_received s || m_read_error s) eqn:Eb.
  - unfold deliver. rewrite client_on_write_error by done. set (s1 := set_m_write_error true _).
    assert (entries s1 = []) as Eq1 by done.
    destruct (good_kept close_session s1 (done_write p) (mk_client_sys s1 p acc snt hd))
      as (a & s' & es & E & Hc' & [F1 F2 F3 F5 F6] & Ha' & Hp').
    + apply client_good_close_session.
    + split; simpl; rewrite ?Eq1; try done; try lia.
    + done.
    + done.
    + done.
    + rewrite E. eexists. split; [done|].
      assert (entries s' = []) as Eq' by (eapply c_write_error; [exact Hc'|by rewrite F2]).
      assert (m_write_error s' = true) as Ew' by (by rewrite F2).
      split; simpl; rewrite ?Ew'; simpl in *; rewrite ?Eq', ?drop_nil, ?app_nil_r in *;
        rewrite ?F1, ?F5; simpl; auto; try done.
      intros He. by eapply empty_close_session; [exact E|apply Hb].
  - specialize (Ha Ew). specialize (C8 Ew). subst acc.
    unfold deliver. erewrite client_on_write_next by done. simpl. rewrite Ew.
    eexists. split; [done|]. rewrite Eq. simpl in *.
    rewrite (drop_ge ds) by (simpl; lia). rewrite app_nil_r.
    destruct p, ds as [|d' ds]; simpl in *; subst;
      (split; [split|..]); unfold entries in *; simpl; auto; try done; try lia.
    + by rewrite app_nil_r.
    + by rewrite app_nil_r.
    + by rewrite Ew.
    + by rewrite !fmap_app.
    + by rewrite <-app_assoc.
    + exists (send_message <$> ds). by rewrite !fmap_app, <-!app_assoc.
Qed.

Lemma on_read_ok clock s :
  m_close_received s = false →
  on_read host m_bound_funcs clock ec_success s =
    (do! handle_message host m_bound_funcs s in
     do! on_cache (remove_obsolete clock) in
     do! act_modify (λ s, set_m_read_buffer
           (fb_consume (length (fb_data (m_read_buffer s))) (m_read_buffer s)) s) in
     read) s.
Proof.
  intros Hc. unfold on_read, kthis. unfold act_bind at 1. unfold act_get at 1.
  rewrite Hc. simpl ec_bool. cbn [orb]. by rewrite outcome_eta.
Qed.

Lemma client_on_read_error clock ec s :
  ec_bool ec || m_close_received s = true →
  on_read host m_bound_funcs clock ec s =
    (do! on_cache cache_clear in (do! act_modify (set_m_read_error true) in close_session)) s.
Proof.
  intros Hc. unfold on_read, kthis. unfold act_bind at 1. unfold act_get at 1.
  rewrite Hc. by rewrite outcome_eta.
Qed.

Lemma good_handle_message s0 s : good (handle_message host m_bound_funcs s0) s.
Proof.
  unfold handle_message. case_decide as Hl; [|apply client_good_ret].
  destruct (proj2 (header_of_bytes_is_Some host _) Hl) as [h ->].
  apply client_good_bind; [apply client_good_modify; unfold agree; simpl; auto 10|]. intros _ s1. apply good_get.
  destruct (m_bound_funcs !! call_id h) as [b|].
  - apply client_good_when, client_good_emit. by intros [].
  - apply client_good_bind; [apply good_on_cache; intros; by apply swap_notify_wf|].
    intros b s2. apply client_good_modify. unfold agree. simpl. auto 10.
Qed.

(** [good] and the read that follows. *)
Lemma good_message clock s :
  good (do! handle_message host m_bound_funcs s in do! on_cache (remove_obsolete clock) in
        act_modify (λ s, set_m_read_buffer
          (fb_consume (length (fb_data (m_read_buffer s))) (m_read_buffer s)) s)) s.
Proof.
  apply client_good_bind; [apply good_handle_message|]. intros _ s1.
  apply client_good_bind; [apply good_remove_obsolete|]. intros _ s2.
  apply client_good_modify. unfold agree. simpl. auto 10.
Qed.

(** A failed read: the cache is cleared and the session closed. *)
Lemma on_read_error_wp clock ec s p snt :
  ec_bool ec || m_close_received s = true → core s p snt →
  wp (on_read host m_bound_funcs clock ec) (λ _ s' es,
    core s' (pend_effects p es) snt ∧ m_read_error s' = true ∧
    m_write_error s' = m_write_error s ∧ entries s `prefix_of` entries s' ∧
    p_read (pend_effects p es) = p_read p ∧
    (m_write_error s = true → wire (pend_effects p es) = wire p)) s.
Proof.
  intros Eb Hc. unfold wp. rewrite client_on_read_error by done.
  change (wp (do! on_cache cache_clear in (do! act_modify (set_m_read_error true) in close_session))
    (λ _ s' es, core s' (pend_effects p es) snt ∧ m_read_error s' = true ∧
    m_write_error s' = m_write_error s ∧ entries s `prefix_of` entries s' ∧
    p_read (pend_effects p es) = p_read p ∧
    (m_write_error s = true → wire (pend_effects p es) = wire p)) s).
  apply wp_bind. eapply wp_mono; [by apply good_cache_clear|].
  intros _ s1 es1 [Hc1 [F1 F2 F3 F4 F5]]. apply wp_bind, wp_modify.
  eapply wp_mono; [eapply client_good_close_session; destruct Hc1; by split|].
  intros [] s' es [Hc' [G1 G2 G3 G4 G5]]. simpl in *. rewrite client_pend_effects_app.
  split_and!; try done; try congruence; [by etrans|].
  intros Hw. rewrite G5 by congruence. by apply F5.
Qed.

(** A successful one: what [good_message] keeps, then an empty buffer. *)
Lemma client_on_read_ok_wp clock s p snt :
  m_close_received s = false → core s p snt →
  wp (on_read host m_bound_funcs clock ec_success) (λ _ s' es,
    ∃ p1, core s' p1 snt ∧ frame s p s' p1 ∧ pend_effects p es = pend_effect p1 eff_read ∧
      empty_buffer s') s.
Proof.
  intros Hr Hc. unfold wp. rewrite on_read_ok by done.
  assert (wp (do! handle_message host m_bound_funcs s in
     do! on_cache (remove_obsolete clock) in
     do! act_modify (λ s, set_m_read_buffer
           (fb_consume (length (fb_data (m_read_buffer s))) (m_read_buffer s)) s) in
     read) (λ _ s' es, ∃ p1, core s' p1 snt ∧ frame s p s' p1 ∧
      pend_effects p es = pend_effect p1 eff_read ∧ empty_buffer s') s) as Hwp; [|exact Hwp].
  apply wp_bind. eapply wp_mono; [by apply good_handle_message|]. intros _ s1 es1 [Hc1 Hf1].
  apply wp_bind. eapply wp_mono; [by apply good_remove_obsolete|]. intros _ s2 es2 [Hc2 Hf2].
  apply wp_bind, wp_modify, wp_emit.
  exists (pend_effects (pend_effects p es1) es2).
  split; [destruct Hc2; by split|]. split.
  - eapply client_frame_trans; [exact Hf1|]. eapply client_frame_trans; [exact Hf2|]. by split.
  - split; [by rewrite !client_pend_effects_app|].
    unfold empty_buffer. simpl. by rewrite fb_data_consume, drop_all.
Qed.

Lemma client_step_read t clock ec msg :
  client_inv t → (0 < p_read (pend t))%nat → kept t (ce_read clock ec msg).
Proof.
  intros [[C1 C2 C3 C4 C5 C6 C7 C8] Ha Hp Hr Hb] Hpos. simpl.
  destruct (m_read_error (cl t)) eqn:Er; [lia|].
  set (s1 := set_m_read_buffer _ (cl t)).
  assert (core s1 (done_read (pend t)) (sent t)) as Hc1 by (by split).
  destruct (ec_bool ec || m_close_received s1) eqn:Eb; unfold deliver.
  - destruct (proj1 (wp_Done _ _ _) (on_read_error_wp clock ec s1 _ _ Eb Hc1))
      as (a & s' & es & -> & Hc' & F1 & F2 & F3 & F4 & F5).
    eexists. split; [done|].
    destruct (histories_kept s1 (done_read (pend t)) s' _ _ _ Ha Hp Hc' F2 F3 F5) as [Ha' Hp'].
    split; simpl; rewrite ?F1, ?F4; simpl; auto; try done. lia.
  - apply orb_false_iff in Eb as [Eb Ec]. destruct ec; try done.
    destruct (proj1 (wp_Done _ _ _) (client_on_read_ok_wp clock s1 _ _ Ec Hc1))
      as (a & s' & es & -> & p1 & Hc' & [F1 F2 F3 F4 F5] & Hpe & Hb').
    eexists. split; [done|]. rewrite Hpe.
    destruct (histories_kept s1 (done_read (pend t)) s' _ _ _ Ha Hp Hc' F2 F3 F5) as [Ha' Hp'].
    destruct p1, Hc'. split; [split|..]; simpl in *; auto. rewrite F1, F4, Er. simpl. lia.
Qed.

(** ** Every event *)

Lemma client_step t e :
  client_inv t → client_enabled t e = true → ∃ t', handle t e = Some t' ∧ client_inv t'.
Proof.
  intros Hi He.
  destruct e as [clock ec msg|ec|kind|ec|ec| | | |id rid data|q|now valid|rid|l| |]; simpl in He;
    try apply Nat.ltb_lt in He; try apply bool_decide_eq_true in He.
  - by apply client_step_read.
  - by apply client_step_write.
  - apply client_inv_good; try done.
    + destruct kind; simpl; [apply client_good_ret| |apply client_good_modify; unfold agree; simpl; by auto 10].
      apply client_good_bind; [apply client_good_modify; unfold agree; simpl; by auto 10|].
      intros. by apply client_good_emit; intros [].
    + unfold on_control_callback. by solve_pres.
  - by apply step_ping_done.
  - apply client_inv_good; try done. first [apply client_good_ret|apply pres_ret].
  - simpl. destruct (posted (pend t)) as [|d ds]; [done|].
    apply client_inv_good; try done; [apply client_good_handle_send|apply empty_handle_send].
  - apply client_inv_good; try done; [apply good_handle_ping|apply empty_handle_ping].
  - apply client_inv_good; try done; [apply client_good_close_session|apply empty_close_session].
  - apply client_inv_good; try done; [apply client_good_post_send|apply empty_post_send].
  - apply client_inv_good; try done; [apply client_good_send_done|apply empty_send_done].
  - apply client_inv_good; try done; [by apply client_good_cache_queue|apply pres_on_cache].
  - apply client_inv_good; try done; [apply client_good_cache_wait|apply pres_on_cache].
  - apply lookup_lt_is_Some in He as [row Hr].
    apply client_inv_good; try done; [by eapply client_good_send_recv_done|apply empty_send_recv_done].
  - apply client_inv_good; try done; [by apply client_good_emit; intros []|].
    unfold ping_post. by solve_pres.
  - apply client_inv_good; try done; [apply client_good_modify; unfold agree; simpl; by auto 10|].
    unfold ping_lock. by solve_pres.
Qed.

Lemma client_inv_init : client_inv client_sys_init.
Proof.
  split; simpl; try done; auto using fb_data_empty.
  split; simpl; try done; [lia|apply new_data_cache_wf].
Qed.

Lemma client_steps_inv es t :
  client_steps host m_bound_funcs client_sys_init es t →
  client_inv t ∧ safe client_enabled handle t.
Proof.
  intros Hr. eapply steps_safe; [|exact client_inv_init|exact Hr].
  intros. by apply client_step.
Qed.

(** ** Properties *)

(** C15. However the server, the users' threads and the timeouts behave, no
    handler of a connected client session reaches undefined behaviour; one
    read is outstanding until the first read error, at most one write and at
    most one ping are, a close is started at most once, and the send queue
    never exceeds [config::queue_send_max]. *)
Theorem client_session_discipline es t :
  client_steps host m_bound_funcs client_sys_init es t →
  safe client_enabled handle t ∧
  p_read (pend t) = (if m_read_error (cl t) then 0 else 1)%nat ∧
  (p_write (pend t) ≤ 1)%nat ∧ (p_ping (pend t) ≤ 1)%nat ∧ (closes (pend t) ≤ 1)%nat ∧
  (length (entries (cl t)) ≤ config.queue_send_max)%nat.
Proof.
  intros [[[C1 C2 C3 C4 C5 C6 C7 C8] Ha Hp Hr Hb] Hsafe]%client_steps_inv.
  rewrite C1, C5, C6. split_and!; try done.
  - destruct (entries _); lia.
  - destruct (m_ping _); lia.
  - destruct (m_close _); lia.
Qed.

(** C16. What the client gives to [async_write] is, at any time, a prefix of
    the sends [handle_send] accepted, each one header (the call id, and the
    result id of the awaited response) and its body, in that order; until a
    write fails the accepted sends are those written and those queued. *)
Theorem client_session_fifo es t :
  client_steps host m_bound_funcs client_sys_init es t →
  wire (pend t) `prefix_of` (send_message <$> accepted t) ∧
  (m_write_error (cl t) = false →
     accepted t = sent t ++ entries (cl t) ∧
     wire (pend t) = send_message <$> sent t ++ take 1 (entries (cl t))).
Proof.
  intros [[[C1 C2 C3 C4 C5 C6 C7 C8] Ha Hp Hr Hb] _]%client_steps_inv.
  split; [done|]. intros Hw. split; [by apply Ha|by apply C8].
Qed.

(** The routes of a message. *)
Lemma handle_message_routed s :
  cache_wf (m_cache s) →
  ∃ s' es, handle_message host m_bound_funcs s s = Done tt s' es ∧
    match header_of_bytes host (fb_data (m_read_buffer s)) with
    | None => s' = s ∧ es = []
    | Some h =>
        let data := drop sizeof_io_header (fb_data (m_read_buffer s)) in
        match m_bound_funcs !! call_id h with
        | Some has_handler =>
            m_cache s' = m_cache s ∧
            es = if has_handler : bool then [eff_broadcast (call_id h) data] else []
        | None =>
            match dc_entries (m_cache s) !! result_id h with
            | None => m_cache s' = m_cache s ∧ es = []
            | Some l =>
                (∃ row, dc_rows (m_cache s') !! l = Some row ∧ state row = ds_swapped ∧
                   fb_data (read_buffer row) = data) ∧
                (∀ l', l' ≠ l → dc_rows (m_cache s') !! l' = dc_rows (m_cache s) !! l')
            end
        end
    end.
Proof.
  intros Hw. unfold handle_message.
  destruct (header_of_bytes host (fb_data (m_read_buffer s))) as [h|] eqn:Eh.
  - rewrite decide_True by (apply (header_of_bytes_is_Some host); by rewrite Eh).
    unfold kthis. run_act. destruct (m_bound_funcs !! call_id h) as [b|] eqn:Ef.
    + destruct b; simpl; (eexists _, _; split; [done|]); simpl; [|done].
      split; [done|]. by rewrite fb_data_consume.
    + destruct (dc_entries (m_cache s) !! result_id h) as [l|] eqn:El.
      * destruct (wf_row_lookup _ _ _ Hw El) as [row Hr]. unfold on_cache. simpl.
        rewrite (swap_notify_Some _ _ l row) by done. simpl.
        case_decide; (eexists _, _; split; [done|]); simpl.
        all: split; [|intros l' Hl; by rewrite list_lookup_alter_ne].
        all: eexists; rewrite list_lookup_alter, decide_True, Hr by done; simpl.
        all: split; [done|]; split; [done|]; simpl; by rewrite fb_data_consume.
      * unfold on_cache. simpl. rewrite swap_notify_None by done. simpl.
        eexists _, _. by split.
  - rewrite decide_False; [by eexists _, _|].
    intros Hl. apply (header_of_bytes_is_Some host) in Hl as [? ?]. congruence.
Qed.

(** C17. Where a message from the server goes: one shorter than a header
    nowhere; one whose call id is bound to that broadcast handler and to no
    waiting call, whatever its result id; any other to the row of its result
    id, if there is one, which becomes ready with the bytes after the header,
    every other row being untouched. *)
Theorem handle_message_routes s :
  cache_wf (m_cache s) →
  ∃ s' es, handle_message host m_bound_funcs s s = Done tt s' es ∧
    match header_of_bytes host (fb_data (m_read_buffer s)) with
    | None => s' = s ∧ es = []
    | Some h =>
        let data := drop sizeof_io_header (fb_data (m_read_buffer s)) in
        match m_bound_funcs !! call_id h with
        | Some has_handler =>
            m_cache s' = m_cache s ∧
            es = if has_handler : bool then [eff_broadcast (call_id h) data] else []
        | None =>
            match dc_entries (m_cache s) !! result_id h with
            | None => m_cache s' = m_cache s ∧ es = []
            | Some l =>
                (∃ row, dc_rows (m_cache s') !! l = Some row ∧ state row = ds_swapped ∧
                   fb_data (read_buffer row) = data) ∧
                (∀ l', l' ≠ l → dc_rows (m_cache s') !! l' = dc_rows (m_cache s) !! l')
            end
        end
    end.
Proof. apply handle_message_routed. Qed.
End facts.
