(* ===== verification/ClientProps.v ===== *)
(** * ClientProps: what a sender learns

    The promise of a send, its time outs, and the ways the answer of [send],
    [send_recv] and [ping] can differ from what happened. *)

From S2P Require Import Prelude Types Header Operations DataCache DataCacheFacts DataQueue.
From S2P Require Import ClientSession ClientSystem ClientSystemFacts.

Section props.
Context {B : Type} `{FlatBuffer B, !FlatBufferLaws B}.
Context (host : byte_order) (m_bound_funcs : gmap Z bool).
Abbreviation client_session := (client_session (B := B)).
Abbreviation client_sys := (client_sys (B := B)).
Implicit Types (s : client_session) (t : client_sys).
Abbreviation handle := (client_handle host m_bound_funcs).

(** ** A promise kept *)

(** The promises that are true are all in [P]. *)
Definition true_within (P : nat → Prop) s : Prop :=
  ∀ q, live s !! q = Some (Some true) → P q.

Lemma pres_within_cache {A} P (m : act (data_cache B) cache_effect A) :
  pres (true_within P) (on_cache m).
Proof.
  intros s a s' es. unfold on_cache. destruct (m (m_cache s)); try done. by intros [= <- <- <-].
Qed.

Lemma within_close_session P : pres (true_within P) close_session.
Proof. unfold close_session, kthis. by solve_pres. Qed.
Lemma within_handle_send P d : pres (true_within P) (handle_send host d).
Proof. unfold handle_send, write, kthis. by solve_pres. Qed.
Lemma within_handle_ping P : pres (true_within P) handle_ping.
Proof. unfold handle_ping, kthis. by solve_pres. Qed.
Lemma within_on_read P clock ec : pres (true_within P) (on_read host m_bound_funcs clock ec).
Proof.
  unfold on_read, handle_message, read, kthis.
  solve_pres; try done; first [apply pres_within_cache|apply within_close_session].
Qed.
Lemma within_control P kind : pres (true_within P) (on_control_callback kind).
Proof. unfold on_control_callback. by solve_pres. Qed.
Lemma within_post_send P id rid data : pres (true_within P) (post_send id rid data).
Proof.
  intros s a s' es. unfold post_send, kthis. run_act. intros [= <- <- <-] Hw q.
  simpl. rewrite lookup_insert_Some. intros [[_ [=]]|[_ Hq]]. by apply Hw.
Qed.
Lemma within_send_done P p : pres (true_within P) (send_done p).
Proof.
  intros s a s' es. unfold send_done, kthis. run_act. intros [= <- <- <-] Hw q.
  simpl. rewrite lookup_delete_Some. intros [_ Hq]. by apply Hw.
Qed.
Lemma within_send_recv_done P l b : pres (true_within P) (send_recv_done l b).
Proof. apply pres_within_cache. Qed.

Definition written t : nat → Prop := λ q, q ∈ result_callback <$> sent t.

Lemma deliver_within {A} (m : act client_session client_effect A) s p t t' :
  pres (true_within (written t)) m → true_within (written t) s →
  deliver m s p t (λ _, sent t) = Some t' → true_within (written t') (cl t').
Proof.
  unfold deliver. destruct (m s) as [a s' es| |] eqn:E; try done. intros Hm Hw [= <-].
  unfold written. simpl. by eapply (Hm _ _ _ _ E).
Qed.

Lemma within_write t ec t' :
  client_inv host t → (0 < p_write (pend t))%nat →
  true_within (written t) (cl t) → handle t (ce_write ec) = Some t' →
  true_within (written t') (cl t').
Proof.
  intros [[C1 C2 C3 C4 C5 C6 C7 C8] _ _ _ _] Hpos Hw. simpl.
  destruct (entries (cl t)) as [|d ds] eqn:Eq; [lia|].
  destruct (ec_bool ec || m_close (cl t) || m_close_received (cl t) || m_read_error (cl t)) eqn:Eb;
    unfold deliver.
  - rewrite client_on_write_error by done. set (s1 := set_m_write_error true _).
    assert (true_within (written t) s1) as Hw1.
    { intros q. unfold s1. cbn [live set_m_write_error set_live].
      rewrite queue_clear_lookup. case_decide; [by intros [=]|apply Hw]. }
    destruct (close_session s1) as [a s' es| |] eqn:E; try done. intros [= <-].
    pose proof (within_close_session _ _ _ _ _ E Hw1) as Hw'.
    intros q Hq. apply Hw' in Hq. unfold written in *. cbn [sent cl] in *.
    destruct (m_write_error s'); [done|]. rewrite fmap_app. apply elem_of_app. by left.
  - erewrite client_on_write_next by done. intros [= <-].
    assert (m_write_error (cl t) = false) as Ew by (destruct (m_write_error (cl t)); naive_solver).
    intros q. unfold written. simpl. rewrite Ew, set_value_lookup, fmap_app, elem_of_app.
    case_decide as Hd.
    + intros _. right. destruct Hd as [<- _]. simpl. set_solver.
    + intros Hq. left. by apply Hw.
Qed.

(** C38. A promise set to true means the message was written: the send it
    belongs to completed its [async_write]. *)
Theorem send_true_written es t q :
  client_steps host m_bound_funcs client_sys_init es t →
  live (cl t) !! q = Some (Some true) →
  ∃ d, d ∈ sent t ∧ result_callback d = q.
Proof.
  intros Hr Hq. assert (true_within (written t) (cl t)) as Hw.
  { clear Hq. remember client_sys_init as t0 eqn:E0.
    induction Hr as [t|t es t1 e t2 Hr IH [He Hh]]; subst; [intros q'; simpl; by rewrite lookup_empty|].
    specialize (IH eq_refl). destruct (client_steps_inv _ _ _ _ Hr) as [Hinv _].
    destruct e as [clock ec msg|ec|kind|ec|ec| | | |id rid data|q'|now valid|rid|l| |]; simpl in He.
    2: { apply Nat.ltb_lt in He. by eapply within_write. }
    5: { simpl in Hh. destruct (posted (pend t1)); [done|].
         by eapply deliver_within, Hh; [apply within_handle_send|]. }
    all: eapply deliver_within, Hh; [|exact IH]; clear Hh He IH Hinv Hr.
    all: auto using within_on_read, within_control, within_handle_ping, within_close_session,
      within_post_send, within_send_done, pres_within_cache, within_send_recv_done, pres_ret.
    all: first [unfold on_ping|unfold ping_post|unfold ping_lock]; by solve_pres. }
  apply Hw in Hq. unfold written in Hq. apply list_elem_of_fmap in Hq as (d & -> & Hd). eauto.
Qed.

(** ** Time outs *)

(** [send_recv] doubles the response time out to bound the life of its
    cache entry: the call is defined exactly for time outs whose double is a
    64-bit count, so never for [duration::max()], the default of
    [client_timeout]. *)
Theorem send_recv_defined now response_timeout id data s :
  cache_wf (m_cache s) → dc_id_counter (m_cache s) + 1 < 2 ^ 64 →
  (send_recv now response_timeout id data s = Undefined ↔
     ¬ (i64_min ≤ response_timeout * 2 ≤ i64_max)) ∧
  send_recv now (ct_response_timeout client_timeout_default) id data s = Undefined.
Proof.
  intros Hw Hc. split; [|done]. unfold send_recv, duration_mul.
  destruct (i64_checked (response_timeout * 2)) as [valid|] eqn:E.
  - apply i64_checked_Some in E as [-> Hr]. split; [|done].
    unfold on_cache. run_act.
    destruct (cache_queue_total now (response_timeout * 2) _ Hw Hc) as (rid & c & es & -> & _).
    case_decide; simpl; [done|]. unfold post_send, kthis. by run_act.
  - apply i64_checked_None in E. split; [intros _; lia|done].
Qed.
End props.

(** ** Concrete clients *)

Module ClientDemo.
Definition drive (es : list (client_event (B := list byte))) : client_sys (B := list byte) :=
  default client_sys_init (client_run little_endian {[5 := true]} client_sys_init es).
Definition response (id rid : Z) (body : list byte) : client_event (B := list byte) :=
  ce_read (λ _, 0) ec_success (header_bytes little_endian (new_io_header id rid) ++ body).
(** Two sends, the first one being written. *)
Definition two_sends : list (client_event (B := list byte)) :=
  [ce_user_send 7 0 [x61]; ce_user_send 7 0 [x62]; ce_run_send; ce_run_send].
(** A [send_recv] up to the wait for its response. *)
Definition awaiting : list (client_event (B := list byte)) :=
  [ce_user_queue 0 1000; ce_user_send 7 1 [x61]; ce_run_send; ce_write ec_success;
   ce_user_sent 0; ce_user_wait 1].
End ClientDemo.

Import ClientDemo.

Lemma client_session_discipline_witness :
  let t := drive (awaiting ++ [response 7 1 [x62]]) in
  safe client_enabled (client_handle little_endian {[5 := true]}) t ∧
  p_read (pend t) = (if m_read_error (cl t) then 0 else 1)%nat ∧
  (p_write (pend t) ≤ 1)%nat ∧ (p_ping (pend t) ≤ 1)%nat ∧ (closes (pend t) ≤ 1)%nat ∧
  (length (entries (cl t)) ≤ config.queue_send_max)%nat.
Proof.
  apply (client_session_discipline little_endian {[5 := true]} (awaiting ++ [response 7 1 [x62]])).
  apply run_steps. vm_compute. reflexivity.
Defined.

Lemma client_session_fifo_witness :
  let t := drive two_sends in
  length (wire (pend t)) = 1%nat ∧ length (accepted t) = 2%nat ∧
  wire (pend t) `prefix_of` (send_message little_endian <$> accepted t) ∧
  (m_write_error (cl t) = false →
     accepted t = sent t ++ entries (cl t) ∧
     wire (pend t) = send_message little_endian <$> sent t ++ take 1 (entries (cl t))).
Proof.
  split; [vm_compute; reflexivity|]. split; [vm_compute; reflexivity|].
  apply (client_session_fifo little_endian {[5 := true]} two_sends).
  apply run_steps. vm_compute. reflexivity.
Defined.

Lemma send_true_written_witness :
  let t := drive (two_sends ++ [ce_write ec_success]) in
  ∃ d, d ∈ sent t ∧ result_callback d = 0%nat.
Proof.
  apply (send_true_written little_endian {[5 := true]} (two_sends ++ [ce_write ec_success]));
    [apply run_steps; vm_compute; reflexivity|vm_compute; reflexivity].
Defined.

Lemma send_recv_defined_witness :
  send_recv 0 duration_max 7 [x61] (new_client_session (B := list byte)) = Undefined.
Proof.
  apply (send_recv_defined 0 duration_max 7 [x61] new_client_session);
    [apply new_data_cache_wf|reflexivity].
Defined.

(** [send] can report success for a message that was never written: when
    the connection breaks, [on_write] sets the promises of the queued sends to
    false, and [send] only looks whether the promise has a value. *)
Theorem send_reports_dropped :
  ∃ t, client_steps little_endian {[5 := true]} client_sys_init (two_sends ++ [ce_write ec_failure]) t ∧
    sent t = [] ∧ live (cl t) !! 1%nat = Some (Some false) ∧
    ∃ s', send_done 1 (cl t) = Done true s' [].
Proof.
  exists (drive (two_sends ++ [ce_write ec_failure])).
  split; [apply run_steps; vm_compute; reflexivity|].
  split; [vm_compute; reflexivity|]. split; [vm_compute; reflexivity|].
  eexists. vm_compute. reflexivity.
Qed.

(** [send_recv] reports success with an empty response when the connection
    breaks while it waits: clearing the cache marks the rows as received. *)
Theorem send_recv_broken_connection :
  ∃ t, client_steps little_endian {[5 := true]} client_sys_init
         (awaiting ++ [ce_read (λ _, 0) ec_failure []]) t ∧
    ∃ s', send_recv_waited 0 (cl t) = Done None (cl t) [] ∧
      send_recv_done 0 [] (cl t) = Done [] s' [].
Proof.
  exists (drive (awaiting ++ [ce_read (λ _, 0) ec_failure []])).
  split; [apply run_steps; vm_compute; reflexivity|].
  eexists. split; vm_compute; reflexivity.
Qed.

(** [ping] can report failure although the pong arrived: the ping is posted
    before [m_pong] is reset under the lock, and a pong received in between is
    forgotten. *)
Theorem ping_loses_pong :
  ∃ t, client_steps little_endian {[5 := true]} client_sys_init
         [ce_user_ping; ce_run_ping; ce_ping ec_success; ce_control frame_pong; ce_user_ping_lock] t ∧
    ping_result (cl t) = false.
Proof.
  exists (drive [ce_user_ping; ce_run_ping; ce_ping ec_success; ce_control frame_pong;
                 ce_user_ping_lock]).
  split; [apply run_steps; vm_compute; reflexivity|reflexivity].
Qed.

(** The routes of [handle_message_routes] on a concrete client: the answer to a
    [send_recv] on id 5 goes to the broadcast handler bound to 5. *)
Lemma handle_message_routes_witness :
  let s := set_m_read_buffer (header_bytes little_endian (new_io_header 5 1) ++ [x62])
             (cl (drive awaiting)) in
  ∃ s' es, handle_message little_endian {[5 := true]} s s = Done tt s' es ∧
    m_cache s' = m_cache s ∧ es = [eff_broadcast 5 [x62]].
Proof.
  intros s. destruct (handle_message_routes little_endian {[5 := true]} s) as (s' & es & E & H).
  - assert (client_inv little_endian (drive awaiting)) as Hi.
    { apply (client_steps_inv little_endian {[5 := true]} awaiting (drive awaiting)), run_steps.
      vm_compute. reflexivity. }
    apply (c_cache _ _ _ _ (k_core _ _ Hi)).
  - exists s', es. split; [exact E|]. vm_compute in H. exact H.
Defined.
