(* ===== verification/ClientOutgoing.v ===== *)
(** * ClientOutgoing: the messages a client session still refers to

    The source keeps a pointer to the caller's bytes in every posted
    [handle_send] and in every entry of the queue, the front of which an
    [async_write] reads.  Here: no such message has a promise that is resolved,
    and none comes from anywhere but a send. *)

From S2P Require Import Prelude Types Header Operations DataCache DataCacheFacts DataQueue.
From S2P Require Import ClientSession ClientSystem ClientSystemFacts.

Section outgoing.
Context {B : Type} `{FlatBuffer B, !FlatBufferLaws B}.
Context (host : byte_order) (m_bound_funcs : gmap Z bool).
Abbreviation client_session := (client_session (B := B)).
Abbreviation client_sys := (client_sys (B := B)).
Abbreviation kact := (act client_session client_effect).
Implicit Types (t : client_sys) (c : client_session).

(** The queue, then the posted closures. *)
Definition outgoing t : list data_send := entries (cl t) ++ posted (pend t).

Definition unready (ps : promises) (n : nat) (ds : list data_send) : Prop :=
  NoDup (result_callback <$> ds) ∧
  ∀ d, d ∈ ds → (result_callback d < n)%nat ∧ promise_ready (result_callback d) ps = false.

Definition unresolved t : Prop :=
  unready (live (cl t)) (fresh_promise (cl t)) (outgoing t).

(** How [t'] comes after [t]: only new messages are added. *)
Definition goes_on t t' : Prop :=
  (fresh_promise (cl t) ≤ fresh_promise (cl t'))%nat ∧
  ∀ d, d ∈ outgoing t' → d ∈ outgoing t ∨ (fresh_promise (cl t) ≤ result_callback d)%nat.

Lemma goes_on_refl t : goes_on t t.
Proof. split; [done|]. by left. Qed.

Lemma goes_on_trans t1 t2 t3 : goes_on t1 t2 → goes_on t2 t3 → goes_on t1 t3.
Proof.
  intros [H1 D1] [H2 D2]. split; [lia|]. intros d [Hd|Hd]%D2; [by apply D1|]. right. lia.
Qed.

(** ** Lists of messages *)

Lemma unready_sub ps ps' n ds ds' :
  sublist ds' ds →
  (∀ d, d ∈ ds' → promise_ready (result_callback d) ps = false → promise_ready (result_callback d) ps' = false) →
  unready ps n ds → unready ps' n ds'.
Proof.
  intros Hs Hps [Hn Hd]. split.
  - eapply sublist_NoDup; [exact Hn|]. by apply fmap_sublist.
  - intros d Hin. destruct (Hd d) as [Hlt Hr]; [by eapply elem_of_sublist|].
    split; [done|]. by apply Hps.
Qed.

Lemma unready_app_ne ps n ds ds' d d' :
  unready ps n (ds ++ ds') → d ∈ ds → d' ∈ ds' → result_callback d ≠ result_callback d'.
Proof.
  intros [Hn _] Hd Hd'. rewrite fmap_app in Hn. apply NoDup_app in Hn as (_ & Hn & _).
  intros E. apply (Hn (result_callback d)); [by apply list_elem_of_fmap_2|].
  rewrite E. by apply list_elem_of_fmap_2.
Qed.

(** ** Handlers that leave them alone *)

Definition no_post (e : client_effect) : Prop := match e with eff_post _ => False | _ => True end.

Definition still (q : list data_send) (ps : promises) (n : nat) c : Prop :=
  dq_entries (m_queue c) = q ∧ live c = ps ∧ fresh_promise c = n.

Definition aside {A} (m : kact A) : Prop := (∀ q ps n, pres (still q ps n) m) ∧ emits no_post m.

Lemma posted_no_post es p : Forall no_post es → posted (pend_effects p es) = posted p.
Proof.
  intros He. revert p. induction He as [|e es He _ IH]; intros p; [done|].
  simpl. rewrite IH. by destruct p, e.
Qed.

Lemma aside_deliver {A} (m : kact A) c p t ns t' :
  aside m → deliver m c p t ns = Some t' →
  entries (cl t') = entries c ∧ live (cl t') = live c ∧ fresh_promise (cl t') = fresh_promise c ∧
  posted (pend t') = posted p.
Proof.
  intros [Hp He]. unfold deliver. destruct (m c) as [a c' es| |] eqn:E; try done. intros [= <-].
  destruct (Hp _ _ _ _ _ _ _ E (conj eq_refl (conj eq_refl eq_refl))) as (Eq & El & Ef).
  split_and!; try done. simpl. apply posted_no_post. by eapply He.
Qed.

Ltac solve_aside := split; [intros ? ? ?; by solve_pres|by solve_emits].

Lemma aside_bind {A C} (m : kact A) (k : A → kact C) : aside m → (∀ a, aside (k a)) → aside (act_bind m k).
Proof.
  intros [Hp He] Hk. split; [intros q ps n|].
  - apply pres_bind; [done|]. intros a. apply Hk.
  - apply emits_bind; [done|]. intros a. apply Hk.
Qed.
Lemma aside_ret {A} (a : A) : aside (act_ret a).
Proof. solve_aside. Qed.
Lemma aside_get {A} (k : client_session → kact A) : (∀ c, aside (k c)) → aside (let! s := kthis in k s).
Proof. intros Hk. apply aside_bind; [unfold kthis; solve_aside|done]. Qed.
Lemma aside_cache {A} (m : act (data_cache B) cache_effect A) : aside (on_cache m).
Proof.
  split.
  - intros q ps n c a c' es. unfold on_cache. destruct (m (m_cache c)); try done. by intros [= <- <- <-].
  - intros c a c' es. unfold on_cache. destruct (m (m_cache c)) as [a' d es'| |]; try done.
    intros [= _ _ <-]. apply Forall_fmap, Forall_true. by intros [l].
Qed.
Lemma aside_close_session : aside close_session.
Proof. unfold close_session, kthis. solve_aside. Qed.
Lemma aside_buffer x : aside (act_modify (λ c, set_m_read_buffer (x c) c) : kact unit).
Proof. solve_aside. Qed.
Lemma aside_handle_message c : aside (handle_message host m_bound_funcs c).
Proof.
  unfold handle_message. case_decide; [|apply aside_ret].
  destruct (header_of_bytes _ _) as [h|]; [|by split; [intros ? ? ?|]; intros ?].
  apply aside_bind; [apply aside_buffer|]. intros _. apply aside_get. intros c'.
  destruct (m_bound_funcs !! _) as [[]|]; [solve_aside|apply aside_ret|].
  apply aside_bind; [apply aside_cache|]. intros b. solve_aside.
Qed.
Lemma aside_on_read clock ec : aside (on_read host m_bound_funcs clock ec).
Proof.
  unfold on_read. apply aside_get. intros c. destruct (ec_bool ec || m_close_received c).
  - apply aside_bind; [apply aside_cache|]. intros _. apply aside_bind; [solve_aside|].
    intros _. apply aside_close_session.
  - apply aside_bind; [apply aside_handle_message|]. intros _. apply aside_bind; [apply aside_cache|].
    intros _. apply aside_bind; [apply (aside_buffer (λ s, _))|]. intros _. unfold read. solve_aside.
Qed.
Lemma aside_send_recv_done l b : aside (send_recv_done l b).
Proof. apply aside_cache. Qed.
Lemma aside_send_recv_waited l : aside (send_recv_waited l).
Proof. apply aside_bind; [apply aside_cache|]. intros. apply aside_ret. Qed.

Lemma aside_goes_on t t' :
  entries (cl t') = entries (cl t) → live (cl t') = live (cl t) →
  fresh_promise (cl t') = fresh_promise (cl t) → posted (pend t') = posted (pend t) →
  unresolved t → unresolved t' ∧ goes_on t t'.
Proof.
  intros E1 E2 E3 E4. unfold unresolved, goes_on, outgoing. rewrite E1, E2, E3, E4. auto.
Qed.
(** ** The handlers that do not *)

(** Fewer messages, and none of those left gets a value. *)
Lemma fewer t t' :
  fresh_promise (cl t') = fresh_promise (cl t) → sublist (outgoing t') (outgoing t) →
  (∀ d, d ∈ outgoing t' → promise_ready (result_callback d) (live (cl t)) = false →
    promise_ready (result_callback d) (live (cl t')) = false) →
  unresolved t → unresolved t' ∧ goes_on t t'.
Proof.
  intros Hf Hs Hl Hu. split.
  - unfold unresolved. rewrite Hf. by eapply unready_sub.
  - split; [by rewrite Hf|]. intros d Hd. left. by eapply elem_of_sublist.
Qed.

Lemma outgoing_run_send t d ds t' :
  posted (pend t) = d :: ds →
  deliver (handle_send host d) (cl t) (run_posted (pend t)) t (λ _, sent t) = Some t' →
  unresolved t → unresolved t' ∧ goes_on t t'.
Proof.
  intros Hp Hd. unfold deliver in Hd. destruct (decide (sending (cl t))) as [Hs|Hs];
    [destruct (decide (dq_max_entries (m_queue (cl t)) ≤ length (entries (cl t)))%nat) as [Hl|Hl]|].
  2: { rewrite client_handle_send_room in Hd by (done || lia). injection Hd as <-.
       assert (∀ p, posted (pend_effects p (match entries (cl t) with
         [] => [eff_write (send_message host d)] | _ => [] end)) = posted p) as Hpp.
       { intros p. apply posted_no_post. destruct (entries (cl t)); by repeat constructor. }
       intros Hu. apply fewer; try done; unfold outgoing, entries in *; simpl;
         rewrite Hpp; simpl; by rewrite Hp, <-app_assoc. }
  all: rewrite ?client_handle_send_full, ?client_handle_send_stopped in Hd by done; injection Hd as <-;
    intros Hu; apply fewer; try done; unfold outgoing; simpl; rewrite Hp; simpl.
  all: apply sublist_app; [done|by apply sublist_cons].
Qed.

Lemma outgoing_write t ec t' :
  client_inv host t → (0 < p_write (pend t))%nat →
  client_handle host m_bound_funcs t (ce_write ec) = Some t' →
  unresolved t → unresolved t' ∧ goes_on t t'.
Proof.
  intros [[C1 _ _ _ _ _ _ _] _ _ _ _] Hpos Hh Hu. simpl in Hh.
  destruct (entries (cl t)) as [|d ds] eqn:Eq; [lia|].
  destruct (ec_bool ec || m_close (cl t) || m_close_received (cl t) || m_read_error (cl t)) eqn:Eb.
  - unfold deliver in Hh. rewrite client_on_write_error in Hh by done. set (c := set_m_write_error true _) in Hh.
    destruct (close_session c) as [a c' es| |] eqn:E; try done. injection Hh as <-.
    destruct (proj1 aside_close_session [] (live c) (fresh_promise c) _ _ _ _ E) as (E1 & E2 & E3); [done|].
    pose proof (posted_no_post es (done_write (pend t)) (proj2 aside_close_session _ _ _ _ E)) as E4.
    set (t1 := mk_client_sys _ _ _ _ _).
    assert (outgoing t1 = posted (pend t)) as Eout.
    { unfold outgoing, entries, t1. simpl. by rewrite E1, E4. }
    apply fewer; [simpl; by rewrite E3|rewrite Eout; by apply sublist_inserts_l| |done].
    rewrite Eout. intros d' Hd'. simpl. rewrite E2. unfold c, promise_ready. cbn [live set_m_write_error set_live].
    rewrite queue_clear_lookup, decide_False; [done|]. intros [_ (d0 & E0 & Hd0)%list_elem_of_fmap].
    by apply (unready_app_ne _ _ _ _ d0 d' Hu).
  - unfold deliver in Hh. rewrite (client_on_write_next host _ _ d ds) in Hh by done. injection Hh as <-.
    set (t1 := mk_client_sys _ _ _ _ _).
    assert (outgoing t1 = ds ++ posted (pend t)) as Eout.
    { unfold outgoing, entries, t1. simpl. f_equal.
      apply (posted_no_post _ (done_write (pend t))). destruct ds; by repeat constructor. }
    assert (outgoing t = d :: ds ++ posted (pend t)) as Eout0 by (unfold outgoing; by rewrite Eq).
    apply fewer; [done|rewrite Eout, Eout0; by apply sublist_cons| |done].
    rewrite Eout. intros d' Hd'. simpl. unfold promise_ready. rewrite set_value_lookup, decide_False; [done|].
    intros [E _]. unfold unresolved in Hu. rewrite Eout0 in Hu.
    by apply (unready_app_ne _ _ [d] (ds ++ posted (pend t)) d d' Hu); [apply list_elem_of_singleton|..].
Qed.

Lemma outgoing_post t id rid data :
  unresolved t →
  let t' := mk_client_sys (set_fresh_promise (S (fresh_promise (cl t)))
      (set_live (<[fresh_promise (cl t) := None]> (live (cl t))) (cl t)))
    (pend_effect (pend t) (eff_post (new_data_send id rid (fresh_promise (cl t)) data)))
    (accepted t ++ drop (length (entries (cl t))) (entries (cl t))) (sent t) (handled t ++ []) in
  unresolved t' ∧ goes_on t t'.
Proof.
  intros [Hn Hd] t'. set (d0 := new_data_send id rid (fresh_promise (cl t)) data).
  assert (outgoing t' = outgoing t ++ [d0]) as Eout.
  { unfold outgoing, t'. simpl. destruct (pend t). simpl. by rewrite (assoc_L (++)). }
  split; [split|].
  - rewrite Eout, fmap_app. apply NoDup_app. split; [done|]. split; [|apply NoDup_singleton].
    intros p (d & -> & Hin)%list_elem_of_fmap. simpl. rewrite list_elem_of_singleton.
    destruct (Hd d Hin). lia.
  - intros d. rewrite Eout, elem_of_app, list_elem_of_singleton. unfold promise_ready. simpl. intros [Hin| ->].
    + destruct (Hd d Hin) as [Hlt Hr]. split; [lia|]. rewrite lookup_insert_ne by lia. exact Hr.
    + simpl. split; [lia|]. by rewrite lookup_insert_eq.
  - split; [simpl; lia|]. intros d. rewrite Eout, elem_of_app, list_elem_of_singleton.
    intros [Hin| ->]; [by left|]. by right.
Qed.

Lemma outgoing_event t e t' :
  client_inv host t → client_enabled t e = true → client_handle host m_bound_funcs t e = Some t' →
  unresolved t → unresolved t' ∧ goes_on t t'.
Proof.
  intros Hi He Hh Hu.
  assert (∀ A (m : kact A) c p ns, aside m → entries c = entries (cl t) → live c = live (cl t) →
    fresh_promise c = fresh_promise (cl t) → posted p = posted (pend t) →
    deliver m c p t ns = Some t' → unresolved t' ∧ goes_on t t') as Haside.
  { intros A m c p ns Hm E1 E2 E3 E4 Hd. destruct (aside_deliver m c p t ns t' Hm Hd) as (F1 & F2 & F3 & F4).
    apply aside_goes_on; congruence. }
  destruct e as [clock ec msg|ec|kind|ec|ec| | | |id rid data|q|now valid|rid|l b| |];
    simpl in He; try (by eapply Haside, Hh; unfold on_control_callback, on_ping, on_close, handle_ping, kthis,
      ping_post, ping_lock; auto using aside_on_read, aside_close_session, aside_cache, aside_send_recv_done;
      solve_aside).
  - apply Nat.ltb_lt in He. by eapply outgoing_write.
  - simpl in Hh. destruct (posted (pend t)) as [|d ds] eqn:Ep; [done|]. by eapply outgoing_run_send.
  - simpl in Hh. unfold deliver, post_send, kthis in Hh. run_act. by apply outgoing_post.
  - simpl in Hh. unfold deliver, send_done, kthis in Hh. run_act. apply fewer; try done.
    intros d _. simpl. unfold promise_ready. destruct (decide (q = result_callback d)) as [<-|Hne];
      [by rewrite lookup_delete_eq|by rewrite lookup_delete_ne].
Qed.

Lemma outgoing_steps es t :
  client_steps host m_bound_funcs client_sys_init es t → unresolved t.
Proof.
  intros Hs. remember client_sys_init as t0 eqn:E0.
  induction Hs as [t|t es t1 e t2 Hs IH [He Hh]]; subst.
  - split; [constructor|]. intros d Hd. by apply elem_of_nil in Hd.
  - destruct (client_steps_inv host m_bound_funcs _ _ Hs) as [Hi _].
    by apply (outgoing_event t1 e t2 Hi He Hh), IH.
Qed.

(** Runs from a state of a session. *)
Lemma outgoing_on t es t' :
  client_inv host t → client_steps host m_bound_funcs t es t' → unresolved t →
  unresolved t' ∧ goes_on t t'.
Proof.
  intros Hi Hs Hu. enough (client_inv host t' ∧ unresolved t' ∧ goes_on t t') by naive_solver.
  induction Hs as [t|t es t1 e t2 Hs IH [He Hh]]; [split; [done|split; [done|apply goes_on_refl]]|].
  destruct (IH Hi Hu) as (Hi1 & Hu1 & Hg1).
  destruct (outgoing_event t1 e t2 Hi1 He Hh Hu1) as [Hu2 Hg2].
  destruct (client_step host m_bound_funcs t1 e Hi1 He) as (t2' & Hh' & Hi2).
  assert (t2' = t2) as -> by congruence. split; [done|]. split; [done|]. by eapply goes_on_trans.
Qed.
End outgoing.
