(* ===== verification/ClientConnect.v ===== *)
(** * ClientConnect: [session_connect] of impl/client/client_session.hpp

    How a client session gets connected: [run()] starts a chain of asynchronous
    operations (resolve, connect, TLS handshake, WebSocket handshake), each of
    which starts the next one or gives up, and blocks on the promise
    [m_run_callback], which the last step of the chain must set exactly once.
    Also [close()].  The established session is the [client_session] of
    ClientSession, whose system (ClientSystem) begins where this one ends. *)

From S2P Require Import Prelude Types Header Operations DataCache DataQueue ClientSession ClientSystem.
From stdpp Require Import pretty.
#[local] Open Scope Z_scope.

Section session_connect.
Context {B : Type} `{FlatBuffer B}.

(** The handshake request is Boost.Beast's: its fields, [set] and [insert]. *)
Context {Req : Type}.
Record field := mk_field { fld_unknown : bool; fld_name : string; fld_value : string }.
Context (req_fields : Req → list field) (req_set req_insert : string → string → Req → Req).

(** The promise is shared with the waiting thread; [None]: not set yet. *)
Record session_connect := mk_session_connect {
  base : client_session (B := B);
  m_state : connection_state;
  m_run_callback : option bool;
  m_close_initiated : bool }.

Definition set_base (x : client_session (B := B)) (s : session_connect) : session_connect :=
  mk_session_connect x (m_state s) (m_run_callback s) (m_close_initiated s).
Definition set_m_state (x : connection_state) (s : session_connect) : session_connect :=
  mk_session_connect (base s) x (m_run_callback s) (m_close_initiated s).
Definition set_m_run_callback (x : option bool) (s : session_connect) : session_connect :=
  mk_session_connect (base s) (m_state s) x (m_close_initiated s).
Definition set_m_close_initiated (x : bool) (s : session_connect) : session_connect :=
  mk_session_connect (base s) (m_state s) (m_run_callback s) x.

Inductive connect_effect : Type :=
  | eff_async_resolve (host_address port : string)
  | eff_async_connect
  | eff_async_ssl_handshake
  | eff_async_handshake (host_address target : string)
  | eff_expires_after (d : duration)
  | eff_expires_never
  | eff_stream_timeout (handshake_timeout : duration)
  | eff_decorator (set_req : Req)
  | eff_control_callback
  | eff_binary
  | eff_read_message_max (n : Z)
  | eff_io_thread                      (* the thread that runs the io context *)
  | eff_base (e : client_effect)
  | eff_post_close                     (* [close_session], posted weakly *)
  | eff_io_restart
  | eff_io_run
  | eff_wait_posted (timeout : duration).

Abbreviation xact := (act session_connect connect_effect).

Context (m_client_cfg : client_config) (m_client_timeout : client_timeout).
Context (is_ssl : bool) (m_req_handshake : Req).

(** [m_timeout->handshake_timeout], copied from the client's time outs by the
    constructor of [client]. *)
Definition m_timeout_handshake : duration := ct_handshake_timeout m_client_timeout.

(** An operation of the base class. *)
Definition on_base {A} (m : act (client_session (B := B)) client_effect A) : xact A := λ s,
  match m (base s) with
  | Done a b es => Done a (set_base b s) (eff_base <$> es)
  | Thrown w b es => Thrown w (set_base b s) (eff_base <$> es)
  | Undefined => Undefined
  end.

(** [m_run_callback.set_value(b)]: a second value is an exception. *)
Definition set_value_run (b : bool) : xact unit :=
  let! s := act_get in
  match m_run_callback s with
  | Some _ => act_throw "promise_already_satisfied"
  | None => act_modify (set_m_run_callback (Some b))
  end.

(** The decorator of the handshake: every field of [set_req] into [req]. *)
Definition decorate (set_req req : Req) : Req :=
  foldl (λ req f, if fld_unknown f then req_insert (fld_name f) (fld_value f) req
                  else req_set (fld_name f) (fld_value f) req) req (req_fields set_req).

Definition on_handshake (ec : error_code) : xact unit :=
  if ec_bool ec then set_value_run false
  else
    do! on_base read in
    do! act_modify (set_m_state cs_established) in
    set_value_run true.

Definition on_ssl_handshake (ec : error_code) : xact unit :=
  if ec_bool ec then set_value_run false
  else
    do! act_emit eff_expires_never in
    do! act_modify (set_m_state cs_handshake) in
    do! act_emit (eff_stream_timeout m_timeout_handshake) in
    do! act_emit (eff_decorator m_req_handshake) in
    act_emit (eff_async_handshake (cc_host_address m_client_cfg) "/").

(** The two overloads of [ssl_handshake()]. *)
Definition ssl_handshake : xact unit :=
  if is_ssl then act_emit eff_async_ssl_handshake else on_ssl_handshake ec_success.

Definition on_connect (ec : error_code) : xact unit :=
  if ec_bool ec then set_value_run false
  else
    do! act_emit (eff_expires_after (ct_handshake_timeout m_client_timeout)) in
    ssl_handshake.

Definition on_resolve (ec : error_code) : xact unit :=
  if ec_bool ec then set_value_run false
  else
    do! act_modify (set_m_state cs_connect) in
    do! act_emit (eff_expires_after m_timeout_handshake) in
    act_emit eff_async_connect.

(** [run()] up to [res.wait()]: [Some] is an early return. *)
Definition run_begin : xact (option connection_state) :=
  let! s := act_get in
  if m_close_initiated s || negb (bool_decide (m_state s = cs_none)) then act_ret (Some cs_none)
  else
    do! act_emit eff_control_callback in
    do! act_emit eff_binary in
    do! act_emit (eff_read_message_max (cc_max_read_bytes m_client_cfg)) in
    do! act_modify (set_m_run_callback None) in
    do! act_emit (eff_async_resolve (cc_host_address m_client_cfg) (pretty (cc_port m_client_cfg))) in
    do! act_emit eff_io_thread in
    act_ret None.

(** After the wait. *)
Definition run_end : xact connection_state := act_gets m_state.

(** [close()]; [io_stopped]: what [m_io_ctx->stopped()] answers. *)
Definition close (io_stopped : bool) : xact unit :=
  let! s := act_get in
  if m_close_initiated s then act_ret tt
  else
    do! act_modify (set_m_close_initiated true) in
    do! act_emit eff_post_close in
    if io_stopped then
      do! act_emit eff_io_restart in
      act_emit eff_io_run
    else act_emit (eff_wait_posted (config.io_timeout_secs * 1000000000)).

Definition new_session_connect : session_connect :=
  mk_session_connect new_client_session cs_none None false.

(** ** The system: the chain of completions *)

(** The operations of the chain that are outstanding, and what the base class
    has started. *)
Record connect_sys := mk_connect_sys {
  sc : session_connect;
  resolving : nat; connecting : nat; ssl_handshaking : nat; handshaking : nat;
  base_effects : list client_effect }.

Inductive connect_event : Set :=
  | xe_resolve (ec : error_code)
  | xe_connect (ec : error_code)
  | xe_ssl_handshake (ec : error_code)
  | xe_handshake (ec : error_code).

Definition event_ec (e : connect_event) : error_code :=
  match e with
  | xe_resolve ec | xe_connect ec | xe_ssl_handshake ec | xe_handshake ec => ec
  end.

Definition start_effect (y : connect_sys) (e : connect_effect) : connect_sys :=
  let '(mk_connect_sys s r c l h b) := y in
  match e with
  | eff_async_resolve _ _ => mk_connect_sys s (S r) c l h b
  | eff_async_connect => mk_connect_sys s r (S c) l h b
  | eff_async_ssl_handshake => mk_connect_sys s r c (S l) h b
  | eff_async_handshake _ _ => mk_connect_sys s r c l (S h) b
  | eff_base e => mk_connect_sys s r c l h (b ++ [e])
  | _ => y
  end.

Definition connect_deliver {A} (m : xact A) (y : connect_sys) : option connect_sys :=
  match m (sc y) with
  | Done _ s es =>
      Some (foldl start_effect (mk_connect_sys s (resolving y) (connecting y)
              (ssl_handshaking y) (handshaking y) (base_effects y)) es)
  | _ => None
  end.

Definition connect_enabled (y : connect_sys) (e : connect_event) : bool :=
  match e with
  | xe_resolve _ => (0 <? resolving y)%nat
  | xe_connect _ => (0 <? connecting y)%nat
  | xe_ssl_handshake _ => (0 <? ssl_handshaking y)%nat
  | xe_handshake _ => (0 <? handshaking y)%nat
  end.

(** The completion is consumed, then its handler runs. *)
Definition connect_handle (y : connect_sys) (e : connect_event) : option connect_sys :=
  let '(mk_connect_sys s r c l h b) := y in
  match e with
  | xe_resolve ec => connect_deliver (on_resolve ec) (mk_connect_sys s (pred r) c l h b)
  | xe_connect ec => connect_deliver (on_connect ec) (mk_connect_sys s r (pred c) l h b)
  | xe_ssl_handshake ec =>
      connect_deliver (on_ssl_handshake ec) (mk_connect_sys s r c (pred l) h b)
  | xe_handshake ec => connect_deliver (on_handshake ec) (mk_connect_sys s r c l (pred h) b)
  end.

(** A new session whose [run()] has been called. *)
Definition connect_sys_init : option connect_sys :=
  connect_deliver run_begin (mk_connect_sys new_session_connect 0 0 0 0 []).

Definition connect_steps := steps connect_enabled connect_handle.
Definition connect_run := run connect_enabled connect_handle.

(** [run()] answers once the promise is set. *)
Definition run_result (y : connect_sys) : option connection_state :=
  match m_run_callback (sc y), run_end (sc y) with
  | Some _, Done st _ _ => Some st
  | _, _ => None
  end.
End session_connect.
