(* ===== verification/ClientConnectFacts.v ===== *)
(** * ClientConnectFacts: a connection attempt always answers, and answers right *)

From S2P Require Import Prelude Types Header Operations DataCache DataQueue ClientSession ClientSystem ClientConnect.
#[local] Open Scope Z_scope.

Section connect_facts.
Context {B : Type} `{FlatBuffer B} {Req : Type}.
Context (m_client_cfg : client_config) (m_client_timeout : client_timeout).
Context (is_ssl : bool) (m_req_handshake : Req).

Abbreviation connect_sys := (connect_sys (B := B)).
Abbreviation handle :=
  (connect_handle m_client_cfg m_client_timeout is_ssl m_req_handshake).
Abbreviation conn_steps :=
  (connect_steps m_client_cfg m_client_timeout is_ssl m_req_handshake).
Abbreviation conn_init := (connect_sys_init (B := B) (Req := Req) m_client_cfg).

Definition outstanding (y : connect_sys) : nat :=
  (resolving y + connecting y + ssl_handshaking y + handshaking y)%nat.

(** The completions of a successful attempt, in order. *)
Definition chain_length : nat := if is_ssl then 4 else 3.

Definition event_ok (e : connect_event) : bool := negb (ec_bool (event_ec e)).

(** How far the chain has come after [es]: the one operation outstanding, or
    the answer. *)
Inductive reached (es : list connect_event) : connect_sys → Prop :=
  | reached_resolving :
      es = [] → reached es (mk_connect_sys new_session_connect 1 0 0 0 [])
  | reached_connecting s :
      length es = 1%nat → forallb event_ok es = true →
      s = set_m_state cs_connect new_session_connect →
      reached es (mk_connect_sys s 0 1 0 0 [])
  | reached_ssl s :
      length es = 2%nat → forallb event_ok es = true → is_ssl = true →
      s = set_m_state cs_connect new_session_connect →
      reached es (mk_connect_sys s 0 0 1 0 [])
  | reached_handshaking s :
      S (length es) = chain_length → forallb event_ok es = true →
      s = set_m_state cs_handshake new_session_connect →
      reached es (mk_connect_sys s 0 0 0 1 [])
  | reached_established s :
      length es = chain_length → forallb event_ok es = true →
      s = set_m_run_callback (Some true) (set_m_state cs_established new_session_connect) →
      reached es (mk_connect_sys s 0 0 0 0 [eff_read])
  | reached_failed s st :
      (length es ≤ chain_length)%nat → forallb event_ok es = false → st ≠ cs_established →
      s = set_m_run_callback (Some false) (set_m_state st new_session_connect) →
      reached es (mk_connect_sys s 0 0 0 0 []).

Lemma event_ok_snoc es e : forallb event_ok (es ++ [e]) = forallb event_ok es && event_ok e.
Proof. rewrite forallb_app. simpl. by rewrite andb_true_r. Qed.

Lemma event_ok_fail es e :
  ec_bool (event_ec e) = true → forallb event_ok (es ++ [e]) = false.
Proof. intros He. rewrite event_ok_snoc. unfold event_ok. by rewrite He, andb_false_r. Qed.

Lemma event_ok_next es e :
  ec_bool (event_ec e) = false → forallb event_ok es = true →
  forallb event_ok (es ++ [e]) = true.
Proof. intros He Ho. rewrite event_ok_snoc, Ho. unfold event_ok. by rewrite He. Qed.

(** A handler that gives up. *)
Lemma chain_fails es e st :
  (length es < chain_length)%nat → ec_bool (event_ec e) = true → st ≠ cs_established →
  ∃ y', connect_deliver (Req := Req) (set_value_run false)
          (mk_connect_sys (set_m_state st new_session_connect) 0 0 0 0 []) = Some y' ∧
        reached (es ++ [e]) y'.
Proof.
  intros Hl He Hst. eexists. split; [reflexivity|].
  eapply (reached_failed _ _ st); [| by apply event_ok_fail | done | reflexivity].
  rewrite length_app. simpl. lia.
Qed.

Ltac next_stage H :=
  eexists; split; [reflexivity|];
  eapply H; try reflexivity; try done; try (by apply event_ok_next);
  rewrite ?length_app; simpl; lia.

(** One completion takes the chain one step further or ends it. *)
Lemma reached_step es y e :
  reached es y → connect_enabled y e = true →
  ∃ y', handle y e = Some y' ∧ reached (es ++ [e]) y'.
Proof.
  intros [Hes | s Hl Ho -> | s Hl Ho Hssl -> | s Hl Ho -> | s Hl Ho -> | s st Hl Ho Hst ->];
    destruct e as [ec|ec|ec|ec]; try done; intros _;
    destruct (ec_bool ec) eqn:Hec; simpl;
    unfold on_resolve, on_connect, ssl_handshake, on_ssl_handshake, on_handshake; rewrite Hec.
  - subst. apply (chain_fails [] (xe_resolve ec) cs_none); [|done..]. unfold chain_length.
    by destruct is_ssl; simpl; lia.
  - subst. next_stage reached_connecting.
  - apply chain_fails; [|done..]. rewrite Hl. unfold chain_length. destruct is_ssl; lia.
  - destruct is_ssl eqn:Hssl; simpl; [next_stage reached_ssl|].
    eexists; split; [reflexivity|]. eapply reached_handshaking; [|by apply event_ok_next|reflexivity].
    rewrite length_app, Hl. unfold chain_length. by rewrite Hssl.
  - apply chain_fails; [|done..]. rewrite Hl. unfold chain_length. rewrite Hssl. lia.
  - eexists; split; [reflexivity|]. eapply reached_handshaking; [|by apply event_ok_next|reflexivity].
    rewrite length_app, Hl. unfold chain_length. by rewrite Hssl.
  - apply chain_fails; [lia|done..].
  - next_stage reached_established.
Qed.

Lemma reached_init y : conn_init = Some y → reached [] y.
Proof. intros [= <-]. by apply reached_resolving. Qed.

Lemma reached_steps y0 es y : conn_init = Some y0 → conn_steps y0 es y → reached es y.
Proof.
  intros Hi Hs. induction Hs as [y|y0 es y1 e y2 Hs IH Hst].
  - by apply reached_init.
  - destruct Hst as [He Hh]. destruct (reached_step es y1 e (IH Hi) He) as (y' & Hh' & Hr).
    congruence.
Qed.

Definition no_pending : pending := mk_pending 0 0 0 0 0 [] [] 0.

(** The system of the base class once the chain has ended. *)
Definition connected_client (y : connect_sys) : client_sys (B := B) :=
  mk_client_sys (base (sc y)) (pend_effects no_pending (base_effects y)) [] [] [].

(** C20. A connection attempt.  In every run no handler is undefined and the
    promise is set at most once; while it is not set exactly one operation of the
    chain is outstanding and all so far succeeded, so [run()] waits for something;
    there are at most three completions (four with TLS); and once the promise is
    set nothing is outstanding, and [run()] answers [established] exactly when
    all completions were successes, in which case the session is in the state in
    which the system of the connected session starts. *)
Theorem connect_result y0 es y :
  conn_init = Some y0 → conn_steps y0 es y →
  safe connect_enabled handle y ∧ (length es ≤ chain_length)%nat ∧
  match m_run_callback (sc y) with
  | None =>
      outstanding y = 1%nat ∧ forallb event_ok es = true ∧
      run_result (Req := Req) y = None ∧ base_effects y = []
  | Some b =>
      outstanding y = 0%nat ∧ b = forallb event_ok es ∧
      (run_result (Req := Req) y = Some cs_established ↔ b = true) ∧
      (b = true → connected_client y = client_sys_init) ∧ (b = false → base_effects y = [])
  end.
Proof.
  intros Hi Hs. pose proof (reached_steps _ _ _ Hi Hs) as Hr. split.
  { intros e He. destruct (reached_step es y e Hr He) as (y' & -> & _). eauto. }
  destruct Hr as [-> | s Hl Ho -> | s Hl Ho Hssl -> | s Hl Ho -> | s Hl Ho -> | s st Hl Ho Hst ->];
    unfold chain_length in *; simpl; rewrite ?Hssl; split_and!; try done;
    try (destruct is_ssl; simpl; lia); unfold run_result; simpl; naive_solver.
Qed.
End connect_facts.

Definition demo_connect_cfg : client_config := mk_client_config "localhost" 3377 1000 1 0.

Lemma connect_result_witness :
  ∃ y0 y es, connect_sys_init (B := list byte) (Req := unit) demo_connect_cfg = Some y0 ∧
    connect_steps demo_connect_cfg client_timeout_default true tt y0 es y ∧
    (length es ≤ chain_length true)%nat ∧
    run_result (Req := unit) y = Some cs_established.
Proof.
  set (es := [xe_resolve ec_success; xe_connect ec_success; xe_ssl_handshake ec_success;
              xe_handshake ec_success]).
  destruct (connect_sys_init (B := list byte) (Req := unit) demo_connect_cfg) as [y0|] eqn:Hi;
    [|discriminate Hi].
  destruct (connect_run demo_connect_cfg client_timeout_default true tt y0 es) as [y|] eqn:Hr;
    [|injection Hi as <-; vm_compute in Hr; discriminate Hr].
  pose proof (connect_result demo_connect_cfg client_timeout_default true tt y0 es y Hi
    (run_steps _ _ _ _ _ Hr)) as (_ & Hlen & _).
  exists y0, y, es. split_and!; [done|by apply run_steps|done|].
  injection Hi as <-. vm_compute in Hr. injection Hr as <-. reflexivity.
Defined.
