(* ===== verification/ClientWeight.v ===== *)
(** * ClientWeight: how much is left to complete

    A weight of what a client session and its chain of [session_connect] have
    outstanding.  Every completion lowers it, but that of a successful read; what
    a handler starts in turn weighs less than what has completed. *)

From S2P Require Import Prelude Types Header Operations DataCache DataCacheFacts DataQueue.
From S2P Require Import ClientSession ClientSystem ClientSystemFacts ClientOutgoing ClientConnect.

Section weight.
Context {B : Type} `{FlatBuffer B, !FlatBufferLaws B} {Req : Type}.
Context (host : byte_order) (m_bound_funcs : gmap Z bool).
Abbreviation client_session := (client_session (B := B)).
Abbreviation client_sys := (client_sys (B := B)).
Abbreviation kact := (act client_session client_effect).
Implicit Types (t : client_sys) (c : client_session) (p : pending).

(** A message weighs until it is written: posted, it may become an entry of the
    queue; the entries are what is being written; a read, or the end of a write,
    may start a close. *)
Definition pend_weight p : nat :=
  3 * length (posted p) + 2 * p_read p + 2 * posted_pings p + p_ping p + p_close p.

Definition client_weight t : nat := pend_weight (pend t) + 2 * length (entries (cl t)).

Definition effect_weight (e : client_effect) : nat :=
  match e with
  | eff_read => 2
  | eff_ping | eff_close => 1
  | eff_post _ => 3
  | eff_post_ping => 2
  | _ => 0
  end.

Definition effects_weight (es : list client_effect) : nat := sum_list_with effect_weight es.

Lemma pend_effects_weight es p : pend_weight (pend_effects p es) = (pend_weight p + effects_weight es)%nat.
Proof.
  revert p. induction es as [|e es IH]; intros p; [simpl; lia|].
  change (pend_effects p (e :: es)) with (pend_effects (pend_effect p e) es). rewrite IH.
  unfold pend_weight, effects_weight. destruct p, e; simpl; rewrite ?length_app; simpl; lia.
Qed.

(** [weighs k m]: what [m] starts weighs [k] at most. *)
Definition weighs {A} (k : nat) (m : kact A) : Prop :=
  ∀ c a c' es, m c = Done a c' es → (effects_weight es ≤ k)%nat.

Lemma weighs_emits {A} (m : kact A) : emits (λ e, effect_weight e = 0%nat) m → weighs 0 m.
Proof.
  intros Hm c a c' es E. apply Hm in E. induction E as [|e es He _ IH]; [done|].
  unfold effects_weight in *. simpl. lia.
Qed.

Lemma weighs_bind {A C} k1 k2 (m : kact A) (f : A → kact C) :
  weighs k1 m → (∀ a, weighs k2 (f a)) → weighs (k1 + k2) (act_bind m f).
Proof.
  intros Hm Hf c a c' es. unfold act_bind.
  destruct (m c) as [x c1 es1| |] eqn:E1; try done.
  destruct (f x c1) as [x2 c2 es2| |] eqn:E2; try done. intros [= <- <- <-].
  apply Hm in E1. apply Hf in E2. unfold effects_weight in *. rewrite sum_list_with_app. lia.
Qed.

Lemma weighs_get {A} k (f : client_session → kact A) :
  (∀ c, weighs k (f c)) → weighs k (let! s := kthis in f s).
Proof. intros Hf. change k with (0 + k)%nat. apply weighs_bind; [|done]. by apply weighs_emits, emits_get. Qed.

Lemma weighs_cache {A} (m : act (data_cache B) cache_effect A) : weighs 0 (on_cache m).
Proof.
  apply weighs_emits. intros c a c' es. unfold on_cache.
  destruct (m (m_cache c)) as [a' d es'| |]; try done. intros [= _ _ <-].
  apply Forall_fmap, Forall_true. by intros [l].
Qed.

Ltac quiet := apply weighs_emits; by solve_emits.

Lemma weighs_close_session : weighs 1 close_session.
Proof.
  apply weighs_get. intros c. destruct (_ || _); [intros ? ? ? ? [= <- <- <-]; simpl; lia|].
  intros c0 a c' es. run_act. by intros [= <- <- <-].
Qed.

Lemma weighs_handle_ping : weighs 1 handle_ping.
Proof.
  apply weighs_get. intros c. destruct (m_ping c); [intros ? ? ? ? [= <- <- <-]; simpl; lia|].
  intros c0 a c' es. run_act. by intros [= <- <- <-].
Qed.

Lemma weighs_handle_message c : weighs 0 (handle_message host m_bound_funcs c).
Proof.
  unfold handle_message. case_decide; [|quiet]. destruct (header_of_bytes _ _) as [h|]; [|quiet].
  apply (weighs_bind 0 0); [quiet|]. intros _. apply weighs_get. intros c'.
  destruct (m_bound_funcs !! _) as [[]|]; [quiet..|].
  apply (weighs_bind 0 0); [apply weighs_cache|]. intros b. quiet.
Qed.

Lemma weighs_on_read clock ec :
  weighs (if ec_bool ec then 1 else 2) (on_read host m_bound_funcs clock ec).
Proof.
  unfold on_read. apply weighs_get. intros c. destruct (ec_bool ec || m_close_received c) eqn:E.
  - assert (weighs 1 (do! on_cache cache_clear in
      do! act_modify (set_m_read_error true) in close_session)) as Hw.
    { apply (weighs_bind 0 1); [apply weighs_cache|]. intros _.
      apply (weighs_bind 0 1); [quiet|]. intros _. apply weighs_close_session. }
    intros c0 a c' es Hd. apply Hw in Hd. destruct (ec_bool ec); lia.
  - destruct (ec_bool ec); [done|].
    apply (weighs_bind 0 2); [apply weighs_handle_message|]. intros _.
    apply (weighs_bind 0 2); [apply weighs_cache|]. intros _.
    apply (weighs_bind 0 2); [quiet|]. intros _. intros c0 a c' es [= <- <- <-]. simpl. lia.
Qed.

(** ** The handlers of the io thread *)

(** Those that end something; a read that succeeds is followed by the next. *)
Definition completes (e : client_event (B := B)) : bool :=
  match e with
  | ce_read _ ec _ => ec_bool ec
  | ce_write _ | ce_ping _ | ce_close _ | ce_run_send | ce_run_ping => true
  | _ => false
  end.

Definition of_io_thread (e : client_event (B := B)) : Prop :=
  match e with
  | ce_read _ _ _ | ce_write _ | ce_control _ | ce_ping _ | ce_close _ | ce_run_send | ce_run_ping => True
  | _ => False
  end.

Lemma deliver_weight {A} (m : kact A) k c p t ns t' :
  aside m → weighs k m → entries c = entries (cl t) → deliver m c p t ns = Some t' →
  (client_weight t' ≤ pend_weight p + 2 * length (entries (cl t)) + k)%nat.
Proof.
  intros Ha Hw He Hd. destruct (aside_deliver m c p t ns t' Ha Hd) as (Eq & _).
  revert Hd. unfold deliver. destruct (m c) as [a c' es| |] eqn:E; try done. intros [= <-].
  simpl in Eq. unfold client_weight. simpl. rewrite pend_effects_weight, Eq, He. apply Hw in E. lia.
Qed.

Lemma write_weight t ec t' :
  client_inv host t → (0 < p_write (pend t))%nat →
  client_handle host m_bound_funcs t (ce_write ec) = Some t' →
  (client_weight t' < client_weight t)%nat.
Proof.
  intros [[C1 _ _ _ _ _ _ _] _ _ _ _] Hpos Hh. simpl in Hh.
  destruct (entries (cl t)) as [|d ds] eqn:Eq; [lia|].
  assert (pend_weight (done_write (pend t)) = pend_weight (pend t)) as Ep by by destruct (pend t).
  destruct (ec_bool ec || m_close (cl t) || m_close_received (cl t) || m_read_error (cl t)) eqn:Eb;
    unfold deliver in Hh.
  - rewrite client_on_write_error in Hh by done.
    destruct (close_session _) as [a c' es| |] eqn:E; try done. injection Hh as <-.
    destruct (proj1 aside_close_session [] _ _ _ _ _ _ E (conj eq_refl (conj eq_refl eq_refl))) as (E1 & _ & _).
    apply weighs_close_session in E. unfold client_weight, entries in *. simpl.
    rewrite pend_effects_weight, E1, Ep, Eq. simpl. lia.
  - rewrite (client_on_write_next host _ _ d ds) in Hh by done. injection Hh as <-.
    unfold client_weight, entries in *. simpl. rewrite pend_effects_weight, Ep, Eq. simpl.
    assert (effects_weight (match ds with [] => [] | d' :: _ => [eff_write (send_message host d')] end) = 0%nat) as ->
      by by destruct ds.
    lia.
Qed.

Lemma send_weight t t' :
  client_handle host m_bound_funcs t ce_run_send = Some t' → (client_weight t' < client_weight t)%nat.
Proof.
  simpl. destruct (posted (pend t)) as [|d ds] eqn:Ep; [done|]. unfold deliver.
  assert (pend_weight (pend t) = pend_weight (run_posted (pend t)) + 3)%nat as Ew.
  { unfold pend_weight, run_posted. simpl. rewrite Ep. simpl. lia. }
  assert (∀ c', length (entries c') ≤ S (length (entries (cl t))) → ∀ es acc snt hd, effects_weight es = 0 →
    client_weight (mk_client_sys c' (pend_effects (run_posted (pend t)) es) acc snt hd) < client_weight t)%nat as Hlt.
  { intros c' Hc es acc snt hd He. unfold client_weight. simpl. rewrite pend_effects_weight, He. lia. }
  destruct (decide (sending (cl t))) as [Hs|Hs]; 
    [|rewrite client_handle_send_stopped by done; intros [= <-]; by apply (Hlt (cl t) ltac:(lia) [])].
  destruct (decide (dq_max_entries (m_queue (cl t)) ≤ length (entries (cl t)))%nat) as [Hl|Hl];
    [rewrite client_handle_send_full by done; intros [= <-]; by apply (Hlt (cl t) ltac:(lia) [])|].
  rewrite client_handle_send_room by (done || lia). intros [= <-]. apply Hlt.
  - unfold entries. simpl. rewrite length_app. simpl. unfold entries. lia.
  - by destruct (entries (cl t)).
Qed.

Lemma client_event_weight t e t' :
  client_inv host t → client_enabled t e = true → of_io_thread e →
  client_handle host m_bound_funcs t e = Some t' →
  (client_weight t' + (if completes e then 1 else 0) ≤ client_weight t)%nat.
Proof.
  intros Hi He Ho Hh.
  destruct e as [clock ec msg|ec|kind|ec|ec| | | | | | | | | |]; simpl in He; try done; cbn [completes].
  - apply Nat.ltb_lt in He.
    eapply deliver_weight in Hh as Hw; [|apply aside_on_read|apply weighs_on_read|done].
    unfold client_weight at 2. unfold pend_weight, done_read in *. simpl in *. destruct (ec_bool ec); lia.
  - apply Nat.ltb_lt in He. pose proof (write_weight t ec t' Hi He Hh). lia.
  - assert (aside (on_control_callback (B := B) kind) ∧ weighs 0 (on_control_callback kind)) as [Ha Hw].
    { unfold on_control_callback. split; [split; [intros ? ? ?; by solve_pres|by solve_emits]|quiet]. }
    eapply deliver_weight in Hh; [|exact Ha|exact Hw|done]. unfold client_weight at 2. lia.
  - apply Nat.ltb_lt in He. simpl in Hh. unfold deliver, on_ping in Hh. injection Hh as <-.
    unfold client_weight, pend_weight, done_ping, entries. simpl. lia.
  - apply Nat.ltb_lt in He. simpl in Hh. unfold deliver, on_close in Hh. injection Hh as <-.
    unfold client_weight, pend_weight, done_close, entries. simpl. lia.
  - pose proof (send_weight t t' Hh). lia.
  - apply Nat.ltb_lt in He.
    assert (aside (handle_ping (B := B))) as Ha.
    { unfold handle_ping, kthis. split; [intros ? ? ?; by solve_pres|by solve_emits]. }
    eapply deliver_weight in Hh as Hw; [|exact Ha|apply weighs_handle_ping|done].
    unfold client_weight at 2. unfold pend_weight, run_posted_ping in *. simpl in *. lia.
Qed.

Lemma close_weight t t' :
  client_handle host m_bound_funcs t ce_run_close = Some t' → (client_weight t' ≤ client_weight t + 1)%nat.
Proof.
  intros Hh. eapply deliver_weight in Hh; [|apply aside_close_session|apply weighs_close_session|done].
  unfold client_weight at 2. lia.
Qed.

(** ** The chain *)

Definition connect_weight (y : connect_sys (B := B)) : nat :=
  4 * resolving y + 3 * connecting y + 2 * ssl_handshaking y + handshaking y.

Lemma connect_event_weight cfg timeout is_ssl (req : Req) (y y' : connect_sys) e :
  connect_enabled y e = true → connect_handle cfg timeout is_ssl req y e = Some y' →
  (connect_weight y' < connect_weight y)%nat.
Proof.
  intros He. destruct y as [[b st cb ci] r c l h be].
  destruct e as [ec|ec|ec|ec]; simpl in He |- *; apply Nat.ltb_lt in He;
    unfold connect_deliver, on_resolve, on_connect, ssl_handshake, on_ssl_handshake, on_handshake,
      set_value_run, on_base, read; destruct (ec_bool ec); simpl; run_act;
    try destruct cb; try destruct is_ssl; simpl; try done; intros [= <-]; unfold connect_weight; simpl; lia.
Qed.
End weight.
