(* ===== verification/Prog.v ===== *)
(** * Prog: threads as programs over commands

    The methods of [client] block, loop and call each other, and several user
    threads run them at once.  A method is a program: a tree of commands, each
    of which is one atomic access to the shared state or one call into a
    session, with what to do for each answer.  Here: the monad, scope exit
    ([finally], the destructor of a lock guard), the traces of a program and a
    small logic for properties of all its traces. *)

From S2P Require Import Prelude.

Section prog.
Context {cmd : Type} {answer : cmd → Type}.

Inductive prog (A : Type) : Type :=
  | Ret (a : A)
  | Throw (why : string)
  | Op (o : cmd) (k : answer o → prog A).
Arguments Ret {A} a.
Arguments Throw {A} why.
Arguments Op {A} o k.

Definition op (o : cmd) : prog (answer o) := Op o Ret.

Fixpoint prog_bind {A B} (p : prog A) (f : A → prog B) : prog B :=
  match p with
  | Ret a => f a
  | Throw why => Throw why
  | Op o k => Op o (λ x, prog_bind (k x) f)
  end.

(** Runs [c] when [p] ends, however it ends. *)
Fixpoint finally {A} (p : prog A) (c : prog unit) : prog A :=
  match p with
  | Ret a => prog_bind c (λ _, Ret a)
  | Throw why => prog_bind c (λ _, Throw why)
  | Op o k => Op o (λ x, finally (k x) c)
  end.

(** ** Traces *)

Inductive ending (A : Type) : Type := Returned (a : A) | Threw (why : string).
Arguments Returned {A} a.
Arguments Threw {A} why.

Definition trace : Type := list { o : cmd & answer o }.

Inductive traced {A} : prog A → trace → ending A → Prop :=
  | traced_ret a : traced (Ret a) [] (Returned a)
  | traced_throw why : traced (Throw why) [] (Threw why)
  | traced_op o k x tr r : traced (k x) tr r → traced (Op o k) (existT o x :: tr) r.

(** ** A logic of programs

    [M] is a ghost state: [pre m o] says that [o] may be executed in [m],
    [post m o x] is the ghost state after the answer [x]. *)

Section logic.
Context {M : Type} (pre : M → cmd → Prop) (post : M → ∀ o, answer o → M).

Fixpoint ok {A} (m : M) (p : prog A) (Q : A → M → Prop) (E : M → Prop) : Prop :=
  match p with
  | Ret a => Q a m
  | Throw _ => E m
  | Op o k => pre m o ∧ ∀ x, ok (post m o x) (k x) Q E
  end.

Lemma ok_mono {A} m (p : prog A) (Q Q' : A → M → Prop) (E E' : M → Prop) :
  ok m p Q E → (∀ a m, Q a m → Q' a m) → (∀ m, E m → E' m) → ok m p Q' E'.
Proof.
  intros Hp HQ HE. revert m Hp. induction p as [a|why|o k IH]; intros m; simpl; [auto..|].
  intros [Hpre Hk]. split; [done|]. intros x. by apply IH.
Qed.

Lemma ok_bind {A B} m (p : prog A) (f : A → prog B) Q E :
  ok m p (λ a m, ok m (f a) Q E) E → ok m (prog_bind p f) Q E.
Proof.
  revert m. induction p as [a|why|o k IH]; intros m; simpl; [done..|].
  intros [Hpre Hk]. split; [done|]. intros x. by apply IH.
Qed.

Lemma ok_op m o (Q : answer o → M → Prop) E :
  pre m o → (∀ x, Q x (post m o x)) → ok m (op o) Q E.
Proof. done. Qed.

Lemma ok_finally {A} m (p : prog A) (c : prog unit) Q E :
  ok m p (λ a m, ok m c (λ _ m, Q a m) E) (λ m, ok m c (λ _ m, E m) E) →
  ok m (finally p c) Q E.
Proof.
  revert m. induction p as [a|why|o k IH]; intros m; simpl.
  - intros Hc. by apply ok_bind.
  - intros Hc. by apply ok_bind.
  - intros [Hpre Hk]. split; [done|]. intros x. by apply IH.
Qed.

Definition post_trace (m : M) (tr : trace) : M :=
  foldl (λ m e, post m (projT1 e) (projT2 e)) m tr.

Lemma ok_traced {A} m (p : prog A) Q E tr r :
  ok m p Q E → traced p tr r →
  match r with Returned a => Q a (post_trace m tr) | Threw _ => E (post_trace m tr) end.
Proof.
  intros Hp Ht. revert m Hp. induction Ht as [a|why|o k x tr r Ht IH]; intros m; simpl; [done..|].
  intros [_ Hk]. by apply IH.
Qed.

(** The commands of a trace are allowed. *)
Lemma ok_allowed {A} (P : cmd → Prop) m (p : prog A) Q E tr r :
  (∀ m o, pre m o → P o) → ok m p Q E → traced p tr r → Forall (λ e, P (projT1 e)) tr.
Proof.
  intros HP Hp Ht. revert m Hp. induction Ht as [a|why|o k x tr r Ht IH]; intros m; simpl;
    [by constructor..|].
  intros [Hpre Hk]. constructor; [by eapply HP|]. by eapply IH.
Qed.
End logic.

(** *** The same, for the runs whose answers are among those [given] *)

Section given.
Context {M : Type} (given : ∀ o, answer o → Prop).
Context (pre : M → cmd → Prop) (post : M → ∀ o, answer o → M).

Fixpoint ok_given {A} (m : M) (p : prog A) (Q : A → M → Prop) (E : M → Prop) : Prop :=
  match p with
  | Ret a => Q a m
  | Throw _ => E m
  | Op o k => pre m o ∧ ∀ x, given o x → ok_given (post m o x) (k x) Q E
  end.

Lemma ok_given_mono {A} m (p : prog A) (Q Q' : A → M → Prop) (E E' : M → Prop) :
  ok_given m p Q E → (∀ a m, Q a m → Q' a m) → (∀ m, E m → E' m) → ok_given m p Q' E'.
Proof.
  intros Hp HQ HE. revert m Hp. induction p as [a|why|o k IH]; intros m; simpl; [auto..|].
  intros [Hpre Hk]. split; [done|]. intros x Hx. by apply IH, Hk.
Qed.

Lemma ok_given_bind {A B} m (p : prog A) (f : A → prog B) Q E :
  ok_given m p (λ a m, ok_given m (f a) Q E) E → ok_given m (prog_bind p f) Q E.
Proof.
  revert m. induction p as [a|why|o k IH]; intros m; simpl; [done..|].
  intros [Hpre Hk]. split; [done|]. intros x Hx. by apply IH, Hk.
Qed.

Lemma ok_given_op m o (Q : answer o → M → Prop) E :
  pre m o → (∀ x, given o x → Q x (post m o x)) → ok_given m (op o) Q E.
Proof. done. Qed.

Lemma ok_given_finally {A} m (p : prog A) (c : prog unit) Q E :
  ok_given m p (λ a m, ok_given m c (λ _ m, Q a m) E) (λ m, ok_given m c (λ _ m, E m) E) →
  ok_given m (finally p c) Q E.
Proof.
  revert m. induction p as [a|why|o k IH]; intros m; simpl.
  - intros Hc. by apply ok_given_bind.
  - intros Hc. by apply ok_given_bind.
  - intros [Hpre Hk]. split; [done|]. intros x Hx. by apply IH, Hk.
Qed.
End given.

(** Every program ends: with an answer for each command, it has a trace. *)
Fixpoint trace_of {A} (ans : ∀ o, answer o) (p : prog A) : trace * ending A :=
  match p with
  | Ret a => ([], Returned a)
  | Throw why => ([], Threw why)
  | Op o k => let '(tr, r) := trace_of ans (k (ans o)) in (existT o (ans o) :: tr, r)
  end.

Lemma trace_of_traced {A} ans (p : prog A) : traced p (fst (trace_of ans p)) (snd (trace_of ans p)).
Proof.
  induction p as [a|why|o k IH]; simpl; [constructor..|].
  specialize (IH (ans o)). destruct (trace_of ans (k (ans o))) as [tr r]. by constructor.
Qed.
End prog.

Arguments prog {cmd} answer A.
Arguments Ret {cmd answer A} a.
Arguments Throw {cmd answer A} why.
Arguments Op {cmd answer A} o k.
Arguments op {cmd answer} o.
Arguments Returned {A} a.
Arguments Threw {A} why.
Arguments trace {cmd} answer.
Arguments ok {cmd answer M} pre post {A} m p Q E.
Arguments ok_given {cmd answer M} given pre post {A} m p Q E.

Notation "'let^' x := m 'in' k" := (prog_bind m (λ x, k))
  (at level 10, x name, m at level 100, k at level 200,
   format "'[v' 'let^'  x  :=  m  'in' '/' k ']'") : radrpc_scope.
Notation "'do^' m 'in' k" := (prog_bind m (λ _, k))
  (at level 10, m at level 100, k at level 200,
   format "'[v' 'do^'  m  'in' '/' k ']'") : radrpc_scope.

(** Proves [ok] of a program made of binds and commands, leaving the
    preconditions and the postconditions. *)
Ltac ok_step :=
  lazymatch goal with
  | |- ok _ _ _ (prog_bind _ _) _ _ => apply ok_bind
  | |- ok _ _ _ (finally _ _) _ _ => apply ok_finally
  | |- ok _ _ _ (op _) _ _ => apply ok_op; [|intros ?]
  | |- ok _ _ _ (Ret _) _ _ => simpl
  | |- ok _ _ _ (Throw _) _ _ => simpl
  | |- ok _ _ _ (if ?b then _ else _) _ _ => destruct b eqn:?
  | |- ok _ _ _ (match ?x with _ => _ end) _ _ => destruct x eqn:?
  end.
