(* ===== verification/Debug.v ===== *)
(** * Debug: debug.hpp, the macros

    [RADRPC_THROW] and [RADRPC_ASSERT] as actions that throw, [RADRPC_LOG] as a
    program over the mutex of the log, [WHILE_TIMEOUT] as a loop over the
    readings it makes.  [__FUNCTION__], [__FILE__] and [__LINE__] are arguments. *)

From S2P Require Import Prelude Prog.
From stdpp Require Import pretty.
From Stdlib Require Import Ascii.
#[local] Open Scope Z_scope.

(** ** [RADRPC_FILENAME] *)

(** [strrchr(s, c) + 1], when [c] occurs. *)
Fixpoint strrchr_next (c : ascii) (s : string) : option string :=
  match s with
  | EmptyString => None
  | String a s' =>
      match strrchr_next c s' with
      | Some r => Some r
      | None => if decide (a = c) then Some s' else None
      end
  end.

(** [sep]: a backslash on Windows, a slash elsewhere. *)
Definition RADRPC_FILENAME (sep : ascii) (file : string) : string :=
  default file (strrchr_next sep file).

Fixpoint occurs (c : ascii) (s : string) : bool :=
  match s with
  | EmptyString => false
  | String a s' => bool_decide (a = c) || occurs c s'
  end.

Lemma strrchr_next_Some c s r :
  strrchr_next c s = Some r → occurs c r = false ∧ ∃ p, s = (p +:+ String c r)%string.
Proof.
  revert r. induction s as [|a s IH]; intros r; [done|]. simpl.
  destruct (strrchr_next c s) as [r'|] eqn:E.
  - intros [= <-]. destruct (IH r' eq_refl) as [Hr (p & ->)]. split; [done|].
    by exists (String a p).
  - case_decide as Ha; [|done]. intros [= <-]. subst a. split; [|by exists EmptyString].
    clear IH. induction s as [|b s IH]; [done|]. simpl in *.
    destruct (strrchr_next c s); [done|]. case_decide; [done|].
    rewrite bool_decide_eq_false_2 by done. by apply IH.
Qed.

Lemma strrchr_next_None c s : strrchr_next c s = None → occurs c s = false.
Proof.
  induction s as [|a s IH]; [done|]. simpl. destruct (strrchr_next c s); [done|].
  case_decide as Ha; [done|]. intros _. rewrite bool_decide_eq_false_2 by done. by apply IH.
Qed.

(** The last part of the path: no separator is left, and only whole directories
    are cut. *)
Lemma RADRPC_FILENAME_spec sep file :
  occurs sep (RADRPC_FILENAME sep file) = false ∧
  (RADRPC_FILENAME sep file = file ∨
   ∃ dir, file = (dir +:+ String sep (RADRPC_FILENAME sep file))%string).
Proof.
  unfold RADRPC_FILENAME. destruct (strrchr_next sep file) as [r|] eqn:E; simpl.
  - apply strrchr_next_Some in E as [? ?]. auto.
  - apply strrchr_next_None in E. auto.
Qed.

(** ** Exceptions *)

(** [ss.str().c_str()]: up to the first zero. *)
Fixpoint c_str (s : string) : string :=
  match s with
  | EmptyString => EmptyString
  | String a s' => if decide (a = zero) then EmptyString else String a (c_str s')
  end.

Record place := mk_place { pl_function : string; pl_file : string; pl_line : N }.

Section exceptions.
Context {St Ef : Type} (sep : ascii) (here : place).

Definition location : string :=
  ("In " +:+ pl_function here +:+ " " +:+ RADRPC_FILENAME sep (pl_file here) +:+ ":" +:+
   pretty (pl_line here))%string.

(** The line feed and the indentation of the macro. *)
Definition throw_indent : string := String (ascii_of_nat 10) "           ".

Definition RADRPC_THROW {A} (msg : string) : act St Ef A :=
  act_throw (c_str (msg +:+ throw_indent +:+ location)%string).

Definition RADRPC_ASSERT (b : bool) : act St Ef unit :=
  if negb b then act_throw (c_str location) else act_ret tt.

Lemma RADRPC_ASSERT_spec b s :
  RADRPC_ASSERT b s = if b then Done tt s [] else Thrown (c_str location) s [].
Proof. by destruct b. Qed.
End exceptions.

(** ** The log

    With [RADRPC_LOGGING] the message is evaluated and printed under
    [debug::log_mtx()], which is locked and unlocked by hand; without it the
    message is not even evaluated. *)

Inductive log_cmd : Type :=
  | log_lock
  | log_unlock
  | log_print (s : string)
  | log_other (n : nat).        (* what the evaluation of a message does *)

Definition log_answer (o : log_cmd) : Type := unit.
Abbreviation log_prog := (prog log_answer).

Definition RADRPC_LOG (logging : bool) (str : log_prog string) : log_prog unit :=
  if logging then
    do^ op (answer := log_answer) log_lock in
    let^ s := str in
    do^ op (answer := log_answer) (log_print s) in
    op (answer := log_answer) log_unlock
  else Ret tt.

Definition RADRPC_DLOG (logging : bool) (str : log_prog string) : log_prog unit :=
  RADRPC_LOG logging (let^ s := str in Ret ("[DEBUG] " +:+ s)%string).

(** [held]: this thread has locked the mutex, which is not recursive. *)
Definition log_pre (held : bool) (o : log_cmd) : Prop :=
  match o with
  | log_lock => held = false
  | log_unlock | log_print _ => held = true
  | log_other _ => True
  end.
Definition log_post (held : bool) (o : log_cmd) (_ : log_answer o) : bool :=
  match o with log_lock => true | log_unlock => false | _ => held end.

(** A message that does not log itself. *)
Definition plain_message (str : log_prog string) : Prop :=
  ok log_pre log_post true str (λ _ held, held = true) (λ held, held = true).

(** The macro locks and unlocks once; but when the message throws, the mutex stays
    locked, and the next message of that thread locks it again. *)
Lemma RADRPC_LOG_mutex logging str :
  plain_message str →
  ok log_pre log_post false (RADRPC_LOG logging str) (λ _ held, held = false) (λ held, held = true).
Proof.
  intros Hs. destruct logging; [|done]. cbn [RADRPC_LOG].
  apply ok_bind, ok_op; [done|]. intros []. apply ok_bind. eapply ok_mono; [exact Hs| |done]. intros s held ->.
  split; [done|]. intros []. split; [done|]. by intros [].
Qed.

(** ** [WHILE_TIMEOUT] *)

(** The readings: the value of [EXPRESSION] and, when it is true, the whole
    seconds since the start.  The result is the number of turns of the body and
    [timeout]; [None]: still in the loop. *)
Fixpoint WHILE_TIMEOUT (timeout_secs : Z) (readings : list (bool * Z)) (timeout : bool) : option (nat * bool) :=
  match readings with
  | [] => None
  | (expression, secs) :: readings' =>
      if negb expression then Some (0%nat, timeout)
      else
        let timeout' := negb (secs <? timeout_secs) in
        if timeout' then Some (0%nat, true)
        else '(n, b) ← WHILE_TIMEOUT timeout_secs readings' timeout'; Some (S n, b)
  end.

(** The loop ends with [timeout] exactly when the time was over while the
    expression was true; [timeout] is that of the caller only when the first test
    fails. *)
Lemma WHILE_TIMEOUT_end secs readings b n t :
  WHILE_TIMEOUT secs readings b = Some (n, t) →
  ∃ e s, readings !! n = Some (e, s) ∧
    (if e : bool then secs ≤ s ∧ t = true else t = match n with 0%nat => b | S _ => false end) ∧
    ∀ i, (i < n)%nat → ∃ s', readings !! i = Some (true, s') ∧ s' < secs.
Proof.
  revert b n t. induction readings as [|[e s] rs IH]; intros b n t; [done|]. simpl.
  destruct e; simpl; [|intros [= <- <-]; exists false, s; split_and!; [done..|lia]].
  destruct (s <? secs) eqn:Es; simpl; [|intros [= <- <-]; exists true, s; split_and!; [done|lia|done|lia]].
  destruct (WHILE_TIMEOUT secs rs false) as [[m t']|] eqn:E; [|done]. intros [= <- <-].
  destruct (IH _ _ _ E) as (e' & s' & Hn & Ht & Hi). exists e', s'. split; [done|]. split.
  - destruct e'; [done|]. by destruct m.
  - intros [|i] Hlt; [exists s; split; [done|lia]|]. apply Hi. lia.
Qed.

(** It ends when the clock goes on. *)
Lemma WHILE_TIMEOUT_ends secs readings b i s :
  readings !! i = Some (true, s) → secs ≤ s → is_Some (WHILE_TIMEOUT secs readings b).
Proof.
  revert b i. induction readings as [|[e s'] rs IH]; intros b i; [done|]. intros Hi Hs. simpl.
  destruct e; simpl; [|by eexists]. destruct (s' <? secs) eqn:Es; simpl; [|by eexists].
  destruct i as [|i]; [injection Hi as <-; lia|].
  destruct (IH false i Hi Hs) as [[m t] ->]. by eexists.
Qed.
