(* ===== verification/Client.v ===== *)
(** * Client: the [client] class of client.hpp

    Every method as a program over the commands below, in the order of the
    code; [with_write_lock] and [with_read_lock] are the lock guards on
    [m_session_mtx].  A critical section of [m_expired_mtx] contains nothing
    that blocks and is one command.  The calls into a session ([run], [close],
    [send], [send_recv], [ping]) are commands whose results come from outside:
    what they do is the subject of ClientConnect and ClientSession.  Below the
    methods: the shared state, and the system of any number of user threads,
    the io thread and the deletion of sessions. *)

From S2P Require Import Prelude Types Operations Prog.
#[local] Open Scope Z_scope.

Section client.
(** The buffers responses are received in, the bound handlers and the HTTP
    messages of the handshake. *)
Context {B : Type} `{FlatBuffer B} {F Req Res : Type} (empty_response : Res).

Inductive bind_result : Set := bind_active | bind_twice | bind_done.

Inductive client_cmd : Type :=
  | lock_write | unlock_write | lock_read | unlock_read     (* [m_session_mtx] *)
  | get_exit | set_exit
  | take_expired                   (* [if (!m_expired) return true; m_expired = false;] *)
  | wait_expired                   (* the wait of [wait_destruction()] *)
  | join_worker                    (* [if (joinable()) join();] *)
  | new_session                    (* [ptr(new ..)] and [m_session = ptr] *)
  | run_session (o : nat)          (* [ptr->run()] up to its wait: a new [m_io_worker] *)
  | run_result (o : nat)           (* the result of [ptr->run()] *)
  | lock_session                   (* [m_session.lock()] *)
  | release (o : nat)              (* the end of a local [shared_ptr] *)
  | session_close (o : nat)
  | session_ping (o : nat)
  | session_send (o : nat) (call_id : Z) (data : list byte)
  | session_send_recv (o : nat) (call_id : Z) (data : list byte) (recv_bytes : B)
  | session_response (o : nat)     (* [session->res_handshake] *)
  | bind_broadcast (broadcast_id : Z) (handler : F)
  | put_request (req : Req)
  | sleep_for (d : duration).

Definition answer (o : client_cmd) : Type :=
  match o with
  | get_exit | take_expired | wait_expired | session_ping _ => bool
  | new_session => nat
  | run_result _ => connection_state
  | lock_session => option nat
  | session_send _ _ _ => error_code
  | session_send_recv _ _ _ _ => B * error_code
  | session_response _ => Res
  | bind_broadcast _ _ => bind_result
  | _ => unit
  end.

Abbreviation cprog := (prog answer).
Abbreviation cmd_op o := (op (answer := answer) o).

Context (m_client_cfg : client_config).

(** [m_client_cfg.send_attempts = std::max(m_client_cfg.send_attempts, 1u)], in
    the constructors. *)
Definition send_attempts : nat := Z.to_nat (Z.max (cc_send_attempts m_client_cfg) 1).

(** [set_send_timeout] and [set_response_timeout], called by thread [t]. *)
Definition set_send_timeout (t : thread_id) (timeout : duration) (s : tls) : tls :=
  snd (send_timeout t timeout s).
Definition set_response_timeout (t : thread_id) (timeout : duration) (s : tls) : tls :=
  snd (response_timeout t timeout s).

(** ** The methods *)

Definition with_write_lock {A} (p : cprog A) : cprog A :=
  do^ cmd_op lock_write in finally p (cmd_op unlock_write).

Definition with_read_lock {A} (p : cprog A) : cprog A :=
  do^ cmd_op lock_read in finally p (cmd_op unlock_read).

Definition wait_destruction : cprog bool := cmd_op wait_expired.

(** The two overloads, for the two kinds of stream. *)
Definition construct_session : cprog bool :=
  let^ was_expired := cmd_op take_expired in
  if negb was_expired then Ret true
  else
    do^ cmd_op join_worker in
    let^ ptr := cmd_op new_session in
    do^ cmd_op (run_session ptr) in
    let^ state := cmd_op (run_result ptr) in
    do^ cmd_op (release ptr) in
    Ret (bool_decide (state = cs_established)).

Definition connect : cprog bool :=
  with_write_lock
    (let^ exit := cmd_op get_exit in
     if (exit : bool) then Ret false else construct_session).

(** [for (i = ..; i < attempts; ++i)]: [n] attempts are left. *)
Fixpoint connect_loop (delay : duration) (i n : nat) : cprog bool :=
  match n with
  | O => Ret false
  | S n' =>
      do^ if decide (i ≠ 0%nat) then
            let^ destructed := wait_destruction in
            if negb destructed then Throw "client::connect: Timeout, this should not happen"
            else cmd_op (sleep_for delay)
          else Ret tt in
      let^ constructed := construct_session in
      if (constructed : bool) then Ret true else connect_loop delay (S i) n'
  end.

Definition connect_attempts (attempts : nat) (delay : duration) : cprog bool :=
  with_write_lock
    (let^ exit := cmd_op get_exit in
     if (exit : bool) then Ret false else connect_loop delay 0 attempts).

(** [if (auto session = m_session.lock()) session->close();] *)
Definition close_active : cprog unit :=
  let^ session := cmd_op lock_session in
  match session with
  | Some o => do^ cmd_op (session_close o) in cmd_op (release o)
  | None => Ret tt
  end.

Definition disconnect : cprog unit :=
  with_write_lock
    (let^ exit := cmd_op get_exit in
     if (exit : bool) then Ret tt
     else
       do^ close_active in
       let^ destructed := wait_destruction in
       if negb destructed then Throw "client::disconnect: Timeout, this should not happen"
       else Ret tt).

Definition ping : cprog bool :=
  with_write_lock
    (let^ exit := cmd_op get_exit in
     if (exit : bool) then Ret false
     else
       let^ constructed := construct_session in
       if negb constructed then Ret false
       else
         let^ session := cmd_op lock_session in
         match session with
         | Some o =>
             let^ pong := cmd_op (session_ping o) in
             do^ cmd_op (release o) in Ret (pong : bool)
         | None => Ret false
         end).

(** One pass through the locked part of [send]: [None] is [return false],
    otherwise [expired] and [ec]. *)
Definition send_locked (call_id : Z) (data : list byte) : cprog (option (bool * error_code)) :=
  with_read_lock
    (let^ exit := cmd_op get_exit in
     if (exit : bool) then Ret None
     else
       let^ session := cmd_op lock_session in
       match session with
       | Some o =>
           let^ ec := cmd_op (session_send o call_id data) in
           do^ cmd_op (release o) in Ret (Some (false, ec : error_code))
       | None => Ret (Some (true, ec_success))
       end).

(** The end of an attempt: disconnect on an error, connect if expired. *)
Definition recover (expired : bool) (ec : error_code) : cprog unit :=
  do^ if ec_bool ec then disconnect else Ret tt in
  if expired then let^ _ := connect in Ret tt else Ret tt.

Fixpoint send_loop (call_id : Z) (data : list byte) (i n : nat) : cprog bool :=
  match n with
  | O => Ret false
  | S n' =>
      do^ if decide (i ≠ 0%nat) then cmd_op (sleep_for (cc_send_attempt_delay m_client_cfg))
          else Ret tt in
      let^ r := send_locked call_id data in
      match r with
      | None => Ret false
      | Some (expired, ec) =>
          do^ recover expired ec in
          if negb (ec_bool ec) && negb expired then Ret true
          else send_loop call_id data (S i) n'
      end
  end.

Definition send (call_id : Z) (data : list byte) : cprog bool :=
  send_loop call_id data 0 send_attempts.

Definition send_recv_locked (call_id : Z) (data : list byte) (result : B) :
    cprog (option (bool * B * error_code)) :=
  with_read_lock
    (let^ exit := cmd_op get_exit in
     if (exit : bool) then Ret None
     else
       let^ session := cmd_op lock_session in
       match session with
       | Some o =>
           let^ re := cmd_op (session_send_recv o call_id data result) in
           do^ cmd_op (release o) in Ret (Some (false, (re : B * error_code).1, (re : B * error_code).2))
       | None => Ret (Some (true, result, ec_success))
       end).

(** [result] is kept from one attempt to the next. *)
Fixpoint send_recv_loop (call_id : Z) (data : list byte) (result : B) (i n : nat) : cprog B :=
  match n with
  | O => Ret result
  | S n' =>
      do^ if decide (i ≠ 0%nat) then cmd_op (sleep_for (cc_send_attempt_delay m_client_cfg))
          else Ret tt in
      let^ r := send_recv_locked call_id data result in
      match r with
      | None => Ret result
      | Some (expired, result, ec) =>
          do^ recover expired ec in
          if negb (ec_bool ec) && negb expired then Ret result
          else send_recv_loop call_id data result (S i) n'
      end
  end.

Definition send_recv (call_id : Z) (data : list byte) : cprog B :=
  send_recv_loop call_id data fb_empty 0 send_attempts.

Definition listen_broadcast (broadcast_id : Z) (handler : F) : cprog bool :=
  with_write_lock
    (let^ exit := cmd_op get_exit in
     if (exit : bool) then Ret false
     else
       let^ r := cmd_op (bind_broadcast broadcast_id handler) in
       match r with
       | bind_active => Throw "client::listen_broadcast: session is connected"
       | bind_twice => Throw "client::listen_broadcast: already bound"
       | bind_done => Ret true
       end).

Definition set_handshake_request (req : Req) : cprog unit :=
  with_write_lock
    (let^ exit := cmd_op get_exit in
     if (exit : bool) then Ret tt else cmd_op (put_request req)).

Definition get_handshake_response : cprog Res :=
  with_write_lock
    (let^ exit := cmd_op get_exit in
     if (exit : bool) then Ret empty_response
     else
       let^ session := cmd_op lock_session in
       match session with
       | Some o =>
           let^ res := cmd_op (session_response o) in
           do^ cmd_op (release o) in Ret (res : Res)
       | None => Ret empty_response
       end).

(** [~client()] *)
Definition destroy : cprog unit :=
  do^ cmd_op lock_write in
  do^ cmd_op set_exit in
  do^ close_active in
  do^ wait_destruction in
  do^ cmd_op join_worker in
  cmd_op unlock_write.
End client.
