(* ===== verification/ClientThreads.v ===== *)
(** * ClientThreads: a client, its user threads, its io thread and its sessions

    The state the commands of Client work on, and the system: any number of
    threads run methods of one client, their commands interleaving in any order;
    the io thread ends; a session nobody holds any more is deleted, by
    [on_session_delete], in two steps. *)

From S2P Require Import Prelude Types Operations Prog Client.
#[local] Open Scope Z_scope.

Section client_threads.
Context {B : Type} `{FlatBuffer B} {F Req Res : Type} (empty_response : Res).
Context (m_client_cfg : client_config).

Abbreviation client_cmd := (client_cmd (B := B) (F := F) (Req := Req)).
Abbreviation answer := (answer (B := B) (F := F) (Req := Req) (Res := Res)).

(** The fields of [client]; [m_io_worker]: [None] when not joinable, otherwise
    whether the thread still runs.  [writer] and [readers] are [m_session_mtx];
    [user_ptrs] the local [shared_ptr]s of the user threads; [alive] the sessions
    somebody owns, [deleting] those inside [on_session_delete]; [constructing]
    the thread between [m_expired = false] and the new session (ghost). *)
Record client := mk_client {
  m_expired : bool;
  m_exit : bool;
  m_bound_funcs : gmap Z F;
  m_session : option nat;
  m_io_worker : option bool;
  m_req_handshake : option Req;
  writer : option nat;
  readers : gset nat;
  user_ptrs : gmap nat nat;
  alive : gset nat;
  deleting : gset nat;
  constructing : option nat;
  fresh_session : nat }.

Definition set_m_expired (x : bool) (c : client) : client :=
  mk_client x (m_exit c) (m_bound_funcs c) (m_session c) (m_io_worker c) (m_req_handshake c)
    (writer c) (readers c) (user_ptrs c) (alive c) (deleting c) (constructing c) (fresh_session c).
Definition set_m_exit (x : bool) (c : client) : client :=
  mk_client (m_expired c) x (m_bound_funcs c) (m_session c) (m_io_worker c) (m_req_handshake c)
    (writer c) (readers c) (user_ptrs c) (alive c) (deleting c) (constructing c) (fresh_session c).
Definition set_m_bound_funcs (x : gmap Z F) (c : client) : client :=
  mk_client (m_expired c) (m_exit c) x (m_session c) (m_io_worker c) (m_req_handshake c)
    (writer c) (readers c) (user_ptrs c) (alive c) (deleting c) (constructing c) (fresh_session c).
Definition set_m_session (x : option nat) (c : client) : client :=
  mk_client (m_expired c) (m_exit c) (m_bound_funcs c) x (m_io_worker c) (m_req_handshake c)
    (writer c) (readers c) (user_ptrs c) (alive c) (deleting c) (constructing c) (fresh_session c).
Definition set_m_io_worker (x : option bool) (c : client) : client :=
  mk_client (m_expired c) (m_exit c) (m_bound_funcs c) (m_session c) x (m_req_handshake c)
    (writer c) (readers c) (user_ptrs c) (alive c) (deleting c) (constructing c) (fresh_session c).
Definition set_m_req_handshake (x : option Req) (c : client) : client :=
  mk_client (m_expired c) (m_exit c) (m_bound_funcs c) (m_session c) (m_io_worker c) x
    (writer c) (readers c) (user_ptrs c) (alive c) (deleting c) (constructing c) (fresh_session c).
Definition set_writer (x : option nat) (c : client) : client :=
  mk_client (m_expired c) (m_exit c) (m_bound_funcs c) (m_session c) (m_io_worker c)
    (m_req_handshake c) x (readers c) (user_ptrs c) (alive c) (deleting c) (constructing c)
    (fresh_session c).
Definition set_readers (x : gset nat) (c : client) : client :=
  mk_client (m_expired c) (m_exit c) (m_bound_funcs c) (m_session c) (m_io_worker c)
    (m_req_handshake c) (writer c) x (user_ptrs c) (alive c) (deleting c) (constructing c)
    (fresh_session c).
Definition set_user_ptrs (x : gmap nat nat) (c : client) : client :=
  mk_client (m_expired c) (m_exit c) (m_bound_funcs c) (m_session c) (m_io_worker c)
    (m_req_handshake c) (writer c) (readers c) x (alive c) (deleting c) (constructing c)
    (fresh_session c).
Definition set_sessions (x y : gset nat) (c : client) : client :=
  mk_client (m_expired c) (m_exit c) (m_bound_funcs c) (m_session c) (m_io_worker c)
    (m_req_handshake c) (writer c) (readers c) (user_ptrs c) x y (constructing c)
    (fresh_session c).
Definition set_constructing (x : option nat) (c : client) : client :=
  mk_client (m_expired c) (m_exit c) (m_bound_funcs c) (m_session c) (m_io_worker c)
    (m_req_handshake c) (writer c) (readers c) (user_ptrs c) (alive c) (deleting c) x
    (fresh_session c).
Definition set_fresh_session (x : nat) (c : client) : client :=
  mk_client (m_expired c) (m_exit c) (m_bound_funcs c) (m_session c) (m_io_worker c)
    (m_req_handshake c) (writer c) (readers c) (user_ptrs c) (alive c) (deleting c)
    (constructing c) x.

(** The constructor. *)
Definition new_client : client :=
  mk_client true false ∅ None None None None ∅ ∅ ∅ ∅ None 0.

(** ** The commands *)

(** What a session answers. *)
Record env_answer := mk_env_answer {
  an_state : connection_state;
  an_pong : bool;
  an_ec : error_code;
  an_buffer : B;
  an_response : Res }.

(** Whether a command of thread [th] can go on; locking a mutex the thread owns
    is undefined, not a wait. *)
Definition can_run (th : nat) (o : client_cmd) (c : client) : bool :=
  match o with
  | lock_write =>
      bool_decide (writer c = None ∧ readers c = ∅) ||
      bool_decide (writer c = Some th ∨ th ∈ readers c)
  | lock_read =>
      bool_decide (writer c = None) || bool_decide (writer c = Some th ∨ th ∈ readers c)
  | join_worker => bool_decide (m_io_worker c ≠ Some true)
  | _ => true
  end.

Definition owns_lock (th : nat) (c : client) : bool :=
  bool_decide (writer c = Some th ∨ th ∈ readers c).

(** [take_expired], the first block of [construct_session]. *)
Definition do_take_expired (th : nat) (c : client) : bool * client :=
  if m_expired c then (true, set_constructing (Some th) (set_m_expired false c))
  else (false, c).

(** [new client_session_(..)] and [m_session = ptr]. *)
Definition do_new_session (th : nat) (c : client) : nat * client :=
  let o := fresh_session c in
  (o, set_fresh_session (S o) (set_m_session (Some o)
        (set_sessions ({[o]} ∪ alive c) (deleting c)
          (set_user_ptrs (<[th := o]> (user_ptrs c)) (set_constructing None c))))).

(** [m_session.lock()] *)
Definition do_lock_session (th : nat) (c : client) : option nat * client :=
  match m_session c with
  | Some o => if decide (o ∈ alive c) then (Some o, set_user_ptrs (<[th := o]> (user_ptrs c)) c)
              else (None, c)
  | None => (None, c)
  end.

(** The critical section of [listen_broadcast]. *)
Definition do_bind (broadcast_id : Z) (handler : F) (c : client) : bind_result * client :=
  if negb (m_expired c) then (bind_active, c)
  else if decide (is_Some (m_bound_funcs c !! broadcast_id)) then (bind_twice, c)
  else (bind_done, set_m_bound_funcs (<[broadcast_id := handler]> (m_bound_funcs c)) c).

(** A command; [None] is undefined behaviour or [std::terminate]: unlocking a
    mutex that is not held, a second lock, a thread assigned over a joinable one,
    a call through a pointer that is not held. *)
Definition exec (th : nat) (a : env_answer) (o : client_cmd) (c : client) :
    option (answer o * client) :=
  let holding x := bool_decide (user_ptrs c !! th = Some x) in
  match o return option (answer o * client) with
  | lock_write => if owns_lock th c then None else Some (tt, set_writer (Some th) c)
  | unlock_write =>
      if decide (writer c = Some th) then Some (tt, set_writer None c) else None
  | lock_read =>
      if owns_lock th c then None else Some (tt, set_readers ({[th]} ∪ readers c) c)
  | unlock_read =>
      if decide (th ∈ readers c) then Some (tt, set_readers (readers c ∖ {[th]}) c) else None
  | get_exit => Some (m_exit c, c)
  | set_exit => Some (tt, set_m_exit true c)
  | take_expired => Some (do_take_expired th c)
  | wait_expired => Some (m_expired c, c)
  | join_worker => Some (tt, set_m_io_worker None c)
  | new_session => Some (do_new_session th c)
  | run_session x =>
      if holding x && bool_decide (m_io_worker c = None)
      then Some (tt, set_m_io_worker (Some true) c) else None
  | run_result x => if holding x then Some (an_state a, c) else None
  | lock_session => Some (do_lock_session th c)
  | release x =>
      if holding x then Some (tt, set_user_ptrs (delete th (user_ptrs c)) c) else None
  | session_close x => if holding x then Some (tt, c) else None
  | session_ping x => if holding x then Some (an_pong a, c) else None
  | session_send x _ _ => if holding x then Some (an_ec a, c) else None
  | session_send_recv x _ _ _ => if holding x then Some ((an_buffer a, an_ec a), c) else None
  | session_response x => if holding x then Some (an_response a, c) else None
  | bind_broadcast i h => Some (do_bind i h c)
  | put_request req => Some (tt, set_m_req_handshake (Some req) c)
  | sleep_for _ => Some (tt, c)
  end.

(** [on_session_delete(p)]: [delete p], then the block under [m_expired_mtx]. *)
Definition on_session_delete (o : nat) (c : client) : client :=
  set_sessions (alive c ∖ {[o]}) ({[o]} ∪ deleting c) c.
Definition on_session_deleted (o : nat) (c : client) : client :=
  set_m_expired true (set_sessions (alive c) (deleting c ∖ {[o]}) c).

(** ** The system *)

Inductive call : Type :=
  | call_connect
  | call_connect_attempts (attempts : nat) (delay : duration)
  | call_disconnect
  | call_ping
  | call_send (call_id : Z) (data : list byte)
  | call_send_recv (call_id : Z) (data : list byte)
  | call_listen_broadcast (broadcast_id : Z) (handler : F)
  | call_set_handshake_request (req : Req)
  | call_get_handshake_response
  | call_destroy.

Inductive value : Type :=
  | v_unit | v_bool (b : bool) | v_buffer (b : B) | v_response (r : Res).

Definition method (c : call) : prog answer value :=
  match c with
  | call_connect => let^ b := connect in Ret (v_bool b)
  | call_connect_attempts n d => let^ b := connect_attempts n d in Ret (v_bool b)
  | call_disconnect => do^ disconnect in Ret v_unit
  | call_ping => let^ b := ping in Ret (v_bool b)
  | call_send i data => let^ b := send m_client_cfg i data in Ret (v_bool b)
  | call_send_recv i data => let^ b := send_recv m_client_cfg i data in Ret (v_buffer b)
  | call_listen_broadcast i h => let^ b := listen_broadcast i h in Ret (v_bool b)
  | call_set_handshake_request req => do^ set_handshake_request req in Ret v_unit
  | call_get_handshake_response =>
      let^ r := get_handshake_response empty_response in Ret (v_response r)
  | call_destroy => do^ destroy in Ret v_unit
  end.

(** [users]: the call each thread is in, or has returned from. *)
Record client_world := mk_client_world {
  the_client : client;
  users : gmap nat (prog answer value) }.

Inductive world_event : Type :=
  | we_call (th : nat) (c : call)
  | we_step (th : nat) (a : env_answer)
  | we_io_done                        (* [m_io_ctx->run()] returns *)
  | we_delete (o : nat)               (* the last owner lets go: [delete p] *)
  | we_expire (o : nat).              (* [m_expired = true] *)

Definition finished {A} (p : prog answer A) : bool :=
  match p with Op _ _ => false | _ => true end.

Definition world_enabled (w : client_world) (e : world_event) : bool :=
  let c := the_client w in
  match e with
  | we_call th _ => match users w !! th with Some p => finished p | None => true end
  | we_step th _ => match users w !! th with Some (Op o _) => can_run th o c | _ => false end
  | we_io_done => bool_decide (m_io_worker c = Some true)
  | we_delete o =>
      bool_decide (o ∈ alive c) &&
      bool_decide (map_Forall (λ _ o', o' ≠ o) (user_ptrs c))
  | we_expire o => bool_decide (o ∈ deleting c)
  end.

Definition world_handle (w : client_world) (e : world_event) : option client_world :=
  let c := the_client w in
  let with_client c := Some (mk_client_world c (users w)) in
  match e with
  | we_call th m => Some (mk_client_world c (<[th := method m]> (users w)))
  | we_step th a =>
      match users w !! th with
      | Some (Op o k) =>
          match exec th a o c with
          | Some (x, c') => Some (mk_client_world c' (<[th := k x]> (users w)))
          | None => None
          end
      | _ => None
      end
  | we_io_done => with_client (set_m_io_worker (Some false) c)
  | we_delete o => with_client (on_session_delete o c)
  | we_expire o => with_client (on_session_deleted o c)
  end.

Definition world_init : client_world := mk_client_world new_client ∅.
Definition world_steps := steps world_enabled world_handle.
Definition world_run := run world_enabled world_handle.
End client_threads.
