(* ===== verification/ClientThreadsFacts.v ===== *)
(** * ClientThreadsFacts: every method keeps the lock discipline; one session at a time *)

From S2P Require Import Prelude Types Operations Prog Client ClientThreads.
#[local] Open Scope Z_scope.

Section client_threads_facts.
Context {B : Type} `{FlatBuffer B} {F Req Res : Type} (empty_response : Res).
Context (m_client_cfg : client_config).

Abbreviation client := (client (F := F) (Req := Req)).
Abbreviation client_cmd := (client_cmd (B := B) (F := F) (Req := Req)).
Abbreviation answer := (answer (B := B) (F := F) (Req := Req) (Res := Res)).
Abbreviation client_world := (client_world (B := B) (F := F) (Req := Req) (Res := Res)).
Abbreviation handle := (world_handle empty_response m_client_cfg).
Abbreviation w_steps :=
  (world_steps (B := B) (F := F) (Req := Req) (Res := Res) empty_response m_client_cfg).
Abbreviation init := (world_init (B := B) (F := F) (Req := Req) (Res := Res)).

(** ** What a thread may do *)

Inductive lock_mode : Set := lk_none | lk_read | lk_write.

(** What a thread knows: its lock, whether it owes a session, whether the
    worker is joined, the session pointer it holds. *)
Record mode := mk_mode {
  md_lock : lock_mode;
  md_constructing : bool;
  md_joined : bool;
  md_holds : option nat }.

Definition idle : mode := mk_mode lk_none false false None.

Definition may (m : mode) (o : client_cmd) : Prop :=
  match o with
  | lock_write | lock_read => m = idle
  | unlock_write => md_lock m = lk_write ∧ md_constructing m = false ∧ md_holds m = None
  | unlock_read =>
      md_lock m = lk_read ∧ md_constructing m = false ∧ md_joined m = false ∧ md_holds m = None
  | get_exit => md_lock m ≠ lk_none
  | set_exit | bind_broadcast _ _ | put_request _ | join_worker => md_lock m = lk_write
  | take_expired | wait_expired =>
      md_lock m = lk_write ∧ md_constructing m = false ∧ md_holds m = None
  | new_session => md_lock m = lk_write ∧ md_constructing m = true ∧ md_holds m = None
  | run_session x => md_lock m = lk_write ∧ md_joined m = true ∧ md_holds m = Some x
  | run_result x | session_close x | session_ping x | session_send x _ _
  | session_send_recv x _ _ _ | session_response x | release x =>
      md_lock m ≠ lk_none ∧ md_holds m = Some x
  | lock_session => md_lock m ≠ lk_none ∧ md_holds m = None
  | sleep_for _ => md_holds m = None
  end.

Definition knows (m : mode) (o : client_cmd) : answer o → mode :=
  match o with
  | lock_write => λ _, mk_mode lk_write false false None
  | lock_read => λ _, mk_mode lk_read false false None
  | unlock_write | unlock_read => λ _, idle
  | take_expired => λ x, mk_mode (md_lock m) x (md_joined m) (md_holds m)
  | join_worker => λ _, mk_mode (md_lock m) (md_constructing m) true (md_holds m)
  | new_session => λ x, mk_mode (md_lock m) false (md_joined m) (Some x)
  | run_session _ => λ _, mk_mode (md_lock m) (md_constructing m) false (md_holds m)
  | lock_session => λ x, mk_mode (md_lock m) (md_constructing m) (md_joined m) x
  | release _ => λ _, mk_mode (md_lock m) (md_constructing m) (md_joined m) None
  | _ => λ _, m
  end.

Definition disciplined {A} (m : mode) (p : prog answer A) : Prop :=
  ok may knows m p (λ _ m, m = idle) (λ m, m = idle).

(** The write lock is held and nothing else. *)
Definition in_write (m : mode) : Prop :=
  md_lock m = lk_write ∧ md_constructing m = false ∧ md_holds m = None.

Definition writing {A} (p : prog answer A) : Prop :=
  ∀ m, in_write m → ok may knows m p (λ _ m, in_write m) in_write.

Lemma ok_write_lock {A} (p : prog answer A) : writing p → disciplined idle (with_write_lock p).
Proof.
  intros Hp. unfold disciplined, with_write_lock. ok_step. apply ok_op; [done|]. intros x.
  ok_step. eapply ok_mono; [by apply Hp| |]; intros; (split; [done|by intros []]).
Qed.

Lemma writing_ret {A} (a : A) : writing (Ret a).
Proof. by intros m. Qed.
Lemma writing_throw {A} why : writing (Throw (A := A) why).
Proof. by intros m. Qed.
Lemma writing_bind {A C} (p : prog answer A) (f : A → prog answer C) :
  writing p → (∀ a, writing (f a)) → writing (prog_bind p f).
Proof.
  intros Hp Hf m Hm. apply ok_bind. eapply ok_mono; [by apply Hp|intros; by apply Hf|done].
Qed.
Lemma writing_exit {A} (p : bool → prog answer A) :
  (∀ b, writing (p b)) → writing (prog_bind (op (answer := answer) get_exit) p).
Proof.
  intros Hp m Hm. apply ok_bind. apply ok_op; [|intros; by apply Hp].
  destruct Hm as [Hl _]. simpl. by rewrite Hl.
Qed.
Lemma writing_wait : writing (wait_destruction (B := B) (F := F) (Req := Req) (Res := Res)).
Proof. intros m Hm. split; [exact Hm|by intros x]. Qed.
Lemma writing_sleep d : writing (op (answer := answer) (sleep_for d)).
Proof. intros m Hm. split; [by destruct Hm as (_ & _ & Hh)|by intros x]. Qed.

Lemma writing_construct :
  writing (construct_session (B := B) (F := F) (Req := Req) (Res := Res)).
Proof.
  intros [l k j h] (Hl & Hk & Hh). simpl in Hl, Hk, Hh. subst.
  split; [done|]. intros [|]; simpl; [|by split].
  repeat (split; [done|intros ?]; simpl). by split.
Qed.

(** A pointer taken, used and let go. *)
Lemma writing_session {A} (p : option nat → prog answer A) :
  writing (p None) →
  (∀ o j, ok may knows (mk_mode lk_write false j (Some o)) (p (Some o))
            (λ _ m, in_write m) in_write) →
  writing (prog_bind (op (answer := answer) lock_session) p).
Proof.
  intros Hn Hs [l k j h] (Hl & Hk & Hh). simpl in Hl, Hk, Hh. subst.
  split; [done|]. intros [o|]; [apply Hs|by apply Hn].
Qed.

Lemma writing_close_active :
  writing (close_active (B := B) (F := F) (Req := Req) (Res := Res)).
Proof.
  apply writing_session; [apply writing_ret|]. intros o j.
  repeat (split; [done|intros ?]; simpl). done.
Qed.

Lemma writing_connect_loop d i n :
  writing (connect_loop (B := B) (F := F) (Req := Req) (Res := Res) d i n).
Proof.
  revert i. induction n as [|n IH]; intros i; cbn [connect_loop]; [apply writing_ret|].
  apply writing_bind.
  - destruct (decide (i ≠ 0%nat)); [|apply writing_ret].
    apply writing_bind; [apply writing_wait|]. intros [|]; [apply writing_sleep|apply writing_throw].
  - intros _. apply writing_bind; [apply writing_construct|].
    intros [|]; [apply writing_ret|apply IH].
Qed.

(** ** Every method is disciplined *)

(** Splits a program into its parts, down to commands. *)
Ltac solve_writing :=
  repeat first
    [ apply writing_ret | apply writing_throw | apply writing_wait | apply writing_sleep
    | apply writing_construct | apply writing_close_active | apply writing_connect_loop
    | apply writing_exit; intros [|]
    | match goal with |- writing (prog_bind (op lock_session) _) => apply writing_session end
    | apply writing_bind; [|intros ?]
    | match goal with |- writing (if ?b then _ else _) => destruct b
                    | |- writing (match ?b with _ => _ end) => destruct b end ].

Lemma disciplined_connect :
  disciplined idle (connect (B := B) (F := F) (Req := Req) (Res := Res)).
Proof. apply ok_write_lock. solve_writing. Qed.

Lemma disciplined_connect_attempts n d :
  disciplined idle (connect_attempts (B := B) (F := F) (Req := Req) (Res := Res) n d).
Proof. apply ok_write_lock. solve_writing. Qed.

Lemma disciplined_disconnect :
  disciplined idle (disconnect (B := B) (F := F) (Req := Req) (Res := Res)).
Proof. apply ok_write_lock. solve_writing. Qed.

Lemma disciplined_ping : disciplined idle (ping (B := B) (F := F) (Req := Req) (Res := Res)).
Proof.
  apply ok_write_lock. solve_writing.
  intros o j.
  repeat (split; [done|intros ?]; simpl). done.
Qed.

Lemma disciplined_listen_broadcast i h :
  disciplined idle (listen_broadcast (B := B) (F := F) (Req := Req) (Res := Res) i h).
Proof.
  apply ok_write_lock. solve_writing.
  intros m Hm. split; [apply Hm|]. intros []; by apply Hm.
Qed.

Lemma disciplined_set_handshake_request req :
  disciplined idle (set_handshake_request (B := B) (F := F) (Req := Req) (Res := Res) req).
Proof.
  apply ok_write_lock. solve_writing. intros m Hm. split; [apply Hm|]. by intros x.
Qed.

Lemma disciplined_get_handshake_response :
  disciplined idle
    (get_handshake_response (B := B) (F := F) (Req := Req) empty_response).
Proof.
  apply ok_write_lock. solve_writing.
  intros o j.
  repeat (split; [done|intros ?]; simpl). done.
Qed.

Lemma disciplined_destroy :
  disciplined idle (destroy (B := B) (F := F) (Req := Req) (Res := Res)).
Proof.
  split; [done|intros ?]. split; [done|intros ?]. split; [done|].
  intros [o|]; repeat (split; [done|intros ?]; simpl); done.
Qed.

Lemma disciplined_ret {A} (a : A) : disciplined idle (Ret a).
Proof. done. Qed.
Lemma disciplined_bind {A C} (p : prog answer A) (f : A → prog answer C) :
  disciplined idle p → (∀ a, disciplined idle (f a)) → disciplined idle (prog_bind p f).
Proof.
  intros Hp Hf. apply ok_bind. eapply ok_mono; [exact Hp|intros a m ->; apply Hf|done].
Qed.
Lemma disciplined_sleep d : disciplined idle (op (answer := answer) (sleep_for d)).
Proof. split; [done|by intros x]. Qed.

Lemma disciplined_send_locked i data :
  disciplined idle (send_locked (B := B) (F := F) (Req := Req) (Res := Res) i data).
Proof.
  split; [done|intros ?]. split; [done|intros [|]]; [split; [done|by intros []]|].
  split; [done|]. intros [o|]; repeat (split; [done|intros ?]; simpl); done.
Qed.

Lemma disciplined_send_recv_locked i data result :
  disciplined idle (send_recv_locked (F := F) (Req := Req) (Res := Res) i data result).
Proof.
  split; [done|intros ?]. split; [done|intros [|]]; [split; [done|by intros []]|].
  split; [done|]. intros [o|]; repeat (split; [done|intros ?]; simpl); done.
Qed.

Lemma disciplined_recover expired ec :
  disciplined idle (recover (B := B) (F := F) (Req := Req) (Res := Res) expired ec).
Proof.
  apply disciplined_bind.
  - destruct (ec_bool ec); [apply disciplined_disconnect|apply disciplined_ret].
  - intros _. destruct expired; [|apply disciplined_ret].
    apply disciplined_bind; [apply disciplined_connect|]. intros ?. apply disciplined_ret.
Qed.

Lemma disciplined_pause i :
  disciplined idle (if decide (i ≠ 0%nat)
    then op (answer := answer) (sleep_for (cc_send_attempt_delay m_client_cfg)) else Ret tt).
Proof. destruct (decide _); [apply disciplined_sleep|apply disciplined_ret]. Qed.

Lemma disciplined_send_loop id data i n :
  disciplined idle
    (send_loop (B := B) (F := F) (Req := Req) (Res := Res) m_client_cfg id data i n).
Proof.
  revert i. induction n as [|n IH]; intros i; cbn [send_loop]; [apply disciplined_ret|].
  apply disciplined_bind; [apply disciplined_pause|]. intros ?.
  apply disciplined_bind; [apply disciplined_send_locked|]. intros [[expired ec]|]; [|done].
  apply disciplined_bind; [apply disciplined_recover|]. intros ?.
  destruct (_ && _); [apply disciplined_ret|apply IH].
Qed.

Lemma disciplined_send_recv_loop id data result i n :
  disciplined idle
    (send_recv_loop (F := F) (Req := Req) (Res := Res) m_client_cfg id data result i n).
Proof.
  revert result i. induction n as [|n IH]; intros result i; cbn [send_recv_loop];
    [apply disciplined_ret|].
  apply disciplined_bind; [apply disciplined_pause|]. intros ?.
  apply disciplined_bind; [apply disciplined_send_recv_locked|].
  intros [[[expired result'] ec]|]; [|done].
  apply disciplined_bind; [apply disciplined_recover|]. intros ?.
  destruct (_ && _); [apply disciplined_ret|apply IH].
Qed.

Lemma disciplined_method c :
  disciplined idle (method (Res := Res) empty_response m_client_cfg c).
Proof.
  destruct c; cbn [method]; (apply disciplined_bind; [|intros ?; apply disciplined_ret]).
  - apply disciplined_connect.
  - apply disciplined_connect_attempts.
  - apply disciplined_disconnect.
  - apply disciplined_ping.
  - apply disciplined_send_loop.
  - apply disciplined_send_recv_loop.
  - apply disciplined_listen_broadcast.
  - apply disciplined_set_handshake_request.
  - apply disciplined_get_handshake_response.
  - apply disciplined_destroy.
Qed.

(** ** The state agrees with what the threads know *)

Record agrees (th : nat) (m : mode) (c : client) : Prop := mk_agrees {
  ag_write : md_lock m = lk_write ↔ writer c = Some th;
  ag_read : md_lock m = lk_read ↔ th ∈ readers c;
  ag_constructing : md_constructing m = true ↔ constructing c = Some th;
  ag_joined : md_joined m = true → md_lock m = lk_write ∧ m_io_worker c = None;
  ag_holds : user_ptrs c !! th = md_holds m }.

(** There is one token: the client is expired, or a thread is about to make a
    session, or there is one session, alive or being deleted. *)
Definition tokens (c : client) : nat :=
  ((if m_expired c then 1 else 0) + match constructing c with Some _ => 1 | None => 0 end +
   size (alive c) + size (deleting c))%nat.

Record client_inv (c : client) : Prop := mk_client_inv {
  ci_lock : is_Some (writer c) → readers c = ∅;
  ci_constructing th : constructing c = Some th → writer c = Some th;
  ci_tokens : tokens c = 1%nat;
  ci_ptrs th o : user_ptrs c !! th = Some o → o ∈ alive c;
  ci_fresh o : o ∈ alive c ∪ deleting c → (o < fresh_session c)%nat }.

Lemma client_inv_new : client_inv new_client.
Proof.
  by constructor.
Qed.

Lemma agrees_new th : agrees th idle new_client.
Proof. by constructor. Qed.

(** The outcome of a command of thread [th]. *)
Definition goes_well (th : nat) (m : mode) (o : client_cmd) (a : env_answer) (c : client) : Prop :=
  ∃ x c', exec th a o c = Some (x, c') ∧ client_inv c' ∧ agrees th (knows m o x) c' ∧
    (∀ th' m', th' ≠ th → agrees th' m' c → agrees th' m' c').

(** A command that only reads. *)
Lemma reads_well th m o a c x :
  client_inv c → agrees th m c → exec th a o c = Some (x, c) → knows m o x = m →
  goes_well th m o a c.
Proof. intros Hi Ha He Hk. exists x, c. rewrite Hk. done. Qed.

(** The parts of [goes_well] for a command that changes the state. *)
Ltac goes c' := eexists _, c'; split_and!; [reflexivity|constructor; simpl; auto| |].

Lemma well_lock_write th m o a c :
  o = lock_write → client_inv c → agrees th m c → may m o → can_run th o c = true →
  goes_well th m o a c.
Proof.
  intros -> [I1 I2 I3 I4 I5] [Aw Ar Ac Aj Ah] -> Hrun. simpl in *.
  assert (writer c = None ∧ readers c = ∅) as [Ew Er].
  { apply orb_true_iff in Hrun as [Hr|Hr]; apply bool_decide_eq_true in Hr; [done|]. naive_solver. }
  unfold goes_well. simpl. unfold owns_lock.
  rewrite bool_decide_eq_false_2 by (rewrite Ew, Er; set_solver).
  goes (set_writer (Some th) c).
  - intros th' E. apply I2 in E. by rewrite Ew in E.
  - constructor; simpl; rewrite ?Er; try done; set_solver.
  - intros th' m' Hne [Bw Br Bc Bj Bh]. constructor; simpl; try done; rewrite ?Ew in *.
    + split; [naive_solver|]. intros [= ->]. done.
Qed.

Lemma well_lock_read th m o a c :
  o = lock_read → client_inv c → agrees th m c → may m o → can_run th o c = true →
  goes_well th m o a c.
Proof.
  intros -> [I1 I2 I3 I4 I5] [Aw Ar Ac Aj Ah] -> Hrun. simpl in *.
  assert (writer c = None) as Ew.
  { apply orb_true_iff in Hrun as [Hr|Hr]; apply bool_decide_eq_true in Hr; [done|]. naive_solver. }
  unfold goes_well. simpl. unfold owns_lock.
  rewrite bool_decide_eq_false_2 by naive_solver.
  goes (set_readers ({[th]} ∪ readers c) c).
  - rewrite Ew. by intros [].
  - constructor; simpl; try done; rewrite ?Ew; set_solver.
  - intros th' m' Hne [Bw Br Bc Bj Bh]. constructor; simpl; try done. set_solver.
Qed.

Lemma well_unlock_write th m o a c :
  o = unlock_write → client_inv c → agrees th m c → may m o → goes_well th m o a c.
Proof.
  intros -> [I1 I2 I3 I4 I5] [Aw Ar Ac Aj Ah] (Hl & Hk & Hh). simpl in *.
  assert (writer c = Some th) as Ew by naive_solver.
  unfold goes_well. simpl. rewrite decide_True by done.
  goes (set_writer None c).
  - intros th' E. pose proof (I2 th' E) as E'. rewrite Ew in E'. injection E' as <-.
    apply Ac in E. congruence.
  - constructor; simpl; try done; [|by rewrite <-Ac, Hk|congruence].
    rewrite (I1 ltac:(eauto)). set_solver.
  - intros th' m' Hne [Bw Br Bc Bj Bh]. constructor; simpl; try done.
    split; [|done]. intros E%Bw. congruence.
Qed.

Lemma well_unlock_read th m o a c :
  o = unlock_read → client_inv c → agrees th m c → may m o → goes_well th m o a c.
Proof.
  intros -> [I1 I2 I3 I4 I5] [Aw Ar Ac Aj Ah] (Hl & Hk & Hj & Hh). simpl in *.
  assert (th ∈ readers c) as Er by naive_solver.
  unfold goes_well. simpl. rewrite decide_True by done.
  goes (set_readers (readers c ∖ {[th]}) c).
  - intros Ew. rewrite (I1 Ew). set_solver.
  - constructor; simpl; try done; [|set_solver|by rewrite <-Ac, Hk|congruence].
    split; [done|]. intros E. apply Aw in E. congruence.
  - intros th' m' Hne [Bw Br Bc Bj Bh]. constructor; simpl; try done. set_solver.
Qed.

Lemma tokens_expired c :
  tokens c = 1%nat → m_expired c = true →
  constructing c = None ∧ alive c = ∅ ∧ deleting c = ∅.
Proof.
  unfold tokens. intros Ht He. rewrite He in Ht. destruct (constructing c); [lia|].
  split; [done|]. split; apply leibniz_equiv, size_empty_iff; lia.
Qed.

Lemma tokens_constructing c th :
  tokens c = 1%nat → constructing c = Some th →
  m_expired c = false ∧ alive c = ∅ ∧ deleting c = ∅.
Proof.
  unfold tokens. intros Ht He. rewrite He in Ht. destruct (m_expired c); [lia|].
  split; [done|]. split; apply leibniz_equiv, size_empty_iff; lia.
Qed.

Lemma tokens_deleting c o :
  tokens c = 1%nat → o ∈ deleting c →
  m_expired c = false ∧ constructing c = None ∧ alive c = ∅ ∧ deleting c = {[o]}.
Proof.
  unfold tokens. intros Ht Ho.
  assert (size (deleting c) ≠ 0%nat) by (apply size_non_empty_iff; set_solver).
  destruct (m_expired c), (constructing c); try lia. split_and!; try done.
  - apply leibniz_equiv, size_empty_iff. lia.
  - destruct (size_1_elem_of (deleting c)) as [x Hx%leibniz_equiv]; [lia|].
    rewrite Hx in Ho |- *. apply elem_of_singleton in Ho as ->. done.
Qed.

Lemma tokens_disjoint c o : tokens c = 1%nat → o ∈ alive c → o ∉ deleting c.
Proof. intros Ht Ha Hd. destruct (tokens_deleting c o Ht Hd) as (_ & _ & E & _). set_solver. Qed.

Lemma well_take_expired th m o a c :
  o = take_expired → client_inv c → agrees th m c → may m o → goes_well th m o a c.
Proof.
  intros -> [I1 I2 I3 I4 I5] [Aw Ar Ac Aj Ah] (Hl & Hk & Hh).
  unfold goes_well. simpl. unfold do_take_expired. destruct (m_expired c) eqn:E.
  - destruct (tokens_expired c I3 E) as (Ek & Ea & Ed).
    goes (set_constructing (Some th) (set_m_expired false c)).
    + intros th' [= <-]. naive_solver.
    + unfold tokens in *. simpl. rewrite E, Ek in I3. lia.
    + constructor; simpl; try done.
    + intros th' m' Hne [Bw Br Bc Bj Bh]. constructor; simpl; try done.
      rewrite Bc, Ek. split; [done|]. intros [= ->]. done.
  - exists false, c. split_and!; [done..| |auto].
    constructor; simpl; try done. rewrite <-Hk. exact Ac.
Qed.

Lemma well_new_session th m o a c :
  o = new_session → client_inv c → agrees th m c → may m o → goes_well th m o a c.
Proof.
  intros -> [I1 I2 I3 I4 I5] [Aw Ar Ac Aj Ah] (Hl & Hk & Hh).
  assert (constructing c = Some th) as Ek by naive_solver.
  destruct (tokens_constructing c th I3 Ek) as (Ee & Ea & Ed).
  unfold goes_well. simpl. unfold do_new_session.
  eexists _, _. split_and!; [reflexivity|constructor; simpl; auto| |].
  - done.
  - unfold tokens. simpl. rewrite Ee, Ea, Ed, union_empty_r_L, size_singleton, size_empty. lia.
  - intros th' o'. rewrite lookup_insert_Some. intros [[_ <-]|[_ E]]; [set_solver|].
    apply I4 in E. set_solver.
  - intros o'. rewrite Ea, Ed. set_unfold. intros ?. lia.
  - constructor; simpl; try done. by rewrite lookup_insert_eq.
  - intros th' m' Hne [Bw Br Bc Bj Bh]. constructor; simpl; try done.
    + rewrite Bc, Ek. split; [intros [= ->]; done|done].
    + by rewrite lookup_insert_ne.
Qed.

(** The worker is changed by the owner of the write lock only. *)
Lemma well_io_worker th m (o : client_cmd) a c x b (y : answer o) :
  client_inv c → agrees th m c → md_lock m = lk_write →
  exec th a o c = Some (y, set_m_io_worker b c) →
  knows m o y = mk_mode (md_lock m) (md_constructing m) x (md_holds m) →
  (x = true → b = None) → goes_well th m o a c.
Proof.
  intros [I1 I2 I3 I4 I5] [Aw Ar Ac Aj Ah] Hl He Hk Hx.
  exists y, (set_m_io_worker b c). rewrite Hk. split_and!; [done|by constructor| |].
  - constructor; simpl; try done. naive_solver.
  - intros th' m' Hne [Bw Br Bc Bj Bh]. constructor; simpl; try done.
    intros [Hw _]%Bj. exfalso. naive_solver.
Qed.

Lemma well_lock_session th m o a c :
  o = lock_session → client_inv c → agrees th m c → may m o → goes_well th m o a c.
Proof.
  intros -> Hi Hag (Hl & Hh).
  unfold goes_well. simpl. unfold do_lock_session.
  assert (goes_well_none : agrees th (mk_mode (md_lock m) (md_constructing m) (md_joined m) None) c).
  { destruct Hag. constructor; simpl; try done. by rewrite <-Hh. }
  destruct (m_session c) as [x|]; [|by exists None, c].
  case_decide as Hx; [|by exists None, c].
  destruct Hi as [I1 I2 I3 I4 I5], Hag as [Aw Ar Ac Aj Ah].
  goes (set_user_ptrs (<[th := x]> (user_ptrs c)) c).
  - intros th' o'. rewrite lookup_insert_Some. naive_solver.
  - constructor; simpl; try done. by rewrite lookup_insert_eq.
  - intros th' m' Hne [Bw Br Bc Bj Bh]. constructor; simpl; try done. by rewrite lookup_insert_ne.
Qed.

Lemma well_release th m o a c x :
  o = release x → client_inv c → agrees th m c → may m o → goes_well th m o a c.
Proof.
  intros -> [I1 I2 I3 I4 I5] [Aw Ar Ac Aj Ah] [_ Hh]. simpl in Hh.
  unfold goes_well. simpl. rewrite bool_decide_eq_true_2 by congruence.
  goes (set_user_ptrs (delete th (user_ptrs c)) c).
  - intros th' o'. rewrite lookup_delete_Some. naive_solver.
  - constructor; simpl; try done. by rewrite lookup_delete_eq.
  - intros th' m' Hne [Bw Br Bc Bj Bh]. constructor; simpl; try done. by rewrite lookup_delete_ne.
Qed.

(** Every command a disciplined thread gets to is defined. *)
Lemma exec_well th m o a c :
  client_inv c → agrees th m c → may m o → can_run th o c = true → goes_well th m o a c.
Proof.
  intros Hi Hag Hm Hrun. pose proof (ag_holds _ _ _ Hag) as Hh.
  assert (Hhold : ∀ x, md_holds m = Some x → bool_decide (user_ptrs c !! th = Some x) = true).
  { intros x Hx. apply bool_decide_eq_true. congruence. }
  destruct o; simpl in Hm;
    try (eapply reads_well; [done|done| |reflexivity]; simpl; rewrite ?Hhold by (done || apply Hm); reflexivity).
  - by apply well_lock_write.
  - by apply well_unlock_write.
  - by apply well_lock_read.
  - by apply well_unlock_read.
  - destruct Hi, Hag. exists tt, (set_m_exit true c). by split_and!; [|constructor..|intros ?? _ []].
  - by apply well_take_expired.
  - by eapply (well_io_worker th m join_worker a c true None tt).
  - by apply well_new_session.
  - destruct Hm as (Hl & Hj & Hx). destruct (ag_joined _ _ _ Hag Hj) as [_ Hio].
    eapply (well_io_worker th m (run_session o) a c false (Some true) tt); try done.
    simpl. by rewrite Hhold, bool_decide_eq_true_2.
  - by apply well_lock_session.
  - by eapply well_release.
  - unfold goes_well. simpl. unfold do_bind. destruct (negb (m_expired c)); [by eexists _, c|].
    case_decide; [by eexists _, c|]. destruct Hi, Hag.
    eexists _, _. split_and!; [reflexivity|by constructor|by constructor|].
    intros ?? _ []. by constructor.
  - destruct Hi, Hag. exists tt, (set_m_req_handshake (Some req) c).
    split_and!; [done|by constructor..|]. intros ?? _ []. by constructor.
Qed.

(** ** Every run keeps it so *)

Record world_inv (w : client_world) : Prop := mk_world_inv {
  wi_client : client_inv (the_client w);
  wi_users th : ∃ m, agrees th m (the_client w) ∧
    match users w !! th with Some p => disciplined m p | None => m = idle end }.

Lemma finished_idle {A} m (p : prog answer A) : finished p = true → disciplined m p → m = idle.
Proof. by destruct p. Qed.

Lemma world_inv_init : world_inv init.
Proof. split; [apply client_inv_new|]. intros th. exists idle. by split; [apply agrees_new|]. Qed.

(** The io thread and the deletion of sessions. *)
Lemma world_inv_env w c' :
  world_inv w → client_inv c' → (∀ th m, agrees th m (the_client w) → agrees th m c') →
  world_inv (mk_client_world c' (users w)).
Proof.
  intros [_ Hu] Hc Hag. split; [done|]. intros th. destruct (Hu th) as (m & Hm & Hp).
  exists m. split; [by apply Hag|done].
Qed.

Lemma world_step w e :
  world_inv w → world_enabled w e = true → ∃ w', handle w e = Some w' ∧ world_inv w'.
Proof.
  intros Hw He. pose proof Hw as [Hc Hu]. pose proof Hc as [I1 I2 I3 I4 I5].
  destruct e as [th c|th a| |o|o]; simpl in *.
  - eexists. split; [reflexivity|]. split; [done|]. simpl. intros th'.
    destruct (Hu th') as (m & Hm & Hp). exists m. split; [done|].
    destruct (decide (th = th')) as [<-|Hne]; [|by rewrite lookup_insert_ne].
    rewrite lookup_insert_eq. assert (m = idle) as ->; [|apply disciplined_method].
    destruct (users w !! th) as [p|]; [by eapply finished_idle|done].
  - destruct (Hu th) as (m & Hm & Hp). destruct (users w !! th) as [[| |o k]|] eqn:Eu; try done.
    destruct Hp as [Hmay Hk].
    destruct (exec_well th m o a (the_client w) Hc Hm Hmay He) as (x & c' & -> & Hc' & Hm' & Hother).
    eexists. split; [reflexivity|]. split; [done|]. simpl. intros th'.
    destruct (decide (th = th')) as [<-|Hne].
    + exists (knows m o x). rewrite lookup_insert_eq. split; [done|apply Hk].
    + destruct (Hu th') as (m' & Hag & Hp'). exists m'. rewrite lookup_insert_ne by done.
      split; [by apply Hother|done].
  - apply bool_decide_eq_true in He. eexists. split; [reflexivity|].
    apply world_inv_env; [done|by constructor|]. intros th m [].
    constructor; simpl; try done. intros Hj. destruct (ag_joined0 Hj). congruence.
  - apply andb_true_iff in He as [Ho Hp]. apply bool_decide_eq_true in Ho, Hp.
    eexists. split; [reflexivity|].
    apply world_inv_env; [done| |by intros th m []; constructor].
    assert (o ∉ deleting (the_client w)) as Hd by (by eapply tokens_disjoint).
    constructor; simpl; auto.
    + unfold tokens in *. simpl. rewrite size_difference, size_singleton by set_solver.
      rewrite size_union, size_singleton by set_solver.
      assert (size (alive (the_client w)) ≠ 0%nat) by (apply size_non_empty_iff; set_solver). lia.
    + intros th o' E. pose proof (I4 _ _ E). specialize (Hp th o' E). set_solver.
    + intros o' Ho'. apply I5. set_solver.
  - apply bool_decide_eq_true in He. eexists. split; [reflexivity|].
    apply world_inv_env; [done| |by intros th m []; constructor].
    destruct (tokens_deleting _ o I3 He) as (Ee & Ek & Ea & Ed).
    constructor; simpl; auto.
    + unfold tokens. simpl. rewrite Ek, Ea, Ed, difference_diag_L, !size_empty. lia.
    + intros o' Ho'. apply I5. set_solver.
Qed.

Lemma world_steps_inv es w : w_steps init es w → world_inv w ∧ safe world_enabled handle w.
Proof.
  intros Hs. eapply (steps_safe _ _ world_inv); [apply world_step|apply world_inv_init|done].
Qed.
End client_threads_facts.
