(* ===== verification/ClientMethods.v ===== *)
(** * ClientMethods: what the methods of a client do, whatever they are answered

    Properties of single calls: all traces of [send], [send_recv] and [connect],
    the answers of the sessions and of the other threads being arbitrary. *)

From S2P Require Import Prelude Types Operations Prog Client.
#[local] Open Scope Z_scope.

Section client_methods.
Context {B : Type} `{FlatBuffer B} {F Req Res : Type}.
Context (m_client_cfg : client_config).

Abbreviation client_cmd := (client_cmd (B := B) (F := F) (Req := Req)).
Abbreviation answer := (answer (B := B) (F := F) (Req := Req) (Res := Res)).
Abbreviation cprog := (prog answer).

Definition any {M} (_ : M) (_ : client_cmd) : Prop := True.

(** The messages given to a session are the caller's. *)
Definition carries {M} (recv : bool) (id : Z) (data : list byte) (_ : M) (o : client_cmd) : Prop :=
  match o with
  | session_send _ i d => recv = false ∧ i = id ∧ d = data
  | session_send_recv _ i d _ => recv = true ∧ i = id ∧ d = data
  | _ => True
  end.

(** ** Sending *)

(** What the commands of a call add up to: the messages given to a session,
    the tries to make one, whether the last message was sent without an error,
    whether a session reported an error and no wait for its destruction has ended
    since, so that it may still refer to the caller's bytes, and whether the
    client was seen exiting. *)
Record account := mk_account {
  posts : nat; tries : nat; last_ok : bool; lent : bool; exit_seen : bool }.

Definition account0 : account := mk_account 0 0 false false false.

Definition posted (ec : error_code) (a : account) : account :=
  mk_account (S (posts a)) (tries a) (negb (ec_bool ec)) (lent a || ec_bool ec) (exit_seen a).

Definition tally (a : account) (o : client_cmd) : answer o → account :=
  match o with
  | session_send _ _ _ => λ ec, posted ec a
  | session_send_recv _ _ _ _ => λ re, posted re.2 a
  | take_expired => λ _, mk_account (posts a) (S (tries a)) (last_ok a) (lent a) (exit_seen a)
  | wait_expired => λ b,
      mk_account (posts a) (tries a) (last_ok a) (lent a && negb b) (exit_seen a)
  | get_exit => λ b, mk_account (posts a) (tries a) (last_ok a) (lent a) (exit_seen a || b)
  | _ => λ _, a
  end.

(** After [i] attempts that failed. *)
Definition failed (i : nat) (a : account) : Prop :=
  last_ok a = false ∧ (posts a ≤ i)%nat ∧
  (exit_seen a = true ∨ lent a = false ∧ (posts a + tries a)%nat = i).

Definition succeeded (i : nat) (a : account) : Prop :=
  last_ok a = true ∧ (posts a ≤ i)%nat ∧ (exit_seen a = true ∨ lent a = false).

(** An exception: the session did not go away. *)
Definition stuck (i : nat) (a : account) : Prop :=
  last_ok a = false ∧ (posts a ≤ i)%nat ∧ lent a = true.

(** [send] gave up early because the client exits. *)
Definition gave_up (i : nat) (a : account) : Prop :=
  last_ok a = false ∧ (posts a ≤ i)%nat ∧ exit_seen a = true.

(** The state after the locked part of an attempt. *)
Definition attempted (i : nat) (expired : bool) (ec : error_code) (a : account) : Prop :=
  if expired then ec = ec_success ∧ failed i a
  else last_ok a = negb (ec_bool ec) ∧ (posts a ≤ S i)%nat ∧
       (exit_seen a = true ∨ lent a = ec_bool ec ∧ (posts a + tries a)%nat = S i) ∧
       (ec_bool ec = true → lent a = true).

Lemma send_locked_spec i a id data :
  failed i a →
  ok (carries false id data) tally a (send_locked (B := B) (F := F) (Req := Req) (Res := Res) id data)
    (λ r a', match r with
             | None => gave_up i a'
             | Some (expired, ec) => attempted i expired ec a'
             end) (λ _, False).
Proof.
  intros (Hl & Hp & He). split; [done|intros ?]. split; [done|intros [|]].
  { split; [done|intros ?]. simpl. unfold gave_up. simpl. by rewrite orb_true_r. }
  split; [done|intros [o|]]; [split; [done|intros ec]; split; [done|intros ?]|];
    (split; [done|intros ?]); simpl; unfold attempted, failed; simpl; rewrite orb_false_r.
  - split; [done|]. split; [lia|]. split; [|intros ->; by rewrite orb_true_r].
    destruct He as [?|[-> ?]]; [by left|right]. split; [done|lia].
  - done.
Qed.

(** [connect] as the retry: it only adds a try, or sees the exit. *)
Lemma connect_retry recv id data i a :
  failed i a →
  ok (carries recv id data) tally a (connect (B := B) (F := F) (Req := Req) (Res := Res))
    (λ _ a', failed (S i) a') (λ _, False).
Proof.
  intros (Hl & Hp & He). split; [done|intros ?]. split; [done|intros [|]].
  { split; [done|intros ?]. unfold failed. simpl. rewrite orb_true_r. auto. }
  assert (failed (S i) (tally (tally (tally a lock_write tt) get_exit false) take_expired true)).
  { unfold failed. simpl. rewrite orb_false_r. split_and!; [done|lia|].
    destruct He as [?|[? ?]]; [by left|right]. split; [done|lia]. }
  split; [done|intros [|]].
  - repeat (split; [done|intros ?]). done.
  - by split.
Qed.

(** [disconnect] after an error: the session is gone, or it throws. *)
Lemma disconnect_recovers recv id data i a :
  last_ok a = false → (posts a ≤ S i)%nat →
  (exit_seen a = true ∨ lent a = true ∧ (posts a + tries a)%nat = S i) → lent a = true →
  ok (carries recv id data) tally a (disconnect (B := B) (F := F) (Req := Req) (Res := Res))
    (λ _ a', failed (S i) a') (stuck (S i)).
Proof.
  intros Hl Hp He Hlent. split; [done|intros ?]. split; [done|intros [|]].
  { split; [done|intros ?]. unfold failed. simpl. rewrite orb_true_r. auto. }
  split; [done|intros [o|]]; [do 2 (split; [done|intros ?])|];
    (split; [done|intros [|]]); (split; [done|intros ?]);
    unfold failed, stuck; simpl; rewrite ?orb_false_r, ?Hlent; split_and!; auto;
    destruct He as [?|[_ ?]]; auto.
Qed.

Lemma recover_spec recv id data i a expired ec :
  attempted i expired ec a →
  ok (carries recv id data) tally a (recover (B := B) (F := F) (Req := Req) (Res := Res) expired ec)
    (λ _ a', if negb (ec_bool ec) && negb expired then succeeded (S i) a' else failed (S i) a')
    (stuck (S i)).
Proof.
  unfold attempted, recover. destruct expired.
  - intros [-> Hf].
    assert (ok (carries recv id data) tally a (let^ _ := connect (B := B) (F := F) (Req := Req) (Res := Res) in Ret tt)
              (λ _ a', failed (S i) a') (stuck (S i))) as Hok; [|exact Hok].
    apply ok_bind. eapply ok_mono; [by apply connect_retry|done|done].
  - intros (Hl & Hp & He & Hlent). apply ok_bind. destruct (ec_bool ec) eqn:Hec.
    + eapply ok_mono; [apply (disconnect_recovers recv id data i)|done..]; auto.
    + simpl. split; [done|]. split; [done|]. destruct He as [?|[? _]]; auto.
Qed.

Lemma send_loop_spec id data n i a :
  failed i a →
  ok (carries false id data) tally a (send_loop (B := B) (F := F) (Req := Req) (Res := Res) m_client_cfg id data i n)
    (λ b a', if b : bool then succeeded (i + n) a'
             else failed (i + n) a' ∨ gave_up (i + n) a') (stuck (i + n)).
Proof.
  revert i a. induction n as [|n IH]; intros i a Ha; cbn [send_loop].
  { left. by rewrite Nat.add_0_r. }
  apply ok_bind. apply (ok_mono _ _ _ _ (λ _ a', a' = a) _ (λ _, False)); [|intros _ ? ->|done].
  { destruct (decide (i ≠ 0%nat)); [by split|done]. }
  apply ok_bind. eapply ok_mono; [by apply send_locked_spec| |done].
  intros [[expired ec]|] a1 Ha1; [|right; unfold gave_up in *; simpl; naive_solver lia].
  apply ok_bind. eapply ok_mono; [by apply recover_spec| |].
  - intros x a2. destruct (_ && _); intros Ha2.
    + unfold succeeded in *. simpl. naive_solver lia.
    + replace (i + S n)%nat with (S i + n)%nat by lia. by apply IH.
  - intros a2. unfold stuck. naive_solver lia.
Qed.
Lemma send_recv_locked_spec i a id data result :
  failed i a →
  ok (carries true id data) tally a (send_recv_locked (F := F) (Req := Req) (Res := Res) id data result)
    (λ r a', match r with
             | None => gave_up i a'
             | Some (expired, _, ec) => attempted i expired ec a'
             end) (λ _, False).
Proof.
  intros (Hl & Hp & He). split; [done|intros ?]. split; [done|intros [|]].
  { split; [done|intros ?]. simpl. unfold gave_up. simpl. by rewrite orb_true_r. }
  split; [done|intros [o|]]; [split; [done|intros [b ec]]; split; [done|intros ?]|];
    (split; [done|intros ?]); simpl; unfold attempted, failed; simpl; rewrite orb_false_r.
  - split; [done|]. split; [lia|]. split; [|intros ->; by rewrite orb_true_r].
    destruct He as [?|[-> ?]]; [by left|right]. split; [done|lia].
  - done.
Qed.

Lemma send_recv_loop_spec id data result n i a :
  failed i a →
  ok (carries true id data) tally a (send_recv_loop (F := F) (Req := Req) (Res := Res) m_client_cfg id data result i n)
    (λ _ a', succeeded (i + n) a' ∨ failed (i + n) a' ∨ gave_up (i + n) a') (stuck (i + n)).
Proof.
  revert result i a. induction n as [|n IH]; intros result i a Ha; cbn [send_recv_loop].
  { right. left. by rewrite Nat.add_0_r. }
  apply ok_bind. apply (ok_mono _ _ _ _ (λ _ a', a' = a) _ (λ _, False)); [|intros _ ? ->|done].
  { destruct (decide (i ≠ 0%nat)); [by split|done]. }
  apply ok_bind. eapply ok_mono; [by apply send_recv_locked_spec| |done].
  intros [[[expired b] ec]|] a1 Ha1; [|right; right; unfold gave_up in *; simpl; naive_solver lia].
  apply ok_bind. eapply ok_mono; [by apply recover_spec| |].
  - intros x a2. destruct (_ && _); intros Ha2.
    + left. unfold succeeded in *. simpl. naive_solver lia.
    + replace (i + S n)%nat with (S i + n)%nat by lia. by apply IH.
  - intros a2. unfold stuck. naive_solver lia.
Qed.

(** The buffer the last session answered with. *)
Definition got (g : B) (o : client_cmd) : answer o → B :=
  match o with session_send_recv _ _ _ _ => λ re, re.1 | _ => λ _, g end.

Lemma recover_got g expired ec :
  ok any got g (recover (B := B) (F := F) (Req := Req) (Res := Res) expired ec)
    (λ _ g', g' = g) (λ _, True).
Proof.
  unfold recover. apply ok_bind. apply (ok_mono _ _ _ _ (λ _ g', g' = g) _ (λ _, True)); [| |done].
  - destruct (ec_bool ec); [|done].
    split; [done|intros ?]. split; [done|intros [|]]; [split; [done|by intros []]|].
    split; [done|intros [o|]]; [do 2 (split; [done|intros ?])|];
      (split; [done|intros [|]]); (split; [done|by intros ?]).
  - intros _ ? ->. destruct expired; [|done].
    split; [done|intros ?]. split; [done|intros [|]]; [split; [done|by intros []]|].
    split; [done|intros [|]]; repeat (split; [done|intros ?]); done.
Qed.

Lemma send_recv_loop_got id data result n i :
  ok any got result
    (send_recv_loop (F := F) (Req := Req) (Res := Res) m_client_cfg id data result i n)
    (λ b g, b = g) (λ _, True).
Proof.
  revert result i. induction n as [|n IH]; intros result i; cbn [send_recv_loop]; [done|].
  apply ok_bind. apply (ok_mono _ _ _ _ (λ _ g, g = result) _ (λ _, True)); [|intros _ ? ->|done].
  { destruct (decide (i ≠ 0%nat)); [by split|done]. }
  apply ok_bind.
  apply (ok_mono _ _ _ _ (λ r g, match r with None => g = result | Some (_, b, _) => g = b end)
           _ (λ _, True)); [| |done].
  { split; [done|intros ?]. split; [done|intros [|]]; [split; [done|by intros []]|].
    split; [done|intros [o|]]; repeat (split; [done|intros ?]); done. }
  intros [[[expired b] ec]|] g; [|by intros ->]. intros ->.
  apply ok_bind. eapply ok_mono; [apply recover_got| |done].
  intros ? ? ->. destruct (_ && _); [done|apply IH].
Qed.

(** C19. [send]: whatever the sessions and the other threads answer, the message,
    unchanged, is given to a session at most [send_attempts] times; [true] is returned
    exactly when the last of these reported no error; [false] only after all the
    attempts, each of which either sent the message or tried to connect, or
    because the client was seen exiting.  A call that returns without having seen
    the client exit has waited for the destruction of the session after every
    error a session reported; one that did see it exit may return without that
    last wait, and a call that throws has an error no such wait has followed.  [lent] is
    a tally of the answers: an error was reported and the wait after it has not
    ended; which sessions hold the bytes is [bytes_outlive_calls]. *)
Theorem send_attempts_spec id data tr r :
  traced (send (F := F) (Req := Req) (Res := Res) m_client_cfg id data) tr r →
  let a := post_trace tally account0 tr in
  Forall (λ e, carries false id data tt (projT1 e)) tr ∧
  (posts a ≤ send_attempts m_client_cfg)%nat ∧
  match r with
  | Returned true => last_ok a = true ∧ (exit_seen a = true ∨ lent a = false)
  | Returned false =>
      last_ok a = false ∧
      (exit_seen a = true ∨
       lent a = false ∧ (posts a + tries a)%nat = send_attempts m_client_cfg)
  | Threw _ => last_ok a = false ∧ lent a = true
  end.
Proof.
  intros Ht a.
  assert (failed 0 account0) as H0 by (unfold failed; simpl; auto).
  pose proof (ok_traced _ _ _ _ _ _ _ _ (send_loop_spec id data _ _ _ H0) Ht) as Hr.
  pose proof (ok_allowed _ _ (carries false id data tt) _ _ _ _ _ _ (λ _ _ Ho, Ho)
    (send_loop_spec id data _ _ _ H0) Ht) as Hc.
  change (0 + ?n)%nat with n in Hr. fold a in Hr.
  destruct r as [[|]|]; unfold succeeded, failed, gave_up, stuck in Hr; naive_solver.
Qed.

(** [send_recv]: the same, and the bytes returned are those of the last
    answer of a session, empty when there was none. *)
Theorem send_recv_attempts_spec id data tr r :
  traced (send_recv (F := F) (Req := Req) (Res := Res) m_client_cfg id data) tr r →
  let a := post_trace tally account0 tr in
  Forall (λ e, carries true id data tt (projT1 e)) tr ∧
  (posts a ≤ send_attempts m_client_cfg)%nat ∧
  match r with
  | Returned b =>
      b = post_trace got fb_empty tr ∧ (exit_seen a = true ∨ lent a = false) ∧
      (last_ok a = true ∨ exit_seen a = true ∨
       (posts a + tries a)%nat = send_attempts m_client_cfg)
  | Threw _ => last_ok a = false ∧ lent a = true
  end.
Proof.
  intros Ht a.
  assert (failed 0 account0) as H0 by (unfold failed; simpl; auto).
  pose proof (ok_traced _ _ _ _ _ _ _ _ (send_recv_loop_spec id data fb_empty _ _ _ H0) Ht) as Hr.
  pose proof (ok_allowed _ _ (carries true id data tt) _ _ _ _ _ _ (λ _ _ Ho, Ho)
    (send_recv_loop_spec id data fb_empty _ _ _ H0) Ht) as Hc.
  pose proof (ok_traced _ _ _ _ _ _ _ _ (send_recv_loop_got id data fb_empty _ _) Ht) as Hg.
  change (0 + ?n)%nat with n in Hr. fold a in Hr.
  destruct r as [b|]; unfold succeeded, failed, gave_up, stuck in Hr; naive_solver.
Qed.

(** ** Connecting *)

(** The sessions tried and whether the last try answered [true]; the waits for
    the destruction of the previous session, which a try must not precede. *)
Record tried := mk_tried { td_tries : nat; td_last : bool; td_waited : bool; td_exit : bool }.

Definition tally_tries (t : tried) (o : client_cmd) : answer o → tried :=
  match o with
  | take_expired => λ x, mk_tried (S (td_tries t)) (negb x) false (td_exit t)
  | run_result _ => λ st, mk_tried (td_tries t) (bool_decide (st = cs_established)) (td_waited t)
                              (td_exit t)
  | wait_expired => λ b, mk_tried (td_tries t) (td_last t) b (td_exit t)
  | get_exit => λ b, mk_tried (td_tries t) (td_last t) (td_waited t) b
  | _ => λ _, t
  end.

(** A session is tried only after the one before was waited for. *)
Definition in_turn (t : tried) (o : client_cmd) : Prop :=
  match o with take_expired => td_waited t = true | _ => True end.

Lemma construct_tries t :
  td_waited t = true →
  ok in_turn tally_tries t (construct_session (B := B) (F := F) (Req := Req) (Res := Res))
    (λ b t', t' = mk_tried (S (td_tries t)) b false (td_exit t)) (λ _, False).
Proof.
  intros Ht. split; [done|]. intros [|]; [|done].
  repeat (split; [done|intros ?]). done.
Qed.

Lemma connect_loop_tries d n i t :
  td_tries t = i → td_last t = false → td_waited t = bool_decide (i = 0%nat) →
  ok in_turn tally_tries t (connect_loop (B := B) (F := F) (Req := Req) (Res := Res) d i n)
    (λ b t', b = td_last t' ∧ (td_tries t' ≤ i + n)%nat ∧ (b = false → td_tries t' = i + n)%nat)
    (λ t', td_last t' = false ∧ (td_tries t' < i + n)%nat ∧ td_waited t' = false).
Proof.
  revert i t. induction n as [|n IH]; intros i t Hi Hl Hw; cbn [connect_loop].
  { simpl. rewrite Hi, Hl. split_and!; [done|lia|intros; lia]. }
  apply ok_bind. apply (ok_mono _ _ _ _ (λ _ t', t' = mk_tried i false true (td_exit t)) _
    (λ t', t' = mk_tried i false false (td_exit t))).
  - destruct t as [x l w e]. simpl in *. subst. destruct (decide _) as [Hne|Heq].
    + split; [done|]. intros [|]; [split; [done|by intros ?]|done].
    + simpl. f_equal. apply bool_decide_eq_true_2. lia.
  - intros _ t' ->. apply ok_bind. eapply ok_mono; [by apply construct_tries| |done].
    intros b t' ->. simpl. destruct b.
    + simpl. split_and!; [done|lia|done].
    + eapply ok_mono; [apply IH; simpl|..]; try done.
      * intros b t'. simpl. intros (? & ? & Hb). split_and!; [done|lia|intros ->; rewrite Hb; [lia|done]].
      * intros t'. simpl. intros (? & ? & ?). split_and!; [done|lia|done].
  - intros t' ->. simpl. split_and!; [done|lia|done].
Qed.

(** [connect(attempts, delay)] tries a session at most [attempts] times, each
    but the first after the one before is destroyed; it answers [true] exactly
    when the last try did (a session was there, or its [run()] answered
    [established]), [false] when the client exits or after all the attempts; an
    exception means a failed session did not go away. *)
Theorem connect_attempts_spec attempts d tr r :
  traced (connect_attempts (B := B) (F := F) (Req := Req) (Res := Res) attempts d) tr r →
  let t := post_trace tally_tries (mk_tried 0 false true false) tr in
  (td_tries t ≤ attempts)%nat ∧
  match r with
  | Returned b =>
      b = td_last t ∧
      (b = false → td_tries t = attempts ∨ td_exit t = true)
  | Threw _ => td_last t = false ∧ td_waited t = false ∧ (td_tries t < attempts)%nat
  end.
Proof.
  intros Ht t.
  assert (ok in_turn tally_tries (mk_tried 0 false true false)
    (connect_attempts (B := B) (F := F) (Req := Req) (Res := Res) attempts d)
    (λ b t, b = td_last t ∧ (td_tries t ≤ attempts)%nat ∧
            (b = false → td_tries t = attempts ∨ td_exit t = true))
    (λ t, td_last t = false ∧ (td_tries t < attempts)%nat ∧ td_waited t = false)) as Hok.
  { split; [done|intros ?]. split; [done|intros [|]].
    - split; [done|intros ?]. simpl. split_and!; [done|lia|by right].
    - apply ok_finally. eapply ok_mono; [by apply connect_loop_tries|..].
      + intros b t' (? & ? & ?). split; [done|intros ?]. simpl. split_and!; [done|lia|naive_solver].
      + intros t' ?. by split. }
  pose proof (ok_traced _ _ _ _ _ _ _ _ Hok Ht) as Hr. fold t in Hr.
  destruct r; naive_solver lia.
Qed.
End client_methods.

(** ** Witnesses *)

Module MethodDemo.
Definition cfg : client_config := mk_client_config "localhost" 3377 1000 2 0.

(** Every session is there, and every command succeeds. *)
Definition well (o : client_cmd (B := list byte) (F := unit) (Req := unit)) :
    answer (Res := unit) o :=
  match o with
  | get_exit => false
  | take_expired | wait_expired | session_ping _ => true
  | new_session => 0%nat
  | run_result _ => cs_established
  | lock_session => Some 0%nat
  | session_send _ _ _ => ec_success
  | session_send_recv _ _ _ _ => ([Byte.x2a], ec_success)
  | session_response _ => tt
  | bind_broadcast _ _ => bind_done
  | lock_write | unlock_write | lock_read | unlock_read | set_exit | join_worker
  | run_session _ | release _ | session_close _ | put_request _ | sleep_for _ => tt
  end.
End MethodDemo.

Lemma send_attempts_spec_witness :
  ∃ tr, traced (send (F := unit) (Req := unit) (Res := unit) MethodDemo.cfg 7 [Byte.x01])
          tr (Returned true) ∧
    posts (post_trace (tally (B := list byte) (F := unit) (Req := unit) (Res := unit)) account0 tr) = 1%nat ∧
    last_ok (post_trace (tally (B := list byte) (F := unit) (Req := unit) (Res := unit)) account0 tr) = true.
Proof.
  pose proof (trace_of_traced MethodDemo.well
    (send (F := unit) (Req := unit) (Res := unit) MethodDemo.cfg 7 [Byte.x01])) as Ht.
  change (snd _) with (Returned true) in Ht.
  destruct (send_attempts_spec _ _ _ _ _ Ht) as (_ & _ & Hok & _).
  eexists. split_and!; [exact Ht|reflexivity|exact Hok].
Defined.

Lemma send_recv_attempts_spec_witness :
  ∃ tr, traced (send_recv (F := unit) (Req := unit) (Res := unit) MethodDemo.cfg 7 [Byte.x01])
          tr (Returned [Byte.x2a]) ∧
    post_trace (got (B := list byte) (F := unit) (Req := unit) (Res := unit)) fb_empty tr = [Byte.x2a].
Proof.
  pose proof (trace_of_traced MethodDemo.well
    (send_recv (F := unit) (Req := unit) (Res := unit) MethodDemo.cfg 7 [Byte.x01])) as Ht.
  change (snd _) with (Returned [Byte.x2a]) in Ht.
  destruct (send_recv_attempts_spec _ _ _ _ _ Ht) as (_ & _ & Hg & _).
  eexists. split; [exact Ht|]. symmetry. exact Hg.
Defined.

Lemma connect_attempts_spec_witness :
  ∃ tr, traced (connect_attempts (B := list byte) (F := unit) (Req := unit) (Res := unit) 3 0)
          tr (Returned true) ∧
    td_last (post_trace (tally_tries (B := list byte) (F := unit) (Req := unit) (Res := unit)) (mk_tried 0 false true false) tr) = true.
Proof.
  pose proof (trace_of_traced MethodDemo.well
    (connect_attempts (B := list byte) (F := unit) (Req := unit) (Res := unit) 3 0)) as Ht.
  change (snd _) with (Returned true) in Ht.
  destruct (connect_attempts_spec _ _ _ _ Ht) as (_ & Hb & _).
  eexists. split; [exact Ht|]. symmetry. exact Hb.
Defined.
