(* ===== verification/ClientWorld.v ===== *)
(** * ClientWorld: one client, any number of threads *)

From S2P Require Import Prelude Types Operations Prog Client ClientThreads ClientThreadsFacts.
#[local] Open Scope Z_scope.

Section client_world.
Context {B : Type} `{FlatBuffer B} {F Req Res : Type} (empty_response : Res).
Context (m_client_cfg : client_config).

Abbreviation client_world := (client_world (B := B) (F := F) (Req := Req) (Res := Res)).
Abbreviation handle := (world_handle empty_response m_client_cfg).
Abbreviation w_steps :=
  (world_steps (B := B) (F := F) (Req := Req) (Res := Res) empty_response m_client_cfg).
Abbreviation init := (world_init (B := B) (F := F) (Req := Req) (Res := Res)).

(** C18. However the threads of a program call the methods of one client: no
    command is undefined (no mutex is locked twice by a thread or unlocked by
    another, no io thread is assigned over a joinable one, no session is used
    that may be gone), there is at most one session, alive or being destroyed,
    [m_expired] implies that there is none, and a thread that is in no method
    holds neither [m_session_mtx] nor a session. *)
Theorem client_one_session es w :
  w_steps init es w →
  let c := the_client w in
  safe world_enabled handle w ∧
  (size (alive c) + size (deleting c) ≤ 1)%nat ∧
  (m_expired c = true → alive c = ∅ ∧ deleting c = ∅) ∧
  (is_Some (writer c) → readers c = ∅) ∧
  (∀ th o, user_ptrs c !! th = Some o → o ∈ alive c) ∧
  (∀ th, (match users w !! th with Some p => finished p | None => true end) = true →
     (writer c ≠ Some th) ∧ (th ∉ readers c) ∧ user_ptrs c !! th = None).
Proof.
  intros Hs c. destruct (world_steps_inv _ _ _ _ Hs) as [[Hc Hu] Hsafe].
  split; [done|]. subst c. pose proof (ci_tokens _ Hc) as Ht.
  split; [unfold tokens in Ht; lia|].
  split; [intros He; by apply (tokens_expired _ Ht)|].
  split; [apply Hc|]. split; [apply Hc|]. intros th Hf.
  destruct (Hu th) as (m & [Hw Hr _ _ Hh] & Hp).
  assert (m = idle) as ->.
  { destruct (users w !! th); [by eapply finished_idle|done]. }
  simpl in *. split_and!; [intros E; by apply Hw in E|intros E; by apply Hr in E|done].
Qed.

(** A handler is only ever added, and only while the client is expired. *)
Definition bound_later (c c' : client (F := F) (Req := Req)) : Prop :=
  m_bound_funcs c' = m_bound_funcs c ∨
  m_expired c = true ∧ ∃ i h, m_bound_funcs c !! i = None ∧
    m_bound_funcs c' = <[i := h]> (m_bound_funcs c).

Lemma exec_bound_funcs th a o (c : client (F := F) (Req := Req)) x c' :
  exec (B := B) (Res := Res) th a o c = Some (x, c') → bound_later c c'.
Proof.
  unfold bound_later.
  destruct o; simpl; unfold do_take_expired, do_lock_session, do_bind, do_new_session;
    try (repeat case_match; intros Hx; simplify_eq; by left).
  destruct (m_expired c); simpl; [|intros [= <- <-]; by left].
  case_decide as Hb; [intros [= <- <-]; by left|]. intros [= <- <-]. right.
  split; [done|]. exists broadcast_id, handler. split; [by apply eq_None_not_Some|done].
Qed.

Lemma step_bound_funcs w e w' :
  handle w e = Some w' → bound_later (the_client w) (the_client w').
Proof.
  destruct e as [th c|th a| |o|o]; simpl; try (intros [= <-]; by left).
  destruct (users w !! th) as [[| |o k]|]; try done.
  destruct (exec th a o (the_client w)) as [[x c']|] eqn:E; [|done].
  intros [= <-]. by eapply exec_bound_funcs.
Qed.

(** The broadcast handlers a session was given are not changed while it
    exists, so its io thread may read them without a lock: a step of a reachable
    client changes the table only when there is no session, and then only adds
    one handler. *)
Theorem broadcast_handlers_frozen es w e w' :
  w_steps init es w → step world_enabled handle w e w' →
  (alive (the_client w) ∪ deleting (the_client w) ≠ ∅ →
   m_bound_funcs (the_client w') = m_bound_funcs (the_client w)) ∧
  m_bound_funcs (the_client w) ⊆ m_bound_funcs (the_client w').
Proof.
  intros Hs [_ Hh]. destruct (world_steps_inv _ _ _ _ Hs) as [[Hc _] _].
  destruct (step_bound_funcs _ _ _ Hh) as [->|(He & i & h & Hi & ->)]; [done|].
  destruct (tokens_expired _ (ci_tokens _ Hc) He) as (_ & -> & ->).
  split; [set_solver|]. by apply insert_subseteq.
Qed.
End client_world.

(** ** Concrete runs *)

Module WorldDemo.
Abbreviation W := (client_world (B := list byte) (F := unit) (Req := unit) (Res := unit)).
Abbreviation E := (world_event (B := list byte) (F := unit) (Req := unit) (Res := unit)).

Definition cfg : client_config := mk_client_config "localhost" 3377 1000 2 0.
Definition go : W → list E → option W := world_run tt cfg.
Definition answers (st : connection_state) : env_answer (B := list byte) (Res := unit) :=
  mk_env_answer st true ec_success [Byte.x2a] tt.

(** Thread [th] calls [c] and takes [n] steps. *)
Definition calls (st : connection_state) (th : nat) (c : call) (n : nat) : list E :=
  we_call th c :: replicate n (we_step th (answers st)).

(** A connected client. *)
Definition connecting : list E := calls cs_established 1 call_connect 9.
(** A first [connect()] that fails, and a second one. *)
Definition connecting_twice : list E :=
  calls cs_none 1 call_connect 9 ++ calls cs_none 1 call_connect 4.

(** A run in which no [run()] of a session ever answers [established]. *)
Definition never_connected (e : E) : bool :=
  match e with we_step _ a => bool_decide (an_state a ≠ cs_established) | _ => true end.

Definition answered (th : nat) (w : W) : option bool :=
  match users w !! th with Some (Ret (v_bool b)) => Some b | _ => None end.
End WorldDemo.

(** [connect()] can answer [true] although no session was ever connected: a
    second call made before the session of the first one is destroyed finds
    [m_expired] still false. *)
Theorem connect_true_unconnected :
  ∃ w, WorldDemo.go world_init WorldDemo.connecting_twice = Some w ∧
    forallb WorldDemo.never_connected WorldDemo.connecting_twice = true ∧
    WorldDemo.answered 1 w = Some true.
Proof. eexists. split; [vm_compute; reflexivity|]. split; vm_compute; reflexivity. Qed.

Lemma client_one_session_witness :
  ∃ w, WorldDemo.go world_init WorldDemo.connecting = Some w ∧
    (size (alive (the_client w)) = 1)%nat ∧
    (size (alive (the_client w)) + size (deleting (the_client w)) ≤ 1)%nat.
Proof.
  destruct (WorldDemo.go world_init WorldDemo.connecting) as [w|] eqn:Hw;
    [|vm_compute in Hw; discriminate Hw].
  destruct (client_one_session tt WorldDemo.cfg _ w (run_steps _ _ _ _ _ Hw)) as (_ & Hsize & _).
  exists w. split; [done|]. split; [|exact Hsize].
  vm_compute in Hw. injection Hw as <-. reflexivity.
Defined.

Lemma broadcast_handlers_frozen_witness :
  ∃ w w', WorldDemo.go world_init WorldDemo.connecting = Some w ∧
    step world_enabled (world_handle tt WorldDemo.cfg) w (we_call 2 (call_listen_broadcast 5 tt)) w' ∧
    m_bound_funcs (the_client w) ⊆ m_bound_funcs (the_client w').
Proof.
  destruct (WorldDemo.go world_init WorldDemo.connecting) as [w|] eqn:Hw;
    [|vm_compute in Hw; discriminate Hw].
  destruct (world_handle tt WorldDemo.cfg w (we_call 2 (call_listen_broadcast 5 tt)))
    as [w'|] eqn:Hw'; [|discriminate Hw'].
  assert (step world_enabled (world_handle tt WorldDemo.cfg) w
    (we_call 2 (call_listen_broadcast 5 tt)) w') as Hst.
  { constructor; [|done]. clear Hw'. vm_compute in Hw. injection Hw as <-. reflexivity. }
  destruct (broadcast_handlers_frozen tt WorldDemo.cfg _ w _ w' (run_steps _ _ _ _ _ Hw) Hst)
    as [_ Hsub].
  exists w, w'. split; [done|]. split; [exact Hst|exact Hsub].
Defined.
