(* ===== verification/Rpc.v ===== *)
(** * Rpc: a call from the client to the server and back

    The two ends put together: the bytes the client's [handle_send] writes are
    read by the server's [on_read], whose answer is read by the client's
    [on_read] and handed to the thread that waits for it. *)

From S2P Require Import Prelude Types Header Operations DataCache DataCacheFacts DataQueue.
From S2P Require Import ServerSession ServerSystem ServerSystemFacts ServerProps.
From S2P Require Import ClientSession ClientSystem ClientSystemFacts.

Section rpc.
Context {B : Type} `{FlatBuffer B, !FlatBufferLaws B} {Req Res U : Type}.
Context (host : byte_order) (manager : manager_handlers (B := B) (Req := Req) (Res := Res) (U := U)).
Context (m_bound_funcs : gmap Z bool).
Implicit Types (s : session (B := B) (Req := Req) (Res := Res)) (c : client_session (B := B)).

Definition server_receives (msg : list byte) s :=
  modify_ctx (λ x, set_m_receive_buffer (fb_append msg (m_receive_buffer x)) x) s.
Definition client_receives (msg : list byte) c :=
  set_m_read_buffer (fb_append msg (m_read_buffer c)) c.

(** A bound function that answers [data] with [r], whatever else the session
    holds. *)
Definition answers (u : U) (f : bound_function (B := B) (Req := Req) (Res := Res) (U := U)) (h : io_header) (data r : list byte) : Prop :=
  ∀ x, m_header x = h → ctx_data x = data → m_bound_close x = false →
    let x' := foldl ctx_apply x (f u x) in m_bound_close x' = false ∧ response x' = r.

Lemma dispatch_answers u f h data r s :
  bound_funcs manager !! call_id h = Some (Some f) → answers u f h data r → r ≠ [] →
  m_header s = h → ctx_data s = data → m_bound_close s = false →
  dispatch manager u s = v_reply r.
Proof.
  intros Hf Ha Hr Hh Hd Hc. unfold dispatch. rewrite Hh.
  unfold bound_function in *. rewrite Hf.
  destruct (Ha s Hh Hd Hc) as [-> ->]. by rewrite decide_False.
Qed.

(** C6. A call comes back to its caller: the bytes of a send with call id [i]
    and result id [rid], read by a session whose id [i] is bound to a function
    that answers its data with [r], make the session write, at once when its
    queue is empty, bytes that, read by a client that does not listen for
    broadcasts on [i], end the wait of the thread waiting for [rid], with
    exactly [r] in its buffer and no error. *)
Theorem rpc_round_trip u f now i rid q data r s c l :
  is_u32 i → is_u64 rid → r ≠ [] →
  ServerSystemFacts.sending s → ServerSession.m_queue s = [] → m_bound_close s = false →
  fb_data (m_receive_buffer s) = [] →
  bound_funcs manager !! i = Some (Some f) → answers u f (new_io_header i rid) data r →
  cache_wf (m_cache c) → fb_data (m_read_buffer c) = [] →
  m_bound_funcs !! i = None → dc_entries (m_cache c) !! rid = Some l →
  ∃ s' es reply,
    ServerSession.on_read host manager now u ec_success
      (server_receives (send_message host (new_data_send i rid q data)) s) =
      Done tt s' (es ++ [eff_async_read]) ∧
    eff_async_write reply ∈ es ∧
    ∃ c' es' c'' b,
      handle_message host m_bound_funcs (client_receives reply c) (client_receives reply c) =
        Done tt c' es' ∧
      send_recv_waited l c' = Done None c' [] ∧
      send_recv_done l fb_empty c' = Done b c'' [] ∧ fb_data b = r.
Proof.
  intros Hi Hrid Hr Hs Hq Hc Hb Hf Ha Hw Hcb Hn Hl.
  set (h := new_io_header i rid). assert (io_header_wf h) as Hh by (by apply header_wf_new).
  set (s1 := server_receives _ s).
  assert (fb_data (m_receive_buffer s1) = header_bytes host h ++ data) as Hb1.
  { simpl. by rewrite fb_data_append, Hb. }
  destruct (on_read_dispatched host manager now u s1 Hs) as (s' & es & E & _ & _ & Hd).
  rewrite Hb1, header_of_bytes_app, drop_header_app in Hd by done.
  destruct Hd as (Hch & Hcd & _ & Hwr).
  exists s', es, (header_bytes host h ++ r). split; [exact E|].
  split.
  { apply Hwr; [|done]. by eapply (dispatch_answers u f h data r (called h s1)). }
  set (c1 := client_receives _ c).
  assert (fb_data (m_read_buffer c1) = header_bytes host h ++ r) as Hb2.
  { simpl. by rewrite fb_data_append, Hcb. }
  destruct (handle_message_routed host m_bound_funcs c1 Hw) as (c' & es' & E' & Hd).
  rewrite Hb2, header_of_bytes_app, drop_header_app in Hd by done.
  change (call_id h) with i in Hd. change (result_id h) with rid in Hd.
  rewrite Hn in Hd. change (m_cache c1) with (m_cache c) in Hd. rewrite Hl in Hd.
  destruct Hd as [(row & Hrow & Hst & Hdata) _].
  exists c', es'. do 2 eexists. split; [exact E'|]. split; [|split; [|exact Hdata]].
  - by rewrite (send_recv_waited_run _ _ _ Hrow), bool_decide_eq_true_2.
  - by rewrite (send_recv_done_run _ _ _ _ Hrow).
Qed.
End rpc.

(** ** A concrete call: id 7 of [Demo.manager] echoes *)

Definition demo_client : client_session (B := list byte) :=
  match on_cache (cache_queue 0 1000) new_client_session with
  | Done _ c _ => c
  | _ => new_client_session
  end.

Lemma rpc_round_trip_witness :
  ∃ s' es reply,
    ServerSession.on_read little_endian Demo.manager 1 tt ec_success
      (server_receives (send_message little_endian (new_data_send 7 1 0 [x61]))
         (ses (Demo.drive Demo.connect))) = Done tt s' (es ++ [eff_async_read]) ∧
    eff_async_write reply ∈ es ∧
    ∃ c' es' c'' b,
      handle_message little_endian ∅ (client_receives reply demo_client)
        (client_receives reply demo_client) = Done tt c' es' ∧
      send_recv_waited 0 c' = Done None c' [] ∧
      send_recv_done 0 fb_empty c' = Done b c'' [] ∧ fb_data b = [x61].
Proof.
  apply (rpc_round_trip little_endian Demo.manager ∅ tt Demo.echo 1 7 1 0 [x61] [x61]
    (ses (Demo.drive Demo.connect)) demo_client 0).
  - split; [discriminate|reflexivity].
  - split; [discriminate|reflexivity].
  - discriminate.
  - vm_compute. auto.
  - reflexivity.
  - reflexivity.
  - reflexivity.
  - reflexivity.
  - intros x Hh Hd Hc. split; [exact Hc|exact Hd].
  - eapply (cache_queue_wf 0 1000 (new_data_cache config.queue_recv_max)); [apply new_data_cache_wf|
      reflexivity|vm_compute; reflexivity].
  - reflexivity.
  - reflexivity.
  - vm_compute. reflexivity.
Defined.
