(* ===== verification/RpcSystem.v ===== *)
(** * RpcSystem: a client session and its server session, connected

    One WebSocket connection with both of its ends: the client's session with
    any number of user threads inside [send] and [send_recv], and the server's session
    with its bound functions.  The channel in each direction is what the other
    end gave to [async_write]: a read completes with an error, or with the next
    message that was written and not yet read. *)

From S2P Require Import Prelude Types Header Operations DataCache DataQueue ServerSession ServerSystem ClientSession ClientSystem.

(** The arguments of a call of [send_recv]. *)
Record rpc_call := mk_rpc_call {
  rc_call_id : Z;
  rc_data : list byte }.

(** A thread inside [send], which waits for [written], or inside [send_recv]: it
    waits for [written], then for its row, and last for the row's lock, to swap
    its buffer with the one of the row, [ec] being decided. *)
Inductive rpc_thread : Set :=
  | rt_sending (c : rpc_call) (p : nat)
  | rt_written (c : rpc_call) (result_id : Z) (p : nat)
  | rt_response (c : rpc_call) (l : loc)
  | rt_swap (c : rpc_call) (l : loc) (ec : option recv_error).

(** What [send_recv] leaves its caller: [ec] and the bytes of its row, none when
    it returned before it had one and left [recv_bytes] alone; [send] leaves
    its [ec] only. *)
Record rpc_return := mk_rpc_return {
  rr_call : rpc_call;
  rr_ec : option recv_error;
  rr_bytes : list byte }.

Section rpc_system.
Context {B : Type} `{FlatBuffer B} {Req Res U : Type}.
Context (host : byte_order) (manager : manager_handlers (B := B) (Req := Req) (Res := Res) (U := U)).
Context (srv_timeout : server_timeout) (m_bound_funcs : gmap Z bool).
Abbreviation client_sys := (client_sys (B := B)).
Abbreviation session_sys := (session_sys (B := B) (Req := Req) (Res := Res)).
Abbreviation kact := (act (client_session (B := B)) client_effect).

(** [rs_client_read], [rs_server_read]: how many of the messages the other end
    has written were read.  [rs_calls]: the calls by their result id, and
    [rs_returns] what the calls returned, in order (ghost). *)
Record rpc_system := mk_rpc_system {
  rs_client : client_sys;
  rs_server : session_sys;
  rs_client_read : nat;
  rs_server_read : nat;
  rs_threads : gmap nat rpc_thread;
  rs_calls : gmap Z rpc_call;
  rs_returns : list rpc_return }.

Abbreviation client_event := (client_event (B := B)).

Inductive rpc_event : Type :=
  | re_call (th : nat) (now : time_point) (response_timeout : duration) (c : rpc_call)
  | re_written (th : nat)       (* [written] is ready, or the send timed out *)
  | re_response (th : nat)      (* [wait_for] on the row ends *)
  | re_swap (th : nat) (recv_bytes : B)   (* [recv_bytes] is swapped for the row's bytes *)
  | re_send (th : nat) (c : rpc_call)
  | re_sent (th : nat)          (* likewise, for a plain [send] *)
  | re_client (e : client_event)
  | re_server (e : session_event (B := B) (Req := Req) (U := U)).

(** A thread that waits for promise [p]. *)
Definition holds_promise (p : nat) (x : rpc_thread) : Prop :=
  match x with
  | rt_sending _ q | rt_written _ _ q => q = p
  | rt_response _ _ | rt_swap _ _ _ => False
  end.

#[export] Instance holds_promise_dec p x : Decision (holds_promise p x).
Proof. destruct x; simpl; apply _. Defined.

(** The client's own events; what the threads above do is not among them. *)
Definition client_event_enabled (s : rpc_system) (e : client_event) : bool :=
  client_enabled (rs_client s) e &&
  match e with
  | ce_read _ ec msg =>
      ec_bool ec ||
      bool_decide (ServerSystem.wire (ServerSystem.pend (rs_server s)) !! rs_client_read s = Some msg)
  | ce_user_send _ _ _ | ce_user_sent _ | ce_user_queue _ _ | ce_user_wait _
  | ce_user_take _ _ => false
  | _ => true
  end.

(** What the server sends on its own is a broadcast, whose result id is 0. *)
Definition session_event_enabled (s : rpc_system) (e : session_event (B := B) (Req := Req) (U := U)) : bool :=
  session_enabled (rs_server s) e &&
  match e with
  | ev_read _ _ ec msg =>
      ec_bool ec || bool_decide (wire (pend (rs_client s)) !! rs_server_read s = Some msg)
  | ev_send d => bool_decide (io_header_wf (push_header d) ∧ result_id (push_header d) = 0)
  | _ => true
  end.

Definition rpc_enabled (s : rpc_system) (e : rpc_event) : bool :=
  match e with
  | re_call th _ response_timeout c =>
      bool_decide (rs_threads s !! th = None ∧ is_u32 (rc_call_id c) ∧
        is_Some (duration_mul response_timeout 2) ∧
        dc_id_counter (m_cache (cl (rs_client s))) + 1 < 2 ^ 64)
  | re_written th => match rs_threads s !! th with Some (rt_written _ _ _) => true | _ => false end
  | re_response th => match rs_threads s !! th with Some (rt_response _ _) => true | _ => false end
  | re_swap th _ => match rs_threads s !! th with Some (rt_swap _ _ _) => true | _ => false end
  | re_send th c => bool_decide (rs_threads s !! th = None ∧ is_u32 (rc_call_id c))
  | re_sent th => match rs_threads s !! th with Some (rt_sending _ _) => true | _ => false end
  | re_client e => client_event_enabled s e
  | re_server e => session_event_enabled s e
  end.

(** A step of a thread in the client's session, with its result. *)
Definition client_call {A} (m : kact A) (t : client_sys) : option (A * client_sys) :=
  match m (cl t), deliver m (cl t) (pend t) t (λ _, sent t) with
  | Done a _ _, Some t' => Some (a, t')
  | _, _ => None
  end.

Definition set_thread (th : nat) (x : rpc_thread) (t : client_sys) (s : rpc_system) : rpc_system :=
  mk_rpc_system t (rs_server s) (rs_client_read s) (rs_server_read s)
    (<[th := x]> (rs_threads s)) (rs_calls s) (rs_returns s).

Definition returned (th : nat) (r : rpc_return) (t : client_sys) (s : rpc_system) : rpc_system :=
  mk_rpc_system t (rs_server s) (rs_client_read s) (rs_server_read s)
    (delete th (rs_threads s)) (rs_calls s) (rs_returns s ++ [r]).

Definition add_call (rid : Z) (c : rpc_call) (s : rpc_system) : rpc_system :=
  mk_rpc_system (rs_client s) (rs_server s) (rs_client_read s) (rs_server_read s)
    (rs_threads s) (<[rid := c]> (rs_calls s)) (rs_returns s).

Definition rpc_handle (s : rpc_system) (e : rpc_event) : option rpc_system :=
  match e with
  | re_call th now response_timeout c =>
      '(r, t) ← client_call (send_recv now response_timeout (rc_call_id c) (rc_data c)) (rs_client s);
      Some match r with
           | inl e => returned th (mk_rpc_return c (Some e) []) t s
           | inr (rid, p) => add_call rid c (set_thread th (rt_written c rid p) t s)
           end
  | re_written th =>
      match rs_threads s !! th with
      | Some (rt_written c rid p) =>
          '(r, t) ← client_call (send_recv_written rid p) (rs_client s);
          Some match r with
               | inl e => returned th (mk_rpc_return c (Some e) []) t s
               | inr wait_absent => returned th (mk_rpc_return c (Some timed_out) []) t s
               | inr (wait_ready l) => set_thread th (rt_swap c l None) t s
               | inr (wait_blocked l) => set_thread th (rt_response c l) t s
               end
      | _ => None
      end
  | re_response th =>
      match rs_threads s !! th with
      | Some (rt_response c l) =>
          '(ec, t) ← client_call (send_recv_waited l) (rs_client s);
          Some (set_thread th (rt_swap c l ec) t s)
      | _ => None
      end
  | re_swap th recv_bytes =>
      match rs_threads s !! th with
      | Some (rt_swap c l ec) =>
          '(b, t) ← client_call (send_recv_done l recv_bytes) (rs_client s);
          Some (returned th (mk_rpc_return c ec (fb_data b)) t s)
      | _ => None
      end
  | re_send th c =>
      '(p, t) ← client_call (send (rc_call_id c) (rc_data c)) (rs_client s);
      Some (set_thread th (rt_sending c p) t s)
  | re_sent th =>
      match rs_threads s !! th with
      | Some (rt_sending c p) =>
          '(ready, t) ← client_call (send_done p) (rs_client s);
          Some (returned th (mk_rpc_return c (if ready : bool then None else Some timed_out) []) t s)
      | _ => None
      end
  | re_client e =>
      t ← client_handle host m_bound_funcs (rs_client s) e;
      Some (mk_rpc_system t (rs_server s)
              (match e with ce_read _ _ _ => S (rs_client_read s) | _ => rs_client_read s end)
              (rs_server_read s) (rs_threads s) (rs_calls s) (rs_returns s))
  | re_server e =>
      t ← session_handle host manager srv_timeout (rs_server s) e;
      Some (mk_rpc_system (rs_client s) t (rs_client_read s)
              (match e with ev_read _ _ _ _ => S (rs_server_read s) | _ => rs_server_read s end)
              (rs_threads s) (rs_calls s) (rs_returns s))
  end.

(** The connection is up at the client's end; the server's session starts with
    its [accept()]. *)
Definition rpc_init (is_ssl : bool) (s0 : session (B := B) (Req := Req) (Res := Res)) :
    option rpc_system :=
  t ← session_sys_init srv_timeout is_ssl s0;
  Some (mk_rpc_system client_sys_init t 0 0 ∅ ∅ []).

Definition rpc_steps := steps rpc_enabled rpc_handle.
Definition rpc_run := run rpc_enabled rpc_handle.

(** ** The abstract specification of a call

    A function bound to the call id of [c] answers the data of [c] with [bs]
    when it leaves [bs] in the [response] of a context that holds that data,
    the header of the call and an empty [response]. *)
Definition answered (rid : Z) (c : rpc_call) (bs : list byte) : Prop :=
  ∃ (u : U) (f : bound_function (B := B) (Req := Req) (Res := Res) (U := U)) x,
    bound_funcs manager !! rc_call_id c = Some (Some f) ∧
    call_id (m_header x) = rc_call_id c ∧ result_id (m_header x) = rid ∧
    ctx_data x = rc_data c ∧ response x = [] ∧
    m_bound_close (foldl ctx_apply x (f u x)) = false ∧
    response (foldl ctx_apply x (f u x)) = bs.

(** What a caller may be left with, whatever its [ec]. *)
Definition return_ok (r : rpc_return) : Prop :=
  rr_bytes r = [] ∨ ∃ rid, answered rid (rr_call r) (rr_bytes r).
End rpc_system.
