(* ===== verification/RpcSystemFacts.v ===== *)
(** * RpcSystemFacts: what a caller of [send_recv] is left with

    The invariants of the two ends hold together with one more: every message
    on its way is a header the other end can read, what the client has sent
    under a result id is the call that has this id, and what the server and
    the client's table hold for it is empty or the answer of the bound function
    to that very call. *)

From S2P Require Import Prelude Types Header Operations DataCache DataCacheFacts DataQueue.
From S2P Require Import ServerSession ServerSystem ServerSystemFacts ServerProps.
From S2P Require Import ClientSession ClientSystem ClientSystemFacts RpcSystem.

Section facts.
Context {B : Type} `{FlatBuffer B, !FlatBufferLaws B} {Req Res U : Type}.
Context (host : byte_order) (manager : manager_handlers (B := B) (Req := Req) (Res := Res) (U := U)).
Context (srv_timeout : server_timeout) (m_bound_funcs : gmap Z bool).
Abbreviation client_sys := (client_sys (B := B)).
Abbreviation client_session := (client_session (B := B)).
Abbreviation session := (session (B := B) (Req := Req) (Res := Res)).
Abbreviation session_sys := (session_sys (B := B) (Req := Req) (Res := Res)).
Abbreviation kact := (act client_session client_effect).
Abbreviation rpc_system := (rpc_system (B := B) (Req := Req) (Res := Res)).
Abbreviation client_event := (client_event (B := B)).
Implicit Types (s : client_session) (t : client_sys) (calls : gmap Z rpc_call) (aw : Z → Prop).

(** ** Messages and rows that belong to the calls *)

(** A request: its header, and the call of its result id. *)
Definition request calls (d : data_send) : Prop :=
  io_header_wf (send_header d) ∧
  (result_id (send_header d) = 0 ∨
   calls !! result_id (send_header d) = Some (mk_rpc_call (call_id (send_header d)) (body d))).

(** A reply to the call that has result id [rid], or to none. *)
Definition reply_to calls (rid : Z) (bs : list byte) : Prop :=
  bs = [] ∨ rid = 0 ∨ ∃ c, calls !! rid = Some c ∧ answered manager rid c bs.

Definition reply calls (d : data_push) : Prop :=
  io_header_wf (push_header d) ∧ reply_to calls (result_id (push_header d)) (push_body d).

(** Row [l] was made for the call of result id [l + 1]. *)
Definition row_of (l : loc) : Z := Z.of_nat l + 1.

(** [aw]: the result ids a thread still waits for.  What a caller has swapped
    out of its row is its own, and so is what it has left there. *)
Record cache_ok calls aw (n : nat) (c : data_cache B) : Prop := {
  o_wf : cache_wf c;
  o_counter : dc_id_counter c = Z.of_nat n;
  o_length : length (dc_rows c) = n;
  o_entries id l : dc_entries c !! id = Some l → id = row_of l;
  o_rows l row : dc_rows c !! l = Some row → aw (row_of l) →
    reply_to calls (row_of l) (fb_data (read_buffer row)) }.

Lemma request_mono calls calls' d : calls ⊆ calls' → request calls d → request calls' d.
Proof. intros Hs [Hw [Hz|Hc]]; split; auto. right. by eapply lookup_weaken. Qed.

Lemma reply_to_mono calls calls' rid bs : calls ⊆ calls' → reply_to calls rid bs → reply_to calls' rid bs.
Proof.
  intros Hs [?|[?|(c & Hc & ?)]]; [by left|by right; left|].
  right. right. exists c. split; [by eapply lookup_weaken|done].
Qed.

Lemma reply_mono calls calls' d : calls ⊆ calls' → reply calls d → reply calls' d.
Proof. intros Hs [Hw Hr]. split; [done|by eapply reply_to_mono]. Qed.

Lemma cache_ok_mono calls calls' aw aw' n c :
  calls ⊆ calls' → (∀ l, (l < n)%nat → aw' (row_of l) → aw (row_of l)) →
  cache_ok calls aw n c → cache_ok calls' aw' n c.
Proof.
  intros Hs Haw [O1 O2 OL O3 O4]. split; auto. intros l row Hr Hl.
  eapply reply_to_mono, O4; try done. apply Haw; [|done]. rewrite <-OL. by eapply lookup_lt_Some.
Qed.

(** ** The operations of the cache *)

Lemma row_of_pos l : row_of l ≠ 0.
Proof. unfold row_of. lia. Qed.

Lemma cache_ok_set_entries calls aw n m c :
  m ⊆ dc_entries c → cache_ok calls aw n c → cache_ok calls aw n (set_entries m c).
Proof.
  intros Hm [O1 O2 OL O3 O4]. split; auto; [by apply set_entries_wf|].
  intros id l Hl. apply O3. by eapply lookup_weaken.
Qed.

Lemma cache_ok_update_row calls aw n f l c :
  cache_ok calls aw n c →
  (∀ row, dc_rows c !! l = Some row → aw (row_of l) →
     reply_to calls (row_of l) (fb_data (read_buffer (f row)))) →
  cache_ok calls aw n (update_row f l c).
Proof.
  intros [O1 O2 OL O3 O4] Hf. split; simpl; rewrite ?length_alter; auto; [by apply update_row_wf|].
  intros l' row. rewrite list_lookup_alter. case_decide as Hd; [subst l'|by apply O4].
  destruct (dc_rows c !! l) as [row'|] eqn:E; simpl; [|done]. intros [= <-]. by apply Hf.
Qed.

Lemma cache_ok_new calls aw max : cache_ok calls aw 0 (new_data_cache max).
Proof.
  split; [apply new_data_cache_wf|done|done|intros id l; simpl; by rewrite lookup_empty|done].
Qed.

(** The new row is empty, so somebody may wait for it. *)
Lemma cache_ok_queue calls aw aw' n now valid c :
  (∀ l, (l < n)%nat → aw' (row_of l) → aw (row_of l)) →
  cache_ok calls aw n c → dc_id_counter c + 1 < 2 ^ 64 →
  ∃ rid c', cache_queue now valid c = Done rid c' [] ∧
    (rid = 0 ∧ c' = c ∨ rid = row_of n ∧ rid < 2 ^ 64 ∧ cache_ok calls aw' (S n) c').
Proof.
  intros Haw Hok Hc. pose proof Hok as [O1 O2 OL O3 O4].
  destruct (decide (dc_max_entries c ≤ size (dc_entries c))%nat) as [Hf|Hf].
  { rewrite cache_queue_full by done. eauto 10. }
  pose proof (cache_queue_room now valid c ltac:(lia) Hc O1) as E.
  do 2 eexists. split; [exact E|]. right.
  split; [unfold row_of; lia|]. split; [lia|].
  split; simpl; [by eapply cache_queue_wf|lia|rewrite length_app; simpl; lia| |].
  - intros id l [[<- <-]|[_ Hl]]%lookup_insert_Some; [unfold row_of; lia|by apply O3].
  - intros l row [Hr|[_ Hr]]%lookup_app_Some Hl.
    + eapply O4, Haw; [done| |done]. rewrite <-OL. by eapply lookup_lt_Some.
    + apply list_lookup_singleton_Some in Hr as [_ <-]. simpl. rewrite fb_data_empty. by left.
Qed.

Lemma cache_ok_swap calls aw n id buffer c :
  cache_ok calls aw n c → reply_to calls id (fb_data buffer) →
  wp (swap_notify id buffer) (λ _ c' _, cache_ok calls aw n c') c.
Proof.
  intros Hok Hb. unfold wp. destruct (dc_entries c !! id) as [l|] eqn:E.
  - destruct (wf_row_lookup _ _ _ (o_wf _ _ _ _ Hok) E) as [row Hr].
    rewrite (swap_notify_Some _ _ l row) by done. simpl.
    assert (cache_ok calls aw n (update_row (λ r, set_state ds_swapped (set_read_buffer buffer r)) l c)) as Hok'.
    { apply cache_ok_update_row; [done|]. intros row' _ _. simpl.
      by rewrite <-(o_entries _ _ _ _ Hok _ _ E). }
    case_decide; [|done].
    change (dc_entries c) with (dc_entries (update_row (λ r, set_state ds_swapped (set_read_buffer buffer r)) l c)).
    apply cache_ok_set_entries; [apply delete_subseteq|done].
  - by rewrite swap_notify_None.
Qed.

Lemma cache_ok_clear calls aw n c : cache_ok calls aw n c → wp cache_clear (λ _ c' _, cache_ok calls aw n c') c.
Proof.
  intros [O1 O2 OL O3 O4]. destruct (cache_clear_spec c O1) as (c' & es & E & H1 & H2 & H3 & H4 & H5 & H6).
  unfold wp. rewrite E. split; rewrite ?H3, ?H4, ?H5; auto; [intros id l; by rewrite lookup_empty|].
  intros l row' Hr'. assert (is_Some (dc_rows c !! l)) as [row Hr].
  { apply lookup_lt_is_Some. rewrite <-H4. by eapply lookup_lt_Some. }
  destruct (H6 l row Hr) as (row'' & Hr'' & Hb & _). simplify_eq. rewrite Hb. by apply O4.
Qed.

Lemma cache_ok_obsolete calls aw n clock c :
  cache_ok calls aw n c → wp (remove_obsolete clock) (λ _ c' _, cache_ok calls aw n c') c.
Proof.
  intros Hok. destruct (remove_obsolete_spec clock c (o_wf _ _ _ _ Hok)) as (m & E & Hm & _).
  unfold wp. rewrite E. by apply cache_ok_set_entries.
Qed.

(** Waiting finds the row of the id it waits for. *)
Lemma cache_ok_wait calls aw n id c :
  cache_ok calls aw n c →
  wp (cache_wait_begin id) (λ r c' _, cache_ok calls aw n c' ∧
    match r with
    | wait_absent => True
    | wait_ready l | wait_blocked l => id = row_of l ∧ (l < n)%nat
    end) c.
Proof.
  intros Hok. unfold wp. destruct (dc_entries c !! id) as [l|] eqn:E.
  - destruct (wf_row_lookup _ _ _ (o_wf _ _ _ _ Hok) E) as [row Hr].
    pose proof (o_entries _ _ _ _ Hok _ _ E) as Hid. apply lookup_lt_Some in Hr as Hlt.
    rewrite (o_length _ _ _ _ Hok) in Hlt.
    destruct (decide (state row = ds_swapped)).
    + erewrite cache_wait_begin_swapped by done. split_and!; try done.
      apply cache_ok_set_entries; [apply delete_subseteq|done].
    + erewrite cache_wait_begin_blocked by done. split_and!; try done.
      apply cache_ok_update_row; [done|]. intros row' Hr'. by apply (o_rows _ _ _ _ Hok l row').
  - by rewrite cache_wait_begin_None.
Qed.

(** ** The client's end *)

Definition client_ok calls aw (n : nat) s : Prop :=
  cache_ok calls aw n (m_cache s) ∧ Forall (request calls) (entries s).

(** What is posted for a later [handle_send]. *)
Definition asks calls (e : client_effect) : Prop :=
  match e with eff_post d => request calls d | _ => True end.

Definition client_data calls aw n t : Prop :=
  client_ok calls aw n (cl t) ∧ Forall (request calls) (posted (pend t)) ∧
  Forall (request calls) (accepted t).

Lemma posted_effects calls es p :
  Forall (asks calls) es → Forall (request calls) (posted p) →
  Forall (request calls) (posted (pend_effects p es)).
Proof.
  intros He. revert p. induction He as [|e es He _ IH]; intros p Hp; [done|]. apply IH.
  destruct p, e; simpl in *; try done. apply Forall_app. by split; [|constructor].
Qed.

Lemma deliver_data {A} calls' aw n (m : kact A) s p t ns t' :
  wp m (λ _ s' es, client_ok calls' aw n s' ∧ Forall (asks calls') es) s →
  Forall (request calls') (posted p) → Forall (request calls') (accepted t) →
  deliver m s p t ns = Some t' → client_data calls' aw n t'.
Proof.
  unfold wp, deliver. destruct (m s) as [a s' es| |]; try done. intros [[Hc He] Hes] Hp Ha [= <-].
  split; [done|]. split; simpl; [by apply posted_effects|].
  apply Forall_app. split; [done|]. by apply Forall_drop.
Qed.

Lemma deliver_kept {A} calls aw n (m : kact A) s p t ns t' :
  pres (client_ok calls aw n) m → emits (asks calls) m → client_ok calls aw n s →
  Forall (request calls) (posted p) → client_data calls aw n t →
  deliver m s p t ns = Some t' → client_data calls aw n t'.
Proof.
  intros Hp He Hs Hq (_ & _ & Ha) Hd. eapply deliver_data, Hd; try done. unfold wp.
  unfold deliver in Hd. destruct (m s) as [a s' es| |] eqn:E; try done.
  split; [by eapply Hp|by eapply He].
Qed.

Lemma ok_close_session calls aw n : pres (client_ok calls aw n) close_session.
Proof. unfold close_session, kthis. by solve_pres. Qed.
Lemma asks_close_session calls : emits (asks calls) (close_session : kact unit).
Proof. unfold close_session, kthis. by solve_emits. Qed.

Lemma ok_handle_send calls aw n d : request calls d → pres (client_ok calls aw n) (handle_send host d).
Proof.
  intros Hd. unfold handle_send, write, kthis.
  assert (∀ s q b, client_ok calls aw n s → queue_push d (m_queue s) = (b, q) →
    client_ok calls aw n (set_m_queue q s)) as Hpush.
  { intros s q b [Hc He] E. split; [done|]. unfold entries, queue_push in *.
    case_decide; injection E as <- <-; simpl; [done|]. apply Forall_app. by split; [|constructor]. }
  intros s a s' es. run_act. destruct (_ || _); [by intros [= <- <- <-]|].
  destruct (queue_push d (m_queue s)) as [b q] eqn:E. simpl.
  intros Hdone Hs. assert (s' = set_m_queue q s) as ->; [|by eapply Hpush].
  destruct b, (queue_is_writing q); simpl in Hdone; [congruence| |congruence..].
  destruct (queue_front q); simpl in Hdone; congruence.
Qed.
Lemma asks_handle_send calls d : emits (asks calls) (handle_send host d : kact unit).
Proof. unfold handle_send, write, kthis. by solve_emits. Qed.

Lemma ok_on_write calls aw n ec : pres (client_ok calls aw n) (on_write host ec).
Proof.
  intros s a s' es E [Hc He]. revert E.
  destruct (ec_bool ec || m_close s || m_close_received s || m_read_error s) eqn:Eb.
  - rewrite client_on_write_error by done. intros E. eapply ok_close_session; [exact E|]. by split.
  - destruct (entries s) as [|d ds] eqn:Eq.
    + unfold on_write, queue_write_next, entries, kthis in *. run_act. by rewrite Eb, Eq.
    + rewrite (client_on_write_next host _ _ d ds) by done. intros [= <- <- <-].
      split; [done|]. by apply Forall_cons in He as [_ ?].
Qed.
Lemma asks_on_write calls ec : emits (asks calls) (on_write host ec : kact unit).
Proof.
  unfold on_write, write, kthis. solve_emits; try done; apply asks_close_session.
Qed.

Lemma wp_on_cache {A} (m : act (data_cache B) cache_effect A) (Q : A → data_cache B → Prop) s :
  wp m (λ a c _, Q a c) (m_cache s) →
  wp (on_cache m) (λ a s' es, ∃ c, s' = set_m_cache c s ∧ Q a c ∧ ∀ calls, Forall (asks calls) es) s.
Proof.
  unfold wp, on_cache. destruct (m (m_cache s)) as [a c es| |]; try done. intros HQ.
  exists c. split; [done|]. split; [done|]. intros calls. apply Forall_fmap, Forall_true. by intros [l].
Qed.

Lemma Forall_asks_app calls es es' :
  Forall (asks calls) es → Forall (asks calls) es' → Forall (asks calls) (es ++ es').
Proof. intros. by apply Forall_app. Qed.

(** A message from the server that is a reply goes where it may. *)
Lemma handle_message_ok calls aw n d s :
  fb_data (m_read_buffer s) = push_message host d → reply calls d → client_ok calls aw n s →
  wp (handle_message host m_bound_funcs s) (λ _ s' es, client_ok calls aw n s' ∧ Forall (asks calls) es) s.
Proof.
  intros Hb [Hw Hr] [Hc He]. unfold handle_message. rewrite Hb. unfold push_message.
  rewrite decide_True by (rewrite length_app, length_header_bytes; lia).
  rewrite header_of_bytes_app by done. apply wp_bind, wp_modify, wp_bind, wp_get.
  destruct (m_bound_funcs !! _) as [b|]; [destruct b; (split; [done|]); by repeat constructor|].
  apply wp_bind. eapply wp_mono; [apply wp_on_cache, (cache_ok_swap calls aw n); [exact Hc|]|].
  { simpl. rewrite fb_data_consume, Hb. unfold push_message. by rewrite drop_header_app. }
  intros b s' es (c & -> & Hc' & Hes). apply wp_modify. split; [done|]. simpl.
  apply Forall_asks_app; [apply Hes|constructor].
Qed.

Lemma on_read_ok_data calls aw n clock ec s :
  (ec_bool ec || m_close_received s = false →
   ∃ d, fb_data (m_read_buffer s) = push_message host d ∧ reply calls d) →
  client_ok calls aw n s →
  wp (on_read host m_bound_funcs clock ec) (λ _ s' es, client_ok calls aw n s' ∧ Forall (asks calls) es) s.
Proof.
  intros Hb Hs. unfold on_read. apply wp_bind, wp_get. destruct (_ || _) eqn:Eb.
  - apply wp_bind. eapply wp_mono; [apply wp_on_cache, (cache_ok_clear calls aw n), Hs|].
    intros [] s1 es1 (c & -> & Hc' & Hes). apply wp_bind, wp_modify.
    unfold close_session, kthis. apply wp_bind, wp_get.
    destruct (m_close _ || _); [apply wp_ret|apply wp_bind, wp_modify, wp_emit].
    all: split; [split; [exact Hc'|apply Hs]|]; simpl; apply Forall_asks_app; [apply Hes|].
    all: by repeat constructor.
  - destruct (Hb eq_refl) as (d & Hd & Hr). apply wp_bind.
    eapply wp_mono; [by eapply handle_message_ok|]. intros [] s1 es1 [Hs1 Hes1].
    apply wp_bind. eapply wp_mono; [apply wp_on_cache, (cache_ok_obsolete calls aw n), Hs1|].
    intros [] s2 es2 (c & -> & Hc' & Hes2). apply wp_bind, wp_modify, wp_emit.
    split; [split; [exact Hc'|apply Hs1]|]. simpl.
    apply Forall_asks_app; [done|]. apply Forall_asks_app; [apply Hes2|]. by repeat constructor.
Qed.

(** A read of the client completes with an error or with a reply. *)
Definition reads_reply calls (e : client_event) : Prop :=
  match e with
  | ce_read _ ec msg => ec_bool ec = false → ∃ d, msg = push_message host d ∧ reply calls d
  | _ => True
  end.

(** Events that are not steps of [send] and [send_recv]. *)
Definition no_call calls (e : client_event) : Prop :=
  match e with
  | ce_user_send _ _ _ | ce_user_sent _ | ce_user_queue _ _ | ce_user_wait _
  | ce_user_take _ _ => False
  | _ => reads_reply calls e
  end.

Lemma posted_tail calls p :
  Forall (request calls) (posted p) → Forall (request calls) (posted (run_posted p)).
Proof. simpl. destruct (posted p); [done|]. by intros [_ ?]%Forall_cons. Qed.

Lemma client_event_data calls aw n t e t' :
  client_inv host t → client_data calls aw n t → client_enabled t e = true → no_call calls e →
  client_handle host m_bound_funcs t e = Some t' → client_data calls aw n t'.
Proof.
  intros [_ _ _ Hread Hbuf] Hd He Hno. pose proof Hd as (Hs & Hq & Ha).
  destruct e as [clock ec msg|ec|kind|ec|ec| | | |id rid data|q|now valid|rid|l b| |]; simpl in *; try done.
  - apply Nat.ltb_lt in He. destruct (m_read_error (cl t)); [lia|].
    eapply deliver_data; try done. apply on_read_ok_data; [|exact Hs].
    intros [Hec _]%orb_false_iff. destruct (Hno Hec) as (d & -> & Hr). exists d.
    simpl. by rewrite fb_data_append, Hbuf.
  - apply deliver_kept; try done; [apply ok_on_write|apply asks_on_write].
  - apply deliver_kept; try done; unfold on_control_callback; [by solve_pres|by solve_emits].
  - apply deliver_kept; try done; unfold on_ping; [by solve_pres|by solve_emits].
  - apply deliver_kept; try done; unfold on_close; [by solve_pres|by solve_emits].
  - destruct (posted (pend t)) as [|d ds] eqn:Ep; [done|].
    apply deliver_kept; try done; [apply ok_handle_send|apply asks_handle_send|apply posted_tail; by rewrite ?Ep].
    by apply Forall_cons in Hq as [? _].
  - apply deliver_kept; try done; unfold handle_ping, kthis; [by solve_pres|by solve_emits].
  - apply deliver_kept; try done; [apply ok_close_session|apply asks_close_session].
  - apply deliver_kept; try done; unfold ping_post; [by solve_pres|by solve_emits].
  - apply deliver_kept; try done; unfold ping_lock; [by solve_pres|by solve_emits].
Qed.

(** ** The server's end *)

Definition server_ok calls (s : session) : Prop :=
  response s = [] ∧ Forall (reply calls) (ServerSession.m_queue s).

Definition server_data calls (t : session_sys) : Prop :=
  server_ok calls (ses t) ∧ Forall (reply calls) (ServerSystem.accepted t).

(** A read of the server completes with an error or with a request; what it
    sends on its own answers no call. *)
Definition reads_request calls (e : session_event (B := B) (Req := Req) (U := U)) : Prop :=
  match e with
  | ev_read _ _ ec msg => ec_bool ec = false → ∃ d, msg = send_message host d ∧ request calls d
  | ev_send d => io_header_wf (push_header d) ∧ result_id (push_header d) = 0
  | _ => True
  end.

Lemma server_deliver calls m (s : session) p (t t' : session_sys) ns :
  pres (server_ok calls) m → server_ok calls s → server_data calls t →
  ServerSystem.deliver m s p t ns = Some t' → server_data calls t'.
Proof.
  unfold ServerSystem.deliver. destruct (m s) as [a s' es| |] eqn:E; try done.
  intros Hm Hs [_ Ha] [= <-]. pose proof (Hm _ _ _ _ E Hs) as Hs'. split; [done|]. simpl.
  apply Forall_app. split; [done|]. apply Forall_drop, Hs'.
Qed.

Lemma ok_server_close calls now : pres (server_ok calls) (ServerSession.close_session now).
Proof. unfold ServerSession.close_session, shutdown, timer_expires_after, this. by solve_pres. Qed.

Lemma wp_server_close calls now (s : session) :
  server_ok calls s → wp (ServerSession.close_session now) (λ _ (s' : session) _, server_ok calls s') s.
Proof.
  intros Hs. unfold ServerSession.close_session, shutdown, timer_expires_after, this. run_act.
  case_decide; [done|]. by destruct (_ || _).
Qed.

Lemma ok_server_send calls d : reply calls d → pres (server_ok calls) (ServerSession.handle_send host d).
Proof.
  intros Hd. unfold ServerSession.handle_send, ServerSession.write, this. solve_pres; try done.
  match goal with H : server_ok _ _ |- _ => destruct H end.
  split; [done|]. apply Forall_app. by split; [|constructor].
Qed.

Lemma ok_server_write calls now ec : pres (server_ok calls) (ServerSession.on_write host now ec).
Proof.
  intros s a s' es E [Hr Hq]. revert E.
  destruct (ec_bool ec || ServerSession.m_close s || ServerSession.m_close_received s ||
            ServerSession.m_read_error s) eqn:Eb.
  - rewrite ServerSystemFacts.on_write_error by done. intros E.
    eapply ok_server_close; [exact E|]. by split; [|constructor].
  - destruct (ServerSession.m_queue s) as [|d ds] eqn:Eq.
    + unfold ServerSession.on_write, this. run_act. by rewrite Eb, Eq.
    + rewrite (ServerSystemFacts.on_write_next host now _ _ d ds) by done. intros [= <- <- <-].
      apply Forall_cons in Hq as [_ ?]. by split.
Qed.

Lemma ok_server_timer calls now o ec : pres (server_ok calls) (on_timer now o ec).
Proof. unfold on_timer, shutdown, timer_expires_after, this. by solve_pres. Qed.
Lemma ok_server_accept calls now ec : pres (server_ok calls) (on_accept now ec).
Proof. unfold on_accept, ServerSession.read, timer_expires_after, this. by solve_pres. Qed.
Lemma ok_server_handshake calls u ec : pres (server_ok calls) (on_read_handshake manager srv_timeout u ec).
Proof. unfold on_read_handshake, this. by solve_pres. Qed.
Lemma ok_server_ssl calls ec k : pres (server_ok calls) (on_ssl_handshake srv_timeout ec k).
Proof. unfold on_ssl_handshake. by solve_pres. Qed.
Lemma ok_server_control calls now k : pres (server_ok calls) (ServerSession.on_control_callback now k).
Proof. unfold ServerSession.on_control_callback, timer_expires_after, this. by solve_pres. Qed.

(** The reply to a request: the answer of the function to that call. *)
Lemma dispatch_reply calls u (s : session) d r :
  request calls d → response s = [] →
  let c := ctx (called (send_header d) s) in
  m_header c = send_header d → ctx_data c = body d → dispatch manager u c = v_reply r →
  reply calls (mk_data_push (send_header d) r None).
Proof.
  intros [Hw Hc] Hr c Hh Hd. unfold dispatch. rewrite Hh.
  destruct (bound_funcs manager !! call_id (send_header d)) as [[f|]|] eqn:Ef; try done.
  destruct (m_bound_close _) eqn:Eb; [done|]. case_decide; [done|]. intros [= <-].
  split; [done|]. simpl. right. destruct Hc as [Hz|Hc]; [by left|]. right.
  eexists. split; [exact Hc|]. exists u, f, c. rewrite Hh. by split_and!.
Qed.

Lemma ok_server_read calls now u ec (s : session) :
  (ec_bool ec = false → ∃ d, fb_data (m_receive_buffer s) = send_message host d ∧ request calls d) →
  ServerSession.m_read_error s = false → server_ok calls s →
  wp (ServerSession.on_read host manager now u ec) (λ _ (s' : session) _, server_ok calls s') s.
Proof.
  intros Hb Hre Hs. destruct (ec_bool ec || ServerSession.m_close_received s) eqn:Eb.
  { unfold wp. rewrite ServerSystemFacts.on_read_error by done.
    by apply (wp_server_close calls). }
  apply orb_false_iff in Eb as [Eec Ecr]. destruct ec; try done. clear Eec.
  destruct (decide (ServerSystemFacts.sending s)) as [Hsend|Hsend].
  - destruct (on_read_dispatched host manager now u s Hsend) as (s' & es & E & _ & Hr & Hd).
    unfold wp. rewrite E. split; [done|]. destruct (Hb eq_refl) as (d & Hbuf & Hreq).
    rewrite Hbuf in Hd. unfold send_message in Hd. pose proof (proj1 Hreq).
    rewrite header_of_bytes_app, drop_header_app in Hd by done.
    destruct Hd as (Hh & Hdata & Hcar & _). destruct Hs as [Hr0 Hq].
    destruct (dispatch _ _ _) as [| |r] eqn:Ed; simpl in Hcar;
      [by rewrite Hcar|by destruct Hcar as [-> _]|]. rewrite Hcar. unfold queue_add.
    case_decide; [|done]. apply Forall_app. split; [done|]. constructor; [|constructor].
    by apply (dispatch_reply calls u s).
  - unfold ServerSession.on_read. apply wp_bind, wp_get. rewrite Ecr. simpl.
    assert (negb (ServerSession.m_close s) && negb (ServerSession.m_write_error s) = false) as ->.
    { destruct (ServerSession.m_close s) eqn:E1, (ServerSession.m_write_error s) eqn:E2; try done.
      exfalso. by apply Hsend. }
    apply wp_bind, wp_ret, wp_bind, wp_modify, wp_bind, wp_modify, wp_emit. by destruct Hs.
Qed.

Lemma session_event_data calls (t t2 : session_sys) e :
  session_inv host t → server_data calls t → session_enabled t e = true → reads_request calls e →
  session_handle host manager srv_timeout t e = Some t2 → server_data calls t2.
Proof.
  intros [_ [L1 L2 L3 L4 L5]] Hd He Hreq. pose proof Hd as (Hs & Ha).
  destruct e as [ec k|u ec req rest|now ec|d|now u ec msg|now ec|now o ec|now k|ec|ec]; simpl in *.
  - by apply server_deliver; [apply ok_server_ssl|..].
  - by apply server_deliver; [apply ok_server_handshake|..].
  - by apply server_deliver; [apply ok_server_accept|..].
  - apply server_deliver; try done. apply ok_server_send. destruct Hreq as [Hw Hz].
    split; [done|]. right. by left.
  - apply Nat.ltb_lt in He. destruct (ServerSession.m_read_error (ses t)) eqn:Er;
      [rewrite andb_false_r in L1; lia|].
    set (s1 := modify_ctx _ (ses t)). unfold ServerSystem.deliver.
    assert (wp (ServerSession.on_read host manager now u ec)
      (λ _ (s' : session) _, server_ok calls s') s1) as Hwp.
    { apply ok_server_read; [|done|exact Hs]. intros Hec.
      destruct (Hreq Hec) as (d & -> & Hr). exists d. simpl. by rewrite fb_data_append, L2. }
    unfold wp in Hwp. destruct (ServerSession.on_read _ _ _ _ _ _) as [a s' es| |]; try done.
    intros [= <-]. split; [done|]. simpl. apply Forall_app. split; [done|]. apply Forall_drop, Hwp.
  - by apply server_deliver; [apply ok_server_write|..].
  - by apply server_deliver; [apply ok_server_timer|..].
  - by apply server_deliver; [apply ok_server_control|..].
  - by apply server_deliver; [apply pres_ret|..].
  - by apply server_deliver; [apply pres_ret|..].
Qed.

(** ** The steps of the threads *)

(** The result id a thread inside [send_recv] has. *)
Definition thread_rid (x : rpc_thread) : option Z :=
  match x with
  | rt_sending _ _ => None
  | rt_written _ rid _ => Some rid
  | rt_response _ l | rt_swap _ l _ => Some (row_of l)
  end.

Definition thread_ok calls (n : nat) (x : rpc_thread) : Prop :=
  match x with
  | rt_sending _ _ => True
  | rt_written c rid _ => calls !! rid = Some c
  | rt_response c l | rt_swap c l _ => calls !! row_of l = Some c ∧ (l < n)%nat
  end.

Definition awaited (ths : gmap nat rpc_thread) (rid : Z) : Prop :=
  ∃ th x, ths !! th = Some x ∧ thread_rid x = Some rid.

Definition distinct_rids (ths : gmap nat rpc_thread) : Prop :=
  ∀ th1 th2 x1 x2 rid, ths !! th1 = Some x1 → ths !! th2 = Some x2 →
    thread_rid x1 = Some rid → thread_rid x2 = Some rid → th1 = th2.

Lemma awaited_delete ths th rid : awaited (delete th ths) rid → awaited ths rid.
Proof. intros (th' & x & [_ Hx]%lookup_delete_Some & ?). by exists th', x. Qed.

Lemma awaited_insert ths th x rid :
  awaited (<[th := x]> ths) rid → thread_rid x = Some rid ∨ awaited (delete th ths) rid.
Proof.
  intros (th' & x' & [[<- <-]|[Hne Hx]]%lookup_insert_Some & ?); [by left|right].
  exists th', x'. by rewrite lookup_delete_ne.
Qed.

Lemma awaited_other ths th x rid :
  distinct_rids ths → ths !! th = Some x → thread_rid x = Some rid → ¬ awaited (delete th ths) rid.
Proof.
  intros Hd Hx Hr (th' & x' & [Hne Hx']%lookup_delete_Some & Hr'). apply Hne. by eapply Hd.
Qed.

Lemma awaited_thread calls n ths rid :
  map_Forall (λ _, thread_ok calls n) ths → awaited ths rid → is_Some (calls !! rid).
Proof.
  intros Hths (th & x & Hx & Hr). pose proof (Hths _ _ Hx) as Hok.
  destruct x; simpl in *; [done|..]; simplify_eq; [eauto|destruct Hok; eauto..].
Qed.

Lemma distinct_delete ths th : distinct_rids ths → distinct_rids (delete th ths).
Proof.
  intros Hd th1 th2 x1 x2 rid [_ H1]%lookup_delete_Some [_ H2]%lookup_delete_Some. by apply Hd.
Qed.

Lemma distinct_insert ths th x :
  distinct_rids ths → (∀ rid, thread_rid x = Some rid → ¬ awaited (delete th ths) rid) →
  distinct_rids (<[th := x]> ths).
Proof.
  intros Hd Hx th1 th2 x1 x2 rid [[<- <-]|[N1 H1]]%lookup_insert_Some
    [[<- <-]|[N2 H2]]%lookup_insert_Some R1 R2; [done| | |by eapply Hd].
  - exfalso. apply (Hx rid R1). exists th2, x2. by rewrite lookup_delete_ne.
  - exfalso. apply (Hx rid R2). exists th1, x1. by rewrite lookup_delete_ne.
Qed.

Lemma client_call_run {A} (m : kact A) t (R : A → client_session → list client_effect → Prop) :
  client_inv host t → good host m (cl t) → pres empty_buffer m → wp m R (cl t) →
  ∃ a t' s' es, client_call m t = Some (a, t') ∧ client_inv host t' ∧
    deliver m (cl t) (pend t) t (λ _, sent t) = Some t' ∧ m (cl t) = Done a s' es ∧ R a s' es.
Proof.
  intros Hi Hg He (a & s' & es & E & HR)%wp_Done.
  destruct (client_inv_good host m (pend t) t Hi Hg He) as (t' & Ht' & Hi'); try done.
  exists a, t', s', es. unfold client_call. by rewrite E, Ht'.
Qed.

Lemma deliver_done {A} calls calls' aw aw' n n' (m : kact A) t a s' es t' :
  m (cl t) = Done a s' es → client_ok calls' aw' n' s' → Forall (asks calls') es →
  calls ⊆ calls' → client_data calls aw n t →
  deliver m (cl t) (pend t) t (λ _, sent t) = Some t' → client_data calls' aw' n' t'.
Proof.
  intros E Hs' Hes Hsub (_ & Hq & Ha) Hd. eapply deliver_data, Hd.
  - unfold wp. by rewrite E.
  - eapply Forall_impl; [exact Hq|]. intros. by eapply request_mono.
  - eapply Forall_impl; [exact Ha|]. intros. by eapply request_mono.
Qed.

(** A call gets the result id of the row it has queued, or none. *)
Lemma send_recv_calls calls aw aw' n now response_timeout c s :
  is_Some (duration_mul response_timeout 2) → dc_id_counter (m_cache s) + 1 < 2 ^ 64 →
  is_u32 (rc_call_id c) → calls !! row_of n = None →
  (∀ l, (l < n)%nat → aw' (row_of l) → aw (row_of l)) → client_ok calls aw n s →
  wp (send_recv now response_timeout (rc_call_id c) (rc_data c)) (λ r s' es,
    match r with
    | inl _ => client_ok calls aw n s' ∧ Forall (asks calls) es
    | inr (rid, _) =>
        let calls' := <[rid := c]> calls in
        rid = row_of n ∧ client_ok calls' aw' (S n) s' ∧ Forall (asks calls') es
    end) s.
Proof.
  intros [valid Hv] Hcnt Hid Hnone Haw [Hc He]. unfold send_recv. rewrite Hv.
  destruct (cache_ok_queue calls aw aw' n now valid _ Haw Hc Hcnt) as (rid & c' & E & Hrid).
  apply wp_bind. unfold wp at 1, on_cache. rewrite E.
  destruct Hrid as [[-> ->]|(-> & Hlt & Hc')].
  - rewrite decide_True by done. apply wp_ret. split; [by split|]. constructor.
  - rewrite decide_False by apply row_of_pos. unfold post_send, kthis. run_act.
    assert (calls ⊆ <[row_of n:=c]> calls) as Hsub by by apply insert_subseteq.
    split; [done|]. split; [split|].
    + by eapply cache_ok_mono.
    + eapply Forall_impl; [exact He|]. intros. by eapply request_mono.
    + constructor; [|constructor]. split.
      * apply header_wf_new; [done|]. unfold row_of in *. split; lia.
      * right. simpl. rewrite lookup_insert_eq. by destruct c.
Qed.

Lemma send_recv_written_calls calls aw n rid q s :
  client_ok calls aw n s →
  wp (send_recv_written rid q) (λ r s' es, client_ok calls aw n s' ∧ Forall (asks calls) es ∧
    match r with
    | inr (wait_ready l) | inr (wait_blocked l) => rid = row_of l ∧ (l < n)%nat
    | _ => True
    end) s.
Proof.
  intros [Hc He]. unfold send_recv_written, send_done, kthis.
  apply wp_bind, wp_bind, wp_get, wp_bind, wp_modify, wp_ret.
  destruct (promise_ready q (live s)).
  - apply wp_bind. eapply wp_mono; [apply wp_on_cache, (cache_ok_wait calls aw n), Hc|].
    intros r s' es (c & -> & (Hc' & Hr) & Hes). apply wp_ret. rewrite !app_nil_l, app_nil_r.
    split; [by split|]. split; [apply Hes|]. by destruct r.
  - apply wp_ret. by split; [|split; [constructor|]].
Qed.

Lemma client_ok_row calls aw n l s :
  client_ok calls aw n s → (l < n)%nat → ∃ row, dc_rows (m_cache s) !! l = Some row.
Proof. intros [Hc _] Hl. apply lookup_lt_is_Some. by rewrite (o_length _ _ _ _ Hc). Qed.

(** The caller takes what its row holds, and nobody waits for the row any more. *)
Lemma send_recv_done_calls calls aw aw' n l b c ec s :
  calls !! row_of l = Some c → (l < n)%nat → aw (row_of l) →
  (∀ rid, aw' rid → aw rid) → ¬ aw' (row_of l) → client_ok calls aw n s →
  wp (send_recv_done l b) (λ b' s' es, client_ok calls aw' n s' ∧ Forall (asks calls) es ∧
    return_ok manager (mk_rpc_return c ec (fb_data b'))) s.
Proof.
  intros Hcall Hl Hawl Haw Hnot Hs. destruct (client_ok_row _ _ _ _ _ Hs Hl) as [row Hr].
  destruct Hs as [Hc He]. unfold wp. rewrite (send_recv_done_run _ _ _ row) by done.
  split; [|split; [constructor|]].
  - split; [|done]. apply cache_ok_update_row; [|done].
    apply (cache_ok_mono calls calls aw aw' n); auto.
  - unfold return_ok. simpl.
    destruct (o_rows _ _ _ _ Hc l row Hr Hawl) as [?|[Hz|(c' & Hc' & Hans)]];
      [by left|by apply row_of_pos in Hz|].
    right. exists (row_of l). congruence.
Qed.

(** A plain [send]. *)
Lemma send_calls calls aw n c s :
  is_u32 (rc_call_id c) → client_ok calls aw n s →
  wp (ClientSession.send (rc_call_id c) (rc_data c)) (λ _ s' es,
    client_ok calls aw n s' ∧ Forall (asks calls) es) s.
Proof.
  intros Hid Hs. unfold ClientSession.send, post_send, kthis. run_act. split; [exact Hs|].
  repeat constructor; simpl; try done; try lia. all: apply Hid.
Qed.

Lemma send_done_calls calls aw n q s :
  client_ok calls aw n s →
  wp (send_done q) (λ _ s' es, client_ok calls aw n s' ∧ Forall (asks calls) es) s.
Proof. intros Hs. unfold send_done, kthis. run_act. split; [exact Hs|constructor]. Qed.

(** ** The invariant of the connection *)

Record rpc_inv (n : nat) (s : rpc_system) : Prop := {
  i_client : client_inv host (rs_client s);
  i_server : session_inv host (rs_server s);
  i_client_data : client_data (rs_calls s) (awaited (rs_threads s)) n (rs_client s);
  i_server_data : server_data (rs_calls s) (rs_server s);
  i_calls rid c : rs_calls s !! rid = Some c → 1 ≤ rid ≤ Z.of_nat n;
  i_threads : map_Forall (λ _, thread_ok (rs_calls s) n) (rs_threads s);
  i_distinct : distinct_rids (rs_threads s);
  i_returns : Forall (return_ok manager) (rs_returns s) }.

Abbreviation enabled := (rpc_enabled (Req := Req) (U := U)).
Abbreviation handle := (rpc_handle host manager srv_timeout m_bound_funcs).
Abbreviation kept s e := (∃ (s' : rpc_system) n', handle s e = Some s' ∧ rpc_inv n' s').

(** A message on the wire of either end is one that it accepted. *)
Lemma client_wire_request n (s : rpc_system) k msg :
  rpc_inv n s → wire (pend (rs_client s)) !! k = Some msg →
  ∃ d, msg = send_message host d ∧ request (rs_calls s) d.
Proof.
  intros [[_ _ Hp _ _] _ (_ & _ & Ha) _ _ _ _ _] Hk. eapply prefix_lookup_Some in Hk; [|exact Hp].
  apply list_lookup_fmap_Some in Hk as (d & -> & Hd). exists d. split; [done|].
  by eapply Forall_lookup_1.
Qed.

Lemma server_wire_reply n (s : rpc_system) k msg :
  rpc_inv n s → ServerSystem.wire (ServerSystem.pend (rs_server s)) !! k = Some msg →
  ∃ d, msg = push_message host d ∧ reply (rs_calls s) d.
Proof.
  intros [_ [[_ _ Hp] _] _ [_ Ha] _ _ _ _] Hk. eapply prefix_lookup_Some in Hk; [|exact Hp].
  apply list_lookup_fmap_Some in Hk as (d & -> & Hd). exists d. split; [done|].
  by eapply Forall_lookup_1.
Qed.

Lemma rpc_step_client n (s : rpc_system) e : rpc_inv n s → enabled s (re_client e) = true → kept s (re_client e).
Proof.
  intros Hi [He Hx]%andb_true_iff. pose proof Hi as [Hc Hs Hcd Hsd Hcalls Hth Hdis Hret].
  assert (no_call (rs_calls s) e) as Hno.
  { destruct e; simpl in Hx |- *; try done.
    intros Hec. rewrite Hec in Hx. apply bool_decide_eq_true in Hx.
    by eapply server_wire_reply. }
  destruct (client_step host m_bound_funcs _ e Hc He) as (t' & Ht' & Hi').
  do 2 eexists. simpl. rewrite Ht'. split; [done|]. split; simpl; try done.
  by eapply client_event_data, Ht'.
Qed.

Lemma rpc_step_server n (s : rpc_system) e : rpc_inv n s → enabled s (re_server e) = true → kept s (re_server e).
Proof.
  intros Hi [He Hx]%andb_true_iff. pose proof Hi as [Hc Hs Hcd Hsd Hcalls Hth Hdis Hret].
  assert (reads_request (rs_calls s) e) as Hreq.
  { destruct e; simpl in Hx |- *; try done; [by apply bool_decide_eq_true in Hx|].
    intros Hec. rewrite Hec in Hx. apply bool_decide_eq_true in Hx.
    by eapply client_wire_request. }
  destruct (session_step host manager srv_timeout _ e Hs He) as (t' & Ht' & Hi').
  do 2 eexists. simpl. rewrite Ht'. split; [done|]. split; simpl; try done.
  by eapply session_event_data, Ht'.
Qed.

Lemma client_data_mono calls aw aw' n t :
  (∀ rid, aw' rid → aw rid) → client_data calls aw n t → client_data calls aw' n t.
Proof. intros Haw [[Hc He] Hd]. split; [split|]; [by eapply cache_ok_mono; [..|exact Hc]; auto|done..]. Qed.

(** A thread that returns, and one that goes on with the result id it has, or
    with one that nobody waits for. *)
Lemma rpc_inv_returned n (s : rpc_system) th r t' :
  rpc_inv n s → client_inv host t' →
  client_data (rs_calls s) (awaited (delete th (rs_threads s))) n t' → return_ok manager r →
  rpc_inv n (returned th r t' s).
Proof.
  intros [Hc Hs Hcd Hsd Hcalls Hth Hdis Hret] Hi' Hd' Hr. split; simpl; try done.
  - by apply map_Forall_delete.
  - by apply distinct_delete.
  - apply Forall_app. by split; [|constructor].
Qed.

Lemma rpc_inv_left n (s : rpc_system) th r t' :
  rpc_inv n s → client_inv host t' → client_data (rs_calls s) (awaited (rs_threads s)) n t' →
  return_ok manager r → rpc_inv n (returned th r t' s).
Proof.
  intros Hi Hi' Hd' Hr. apply rpc_inv_returned; try done.
  eapply client_data_mono, Hd'. apply awaited_delete.
Qed.

Lemma rpc_inv_set_thread n (s : rpc_system) th x t' :
  rpc_inv n s → client_inv host t' → client_data (rs_calls s) (awaited (rs_threads s)) n t' →
  thread_ok (rs_calls s) n x →
  (∀ rid, thread_rid x = Some rid →
     ∃ x0, rs_threads s !! th = Some x0 ∧ thread_rid x0 = Some rid) →
  rpc_inv n (set_thread th x t' s).
Proof.
  intros [Hc Hs Hcd Hsd Hcalls Hth Hdis Hret] Hi' Hd' Hx Hrid. split; simpl; try done.
  - eapply client_data_mono, Hd'. intros rid [Hr|Ha]%awaited_insert; [|by eapply awaited_delete].
    destruct (Hrid rid Hr) as (x0 & ? & ?). by exists th, x0.
  - by apply map_Forall_insert_2.
  - apply distinct_insert; [done|]. intros rid Hr. destruct (Hrid rid Hr) as (x0 & ? & ?).
    by eapply awaited_other.
Qed.

Lemma rpc_step_call n (s : rpc_system) th now response_timeout c :
  rpc_inv n s → enabled s (re_call th now response_timeout c) = true →
  kept s (re_call th now response_timeout c).
Proof.
  intros Hi (Hfree & Hid & Hv & Hcnt)%bool_decide_eq_true. pose proof Hi as [Hc Hs Hcd Hsd Hcalls Hth Hdis Hret].
  assert (rs_calls s !! row_of n = None) as Hnone.
  { destruct (rs_calls s !! row_of n) eqn:E; [|done]. apply Hcalls in E. unfold row_of in E. lia. }
  assert (∀ th', ¬ awaited (delete th' (rs_threads s)) (row_of n)) as Hnew.
  { intros th' Ha%awaited_delete. destruct (awaited_thread _ _ _ _ Hth Ha). congruence. }
  assert (∀ p l, (l < n)%nat → awaited (<[th := rt_written c (row_of n) p]> (rs_threads s)) (row_of l) →
    awaited (rs_threads s) (row_of l)) as Haw.
  { intros p l Hl [[= E]|Ha]%awaited_insert; [unfold row_of in E; lia|by eapply awaited_delete]. }
  destruct (client_call_run _ (rs_client s) _ Hc
    (client_good_send_recv host now response_timeout _ (rc_data c) _ Hv Hcnt)
    (empty_send_recv now response_timeout _ _)
    (send_recv_calls (rs_calls s) _ _ n now response_timeout c _ Hv Hcnt Hid Hnone (Haw 0%nat) (proj1 Hcd)))
    as (r & t' & s' & es & E & Hi' & Hd & Hdone & HR).
  simpl. rewrite E. simpl. destruct r as [e|[rid p]].
  - destruct HR as [Hs' Hes]. eexists _, n. split; [done|].
    apply rpc_inv_left; try done; [|by left]. by eapply deliver_done.
  - destruct HR as (-> & Hs' & Hes). eexists _, (S n). split; [done|].
    assert (rs_calls s ⊆ <[row_of n:=c]> (rs_calls s)) as Hsub by by apply insert_subseteq.
    split; simpl; try done.
    + eapply client_data_mono; [|by eapply deliver_done].
      intros rid (th' & x & [[<- <-]|[Hne Hx]]%lookup_insert_Some & Hr).
      * exists th, (rt_written c (row_of n) 0%nat). by rewrite lookup_insert_eq.
      * exists th', x. by rewrite lookup_insert_ne.
    + destruct Hsd as [[Hr Hq] Ha].
      split; [split; [done|]|]; (eapply Forall_impl; [eassumption|]); intros; by eapply reply_mono.
    + unfold row_of. intros rid' c' [[<- <-]|[_ Hl%Hcalls]]%lookup_insert_Some; lia.
    + apply map_Forall_insert_2; [by simpl; rewrite lookup_insert_eq|].
      eapply map_Forall_impl; [exact Hth|]. intros th' [|c' rid' p'|c' l|c' l ec']; simpl; [done|..].
      1: intros; by eapply lookup_weaken.
      all: intros [? ?]; split; [by eapply lookup_weaken|lia].
    + apply distinct_insert; [done|]. intros rid [= <-]. apply Hnew.
Qed.

Lemma rpc_step_written n (s : rpc_system) th :
  rpc_inv n s → enabled s (re_written th) = true → kept s (re_written th).
Proof.
  intros Hi He. pose proof Hi as [Hc Hs Hcd Hsd Hcalls Hth Hdis Hret]. simpl in *.
  destruct (rs_threads s !! th) as [[|c rid p| |]|] eqn:Et; try done.
  pose proof (Hth _ _ Et) as Hrid. simpl in Hrid.
  destruct (client_call_run _ (rs_client s) _ Hc (client_good_send_recv_written host rid p _)
    (empty_send_recv_written rid p) (send_recv_written_calls (rs_calls s) _ n rid p _ (proj1 Hcd)))
    as (r & t' & s' & es & E & Hi' & Hd & Hdone & Hs' & Hes & HR).
  rewrite E. simpl.
  assert (client_data (rs_calls s) (awaited (rs_threads s)) n t') as Hd' by by eapply deliver_done.
  destruct r as [e|[|l|l]]; eexists _, n; (split; [done|]).
  1,2: by apply rpc_inv_left; [..|left].
  all: destruct HR as [-> ?]; apply rpc_inv_set_thread; try done; simpl; intros rid' [= <-]; eauto.
Qed.

(** Where the row of a thread is, and that it is awaited. *)
Lemma rpc_thread_row n (s : rpc_system) th x l :
  rpc_inv n s → rs_threads s !! th = Some x → thread_rid x = Some (row_of l) → (l < n)%nat →
  (∃ row, dc_rows (m_cache (cl (rs_client s))) !! l = Some row) ∧ awaited (rs_threads s) (row_of l).
Proof.
  intros Hi Et Hr Hl. split; [|by exists th, x].
  eapply client_ok_row; [apply (i_client_data _ _ Hi)|done].
Qed.

Lemma rpc_step_response n (s : rpc_system) th :
  rpc_inv n s → enabled s (re_response th) = true → kept s (re_response th).
Proof.
  intros Hi He. pose proof Hi as [Hc Hs Hcd Hsd Hcalls Hth Hdis Hret]. simpl in *.
  destruct (rs_threads s !! th) as [[| |c l|]|] eqn:Et; try done.
  destruct (Hth _ _ Et) as [Hcall Hl].
  destruct (rpc_thread_row _ _ _ _ _ Hi Et eq_refl Hl) as [[row Hrow] _].
  assert (wp (send_recv_waited l) (λ _ s' es, s' = cl (rs_client s) ∧ es = []) (cl (rs_client s))) as Hwp
    by (unfold wp; by rewrite (send_recv_waited_run _ _ row)).
  destruct (client_call_run _ (rs_client s) _ Hc (client_good_send_recv_waited host l _ row Hrow)
    (empty_send_recv_waited l) Hwp) as (ec & t' & s' & es & E & Hi' & Hd & Hdone & -> & ->).
  rewrite E. simpl. eexists _, n. split; [done|].
  apply rpc_inv_set_thread; try done; [|simpl; intros rid [= <-]; eauto].
  by eapply deliver_done, Hd; [exact Hdone|apply Hcd|..].
Qed.

Lemma rpc_step_swap n (s : rpc_system) th b :
  rpc_inv n s → enabled s (re_swap th b) = true → kept s (re_swap th b).
Proof.
  intros Hi He. pose proof Hi as [Hc Hs Hcd Hsd Hcalls Hth Hdis Hret]. simpl in *.
  destruct (rs_threads s !! th) as [[| | |c l ec]|] eqn:Et; try done.
  destruct (Hth _ _ Et) as [Hcall Hl].
  destruct (rpc_thread_row _ _ _ _ _ Hi Et eq_refl Hl) as [[row Hrow] Haw].
  destruct (client_call_run _ (rs_client s) _ Hc (client_good_send_recv_done host l b _ row Hrow)
    (empty_send_recv_done l b) (send_recv_done_calls (rs_calls s) _ (awaited (delete th (rs_threads s)))
      n l b c ec _ Hcall Hl Haw (awaited_delete _ th) (awaited_other _ _ _ _ Hdis Et eq_refl) (proj1 Hcd)))
    as (b' & t' & s' & es & E & Hi' & Hd & Hdone & Hs' & Hes & HR).
  rewrite E. simpl. eexists _, n. split; [done|].
  apply rpc_inv_returned; try done. by eapply deliver_done.
Qed.

Lemma rpc_step_send n (s : rpc_system) th c :
  rpc_inv n s → enabled s (re_send th c) = true → kept s (re_send th c).
Proof.
  intros Hi (Hfree & Hid)%bool_decide_eq_true. pose proof Hi as [Hc Hs Hcd Hsd Hcalls Hth Hdis Hret].
  destruct (client_call_run _ (rs_client s) _ Hc (client_good_post_send host _ _ (rc_data c) _)
    (empty_post_send _ _ _) (send_calls (rs_calls s) _ n c _ Hid (proj1 Hcd)))
    as (p & t' & s' & es & E & Hi' & Hd & Hdone & Hs' & Hes).
  cbn [rpc_handle]. unfold ClientSession.send. rewrite E. simpl. eexists _, n. split; [done|].
  apply rpc_inv_set_thread; try done. by eapply deliver_done.
Qed.

Lemma rpc_step_sent n (s : rpc_system) th :
  rpc_inv n s → enabled s (re_sent th) = true → kept s (re_sent th).
Proof.
  intros Hi He. pose proof Hi as [Hc Hs Hcd Hsd Hcalls Hth Hdis Hret]. cbn [rpc_enabled rpc_handle] in *.
  destruct (rs_threads s !! th) as [[c p| | |]|] eqn:Et; try done.
  destruct (client_call_run _ (rs_client s) _ Hc (client_good_send_done host p _)
    (empty_send_done p) (send_done_calls (rs_calls s) _ n p _ (proj1 Hcd)))
    as (r & t' & s' & es & E & Hi' & Hd & Hdone & Hs' & Hes).
  rewrite E. cbn. eexists _, n. split; [done|].
  apply rpc_inv_left; try done; [|by left]. by eapply deliver_done.
Qed.

Lemma rpc_step n (s : rpc_system) e : rpc_inv n s → enabled s e = true → kept s e.
Proof.
  destruct e; eauto using rpc_step_send, rpc_step_sent, rpc_step_call, rpc_step_written, rpc_step_response, rpc_step_swap,
    rpc_step_client, rpc_step_server.
Qed.

Lemma rpc_inv_init is_ssl (s0 : session) (s : rpc_system) :
  new_session_like s0 → rpc_init srv_timeout is_ssl s0 = Some s → rpc_inv 0 s.
Proof.
  intros Hs0. unfold rpc_init. destruct (session_sys_init _ _ _) as [t|] eqn:E; [|done].
  intros [= <-]. pose proof (session_inv_init host srv_timeout _ _ _ Hs0 E) as Hs.
  split; simpl; try done; [apply client_inv_init| |].
  - split; [|by split]. split; [apply cache_ok_new|constructor].
  - destruct Hs0 as (i & h & cfg & req0 & res0 & hb & ->). unfold session_sys_init, accept in E.
    destruct is_ssl; injection E as <-; by repeat split.
Qed.

Lemma rpc_steps_inv is_ssl (s0 : session) (s s' : rpc_system) es :
  new_session_like s0 → rpc_init srv_timeout is_ssl s0 = Some s →
  rpc_steps host manager srv_timeout m_bound_funcs s es s' →
  (∃ n, rpc_inv n s') ∧ safe enabled handle s'.
Proof.
  intros Hs0 Hi Hr. eapply (steps_safe enabled handle (λ x, ∃ n, rpc_inv n x)); [|exists 0%nat; by eapply rpc_inv_init|exact Hr].
  intros t e [n Hn] He. destruct (rpc_step n t e Hn He) as (t' & n' & ? & ?). eauto.
Qed.
End facts.
