(* ===== verification/RpcProjection.v ===== *)
(** * RpcProjection: the runs of a connection are runs of its two ends

    What a thread of [send_recv] does between two waits is what the events of
    ClientSystem do one after the other, so that everything proved of a client
    session and of a server session alone holds of the connected ones. *)

From S2P Require Import Prelude Types Header Operations DataCache DataCacheFacts DataQueue.
From S2P Require Import ServerSession ServerSystem ServerSystemFacts ServerProps.
From S2P Require Import ClientSession ClientSystem ClientSystemFacts RpcSystem RpcSystemFacts.

Section projection.
Context {B : Type} `{FlatBuffer B, !FlatBufferLaws B} {Req Res U : Type}.
Context (host : byte_order) (manager : manager_handlers (B := B) (Req := Req) (Res := Res) (U := U)).
Context (srv_timeout : server_timeout) (m_bound_funcs : gmap Z bool).
Abbreviation client_sys := (client_sys (B := B)).
Abbreviation client_session := (client_session (B := B)).
Abbreviation kact := (act client_session client_effect).
Abbreviation rpc_system := (rpc_system (B := B) (Req := Req) (Res := Res)).
Abbreviation client_event := (client_event (B := B)).
Abbreviation rpc_event := (rpc_event (B := B) (Req := Req) (U := U)).
Implicit Types (t : client_sys) (s : rpc_system) (c : client_session).

(** ** Steps of [send_recv] as events of the client *)

Definition call_events (now : time_point) (response_timeout : duration) (x : rpc_call)
    (r : recv_error + Z * nat) : list client_event :=
  ce_user_queue now (response_timeout * 2) ::
  match r with inl _ => [] | inr (rid, _) => [ce_user_send (rc_call_id x) rid (rc_data x)] end.

Definition written_events (rid : Z) (p : nat) (r : recv_error + wait_result) : list client_event :=
  ce_user_sent p :: match r with inl _ => [] | inr _ => [ce_user_wait rid] end.

Lemma client_call_bind {A C} (m : kact A) (k : A → kact C) t b t2 :
  (∀ a c es, m (cl t) = Done a c es → entries c = entries (cl t)) →
  client_call (act_bind m k) t = Some (b, t2) →
  ∃ a t1, client_call m t = Some (a, t1) ∧ client_call (k a) t1 = Some (b, t2).
Proof.
  intros Hq. unfold client_call, deliver, act_bind.
  destruct (m (cl t)) as [a c es| |] eqn:E; try done. specialize (Hq _ _ _ eq_refl). simpl.
  destruct (k a c) as [b' c' es'| |] eqn:Ek; try done. intros [= <- <-].
  do 2 eexists. split; [done|]. simpl. rewrite Ek.
  by rewrite Hq, drop_all, app_nil_r, client_pend_effects_app, omap_app, (assoc_L (++) (handled t)).
Qed.

Lemma client_call_ret {A} (a : A) t : client_call (act_ret a) t = Some (a, t).
Proof.
  unfold client_call, deliver, act_ret. simpl. rewrite drop_all, !app_nil_r. by destruct t.
Qed.

Lemma client_call_deliver {A} (m : kact A) t a t' :
  client_call m t = Some (a, t') → deliver m (cl t) (pend t) t (λ _, sent t) = Some t'.
Proof.
  unfold client_call. destruct (m (cl t)); try done. destruct (deliver _ _ _ _ _); [|done].
  by intros [= _ <-].
Qed.

Lemma entries_on_cache {A} (m : act (data_cache B) cache_effect A) c a c' es :
  on_cache m c = Done a c' es → entries c' = entries c.
Proof. unfold on_cache. destruct (m (m_cache c)); try done. by intros [= <- <- <-]. Qed.

Abbreviation client_runs := (client_run host m_bound_funcs).

Lemma client_run_cons t e es t1 :
  client_enabled t e = true → client_handle host m_bound_funcs t e = Some t1 →
  client_runs t (e :: es) = client_runs t1 es.
Proof. intros He Hh. unfold client_run. simpl. by rewrite He, Hh. Qed.

Lemma call_events_run t t' now response_timeout x r :
  is_Some (duration_mul response_timeout 2) → dc_id_counter (m_cache (cl t)) + 1 < 2 ^ 64 →
  client_call (send_recv now response_timeout (rc_call_id x) (rc_data x)) t = Some (r, t') →
  client_runs t (call_events now response_timeout x r) = Some t'.
Proof.
  intros [valid Hv] Hcnt. unfold send_recv. rewrite Hv.
  apply i64_checked_Some in Hv as [-> _].
  intros (rid & t1 & E1 & E2)%client_call_bind; [|intros *; apply entries_on_cache].
  unfold call_events.
  rewrite (client_run_cons _ _ _ t1); [|by apply bool_decide_eq_true|exact (client_call_deliver _ _ _ _ E1)].
  case_decide; [rewrite client_call_ret in E2; by injection E2 as <- <-|].
  apply client_call_bind in E2 as (p & t2 & E2 & E3);
    [|intros * E; by injection E as <- <- <-].
  rewrite client_call_ret in E3. injection E3 as <- <-.
  by rewrite (client_run_cons _ _ _ t2); [|done|exact (client_call_deliver _ _ _ _ E2)].
Qed.

Lemma written_events_run t t' rid p r :
  is_Some (live (cl t) !! p) → client_call (send_recv_written rid p) t = Some (r, t') →
  client_runs t (written_events rid p r) = Some t'.
Proof.
  intros Hp. unfold send_recv_written.
  intros (ready & t1 & E1 & E2)%client_call_bind; [|intros * E; by injection E as <- <- <-].
  unfold written_events.
  rewrite (client_run_cons _ _ _ t1); [|by apply bool_decide_eq_true|exact (client_call_deliver _ _ _ _ E1)].
  destruct ready.
  - apply client_call_bind in E2 as (w & t2 & E2 & E3); [|intros *; apply entries_on_cache].
    rewrite client_call_ret in E3. injection E3 as <- <-.
    by rewrite (client_run_cons _ _ _ t2); [|done|exact (client_call_deliver _ _ _ _ E2)].
  - rewrite client_call_ret in E2. by injection E2 as <- <-.
Qed.

Lemma take_event_run t t' l b r :
  (l < length (dc_rows (m_cache (cl t))))%nat →
  client_call (send_recv_done l b) t = Some (r, t') →
  client_runs t [ce_user_take l b] = Some t'.
Proof.
  intros Hl E.
  by rewrite (client_run_cons _ _ _ t'); [|by apply Nat.ltb_lt|exact (client_call_deliver _ _ _ _ E)].
Qed.

Lemma waited_same t t' l r row :
  dc_rows (m_cache (cl t)) !! l = Some row → client_call (send_recv_waited l) t = Some (r, t') → t' = t.
Proof.
  intros Hr. unfold client_call, deliver. rewrite (send_recv_waited_run _ _ row) by done.
  intros [= _ <-]. destruct t. simpl. by rewrite drop_all, !app_nil_r.
Qed.

Lemma one_event_run {A} (m : kact A) t t' r e :
  client_enabled t e = true →
  client_handle host m_bound_funcs t e = deliver m (cl t) (pend t) t (λ _, sent t) →
  client_call m t = Some (r, t') → client_runs t [e] = Some t'.
Proof.
  intros He Hd E. by rewrite (client_run_cons _ _ _ t'); [|done|rewrite Hd; exact (client_call_deliver _ _ _ _ E)].
Qed.

(** ** The promises of the threads *)

(** Only the senders make and release promises. *)
Definition same_promises (D : gset nat) (n : nat) c : Prop :=
  dom (live c) = D ∧ fresh_promise c = n.

Lemma promises_on_cache {A} D n (m : act (data_cache B) cache_effect A) :
  pres (same_promises D n) (on_cache m).
Proof. intros c a c' es. unfold on_cache. destruct (m (m_cache c)); try done. by intros [= <- <- <-]. Qed.

Lemma promises_close_session D n : pres (same_promises D n) close_session.
Proof. unfold close_session, kthis. by solve_pres. Qed.
Lemma promises_handle_send D n d : pres (same_promises D n) (handle_send host d).
Proof. unfold handle_send, write, kthis. by solve_pres. Qed.

Lemma queue_clear_dom q ps : dom (snd (queue_clear q ps)) = dom ps.
Proof.
  unfold queue_clear. simpl. revert ps. induction (dq_entries q) as [|d ds IH]; intros ps; simpl; [done|].
  by rewrite IH, set_value_dom.
Qed.

Lemma promises_on_write D n ec : pres (same_promises D n) (on_write host ec).
Proof.
  intros c a c' es E [Hd Hf]. revert E.
  destruct (ec_bool ec || m_close c || m_close_received c || m_read_error c) eqn:Eb.
  - rewrite client_on_write_error by done. intros E. eapply promises_close_session; [exact E|].
    split; [|done]. cbn [live set_m_write_error set_live]. by rewrite queue_clear_dom.
  - destruct (entries c) as [|d ds] eqn:Eq.
    + unfold on_write, queue_write_next, entries, kthis in *. run_act. by rewrite Eb, Eq.
    + rewrite (client_on_write_next host _ _ d ds) by done. intros [= <- <- <-].
      split; [|done]. simpl. by rewrite set_value_dom.
Qed.

Lemma promises_on_read D n clock ec : pres (same_promises D n) (on_read host m_bound_funcs clock ec).
Proof.
  unfold on_read, handle_message, read, kthis.
  solve_pres; try done; first [apply promises_on_cache|apply promises_close_session].
Qed.

Lemma promises_deliver {A} D n (m : kact A) c p t ns t' :
  pres (same_promises D n) m → same_promises D n c →
  deliver m c p t ns = Some t' → same_promises D n (cl t').
Proof.
  unfold deliver. destruct (m c) as [a c' es| |] eqn:E; try done. intros Hm Hc [= <-].
  by eapply Hm.
Qed.

(** Each waiting thread has a live promise of its own. *)
Record promise_inv (D : gset nat) (n : nat) (ths : gmap nat rpc_thread) : Prop := {
  v_fresh p : p ∈ D → (p < n)%nat;
  v_live th x p : ths !! th = Some x → holds_promise p x → p ∈ D;
  v_inj th th' x x' p : ths !! th = Some x → ths !! th' = Some x' →
    holds_promise p x → holds_promise p x' → th = th' }.

Lemma promise_inv_init : promise_inv ∅ 0 ∅.
Proof. split; [set_solver|..]; intros *; by rewrite lookup_empty. Qed.

Lemma promise_inv_more D n ths : promise_inv D n ths → promise_inv ({[n]} ∪ D) (S n) ths.
Proof.
  intros [V1 V2 V3]. split; [|set_solver|done].
  intros p [->%elem_of_singleton|Hp%V1]%elem_of_union; lia.
Qed.

Lemma promise_inv_thread D n ths th y :
  (∀ p, holds_promise p y → p = n) →
  promise_inv D n ths → promise_inv ({[n]} ∪ D) (S n) (<[th := y]> ths).
Proof.
  intros Hy Hi. pose proof (promise_inv_more _ _ _ Hi) as [W1 _ _]. destruct Hi as [V1 V2 V3].
  assert (∀ th' x p, <[th := y]> ths !! th' = Some x → holds_promise p x →
    th' = th ∧ p = n ∨ ths !! th' = Some x ∧ p ∈ D) as Hcase.
  { intros th' x p [[<- <-]|[Hne Hl]]%lookup_insert_Some Hh; simpl in *; eauto. }
  split; [done| |].
  - intros th' x p Hl Hh. destruct (Hcase th' x p Hl Hh) as [[_ ->]|[_ ?]]; set_solver.
  - intros th1 th2 x1 x2 p H1 H2 Hh1 Hh2.
    destruct (Hcase th1 x1 p H1 Hh1) as [[-> ->]|[H1' D1]], (Hcase th2 x2 _ H2 Hh2) as [[-> E2]|[H2' D2]].
    + done.
    + apply V1 in D2. lia.
    + subst p. apply V1 in D1. lia.
    + by eapply V3.
Qed.

Lemma promise_inv_release D n ths q :
  promise_inv D n ths → map_Forall (λ _ x, ¬ holds_promise q x) ths →
  promise_inv (D ∖ {[q]}) n ths.
Proof.
  intros [V1 V2 V3] Hq. split; [set_solver| |done].
  intros th x p Hl Hh. apply elem_of_difference. split; [by eapply V2|].
  intros ->%elem_of_singleton. by eapply Hq.
Qed.

(** The thread leaves its first wait. *)
Lemma promise_inv_written D n ths th x0 q ths' :
  promise_inv D n ths → ths !! th = Some x0 → holds_promise q x0 →
  (ths' = delete th ths ∨ ∃ x, (∀ p, ¬ holds_promise p x) ∧ ths' = <[th := x]> ths) →
  promise_inv (D ∖ {[q]}) n ths'.
Proof.
  intros [V1 V2 V3] Hth Hq Hths'.
  assert (∀ th' x p, ths' !! th' = Some x → holds_promise p x → th' ≠ th ∧ ths !! th' = Some x) as Hcase.
  { intros th' x p. destruct Hths' as [->|(x' & Hx' & ->)].
    - by intros [? ?]%lookup_delete_Some.
    - intros [[_ <-]|[? ?]]%lookup_insert_Some Hh; [by apply Hx' in Hh|done]. }
  apply promise_inv_release.
  - split; [done| |].
    + intros th' x p Hl Hh. destruct (Hcase _ _ _ Hl Hh). by eapply V2.
    + intros th1 th2 x1 x2 p H1 H2 Hh1 Hh2. destruct (Hcase _ _ _ H1 Hh1), (Hcase _ _ _ H2 Hh2).
      by eapply V3.
  - intros th' x Hl Hh. destruct (Hcase _ _ _ Hl Hh) as [Hne Hl']. apply Hne. by eapply V3.
Qed.

Lemma promise_inv_delete D n ths th : promise_inv D n ths → promise_inv D n (delete th ths).
Proof.
  intros [V1 V2 V3]. split; [done| |].
  - intros th' x p [_ Hl]%lookup_delete_Some. by eapply V2.
  - intros th1 th2 x1 x2 p [_ H1]%lookup_delete_Some [_ H2]%lookup_delete_Some. by eapply V3.
Qed.

(** A thread that waits for a promise no more. *)
Lemma promise_inv_aside D n ths th x :
  promise_inv D n ths → (∀ p, ¬ holds_promise p x) → promise_inv D n (<[th := x]> ths).
Proof.
  intros [V1 V2 V3] Hx. split; [done| |].
  - intros th' x' p [[_ <-]|[_ Hl]]%lookup_insert_Some Hh; [by apply Hx in Hh|by eapply V2].
  - intros th1 th2 x1 x2 p [[_ <-]|[_ H1]]%lookup_insert_Some [[_ <-]|[_ H2]]%lookup_insert_Some Hh1 Hh2;
      [by apply Hx in Hh1|by apply Hx in Hh1|by apply Hx in Hh2|by eapply V3].
Qed.

Definition promises_ok (s : rpc_system) : Prop :=
  promise_inv (dom (live (cl (rs_client s)))) (fresh_promise (cl (rs_client s))) (rs_threads s).

Lemma send_recv_promises now response_timeout id data c r c' es :
  send_recv now response_timeout id data c = Done r c' es →
  match r with
  | inl _ => live c' = live c ∧ fresh_promise c' = fresh_promise c
  | inr (_, p) => p = fresh_promise c ∧ live c' = <[p := None]> (live c) ∧ fresh_promise c' = S p
  end.
Proof.
  unfold send_recv. destruct (duration_mul _ _) as [valid|]; [|done].
  unfold on_cache, post_send, kthis. run_act.
  destruct (cache_queue now valid (m_cache c)) as [rid d es1| |]; try done.
  destruct (decide (rid = 0)); by intros [= <- <- <-].
Qed.

Lemma send_recv_written_promises rid p c r c' es :
  send_recv_written rid p c = Done r c' es →
  live c' = delete p (live c) ∧ fresh_promise c' = fresh_promise c.
Proof.
  unfold send_recv_written, send_done, on_cache, kthis. run_act.
  destruct (promise_ready p (live c)); [|by intros [= <- <- <-]].
  destruct (cache_wait_begin rid _); try done. by intros [= <- <- <-].
Qed.

Lemma promises_send_recv_done D n l b : pres (same_promises D n) (send_recv_done l b).
Proof. apply promises_on_cache. Qed.
Lemma promises_send_recv_waited D n l : pres (same_promises D n) (send_recv_waited l).
Proof. apply pres_bind; [apply promises_on_cache|]. intros. apply pres_ret. Qed.

Lemma client_call_Done {A} (m : kact A) t a t' :
  client_call m t = Some (a, t') → ∃ es, m (cl t) = Done a (cl t') es.
Proof.
  unfold client_call, deliver. destruct (m (cl t)) as [a' c' es| |]; try done.
  intros [= <- <-]. by exists es.
Qed.

Lemma promises_event D n e s t' :
  client_event_enabled s e = true → client_handle host m_bound_funcs (rs_client s) e = Some t' →
  same_promises D n (cl (rs_client s)) → same_promises D n (cl t').
Proof.
  intros [He Hx]%andb_true_iff Hh Hs.
  destruct e as [clock ec msg|ec|kind|ec|ec| | | |id rid data|q|now valid|rid|l b| |]; simpl in He, Hx, Hh;
    try done.
  6: { destruct (posted (pend (rs_client s))) as [|d ds]; [done|].
       by eapply promises_deliver; [apply promises_handle_send| |exact Hh]. }
  all: eapply promises_deliver, Hh; [|done].
  all: first [apply promises_on_read|apply promises_on_write|apply promises_close_session
    |unfold on_control_callback, on_ping, on_close, handle_ping, ping_post, ping_lock, kthis; by solve_pres].
Qed.

Lemma promises_client e s t' :
  promises_ok s → client_event_enabled s e = true →
  client_handle host m_bound_funcs (rs_client s) e = Some t' →
  promise_inv (dom (live (cl t'))) (fresh_promise (cl t')) (rs_threads s).
Proof.
  unfold promises_ok. intros Hi He Hh.
  destruct (promises_event _ _ _ _ _ He Hh (conj eq_refl eq_refl)) as [-> ->]. done.
Qed.

Lemma send_promises id data c p c' es :
  ClientSession.send id data c = Done p c' es →
  p = fresh_promise c ∧ live c' = <[p := None]> (live c) ∧ fresh_promise c' = S p.
Proof. unfold ClientSession.send, post_send, kthis. run_act. by intros [= <- <- <-]. Qed.

Lemma send_done_promises p c r c' es :
  send_done p c = Done r c' es →
  r = promise_ready p (live c) ∧ live c' = delete p (live c) ∧ fresh_promise c' = fresh_promise c.
Proof. unfold send_done, kthis. run_act. by intros [= <- <- <-]. Qed.

Lemma promises_step s e s' :
  promises_ok s → step (rpc_enabled (Req := Req) (U := U)) (rpc_handle host manager srv_timeout m_bound_funcs) s e s' →
  promises_ok s'.
Proof.
  intros Hi [He Hh].
  destruct e as [th now rt x|th|th|th b|th x|th|e|e]; cbn [rpc_enabled rpc_handle] in *;
    try (destruct (rs_threads s !! th) as [[x p|x rid p|x l|x l ec]|] eqn:Et; try done);
    try (destruct (client_call _ _) as [[r t']|] eqn:E; [|done];
         apply client_call_Done in E as [es E]; unfold promises_ok in *).
  - injection Hh as <-. apply send_recv_promises in E. destruct r as [ec|[rid p]]; simpl.
    + destruct E as [-> ->]. by apply promise_inv_delete.
    + destruct E as (-> & -> & ->). rewrite dom_insert_L. by apply promise_inv_thread.
  - injection Hh as <-. apply send_recv_written_promises in E as [E1 E2].
    destruct r as [ec|[|l|l]]; simpl; rewrite E1, E2, dom_delete_L;
      (eapply promise_inv_written; [exact Hi|exact Et|done|first [by left|right; by eexists; split; [|done]; intros ? []]]).
  - injection Hh as <-. simpl.
    destruct (promises_send_recv_waited (dom (live (cl (rs_client s)))) (fresh_promise (cl (rs_client s)))
      l _ _ _ _ E) as [-> ->]; [done|]. apply promise_inv_aside; [done|by intros p []].
  - injection Hh as <-. simpl.
    destruct (promises_send_recv_done (dom (live (cl (rs_client s)))) (fresh_promise (cl (rs_client s)))
      l b _ _ _ _ E) as [-> ->]; [done|]. by apply promise_inv_delete.
  - injection Hh as <-. apply send_promises in E as (-> & E1 & E2). simpl.
    rewrite E1, E2, dom_insert_L. by apply promise_inv_thread.
  - injection Hh as <-. apply send_done_promises in E as (_ & E1 & E2). simpl.
    rewrite E1, E2, dom_delete_L. eapply promise_inv_written; [exact Hi|exact Et|done|eauto].
  - destruct (client_handle _ _ _ _) as [t'|] eqn:E; [|done]. injection Hh as <-.
    by apply (promises_client e s t').
  - destruct (session_handle _ _ _ _ _) as [t'|] eqn:E; [|done]. by injection Hh as <-.
Qed.

(** ** The projections *)

(** The events of the server's end in a run of the connection. *)
Definition server_events (es : list rpc_event) : list (session_event (B := B) (Req := Req) (U := U)) :=
  omap (λ e, match e with re_server e => Some e | _ => None end) es.

(** Those of the client's end: its own, and what each step of a thread is
    made of, in order. *)
Inductive client_part : list client_event → rpc_event → Prop :=
  | part_call th now response_timeout x r :
      client_part (call_events now response_timeout x r) (re_call th now response_timeout x)
  | part_written th rid p r : client_part (written_events rid p r) (re_written th)
  | part_response th : client_part [] (re_response th)   (* it only reads the state of its row *)
  | part_swap th l b : client_part [ce_user_take l b] (re_swap th b)
  | part_send th x : client_part [ce_user_send (rc_call_id x) 0 (rc_data x)] (re_send th x)
  | part_sent th p : client_part [ce_user_sent p] (re_sent th)
  | part_client e : client_part [e] (re_client e)
  | part_server e : client_part [] (re_server e).

Abbreviation rpc_runs := (rpc_steps host manager srv_timeout m_bound_funcs).

(** Leaves a step of a thread with its result, its call into the client. *)
Ltac thread_step Hh E :=
  try (destruct (rs_threads _ !! _) as [[?x ?p|?x ?rid ?p|?x ?l|?x ?l ?ec]|] eqn:Et; try done);
  destruct (client_call _ _) as [[?r ?t']|] eqn:E; [|done]; try injection Hh as <-.

Lemma project_client_step n s e s' :
  rpc_inv host manager n s → promises_ok s →
  step (rpc_enabled (Req := Req) (U := U)) (rpc_handle host manager srv_timeout m_bound_funcs) s e s' →
  ∃ ces, client_part ces e ∧ client_steps host m_bound_funcs (rs_client s) ces (rs_client s').
Proof.
  intros Hi Hp [He Hh]. destruct e as [th now rt x|th|th|th b|th x|th|e|e]; cbn [rpc_enabled rpc_handle] in *.
  - apply bool_decide_eq_true in He as (_ & _ & Hv & Hcnt). thread_step Hh E.
    exists (call_events now rt x r). split; [constructor|]. apply run_steps.
    apply (call_events_run _ _ _ _ _ _ Hv Hcnt) in E. by destruct r as [|[]].
  - thread_step Hh E. exists (written_events rid p r). split; [constructor|]. apply run_steps.
    apply written_events_run in E; [|apply elem_of_dom; by eapply (v_live _ _ _ Hp)].
    by destruct r as [|[]].
  - thread_step Hh E. exists []. split; [constructor|]. simpl.
    destruct (i_threads _ _ _ _ Hi _ _ Et) as [_ Hl].
    destruct (rpc_thread_row _ _ _ _ _ _ _ Hi Et eq_refl Hl) as [[row Hr] _].
    rewrite (waited_same _ _ _ _ _ Hr E). constructor.
  - thread_step Hh E.
    exists [ce_user_take l b]. split; [constructor|]. apply run_steps.
    apply take_event_run in E; [exact E|].
    destruct (i_threads _ _ _ _ Hi _ _ Et) as [_ Hl].
    by rewrite (o_length _ _ _ _ _ (proj1 (proj1 (i_client_data _ _ _ _ Hi)))).
  - thread_step Hh E. eexists. split; [constructor|]. apply run_steps. by eapply one_event_run.
  - thread_step Hh E. exists [ce_user_sent p]. split; [constructor|]. apply run_steps.
    eapply one_event_run; [|reflexivity|exact E]. apply bool_decide_eq_true.
    apply elem_of_dom. by eapply (v_live _ _ _ Hp).
  - destruct (client_handle _ _ _ _) as [t'|] eqn:E; [|done]. injection Hh as <-.
    eexists. split; [constructor|]. apply steps_one. constructor; [|done].
    by apply andb_true_iff in He as [? _].
  - destruct (session_handle _ _ _ _ _) as [t'|] eqn:E; [|done]. injection Hh as <-.
    exists []. split; constructor.
Qed.

Lemma project_server_step s e s' :
  step (rpc_enabled (Req := Req) (U := U)) (rpc_handle host manager srv_timeout m_bound_funcs) s e s' →
  session_steps host manager srv_timeout (rs_server s) (server_events [e]) (rs_server s').
Proof.
  intros [He Hh]. destruct e as [th now rt x|th|th|th b|th x|th|e|e]; cbn [rpc_enabled rpc_handle] in *.
  - thread_step Hh E. destruct r as [|[]]; constructor.
  - thread_step Hh E. destruct r as [|[]]; constructor.
  - thread_step Hh E. constructor.
  - thread_step Hh E. constructor.
  - thread_step Hh E. constructor.
  - thread_step Hh E. constructor.
  - destruct (client_handle _ _ _ _) as [t'|]; [|done]. injection Hh as <-. constructor.
  - destruct (session_handle _ _ _ _ _) as [t'|] eqn:E; [|done]. injection Hh as <-.
    apply steps_one. constructor; [|done]. by apply andb_true_iff in He as [? _].
Qed.

(** C8. A connection refines its two ends: every run of the connected client
    and server, with any number of threads in [send_recv], is a run of a client
    session alone, in which each step of [send_recv] between two waits is the
    operations on the table, the promises and the queue it is made of, and a
    run of a server session alone.  What is proved of one end whatever its
    environment does therefore holds of it here. *)
Theorem connection_projects is_ssl (s0 : session (B := B) (Req := Req) (Res := Res)) s es s' :
  new_session_like s0 → rpc_init srv_timeout is_ssl s0 = Some s → rpc_runs s es s' →
  (∃ cess, Forall2 client_part cess es ∧
     client_steps host m_bound_funcs client_sys_init (concat cess) (rs_client s')) ∧
  ∃ st, session_sys_init srv_timeout is_ssl s0 = Some st ∧
    session_steps host manager srv_timeout st (server_events es) (rs_server s').
Proof.
  intros Hs0 Hi Hr.
  assert (rs_client s = client_sys_init ∧ session_sys_init srv_timeout is_ssl s0 = Some (rs_server s) ∧
    promises_ok s) as (Hc & Hss & Hp).
  { unfold rpc_init in Hi. destruct (session_sys_init _ _ _); [|done]. injection Hi as <-.
    split; [done|]. split; [done|]. apply promise_inv_init. }
  rewrite <-Hc. enough ((∃ cess, Forall2 client_part cess es ∧
    client_steps host m_bound_funcs (rs_client s) (concat cess) (rs_client s')) ∧
    session_steps host manager srv_timeout (rs_server s) (server_events es) (rs_server s') ∧
    promises_ok s') as (H1 & H2 & _) by eauto.
  assert (Hinv : ∀ es s', rpc_runs s es s' → ∃ n, rpc_inv host manager n s').
  { intros es' s1 Hr'. by destruct (rpc_steps_inv host manager srv_timeout m_bound_funcs _ _ _ _ _ Hs0 Hi Hr'). }
  clear Hi Hc Hss. induction Hr as [s|s es s1 e s2 Hr IH Hst].
  - split; [exists []|]; (split; [constructor|]); [constructor|done].
  - destruct (IH Hp Hinv) as ((cess & Hparts & Hcs) & Hsr & Hp1).
    destruct (Hinv _ _ Hr) as [n Hn].
    destruct (project_client_step _ _ _ _ Hn Hp1 Hst) as (ces & Hpart & Hces).
    split; [|split].
    + exists (cess ++ [ces]). split; [by apply Forall2_app; [|constructor]|].
      rewrite concat_app. simpl. rewrite app_nil_r. by eapply steps_app.
    + unfold server_events in *. rewrite omap_app. eapply steps_app; [exact Hsr|].
      by apply project_server_step.
    + by eapply promises_step.
Qed.
End projection.

(** ** A concrete connection

    Two threads call the echo function of [Demo.manager] at once.  The second
    one has its answer; the first one's time-out is decided before its answer
    arrives, which it still gets when it swaps, with bytes of its own that are
    left in the row. *)

Module RpcDemo.
Definition host : byte_order := little_endian.
Definition opened : rpc_system (B := list byte) (Req := nat) (Res := unit) := mk_rpc_system client_sys_init Demo.opened 0 0 ∅ ∅ [].
Definition bytes (rid : Z) (data : list byte) : list byte :=
  header_bytes host (new_io_header 7 rid) ++ data.
Definition calls : list (rpc_event (B := list byte) (Req := nat) (U := unit)) :=
  [re_server (ev_http_request tt ec_success 1%nat []); re_server (ev_accept 0 ec_success);
   re_call 10 0 1000000000 (mk_rpc_call 7 [x61]); re_call 20 0 1000000000 (mk_rpc_call 7 [x62]);
   re_client ce_run_send; re_client ce_run_send;
   re_client (ce_write ec_success); re_client (ce_write ec_success);
   re_written 20; re_written 10].
Definition answers : list (rpc_event (B := list byte) (Req := nat) (U := unit)) :=
  [re_server (ev_read 1 tt ec_success (bytes 1 [x61]));
   re_server (ev_read 2 tt ec_success (bytes 2 [x62]));
   re_server (ev_write 3 ec_success);
   re_response 10;
   re_client (ce_read (λ _, 0) ec_success (bytes 1 [x61]));
   re_client (ce_read (λ _, 0) ec_success (bytes 2 [x62]));
   re_response 20; re_swap 20 []; re_swap 10 [x7a]].
Definition drive es : rpc_system (B := list byte) (Req := nat) (Res := unit) :=
  default opened (rpc_run host Demo.manager Demo.timeout ∅ opened es).
End RpcDemo.

Lemma connection_projects_witness :
  let s := RpcDemo.drive (RpcDemo.calls ++ RpcDemo.answers) in
  ∃ cess, Forall2 client_part cess (RpcDemo.calls ++ RpcDemo.answers) ∧
    client_steps RpcDemo.host ∅ client_sys_init (concat cess) (rs_client s).
Proof.
  intros s. apply (connection_projects RpcDemo.host Demo.manager Demo.timeout ∅ false Demo.fresh
    RpcDemo.opened (RpcDemo.calls ++ RpcDemo.answers) s).
  - apply Demo.fresh_like.
  - reflexivity.
  - apply run_steps. vm_compute. reflexivity.
Defined.
