(* ===== verification/RpcBroadcast.v ===== *)
(** * RpcBroadcast: what the broadcast handlers of a connected client get

    The calls of the handlers that [listen_broadcast] bound, against the
    messages the server's session accepted for writing. *)

From S2P Require Import Prelude Types Header Operations DataCache DataCacheFacts DataQueue.
From S2P Require Import ServerSession ServerSystem ServerSystemFacts ServerProps.
From S2P Require Import ClientSession ClientSystem ClientSystemFacts RpcSystem RpcSystemFacts RpcProjection.

Section broadcasts.
Context {B : Type} `{FlatBuffer B, !FlatBufferLaws B} {Req Res U : Type}.
Context (host : byte_order) (manager : manager_handlers (B := B) (Req := Req) (Res := Res) (U := U)).
Context (srv_timeout : server_timeout) (m_bound_funcs : gmap Z bool).
Abbreviation client_sys := (client_sys (B := B)).
Abbreviation client_session := (client_session (B := B)).
Abbreviation session := (session (B := B) (Req := Req) (Res := Res)).
Abbreviation session_sys := (session_sys (B := B) (Req := Req) (Res := Res)).
Abbreviation kact := (act client_session client_effect).
Abbreviation rpc_system := (rpc_system (B := B) (Req := Req) (Res := Res)).
Abbreviation rpc_event := (rpc_event (B := B) (Req := Req) (U := U)).
Implicit Types (t : client_sys) (s : rpc_system).
Abbreviation handle := (rpc_handle host manager srv_timeout m_bound_funcs).
Abbreviation enabled := (rpc_enabled (Req := Req) (U := U)).

(** The handler call a message of the server makes, if it makes one. *)
Definition handed (d : data_push) : option (Z * list byte) :=
  match m_bound_funcs !! call_id (push_header d) with
  | Some true => Some (call_id (push_header d), push_body d)
  | _ => None
  end.

(** ** What calls no handler and ends no reading *)

Definition silent (e : client_effect) : Prop := handler_call e = None.

Definition mute {A} (m : kact A) : Prop := (∀ b, pres (λ c, m_read_error c = b) m) ∧ emits silent m.

Lemma omap_silent es : Forall silent es → omap handler_call es = [].
Proof. induction 1 as [|e es He _ IH]; [done|]. simpl. by rewrite He. Qed.

Lemma mute_deliver {A} (m : kact A) c p t ns t' :
  mute m → deliver m c p t ns = Some t' →
  handled t' = handled t ∧ m_read_error (cl t') = m_read_error c.
Proof.
  intros [Hp He]. unfold deliver. destruct (m c) as [a c' es| |] eqn:E; try done. intros [= <-].
  simpl. rewrite omap_silent, app_nil_r by (by eapply He). split; [done|]. by eapply Hp.
Qed.

Ltac solve_mute := split; [intros ?; by solve_pres|by solve_emits].

Lemma mute_bind {A C} (m : kact A) (k : A → kact C) : mute m → (∀ a, mute (k a)) → mute (act_bind m k).
Proof.
  intros [Hp He] Hk. split; [intros b|].
  - apply pres_bind; [done|]. intros a. apply Hk.
  - apply emits_bind; [done|]. intros a. apply Hk.
Qed.

Lemma mute_on_cache {A} (m : act (data_cache B) cache_effect A) : mute (on_cache m).
Proof.
  split.
  - intros b c a c' es. unfold on_cache. destruct (m (m_cache c)); try done. by intros [= <- <- <-].
  - intros c a c' es. unfold on_cache. destruct (m (m_cache c)) as [a' d es'| |]; try done.
    intros [= _ _ <-]. apply Forall_fmap, Forall_true. by intros [l].
Qed.
Lemma mute_close_session : mute (close_session : kact unit).
Proof. unfold close_session, kthis. solve_mute. Qed.
Lemma mute_handle_send d : mute (handle_send host d : kact unit).
Proof. unfold handle_send, write, kthis. solve_mute. Qed.
Lemma mute_on_write ec : mute (on_write host ec : kact unit).
Proof. unfold on_write, write, close_session, kthis. solve_mute. Qed.
Lemma mute_control k : mute (on_control_callback k : kact unit).
Proof. unfold on_control_callback. solve_mute. Qed.
Lemma mute_on_ping ec : mute (on_ping ec : kact unit).
Proof. unfold on_ping. solve_mute. Qed.
Lemma mute_on_close ec : mute (on_close ec : kact unit).
Proof. unfold on_close. solve_mute. Qed.
Lemma mute_handle_ping : mute (handle_ping : kact unit).
Proof. unfold handle_ping, kthis. solve_mute. Qed.
Lemma mute_post_send id rid data : mute (post_send id rid data : kact nat).
Proof. unfold post_send, kthis. solve_mute. Qed.
Lemma mute_send_done p : mute (send_done p : kact bool).
Proof. unfold send_done, kthis. solve_mute. Qed.
Lemma mute_ret {A} (a : A) : mute (act_ret a).
Proof. solve_mute. Qed.
Lemma mute_ping_post : mute (ping_post : kact unit).
Proof. unfold ping_post. solve_mute. Qed.
Lemma mute_ping_lock : mute (ping_lock : kact unit).
Proof. unfold ping_lock. solve_mute. Qed.
Lemma mute_send_recv_done l b : mute (send_recv_done l b : kact B).
Proof. apply mute_on_cache. Qed.
Lemma mute_send_recv_waited l : mute (send_recv_waited l : kact (option recv_error)).
Proof. apply mute_bind; [apply mute_on_cache|]. intros. apply mute_ret. Qed.
Lemma mute_send_recv now response_timeout id data :
  mute (send_recv now response_timeout id data : kact (recv_error + Z * nat)).
Proof.
  unfold send_recv. destruct (duration_mul _ _); [|by split; [intros ?|]; intros ?].
  apply mute_bind; [apply mute_on_cache|]. intros rid. case_decide; [apply mute_ret|].
  apply mute_bind; [apply mute_post_send|]. intros. apply mute_ret.
Qed.
Lemma mute_send_recv_written rid p : mute (send_recv_written rid p : kact (recv_error + wait_result)).
Proof.
  apply mute_bind; [apply mute_send_done|]. intros []; [|apply mute_ret].
  apply mute_bind; [apply mute_on_cache|]. intros. apply mute_ret.
Qed.

Lemma mute_event t e t' :
  client_handle host m_bound_funcs t e = Some t' →
  match e with ce_read _ _ _ => True | _ =>
    handled t' = handled t ∧ m_read_error (cl t') = m_read_error (cl t) end.
Proof.
  destruct e; simpl; try done; try (destruct (posted _); [done|]);
    (eapply mute_deliver; auto using mute_on_write, mute_control, mute_on_ping, mute_on_close,
      mute_handle_send, mute_handle_ping, mute_close_session, mute_post_send, mute_send_done,
      mute_on_cache, mute_send_recv_done, mute_ping_post, mute_ping_lock).
Qed.

Lemma mute_client_call {A} (m : kact A) t a t' :
  mute m → client_call m t = Some (a, t') →
  handled t' = handled t ∧ m_read_error (cl t') = m_read_error (cl t).
Proof. intros Hm Hc. eapply mute_deliver; [exact Hm|by eapply client_call_deliver]. Qed.

Lemma wp_mute {A} (m : kact A) c :
  mute m → (∃ a c' es, m c = Done a c' es) →
  wp m (λ _ c' es, omap handler_call es = [] ∧ m_read_error c' = m_read_error c) c.
Proof.
  intros [Hp He] (a & c' & es & E). unfold wp. rewrite E. split; [|by eapply Hp].
  apply omap_silent. by eapply He.
Qed.

(** ** A read *)

Lemma handle_message_hands d c :
  fb_data (m_read_buffer c) = push_message host d → io_header_wf (push_header d) → cache_wf (m_cache c) →
  wp (handle_message host m_bound_funcs c) (λ _ c' es,
    omap handler_call es = option_list (handed d) ∧ m_read_error c' = m_read_error c ∧
    cache_wf (m_cache c')) c.
Proof.
  intros Hb Hw Hwf. unfold handle_message. rewrite Hb. unfold push_message.
  rewrite decide_True by (rewrite length_app, length_header_bytes; lia).
  rewrite header_of_bytes_app by done. apply wp_bind, wp_modify, wp_bind, wp_get. unfold handed.
  destruct (m_bound_funcs !! _) as [[]|].
  - apply wp_emit. simpl. rewrite fb_data_consume, Hb. unfold push_message. by rewrite drop_header_app.
  - by apply wp_ret.
  - destruct (swap_notify_wf (result_id (push_header d)) (fb_consume sizeof_io_header (m_read_buffer c))
      (m_cache c) Hwf) as (b & cache & es & E & Hwf').
    apply wp_bind, wp_Done. do 3 eexists. split; [unfold on_cache; simpl; by rewrite E|].
    apply wp_modify. split; [|by split]. simpl. rewrite app_nil_r.
    apply omap_silent, Forall_fmap, Forall_true. by intros [l].
Qed.

(** A read that fails ends the reading. *)
Lemma read_fails clock ec c :
  ec_bool ec || m_close_received c = true → cache_wf (m_cache c) →
  wp (on_read host m_bound_funcs clock ec) (λ _ c' es,
    omap handler_call es = [] ∧ m_read_error c' = true) c.
Proof.
  intros Hec Hwf. unfold wp. rewrite client_on_read_error by done.
  change (wp (do! on_cache cache_clear in do! act_modify (set_m_read_error true) in close_session)
    (λ _ c' es, omap handler_call es = [] ∧ m_read_error c' = true) c).
  apply wp_bind. eapply wp_mono; [apply wp_mute; [apply mute_on_cache|]|].
  { destruct (cache_clear_spec _ Hwf) as (c' & es & E & _). unfold on_cache. rewrite E. by do 3 eexists. }
  intros [] c1 es1 [H1 _]. apply wp_bind, wp_modify.
  eapply wp_mono; [apply wp_mute; [apply mute_close_session|]|].
  { unfold close_session, kthis. run_act. destruct (m_close c1 || _); by do 3 eexists. }
  intros [] c2 es2 [H2 E2]. split; [|exact E2]. by rewrite !omap_app, H1, H2.
Qed.

(** One that does not hands its message over and reads on. *)
Lemma read_hands clock d c :
  fb_data (m_read_buffer c) = push_message host d → io_header_wf (push_header d) → cache_wf (m_cache c) →
  m_close_received c = false →
  wp (on_read host m_bound_funcs clock ec_success) (λ _ c' es,
    omap handler_call es = option_list (handed d) ∧ m_read_error c' = m_read_error c) c.
Proof.
  intros Hb Hw Hwf Hr. unfold wp. rewrite on_read_ok by done.
  set (rest := act_bind _ _). change (wp rest (λ _ c' es,
    omap handler_call es = option_list (handed d) ∧ m_read_error c' = m_read_error c) c).
  subst rest. apply wp_bind.
  eapply wp_mono; [by apply handle_message_hands|]. intros [] c1 es1 (H1 & R1 & W1).
  destruct (remove_obsolete_spec clock _ W1) as (m & E & _).
  apply wp_bind, wp_Done. do 3 eexists. split; [unfold on_cache; by rewrite E|].
  apply wp_bind, wp_modify, wp_emit. split; [|exact R1]. by rewrite omap_app, H1, app_nil_r.
Qed.

(** ** The invariant *)

Record hands (s : rpc_system) (k : nat) : Prop := {
  h_handled : handled (rs_client s) = omap handed (take k (ServerSystem.accepted (rs_server s)));
  h_written : (k ≤ length (ServerSystem.accepted (rs_server s)))%nat;
  h_read : (k ≤ rs_client_read s)%nat;
  h_reading : m_read_error (cl (rs_client s)) = false → k = rs_client_read s }.

Lemma hands_same s s' k :
  handled (rs_client s') = handled (rs_client s) →
  m_read_error (cl (rs_client s')) = m_read_error (cl (rs_client s)) →
  rs_client_read s' = rs_client_read s →
  ServerSystem.accepted (rs_server s) `prefix_of` ServerSystem.accepted (rs_server s') →
  hands s k → hands s' k.
Proof.
  intros Hh He Hr [l Hl] [H1 H2 H3 H4]. split; rewrite ?Hh, ?He, ?Hr, ?Hl; auto.
  - by rewrite take_app_le by lia.
  - rewrite length_app. lia.
Qed.

Lemma server_accepted (t t' : session_sys) e :
  session_handle host manager srv_timeout t e = Some t' →
  ServerSystem.accepted t `prefix_of` ServerSystem.accepted t'.
Proof.
  assert (∀ (m : act session session_effect unit) c p ns, ServerSystem.deliver m c p t ns = Some t' →
    ServerSystem.accepted t `prefix_of` ServerSystem.accepted t') as Hd.
  { intros m c p ns. unfold ServerSystem.deliver. destruct (m c); try done. intros [= <-].
    by eexists. }
  destruct e; simpl; eauto.
Qed.

Lemma hands_read n s k clock ec msg s' :
  rpc_inv host manager n s → enabled s (re_client (ce_read clock ec msg)) = true →
  handle s (re_client (ce_read clock ec msg)) = Some s' → hands s k → ∃ k', hands s' k'.
Proof.
  intros Hi [He Hx]%andb_true_iff. pose proof Hi as [[Hcore Hacc Hpre Hread Hbuf] Hs _ _ _ _ _].
  simpl in *. apply Nat.ltb_lt in He.
  destruct (m_read_error (cl (rs_client s))) eqn:Er; [rewrite Hread in He; lia|].
  specialize (Hbuf eq_refl). intros Hh [H1 H2 H3 H4]. specialize (H4 Er). subst k.
  set (c := set_m_read_buffer (fb_append msg (m_read_buffer (cl (rs_client s)))) (cl (rs_client s))) in *.
  pose proof (c_cache _ _ _ _ Hcore) as Hwf.
  destruct (ec_bool ec || m_close_received c) eqn:Ef.
  - destruct (proj1 (wp_Done _ _ _) (read_fails clock ec c Ef Hwf)) as ([] & c' & es & E & Ho & Hr).
    unfold deliver in Hh. rewrite E in Hh. injection Hh as <-. exists (rs_client_read s).
    split; simpl; rewrite ?Ho, ?app_nil_r; auto. by rewrite Hr.
  - apply orb_false_iff in Ef as [Ef Hcr]. rewrite Ef in Hx. apply bool_decide_eq_true in Hx.
    destruct Hs as [[_ _ Hpre'] _]. eapply prefix_lookup_Some in Hx; [|exact Hpre'].
    apply list_lookup_fmap_Some in Hx as (d & -> & Hd).
    pose proof (Forall_lookup_1 _ _ _ _ (proj2 (i_server_data _ _ _ _ Hi)) Hd) as [Hw _].
    assert (fb_data (m_read_buffer c) = push_message host d) as Hm.
    { simpl. by rewrite fb_data_append, Hbuf. }
    destruct ec; try done.
    destruct (proj1 (wp_Done _ _ _) (read_hands clock d c Hm Hw Hwf Hcr)) as ([] & c' & es & E & Ho & Hr).
    unfold deliver in Hh. rewrite E in Hh. injection Hh as <-. exists (S (rs_client_read s)).
    split; simpl; auto.
    + erewrite take_S_r by done. rewrite omap_app, Ho, H1. simpl. by destruct (handed d).
    + by eapply lookup_lt_Some.
Qed.

Lemma hands_step n s k e s' :
  rpc_inv host manager n s → enabled s e = true → handle s e = Some s' → hands s k → ∃ k', hands s' k'.
Proof.
  intros Hi He Hh Hk. destruct e as [th now rt c|th|th|th b|th c|th|e|e].
  - exists k. simpl in Hh.
    destruct (client_call _ _) as [[r t]|] eqn:E; [|done].
    apply mute_client_call in E as [E1 E2]; [|apply mute_send_recv].
    destruct r as [?|[]]; injection Hh as <-; by eapply hands_same.
  - exists k. simpl in *. destruct (rs_threads s !! th) as [[|c rid p| |]|]; try done.
    destruct (client_call _ _) as [[r t]|] eqn:E; [|done].
    apply mute_client_call in E as [E1 E2]; [|apply mute_send_recv_written].
    destruct r as [?|[]]; injection Hh as <-; by eapply hands_same.
  - exists k. simpl in *. destruct (rs_threads s !! th) as [[| |c l|]|]; try done.
    destruct (client_call _ _) as [[ec t]|] eqn:E; [|done].
    apply mute_client_call in E as [E1 E2]; [|apply mute_send_recv_waited].
    injection Hh as <-; by eapply hands_same.
  - exists k. simpl in *. destruct (rs_threads s !! th) as [[| | |c l ec]|]; try done.
    destruct (client_call _ _) as [[b' t]|] eqn:E; [|done].
    apply mute_client_call in E as [E1 E2]; [|apply mute_send_recv_done].
    injection Hh as <-; by eapply hands_same.
  - exists k. cbn [rpc_handle] in Hh. destruct (client_call _ _) as [[p t]|] eqn:E; [|done].
    apply mute_client_call in E as [E1 E2]; [|apply mute_post_send].
    injection Hh as <-; by eapply hands_same.
  - exists k. cbn [rpc_handle] in Hh. destruct (rs_threads s !! th) as [[c p| | |]|]; try done.
    destruct (client_call _ _) as [[r t]|] eqn:E; [|done].
    apply mute_client_call in E as [E1 E2]; [|apply mute_send_done].
    injection Hh as <-; by eapply hands_same.
  - destruct (client_handle host m_bound_funcs (rs_client s) e) as [t|] eqn:E.
    2: { unfold rpc_handle in Hh. by rewrite E in Hh. }
    pose proof (mute_event _ _ _ E) as Hm.
    destruct e; [by eapply hands_read|..]; exists k; unfold rpc_handle in Hh; rewrite E in Hh;
      injection Hh as <-; destruct Hm; by eapply hands_same.
  - exists k. simpl in Hh. destruct (session_handle _ _ _ _ _) as [t|] eqn:E; [|done].
    injection Hh as <-. eapply hands_same, Hk; try done. by eapply server_accepted.
Qed.

Lemma handlers_in_order is_ssl (s0 : session) s es s' :
  new_session_like s0 → rpc_init srv_timeout is_ssl s0 = Some s →
  rpc_steps host manager srv_timeout m_bound_funcs s es s' →
  ∃ k, (k ≤ rs_client_read s')%nat ∧ (k ≤ length (ServerSystem.accepted (rs_server s')))%nat ∧
    (m_read_error (cl (rs_client s')) = false → k = rs_client_read s') ∧
    handled (rs_client s') = omap handed (take k (ServerSystem.accepted (rs_server s'))).
Proof.
  intros Hs0 Hi Hr.
  assert (∃ n k, rpc_inv host manager n s' ∧ hands s' k) as (n & k & _ & []); [|by exists k].
  eapply (steps_invariant enabled handle (λ s, ∃ n k, rpc_inv host manager n s ∧ hands s k)); [|
    |exact Hr].
  - intros s1 e s2 (n & k & Hinv & Hk) [He Hh].
    destruct (rpc_step host manager srv_timeout m_bound_funcs n s1 e Hinv He) as (s2' & n' & Hh' & Hinv').
    rewrite Hh in Hh'. injection Hh' as <-.
    destruct (hands_step n s1 k e s2 Hinv He Hh Hk) as [k' Hk']. eauto.
  - exists 0%nat, 0%nat. split; [by eapply rpc_inv_init|].
    unfold rpc_init in Hi. destruct (session_sys_init _ _ _); [|done]. injection Hi as <-.
    split; simpl; auto; lia.
Qed.

(** C9. The broadcast handlers.  On a connection, whatever its two ends, the
    threads and the network do, the handlers that [listen_broadcast] bound have
    been called with exactly the first messages the server's session accepted
    for writing: each of those whose call id is bound once, in the order of the
    acceptance, with its own id and its own bytes, and no other.  The number of
    those messages is the number of reads that completed, until the first read
    that failed. *)
Theorem broadcasts_in_order is_ssl (s0 : session) s es s' :
  new_session_like s0 → rpc_init srv_timeout is_ssl s0 = Some s →
  rpc_steps host manager srv_timeout m_bound_funcs s es s' →
  ∃ k, (k ≤ rs_client_read s')%nat ∧ (k ≤ length (ServerSystem.accepted (rs_server s')))%nat ∧
    (m_read_error (cl (rs_client s')) = false → k = rs_client_read s') ∧
    handled (rs_client s') = omap handed (take k (ServerSystem.accepted (rs_server s'))).
Proof. apply handlers_in_order. Qed.
End broadcasts.

(** ** A broadcast to the connection of [RpcDemo], with a handler bound to 5 *)

Module BroadcastDemo.
Definition handlers : gmap Z bool := {[5 := true]}.
Definition push (id : Z) (data : list byte) : data_push := mk_data_push (new_io_header id 0) data None.
Definition receive (id : Z) (data : list byte) : rpc_event (B := list byte) (Req := nat) (U := unit) :=
  re_client (ce_read (λ _, 0) ec_success (header_bytes RpcDemo.host (new_io_header id 0) ++ data)).
Definition events : list (rpc_event (B := list byte) (Req := nat) (U := unit)) :=
  [re_server (ev_http_request tt ec_success 1%nat []); re_server (ev_accept 0 ec_success);
   re_server (ev_send (push 5 [x61])); re_server (ev_send (push 6 [x62])); re_server (ev_send (push 5 [x63]));
   receive 5 [x61]; re_server (ev_write 1 ec_success); receive 6 [x62]].
Definition reached : rpc_system (B := list byte) (Req := nat) (Res := unit) :=
  default RpcDemo.opened (rpc_run RpcDemo.host Demo.manager Demo.timeout handlers RpcDemo.opened events).
End BroadcastDemo.

Lemma broadcasts_in_order_witness :
  let s := BroadcastDemo.reached in
  handled (rs_client s) = [(5, [x61])] ∧
  length (ServerSystem.accepted (rs_server s)) = 3%nat ∧
  ∃ k, (k ≤ rs_client_read s)%nat ∧ (k ≤ length (ServerSystem.accepted (rs_server s)))%nat ∧
    (m_read_error (cl (rs_client s)) = false → k = rs_client_read s) ∧
    handled (rs_client s) =
      omap (handed BroadcastDemo.handlers) (take k (ServerSystem.accepted (rs_server s))).
Proof.
  split; [vm_compute; reflexivity|]. split; [vm_compute; reflexivity|].
  apply (broadcasts_in_order RpcDemo.host Demo.manager Demo.timeout BroadcastDemo.handlers false
    Demo.fresh RpcDemo.opened BroadcastDemo.events).
  - apply Demo.fresh_like.
  - reflexivity.
  - apply run_steps. vm_compute. reflexivity.
Defined.
