(* ===== verification/RpcCalls.v ===== *)
(** * RpcCalls: the calls of a connected client and its messages

    Each call of [send] or [send_recv] posts one message at most, and the posted
    closures run in their order: what the client's session has accepted, and what
    is posted to it, are messages of calls, of each call once at most, in the
    order of the calls. *)

From S2P Require Import Prelude Types Header Operations DataCache DataCacheFacts DataQueue ServerSession ServerSystem.
From S2P Require Import ClientSession ClientSystem ClientSystemFacts ClientOutgoing.
From S2P Require Import RpcSystem RpcSystemFacts RpcProjection.

(** The call a message is of. *)
Definition asked (d : data_send) : rpc_call := mk_rpc_call (call_id (send_header d)) (body d).

Section calls.
Context {B : Type} `{FlatBuffer B, !FlatBufferLaws B} {Req Res U : Type}.
Context (host : byte_order) (manager : manager_handlers (B := B) (Req := Req) (Res := Res) (U := U)).
Context (srv_timeout : server_timeout) (m_bound_funcs : gmap Z bool).
Abbreviation client_sys := (client_sys (B := B)).
Abbreviation client_session := (client_session (B := B)).
Abbreviation kact := (act client_session client_effect).
Abbreviation session := (session (B := B) (Req := Req) (Res := Res)).
Abbreviation rpc_system := (rpc_system (B := B) (Req := Req) (Res := Res)).
Abbreviation rpc_event := (rpc_event (B := B) (Req := Req) (U := U)).
Implicit Types (s : rpc_system) (t : client_sys) (c : client_session) (d : data_send).
Abbreviation handle := (rpc_handle host manager srv_timeout m_bound_funcs).

(** The calls of [send] and [send_recv] of a run. *)
Definition user_calls (es : list rpc_event) : list rpc_call :=
  omap (λ e, match e with re_call _ _ _ c | re_send _ c => Some c | _ => None end) es.

(** What the session has accepted, then what is posted to it. *)
Definition upcoming t : list data_send := accepted t ++ posted (pend t).

(** ** What adds no message *)

Definition steady {A} (m : kact A) : Prop := (∀ q, pres (λ c, entries c = q) m) ∧ emits no_post m.

Lemma aside_steady {A} (m : kact A) : aside m → steady m.
Proof.
  intros [Hp He]. split; [|done]. intros q c a c' es E Hq.
  by destruct (Hp q (live c) (fresh_promise c) c a c' es E (conj Hq (conj eq_refl eq_refl))) as [? _].
Qed.

Lemma steady_bind {A C} (m : kact A) (k : A → kact C) : steady m → (∀ a, steady (k a)) → steady (act_bind m k).
Proof.
  intros [Hp He] Hk. split; [intros q|].
  - apply pres_bind; [done|]. intros a. apply Hk.
  - apply emits_bind; [done|]. intros a. apply Hk.
Qed.

Lemma steady_upcoming {A} (m : kact A) c p t ns t' :
  steady m → entries c = entries (cl t) → posted p = posted (pend t) →
  deliver m c p t ns = Some t' → upcoming t' = upcoming t.
Proof.
  intros [Hp He] Hc Hq. unfold deliver. destruct (m c) as [a c' es| |] eqn:E; try done. intros [= <-].
  unfold upcoming. simpl. rewrite (Hp _ _ _ _ _ E Hc), drop_all, app_nil_r.
  by rewrite posted_no_post, Hq by by eapply He.
Qed.

Lemma steady_send_done p : steady (send_done p : kact bool).
Proof. unfold send_done, kthis. split; [intros ?; by solve_pres|by solve_emits]. Qed.

Lemma steady_send_recv_written rid p : steady (send_recv_written rid p : kact (recv_error + wait_result)).
Proof.
  apply steady_bind; [apply steady_send_done|]. intros [].
  - apply steady_bind; [apply aside_steady, aside_cache|]. intros. apply aside_steady, aside_ret.
  - apply aside_steady, aside_ret.
Qed.

(** ** What may *)

Lemma post_upcoming id rid data t p t' :
  client_call (post_send id rid data) t = Some (p, t') →
  upcoming t' = upcoming t ++ [new_data_send id rid p data].
Proof.
  unfold client_call, deliver, post_send, kthis. run_act. intros [= <- <-]. unfold upcoming. simpl.
  rewrite drop_all, app_nil_r. destruct (pend t). simpl. by rewrite (assoc_L (++)).
Qed.

Lemma posted_cache es (p : pending) :
  posted (pend_effects p ((λ '(notify_row l), eff_notify l) <$> es)) = posted p.
Proof. apply posted_no_post, Forall_fmap, Forall_true. by intros [l]. Qed.

Lemma send_recv_upcoming now response_timeout (c : rpc_call) t r t' :
  client_call (send_recv now response_timeout (rc_call_id c) (rc_data c)) t = Some (r, t') →
  ∃ ds, upcoming t' = upcoming t ++ ds ∧ sublist (asked <$> ds) [c].
Proof.
  unfold client_call, send_recv. destruct (duration_mul _ _) as [valid|]; [|done].
  unfold deliver, upcoming, act_bind, on_cache.
  destruct (cache_queue now valid (m_cache (cl t))) as [rid cache es| |]; try done.
  case_decide; unfold post_send, kthis; run_act; intros [= <- <-]; simpl; rewrite drop_all, app_nil_r.
  - exists []. rewrite !app_nil_r, posted_cache. by split; [|constructor].
  - eexists. pose proof (posted_cache es (pend t)) as Hp. unfold pend_effects in *. rewrite foldl_app.
    destruct (foldl pend_effect _ _). simpl in *. rewrite Hp, (assoc_L (++)). split; [done|]. by destruct c.
Qed.

Lemma run_send_upcoming t d ds t' :
  posted (pend t) = d :: ds →
  deliver (handle_send host d) (cl t) (run_posted (pend t)) t (λ _, sent t) = Some t' →
  sublist (upcoming t') (upcoming t).
Proof.
  intros Hp Hd. unfold deliver in Hd. unfold upcoming. rewrite Hp.
  destruct (decide (sending (cl t))) as [Hs|Hs];
    [destruct (decide (dq_max_entries (m_queue (cl t)) ≤ length (entries (cl t)))%nat) as [Hl|Hl]|].
  2: { rewrite client_handle_send_room in Hd by (done || lia). injection Hd as <-. unfold entries. simpl.
       rewrite drop_app_length, <-(assoc_L (++)), posted_no_post
         by (destruct (dq_entries _); by repeat constructor). simpl. by rewrite Hp. }
  all: rewrite ?client_handle_send_full, ?client_handle_send_stopped in Hd by done; injection Hd as <-; simpl;
    rewrite drop_all, app_nil_r, Hp; simpl; apply sublist_app; [done|by apply sublist_cons].
Qed.

Lemma write_upcoming t ec t' :
  client_handle host m_bound_funcs t (ce_write ec) = Some t' → upcoming t' = upcoming t.
Proof.
  intros Hh. simpl in Hh. unfold deliver in Hh. unfold upcoming.
  destruct (ec_bool ec || m_close (cl t) || m_close_received (cl t) || m_read_error (cl t)) eqn:Eb.
  - rewrite client_on_write_error in Hh by done. set (c := set_m_write_error true _) in Hh.
    destruct (close_session c) as [a c' es| |] eqn:E; try done. injection Hh as <-. simpl.
    pose proof (aside_steady _ aside_close_session) as [Hp He]. rewrite (Hp [] _ _ _ _ E eq_refl).
    rewrite posted_no_post by (by eapply He). by rewrite drop_nil, app_nil_r.
  - destruct (entries (cl t)) as [|d ds] eqn:Eq.
    + exfalso. revert Hh. unfold on_write, kthis. run_act. unfold entries in Eq. unfold queue_write_next.
      by rewrite Eb, Eq.
    + rewrite (client_on_write_next host _ _ d ds) in Hh by done. injection Hh as <-. unfold entries. simpl.
      rewrite posted_no_post by (destruct ds; by repeat constructor). simpl.
      by rewrite drop_ge, app_nil_r by (simpl; lia).
Qed.

(** ** Every event *)

Lemma client_upcoming t e t' :
  client_handle host m_bound_funcs t e = Some t' →
  match e with ce_user_send _ _ _ => True | _ => sublist (upcoming t') (upcoming t) end.
Proof.
  assert (∀ A (m : kact A) c p ns, steady m → entries c = entries (cl t) → posted p = posted (pend t) →
    deliver m c p t ns = Some t' → sublist (upcoming t') (upcoming t)) as Hsteady.
  { intros A m c p ns Hm Hc Hp Hd. by rewrite (steady_upcoming _ _ _ _ _ _ Hm Hc Hp Hd). }
  destruct e as [clock ec msg|ec|kind|ec|ec| | | |id rid data|q|now valid|rid|l b| |]; try done;
    try (intros Hh; eapply Hsteady, Hh; try done;
      [first [apply aside_steady; apply aside_on_read|apply aside_steady; apply aside_close_session
             |apply aside_steady; apply aside_cache|apply aside_steady; apply aside_send_recv_done|apply steady_send_done
             |unfold on_control_callback, on_ping, on_close, handle_ping, kthis, ping_post, ping_lock;
              split; [intros ?; by solve_pres|by solve_emits]]]).
  - intros Hh. by rewrite (write_upcoming _ _ _ Hh).
  - simpl. destruct (posted (pend t)) as [|d ds] eqn:Ep; [done|]. intros Hh. by eapply run_send_upcoming.
Qed.

(** The messages are of the calls [cs], in their order. *)
Definition of_calls s (cs : list rpc_call) : Prop := sublist (asked <$> upcoming (rs_client s)) cs.

Lemma of_calls_kept s s' cs cs' :
  sublist (upcoming (rs_client s')) (upcoming (rs_client s)) → of_calls s cs → of_calls s' (cs ++ cs').
Proof.
  intros Hs Ho. unfold of_calls. etrans; [by apply fmap_sublist|]. etrans; [exact Ho|]. by apply sublist_inserts_r.
Qed.

Lemma of_calls_call s s' cs cs' ds :
  upcoming (rs_client s') = upcoming (rs_client s) ++ ds → sublist (asked <$> ds) cs' →
  of_calls s cs → of_calls s' (cs ++ cs').
Proof. intros Hs Hd Ho. unfold of_calls. rewrite Hs, fmap_app. by apply sublist_app. Qed.

Lemma of_calls_step s e s' cs :
  rpc_enabled s e = true → handle s e = Some s' → of_calls s cs → of_calls s' (cs ++ user_calls [e]).
Proof.
  intros He Hh Ho. destruct e as [th now rt c|th|th|th b|th c|th|e|e]; cbn [rpc_handle] in Hh.
  - destruct (client_call _ _) as [[r t]|] eqn:E; [|done].
    apply send_recv_upcoming in E as (ds & Hu & Hd). eapply of_calls_call; [|exact Hd|exact Ho].
    destruct r as [?|[]]; injection Hh as <-; exact Hu.
  - destruct (rs_threads s !! th) as [[|c rid p| |]|]; try done.
    destruct (client_call _ _) as [[r t]|] eqn:E; [|done].
    apply client_call_deliver, steady_upcoming in E; [|apply steady_send_recv_written|done..].
    eapply of_calls_kept, Ho. destruct r as [?|[]]; injection Hh as <-; simpl; by rewrite E.
  - destruct (rs_threads s !! th) as [[| |c l|]|]; try done.
    destruct (client_call _ _) as [[ec t]|] eqn:E; [|done].
    apply client_call_deliver, steady_upcoming in E; [|apply aside_steady, aside_send_recv_waited|done..].
    eapply of_calls_kept, Ho. injection Hh as <-; simpl; by rewrite E.
  - destruct (rs_threads s !! th) as [[| | |c l ec]|]; try done.
    destruct (client_call _ _) as [[b' t]|] eqn:E; [|done].
    apply client_call_deliver, steady_upcoming in E; [|apply aside_steady, aside_send_recv_done|done..].
    eapply of_calls_kept, Ho. injection Hh as <-; simpl; by rewrite E.
  - destruct (client_call _ _) as [[p t]|] eqn:E; [|done]. apply post_upcoming in E. injection Hh as <-.
    eapply of_calls_call; [exact E| |exact Ho]. by destruct c.
  - destruct (rs_threads s !! th) as [[c p| | |]|]; try done.
    destruct (client_call _ _) as [[r t]|] eqn:E; [|done].
    apply client_call_deliver, steady_upcoming in E; [|apply steady_send_done|done..].
    eapply of_calls_kept, Ho. injection Hh as <-; simpl; by rewrite E.
  - destruct (client_handle host m_bound_funcs (rs_client s) e) as [t|] eqn:E; [|done].
    apply client_upcoming in E. injection Hh as <-. eapply of_calls_kept, Ho. simpl in *.
    apply andb_true_iff in He as [_ He]. by destruct e.
  - destruct (session_handle host manager srv_timeout (rs_server s) e) as [t|] eqn:E; [|done].
    injection Hh as <-. by eapply of_calls_kept, Ho.
Qed.

Lemma calls_in_order is_ssl (s0 : session) s es s' :
  rpc_init srv_timeout is_ssl s0 = Some s → rpc_steps host manager srv_timeout m_bound_funcs s es s' →
  sublist (asked <$> upcoming (rs_client s')) (user_calls es).
Proof.
  intros Hi Hr. assert (of_calls s []) as H0.
  { unfold rpc_init in Hi. destruct (session_sys_init _ _ _); [|done]. injection Hi as <-. by apply sublist_nil_l. }
  change (of_calls s' (user_calls es)). induction Hr as [s|s es s1 e s2 Hr IH [He Hh]]; [done|].
  unfold user_calls. rewrite omap_app. eapply of_calls_step; [exact He|exact Hh|by apply IH].
Qed.
End calls.
