(* ===== verification/RpcRequests.v ===== *)
(** * RpcRequests: what the bound functions of a connected server get

    The calls of the functions the server bound, against the messages the
    client's session accepted for writing, and against the calls of [send] and
    [send_recv] those are of. *)

From S2P Require Import Prelude Types Header Operations DataCache DataQueue.
From S2P Require Import ServerSession ServerSystem ServerSystemFacts ServerProps.
From S2P Require Import ClientSession ClientSystem ClientSystemFacts RpcSystem RpcSystemFacts RpcProjection RpcCalls.

Section requests.
Context {B : Type} `{FlatBuffer B, !FlatBufferLaws B} {Req Res U : Type}.
Context (host : byte_order) (manager : manager_handlers (B := B) (Req := Req) (Res := Res) (U := U)).
Context (srv_timeout : server_timeout) (m_bound_funcs : gmap Z bool).
Abbreviation client_sys := (client_sys (B := B)).
Abbreviation session := (session (B := B) (Req := Req) (Res := Res)).
Abbreviation session_sys := (session_sys (B := B) (Req := Req) (Res := Res)).
Abbreviation session_effect := (session_effect (Res := Res)).
Abbreviation session_event := (session_event (B := B) (Req := Req) (U := U)).
Abbreviation sact := (act session session_effect).
Abbreviation rpc_system := (rpc_system (B := B) (Req := Req) (Res := Res)).
Abbreviation rpc_event := (rpc_event (B := B) (Req := Req) (U := U)).
Implicit Types (s : rpc_system) (t : session_sys) (c : session) (d : data_send).
Abbreviation handle := (rpc_handle host manager srv_timeout m_bound_funcs).
Abbreviation enabled := (rpc_enabled (Req := Req) (U := U)).

(** The function call that a call asks for, if it asks for one. *)
Definition function_of (c : rpc_call) : option (Z * list byte) :=
  match bound_funcs manager !! rc_call_id c with
  | Some (Some _) => Some (rc_call_id c, rc_data c)
  | _ => None
  end.

Definition requested d : option (Z * list byte) := function_of (asked d).

(** The session calls no function any more. *)
Definition stopped c : bool :=
  ServerSession.m_close c || ServerSession.m_write_error c || ServerSession.m_read_error c.

(** ** What calls no function *)

Definition uncalling (e : session_effect) : Prop := function_call e = None.

Definition plain {A} (m : sact A) : Prop := pres (λ c, stopped c = true) m ∧ emits uncalling m.

Lemma omap_uncalling es : Forall uncalling es → omap function_call es = [].
Proof. induction 1 as [|e es He _ IH]; [done|]. simpl. by rewrite He. Qed.

Lemma plain_deliver (m : sact unit) c p t ns t' :
  plain m → ServerSystem.deliver m c p t ns = Some t' →
  invoked t' = invoked t ∧ (stopped c = true → stopped (ses t') = true).
Proof.
  intros [Hp He]. unfold ServerSystem.deliver. destruct (m c) as [a c' es| |] eqn:E; try done. intros [= <-].
  simpl. rewrite omap_uncalling, app_nil_r by (by eapply He). split; [done|]. by eapply Hp.
Qed.

Lemma stopped_write_error c : stopped (ServerSession.set_m_write_error true c) = true.
Proof. unfold stopped. simpl. by destruct (ServerSession.m_close c). Qed.

Ltac solve_plain :=
  split; [solve_pres; first [assumption|done|apply stopped_write_error]|by solve_emits].

Lemma plain_close_session now : plain (ServerSession.close_session now).
Proof. unfold ServerSession.close_session, shutdown, timer_expires_after, this. solve_plain. Qed.
Lemma plain_handle_send (d : data_push) : plain (ServerSession.handle_send host d).
Proof. unfold ServerSession.handle_send, ServerSession.write, this. solve_plain. Qed.
Lemma plain_on_write now ec : plain (ServerSession.on_write host now ec).
Proof.
  unfold ServerSession.on_write, ServerSession.write, ServerSession.close_session, shutdown, timer_expires_after, this.
  solve_plain.
Qed.
Lemma plain_on_timer now o ec : plain (on_timer now o ec).
Proof. unfold on_timer, shutdown, timer_expires_after, this. solve_plain. Qed.
Lemma plain_on_accept now ec : plain (on_accept now ec).
Proof. unfold on_accept, ServerSession.read, timer_expires_after, this. solve_plain. Qed.
Lemma plain_handshake u ec : plain (on_read_handshake manager srv_timeout u ec).
Proof. unfold on_read_handshake, this. solve_plain. Qed.
Lemma plain_ssl ec n : plain (on_ssl_handshake srv_timeout ec n).
Proof. unfold on_ssl_handshake. solve_plain. Qed.
Lemma plain_control now k : plain (ServerSession.on_control_callback now k).
Proof. unfold ServerSession.on_control_callback, timer_expires_after, this. solve_plain. Qed.
Lemma plain_ret : plain (act_ret tt).
Proof. solve_plain. Qed.

Lemma plain_event t (e : session_event) t' :
  session_handle host manager srv_timeout t e = Some t' →
  match e with ev_read _ _ _ _ => True | _ =>
    invoked t' = invoked t ∧ (stopped (ses t) = true → stopped (ses t') = true) end.
Proof.
  destruct e as [ec k|u ec req rest|now ec|d|now u ec msg|now ec|now o ec|now k|ec|ec]; simpl; try done;
    (intros Hd; apply plain_deliver in Hd; [exact Hd|]; auto using plain_ssl, plain_handshake, plain_on_accept,
      plain_handle_send, plain_on_write, plain_on_timer, plain_control, plain_ret).
Qed.

(** ** A read *)

Lemma bind_Done {A C} (m : sact A) (k : A → sact C) c b c2 es :
  act_bind m k c = Done b c2 es →
  ∃ a c1 es1 es2, m c = Done a c1 es1 ∧ k a c1 = Done b c2 es2 ∧ es = es1 ++ es2.
Proof.
  unfold act_bind. destruct (m c) as [a c1 es1| |] eqn:E; try done.
  destruct (k a c1) as [b' c2' es2| |] eqn:E2; try done. intros [= <- <- <-]. eauto 10.
Qed.

(** The call of a function, and what follows it. *)
Lemma answer_calls now u c a c' es :
  answer host manager now u c = Done a c' es →
  omap function_call es =
    match bound_funcs manager !! call_id (m_header c) with
    | Some (Some _) => [(call_id (m_header c), ctx_data c)]
    | _ => []
    end.
Proof.
  unfold answer, this. intros E. apply bind_Done in E as (x & c1 & es1 & es2 & [= <- <- <-] & E & ->). simpl.
  destruct (bound_funcs manager !! call_id (m_header c)) as [[f|]|]; [|by injection E as _ _ <-..].
  apply bind_Done in E as (x & c1 & es1 & es3 & E1 & E & ->).
  assert (Forall uncalling es3) as Hes.
  { match type of E with ?m _ = _ => assert (emits uncalling m) as Hm end; [|by eapply Hm].
    unfold ServerSession.close_session, shutdown, timer_expires_after, ServerSession.handle_send, ServerSession.write, this.
    by solve_emits. }
  rewrite omap_app, (omap_uncalling es3), app_nil_r by done. clear E.
  unfold call_bound, this in E1. by run_act.
Qed.

Lemma call_function_calls now u d c a c' es :
  fb_data (m_receive_buffer c) = send_message host d → io_header_wf (send_header d) →
  call_function host manager now u c = Done a c' es → omap function_call es = option_list (requested d).
Proof.
  intros Hb Hw E.
  assert (header_of_bytes host (fb_data (m_receive_buffer c)) = Some (send_header d)) as Hh
    by (rewrite Hb; by apply header_of_bytes_app).
  rewrite (call_function_called host manager now u c _ Hh) in E. rewrite (answer_calls _ _ _ _ _ _ E). simpl.
  unfold requested, function_of, ctx_data. simpl. rewrite fb_data_consume, Hb. unfold send_message. rewrite drop_header_app.
  by destruct (bound_funcs manager !! _) as [[f|]|].
Qed.

Lemma read_calls now u d c a c' es :
  fb_data (m_receive_buffer c) = send_message host d → io_header_wf (send_header d) →
  ServerSession.m_close_received c = false → ServerSession.m_read_error c = false →
  ServerSession.on_read host manager now u ec_success c = Done a c' es →
  omap function_call es = if stopped c then [] else option_list (requested d).
Proof.
  intros Hb Hw Hr He E. unfold ServerSession.on_read, this in E.
  apply bind_Done in E as (x & c1 & es1 & es2 & [= <- <- <-] & E & ->). rewrite Hr in E. simpl in E.
  apply bind_Done in E as (x & c1 & es1 & es3 & E1 & E & ->).
  assert (Forall uncalling es3) as Hes.
  { match type of E with ?m _ = _ => assert (emits uncalling m) as Hm end; [|by eapply Hm].
    unfold ServerSession.read. by solve_emits. }
  simpl. rewrite omap_app, (omap_uncalling es3), app_nil_r by done. clear E.
  unfold stopped. rewrite He, orb_false_r. unfold act_when in E1.
  destruct (ServerSession.m_close c), (ServerSession.m_write_error c); simpl in *; try (by injection E1 as _ _ <-).
  by eapply call_function_calls.
Qed.

(** One that fails. *)
Lemma failed_read_calls now u ec c a c' es :
  ec_bool ec || ServerSession.m_close_received c = true →
  ServerSession.on_read host manager now u ec c = Done a c' es →
  omap function_call es = [] ∧ stopped c' = true.
Proof.
  intros Hec. rewrite ServerSystemFacts.on_read_error by done. intros E.
  destruct (plain_close_session now) as [Hp He]. split; [apply omap_uncalling; by eapply He|].
  eapply Hp; [exact E|]. unfold stopped. simpl. apply orb_true_r.
Qed.

Lemma read_stopped now u ec : pres (λ c, stopped c = true) (ServerSession.on_read host manager now u ec).
Proof.
  unfold ServerSession.on_read, call_function, call_bound, ServerSession.handle_send, ServerSession.write,
    ServerSession.read, ServerSession.close_session, shutdown, timer_expires_after, this.
  solve_pres; try assumption; try done; unfold stopped; simpl; apply orb_true_r.
Qed.

(** ** The invariant *)

Record invokes (s : rpc_system) (k : nat) : Prop := {
  v_invoked : invoked (rs_server s) = omap requested (take k (accepted (rs_client s)));
  v_written : (k ≤ length (accepted (rs_client s)))%nat;
  v_read : (k ≤ rs_server_read s)%nat;
  v_reading : stopped (ses (rs_server s)) = false → k = rs_server_read s }.

Lemma invokes_same s s' k :
  invoked (rs_server s') = invoked (rs_server s) →
  (stopped (ses (rs_server s)) = true → stopped (ses (rs_server s')) = true) →
  rs_server_read s' = rs_server_read s →
  accepted (rs_client s) `prefix_of` accepted (rs_client s') → invokes s k → invokes s' k.
Proof.
  intros Hh He Hr [l Hl] [H1 H2 H3 H4]. split; rewrite ?Hh, ?Hr, ?Hl; auto.
  - by rewrite take_app_le by lia.
  - rewrite length_app. lia.
  - intros Hs. apply H4. destruct (stopped (ses (rs_server s))); [|done]. by rewrite He in Hs.
Qed.

Lemma client_deliver_accepted {A} (m : act (client_session (B := B)) client_effect A)
    (c : client_session (B := B)) p (t t' : client_sys) ns :
  deliver m c p t ns = Some t' → accepted t `prefix_of` accepted t'.
Proof. unfold deliver. destruct (m c); try done. intros [= <-]. by eexists. Qed.

Lemma client_call_accepted {A} (m : act (client_session (B := B)) client_effect A) (t t' : client_sys) a :
  client_call m t = Some (a, t') → accepted t `prefix_of` accepted t'.
Proof. intros Hc. eapply client_deliver_accepted. by eapply client_call_deliver. Qed.

Lemma client_event_accepted (t t' : client_sys) e :
  client_handle host m_bound_funcs t e = Some t' → accepted t `prefix_of` accepted t'.
Proof.
  destruct e; simpl; try (by apply client_deliver_accepted).
  destruct (posted _); [done|]. by apply client_deliver_accepted.
Qed.

Lemma invokes_read n s k now u ec msg s' :
  rpc_inv host manager n s → enabled s (re_server (ev_read now u ec msg)) = true →
  handle s (re_server (ev_read now u ec msg)) = Some s' → invokes s k → ∃ k', invokes s' k'.
Proof.
  intros Hi [He Hx]%andb_true_iff. pose proof Hi as [_ [_ [L1 L2 _ _ _]] _ _ _ _ _].
  simpl in *. apply Nat.ltb_lt in He.
  destruct (ServerSession.m_read_error (ses (rs_server s))) eqn:Er; [rewrite andb_false_r in L1; lia|].
  intros Hh [H1 H2 H3 H4]. set (c := modify_ctx _ (ses (rs_server s))) in *.
  unfold ServerSystem.deliver in Hh.
  destruct (ServerSession.on_read host manager now u ec c) as [a c' es| |] eqn:E; try done. injection Hh as <-.
  pose proof (read_stopped now u ec c a c' es E) as Hst.
  destruct (ec_bool ec || ServerSession.m_close_received c) eqn:Ef.
  - destruct (failed_read_calls _ _ _ _ _ _ _ Ef E) as [Ho Hs]. exists k.
    split; simpl; rewrite ?Ho, ?app_nil_r, ?Hs; auto. done.
  - apply orb_false_iff in Ef as [Ef Hcr]. rewrite Ef in Hx. apply bool_decide_eq_true in Hx.
    destruct ec; try done.
    pose proof (i_client _ _ _ _ Hi) as [_ _ Hpre _ _]. eapply prefix_lookup_Some in Hx; [|exact Hpre].
    apply list_lookup_fmap_Some in Hx as (d & -> & Hd).
    destruct (i_client_data _ _ _ _ Hi) as (_ & _ & Hacc).
    destruct (Forall_lookup_1 _ _ _ _ Hacc Hd) as [Hw _].
    assert (fb_data (m_receive_buffer c) = send_message host d) as Hm by (simpl; by rewrite fb_data_append, L2).
    pose proof (read_calls now u d c a c' es Hm Hw Hcr Er E) as Ho.
    change (stopped c) with (stopped (ses (rs_server s))) in Ho, Hst.
    destruct (stopped (ses (rs_server s))) eqn:Es.
    + exists k. split; simpl; rewrite ?Ho, ?app_nil_r, ?Hst; auto. done.
    + rewrite (H4 eq_refl) in *. exists (S (rs_server_read s)). split; simpl; auto.
      * erewrite take_S_r by done. rewrite omap_app, Ho, H1. simpl. by destruct (requested d).
      * by eapply lookup_lt_Some.
Qed.

(** What the threads and the session of the client do. *)
Lemma invokes_client s s' k :
  rs_server s' = rs_server s → rs_server_read s' = rs_server_read s →
  accepted (rs_client s) `prefix_of` accepted (rs_client s') → invokes s k → invokes s' k.
Proof. intros Hs Hr Ha. apply invokes_same; by rewrite ?Hs. Qed.

Lemma invokes_step n s k e s' :
  rpc_inv host manager n s → enabled s e = true → handle s e = Some s' → invokes s k → ∃ k', invokes s' k'.
Proof.
  intros Hi He Hh Hk. destruct e as [th now rt c|th|th|th b|th c|th|e|e]; cbn [rpc_handle] in Hh.
  - exists k. destruct (client_call _ _) as [[r t]|] eqn:E; [|done]. apply client_call_accepted in E.
    destruct r as [?|[]]; injection Hh as <-; (eapply invokes_client, Hk; done).
  - exists k. destruct (rs_threads s !! th) as [[|c rid p| |]|]; try done.
    destruct (client_call _ _) as [[r t]|] eqn:E; [|done]. apply client_call_accepted in E.
    destruct r as [?|[]]; injection Hh as <-; (eapply invokes_client, Hk; done).
  - exists k. destruct (rs_threads s !! th) as [[| |c l|]|]; try done.
    destruct (client_call _ _) as [[ec t]|] eqn:E; [|done]. apply client_call_accepted in E.
    injection Hh as <-; (eapply invokes_client, Hk; done).
  - exists k. destruct (rs_threads s !! th) as [[| | |c l ec]|]; try done.
    destruct (client_call _ _) as [[b' t]|] eqn:E; [|done]. apply client_call_accepted in E.
    injection Hh as <-; (eapply invokes_client, Hk; done).
  - exists k. destruct (client_call _ _) as [[p t]|] eqn:E; [|done]. apply client_call_accepted in E.
    injection Hh as <-; (eapply invokes_client, Hk; done).
  - exists k. destruct (rs_threads s !! th) as [[c p| | |]|]; try done.
    destruct (client_call _ _) as [[r t]|] eqn:E; [|done]. apply client_call_accepted in E.
    injection Hh as <-; (eapply invokes_client, Hk; done).
  - exists k. destruct (client_handle host m_bound_funcs (rs_client s) e) as [t|] eqn:E; [|done].
    apply client_event_accepted in E. injection Hh as <-. (eapply invokes_client, Hk; done).
  - destruct (session_handle host manager srv_timeout (rs_server s) e) as [t|] eqn:E; [|done].
    pose proof (plain_event _ _ _ E) as Hp. destruct e as [| | | |now u ec msg| | | | |];
      try (exists k; destruct Hp; injection Hh as <-; eapply invokes_same; [..|exact Hk]; done).
    eapply (invokes_read n s k now u ec msg); [done|done| |done]. cbn [rpc_handle]. by rewrite E.
Qed.

Lemma functions_in_order is_ssl (s0 : session) s es s' :
  new_session_like s0 → rpc_init srv_timeout is_ssl s0 = Some s →
  rpc_steps host manager srv_timeout m_bound_funcs s es s' → ∃ k, invokes s' k.
Proof.
  intros Hs0 Hi Hr.
  assert (∃ n k, rpc_inv host manager n s' ∧ invokes s' k) as (n & k & _ & ?); [|by exists k].
  eapply (steps_invariant enabled handle (λ s, ∃ n k, rpc_inv host manager n s ∧ invokes s k)); [| |exact Hr].
  - intros s1 e s2 (n & k & Hinv & Hk) [He Hh].
    destruct (rpc_step host manager srv_timeout m_bound_funcs n s1 e Hinv He) as (s2' & n' & Hh' & Hinv').
    rewrite Hh in Hh'. injection Hh' as <-.
    destruct (invokes_step n s1 k e s2 Hinv He Hh Hk) as [k' Hk']. eauto.
  - exists 0%nat, 0%nat. split; [by eapply rpc_inv_init|].
    unfold rpc_init in Hi. destruct (session_sys_init srv_timeout is_ssl s0) as [t|] eqn:Et; [|done]. injection Hi as <-.
    unfold session_sys_init in Et. destruct (accept _ _ _); [|done..]. injection Et as <-.
    split; simpl; [done|lia|lia|done].
Qed.

Lemma omap_sublist {A C} (f : A → option C) l l' : sublist l l' → sublist (omap f l) (omap f l').
Proof.
  induction 1 as [|x l l' _ IH|x l l' _ IH]; simpl; [constructor|destruct (f x); [by constructor|done]|].
  destruct (f x); [by constructor|done].
Qed.

Lemma omap_requested (ds : list data_send) : omap requested ds = omap function_of (asked <$> ds).
Proof. induction ds as [|d ds IH]; [done|]. csimpl. by rewrite <-IH. Qed.

(** C10. The requests.  On a connection, whatever its two ends, the threads and
    the network do, the functions the server bound have been called with exactly
    the first messages the client's session accepted for writing: each of those
    whose call id is bound once, in the order of the acceptance, with its own id
    and its own bytes, and no other.  The number of those messages is the number
    of reads of the server that completed, until it starts to close, or a write
    or a read of its fails.  And each such call of a function comes from a call
    of [send] or [send_recv] of its own, with that id and those bytes, in the
    order in which the threads of the client called them. *)
Theorem requests_in_order is_ssl (s0 : session) s es s' :
  new_session_like s0 → rpc_init srv_timeout is_ssl s0 = Some s →
  rpc_steps host manager srv_timeout m_bound_funcs s es s' →
  ∃ k, (k ≤ rs_server_read s')%nat ∧ (k ≤ length (accepted (rs_client s')))%nat ∧
    (stopped (ses (rs_server s')) = false → k = rs_server_read s') ∧
    invoked (rs_server s') = omap requested (take k (accepted (rs_client s'))) ∧
    sublist (invoked (rs_server s')) (omap function_of (user_calls es)).
Proof.
  intros Hs0 Hi Hr. destruct (functions_in_order _ _ _ _ _ Hs0 Hi Hr) as [k [H1 H2 H3 H4]].
  exists k. do 4 (split; [done|]). rewrite H1, omap_requested. apply omap_sublist.
  etrans; [|by eapply calls_in_order]. apply fmap_sublist. unfold upcoming.
  apply sublist_inserts_r, sublist_take.
Qed.
End requests.

(** ** Three messages over the connection of [RpcDemo], one to no function *)

Module RequestDemo.
Definition arrives (bytes : list byte) : rpc_event (B := list byte) (Req := nat) (U := unit) :=
  re_server (ev_read 1 tt ec_success bytes).
Definition events : list (rpc_event (B := list byte) (Req := nat) (U := unit)) :=
  RpcDemo.calls ++ [re_send 30 (mk_rpc_call 9 [x63]); re_client ce_run_send; re_client (ce_write ec_success);
   arrives (RpcDemo.bytes 1 [x61]); arrives (RpcDemo.bytes 2 [x62]);
   arrives (header_bytes RpcDemo.host (new_io_header 9 0) ++ [x63])].
End RequestDemo.

Lemma requests_in_order_witness :
  let s := RpcDemo.drive RequestDemo.events in
  invoked (rs_server s) = [(7, [x61]); (7, [x62])] ∧ rs_server_read s = 3%nat ∧
  ∃ k, (k ≤ rs_server_read s)%nat ∧ (k ≤ length (accepted (rs_client s)))%nat ∧
    (stopped (ses (rs_server s)) = false → k = rs_server_read s) ∧
    invoked (rs_server s) = omap (requested Demo.manager) (take k (accepted (rs_client s))) ∧
    sublist (invoked (rs_server s)) (omap (function_of Demo.manager) (user_calls RequestDemo.events)).
Proof.
  split; [vm_compute; reflexivity|]. split; [vm_compute; reflexivity|].
  apply (requests_in_order RpcDemo.host Demo.manager Demo.timeout ∅ false
    Demo.fresh RpcDemo.opened RequestDemo.events).
  - apply Demo.fresh_like.
  - reflexivity.
  - apply run_steps. vm_compute. reflexivity.
Defined.
