(* ===== verification/RpcProps.v ===== *)
(** * RpcProps: what a connection guarantees

    The properties of RpcSystem: the runs of a connection are runs of its two
    ends, what goes over the wire, and what a call gives back. *)

From S2P Require Import Prelude Types Header Operations DataCache DataCacheFacts DataQueue.
From S2P Require Import ServerSession ServerSystem ServerSystemFacts ServerProps.
From S2P Require Import ClientSession ClientSystem ClientSystemFacts RpcSystem RpcSystemFacts RpcProjection.

Section props.
Context {B : Type} `{FlatBuffer B, !FlatBufferLaws B} {Req Res U : Type}.
Context (host : byte_order) (manager : manager_handlers (B := B) (Req := Req) (Res := Res) (U := U)).
Context (srv_timeout : server_timeout) (m_bound_funcs : gmap Z bool).
Abbreviation client_sys := (client_sys (B := B)).
Abbreviation kact := (act (client_session (B := B)) client_effect).
Abbreviation session := (session (B := B) (Req := Req) (Res := Res)).
Abbreviation rpc_system := (rpc_system (B := B) (Req := Req) (Res := Res)).
Abbreviation rpc_event := (rpc_event (B := B) (Req := Req) (U := U)).
Implicit Types (t : client_sys) (s : rpc_system).
Abbreviation enabled := (rpc_enabled (Req := Req) (U := U)).
Abbreviation handle := (rpc_handle host manager srv_timeout m_bound_funcs).

(** ** Properties *)


(** C11. The type of a connection: every message either end gives to
    [async_write] is a header of a 32-bit call id, a 32-bit padding and a 64-bit
    result id, then a body; the other end reads that header and that body back;
    and a message of the client under a result id is the one call made under
    it. *)
Theorem wire_messages_typed is_ssl (s0 : session) s es s' k msg :
  new_session_like s0 → rpc_init srv_timeout is_ssl s0 = Some s →
  rpc_steps host manager srv_timeout m_bound_funcs s es s' →
  wire (pend (rs_client s')) !! k = Some msg ∨
  ServerSystem.wire (ServerSystem.pend (rs_server s')) !! k = Some msg →
  ∃ h data, msg = header_bytes host h ++ data ∧ io_header_wf h ∧
    header_of_bytes host msg = Some h ∧ drop sizeof_io_header msg = data ∧
    (wire (pend (rs_client s')) !! k = Some msg → result_id h = 0 ∨
       rs_calls s' !! result_id h = Some (mk_rpc_call (call_id h) data)).
Proof.
  intros Hs0 Hi Hr Hk. destruct (rpc_steps_inv host manager srv_timeout m_bound_funcs _ _ _ _ _ Hs0 Hi Hr) as [[n Hn] _].
  assert (∀ h data, io_header_wf h → header_of_bytes host (header_bytes host h ++ data) = Some h ∧
    drop sizeof_io_header (header_bytes host h ++ data) = data) as Hrt.
  { intros. split; [by apply header_of_bytes_app|apply drop_header_app]. }
  destruct (wire (pend (rs_client s')) !! k) as [msg'|] eqn:Ek.
  - pose proof (client_wire_request host manager _ _ _ _ Hn Ek) as (d & -> & Hw & Hc).
    destruct (decide (send_message host d = msg)) as [<-|Hne].
    + exists (send_header d), (body d). destruct (Hrt (send_header d) (body d) Hw). by split_and!.
    + destruct Hk as [[= ?]|Hk]; [done|].
      destruct (server_wire_reply host manager _ _ _ _ Hn Hk) as (d' & -> & Hw' & _).
      exists (push_header d'), (push_body d'). destruct (Hrt (push_header d') (push_body d') Hw').
      split_and!; try done. by intros [= ?].
  - destruct Hk as [?|Hk]; [done|].
    destruct (server_wire_reply host manager _ _ _ _ Hn Hk) as (d' & -> & Hw' & _).
    exists (push_header d'), (push_body d'). destruct (Hrt (push_header d') (push_body d') Hw').
    by split_and!.
Qed.
End props.

(** ** The concrete connection of [RpcDemo] *)


Lemma wire_messages_typed_witness :
  let s := RpcDemo.drive RpcDemo.calls in
  ∃ h data, RpcDemo.bytes 2 [x62] = header_bytes RpcDemo.host h ++ data ∧ io_header_wf h ∧
    header_of_bytes RpcDemo.host (RpcDemo.bytes 2 [x62]) = Some h ∧
    drop sizeof_io_header (RpcDemo.bytes 2 [x62]) = data ∧
    (wire (pend (rs_client s)) !! 1%nat = Some (RpcDemo.bytes 2 [x62]) → result_id h = 0 ∨
       rs_calls s !! result_id h = Some (mk_rpc_call (call_id h) data)).
Proof.
  intros s. apply (wire_messages_typed RpcDemo.host Demo.manager Demo.timeout ∅ false Demo.fresh
    RpcDemo.opened RpcDemo.calls s).
  - apply Demo.fresh_like.
  - reflexivity.
  - apply run_steps. vm_compute. reflexivity.
  - left. vm_compute. reflexivity.
Defined.
