(* ===== verification/RpcNet.v ===== *)
(** * RpcNet: the server and a client at every connection

    The server of ServerNet with all of its sessions, broadcasting threads and
    posted closures, and at every session object the connection of RpcSystem:
    the client's session, the threads in its calls and the wire in both
    directions.  A session does at its connection what it does in the server. *)

From S2P Require Import Prelude Types Header Operations ServerSession ServerSystem SessionManager.
From S2P Require Import Listener ServerNet BroadcastCount BroadcastHistory ClientSession ClientSystem RpcSystem.

Section rpc_net.
Context {B : Type} `{FlatBuffer B} {Req Res U : Type}.
Context (host : byte_order) (manager : manager_handlers (B := B) (Req := Req) (Res := Res) (U := U)).
Context (srv_timeout : server_timeout) (server_cfg : server_config) (session_cfg : session_config).
Context (req0 : Req) (res0 : Res).
Context (has_on_listen has_ssl_ctx is_open : bool) (T : nat).
(** The broadcast handlers of the client at each connection. *)
Context (m_bound_funcs : nat → gmap Z bool).
Abbreviation session_sys := (session_sys (B := B) (Req := Req) (Res := Res)).
Abbreviation session_event := (session_event (B := B) (Req := Req) (U := U)).
Abbreviation server_net := (server_net (B := B) (Req := Req) (Res := Res)).
Abbreviation net_event := (net_event (B := B) (Req := Req) (U := U)).
Abbreviation rpc_system := (rpc_system (B := B) (Req := Req) (Res := Res)).
Abbreviation rpc_event := (rpc_event (B := B) (Req := Req) (U := U)).
Abbreviation handle_net := (net_handle host manager srv_timeout server_cfg session_cfg req0 res0
  has_on_listen has_ssl_ctx is_open).

(** A connection, and the id its server session was made with. *)
Record link := mk_link { l_id : Z; l_rpc : rpc_system }.

(** [rn_links]: the connections, by session object; they outlive it.
    [rn_broadcasts]: the calls of [broadcast] so far (ghost). *)
Record rpc_net := mk_rpc_net {
  rn_server : server_net;
  rn_links : gmap nat link;
  rn_broadcasts : list broadcast_call }.

Inductive rpc_net_event : Type :=
  | rn_serve (e : net_event)
  | rn_at (o : nat) (e : rpc_event).      (* what the client's end of a connection does *)

(** What an event of the server is at a connection. *)
Definition at_connection (n : server_net) (e : net_event) : option (nat * session_event) :=
  match e with
  | ne_session o e => Some (o, e)
  | ne_post o =>
      '(_, (_, p)) ← list_find (λ x, x.1 = o) (net_posts n);
      x ← pushes (wld (net_sys n)) !! p;
      Some (o, ev_send (push_data x))
  | _ => None
  end.

(** A read of a session completes with what its client wrote. *)
Definition rpc_net_enabled (s : rpc_net) (e : rpc_net_event) : bool :=
  match e with
  | rn_serve e =>
      net_enabled T (rn_server s) e &&
      match e with
      | ne_session o e =>
          match rn_links s !! o with Some l => session_event_enabled (l_rpc l) e | None => false end
      | ne_broadcast _ call_id _ _ => bool_decide (is_u32 call_id)
      | _ => true
      end
  | rn_at o e =>
      match rn_links s !! o with
      | Some l => rpc_enabled (l_rpc l) e && match e with re_server _ => false | _ => true end
      | None => false
      end
  end.

(** The connection of a session that was just made: the client's end is up. *)
Definition new_link (t : session_sys) : link :=
  mk_link (session_id (ses t)) (mk_rpc_system client_sys_init t 0 0 ∅ ∅ []).

Definition link_event (links : gmap nat link) (o : nat) (e : rpc_event) : option (gmap nat link) :=
  l ← links !! o;
  r ← rpc_handle host manager srv_timeout (m_bound_funcs o) (l_rpc l) e;
  Some (<[o := mk_link (l_id l) r]> links).

Definition broadcast_of (e : net_event) : list broadcast_call :=
  match e with
  | ne_broadcast th call_id send_bytes session_ids =>
      [mk_broadcast_call th call_id send_bytes session_ids]
  | _ => []
  end.

Definition rpc_net_handle (s : rpc_net) (e : rpc_net_event) : option rpc_net :=
  match e with
  | rn_serve e =>
      n ← handle_net (rn_server s) e;
      links ← match at_connection (rn_server s) e with
              | Some (o, e') => link_event (rn_links s) o (re_server e')
              | None => Some (rn_links s)
              end;
      Some (mk_rpc_net n (links ∪ (new_link <$> net_sessions n)) (rn_broadcasts s ++ broadcast_of e))
  | rn_at o e =>
      links ← link_event (rn_links s) o e;
      Some (mk_rpc_net (rn_server s) links (rn_broadcasts s))
  end.

Definition rpc_net_init : option rpc_net :=
  n ← net_init is_open; Some (mk_rpc_net n ∅ []).

Definition rpc_net_steps := steps rpc_net_enabled rpc_net_handle.
Definition rpc_net_run := run rpc_net_enabled rpc_net_handle.

(** ** Counting *)

(** The handler calls for [bs] under [cid]. *)
Definition calls_for (cid : Z) (bs : list byte) (hs : list (Z * list byte)) : nat :=
  length (filter (λ x, x = (cid, bs)) hs).

(** The calls of [broadcast] of [bs] under [cid] that name session id [sid], or
    go to all. *)
Definition broadcasts_for (sid cid : Z) (bs : list byte) (cs : list broadcast_call) : nat :=
  length (filter (λ c, bc_call_id c = cid ∧ bc_bytes c = bs ∧
    names sid (bc_session_ids c) = true) cs).
End rpc_net.
