(* ===== verification/RpcNetFacts.v ===== *)
(** * RpcNetFacts: the server and its connections agree

    What the sessions accept for writing, what every event of the server does
    to the connections, and the invariant of the two together. *)

From S2P Require Import Prelude Types Header Operations ClientSession ClientSystem RpcSystem RpcSystemFacts RpcNet.
From S2P Require Import ServerSession ServerSystem ServerSystemFacts ServerProps.
From S2P Require Import SessionManager SessionManagerFacts Listener ListenerFacts ServerNet ServerNetFacts BroadcastCount.

#[local] Opaque config.queue_send_max.

(** ** What a session accepts *)

Section accepted.
Context {B : Type} `{FlatBuffer B, !FlatBufferLaws B} {Req Res U : Type}.
Context (host : byte_order) (manager : manager_handlers (B := B) (Req := Req) (Res := Res) (U := U)).
Context (srv_timeout : server_timeout).
Abbreviation session := (session (B := B) (Req := Req) (Res := Res)).
Abbreviation session_sys := (session_sys (B := B) (Req := Req) (Res := Res)).
Abbreviation sact := (act session (session_effect (Res := Res)) unit).
Abbreviation handle := (session_handle host manager srv_timeout).
Implicit Types (s : session) (t : session_sys) (d : data_push).

(** An answer: to a bound function, and owned by the session alone. *)
Definition answer d : Prop :=
  push_shared d = None ∧ ∃ f, bound_funcs manager !! call_id (push_header d) = Some (Some f).

Definition queue_is (q : list data_push) s : Prop := m_queue s = q.

Ltac solve_queue := solve_pres; assumption.

Lemma queue_close_session q now : pres (queue_is q) (close_session now : sact).
Proof. unfold close_session, shutdown, timer_expires_after, this. solve_queue. Qed.
Lemma queue_on_timer q now is_open ec : pres (queue_is q) (on_timer now is_open ec : sact).
Proof. unfold on_timer, timer_expires_after, shutdown, this. solve_queue. Qed.
Lemma queue_on_accept q now ec : pres (queue_is q) (ServerSession.on_accept now ec : sact).
Proof. unfold ServerSession.on_accept, timer_expires_after, read, this. solve_queue. Qed.
Lemma queue_handshake q u ec : pres (queue_is q) (on_read_handshake manager srv_timeout u ec).
Proof. unfold on_read_handshake, this. solve_queue. Qed.
Lemma queue_ssl q ec n : pres (queue_is q) (on_ssl_handshake srv_timeout ec n : sact).
Proof. unfold on_ssl_handshake. solve_queue. Qed.
Lemma queue_control q now k : pres (queue_is q) (on_control_callback now k : sact).
Proof. unfold on_control_callback, timer_expires_after, this. solve_queue. Qed.

Lemma wp_close_session now s : wp (close_session now) (λ _ s' _, m_queue s' = m_queue s) s.
Proof.
  unfold close_session, shutdown, timer_expires_after, this. run_act.
  case_decide; [done|]. by destruct (_ || _).
Qed.

Lemma on_read_answers now u ec s :
  m_read_error s = false →
  wp (on_read host manager now u ec) (λ _ s' _, ∃ l, m_queue s' = m_queue s ++ l ∧ Forall answer l) s.
Proof.
  intros Hre. assert (∀ s', m_queue s' = m_queue s → ∃ l, m_queue s' = m_queue s ++ l ∧ Forall answer l) as Hsame.
  { intros s' ->. exists []. by rewrite app_nil_r. }
  destruct (ec_bool ec || m_close_received s) eqn:Eb.
  { unfold wp. rewrite on_read_error by done.
    eapply (wp_mono (close_session now)); [apply wp_close_session|]. intros [] s1 es1 Hq. by apply Hsame. }
  apply orb_false_iff in Eb as [Eec Ecr]. destruct ec; try done. clear Eec.
  destruct (decide (sending s)) as [Hsend|Hsend].
  - destruct (on_read_dispatched host manager now u s Hsend) as (s' & es & E & _ & _ & Hd).
    unfold wp. rewrite E. destruct (header_of_bytes _ _) as [h|]; [|apply Hsame; by destruct Hd].
    destruct Hd as (Hh & _ & Hcar & _). revert Hcar Hh. set (c := ctx (ServerProps.called h s)). unfold dispatch. intros Hcar Hh.
    rewrite Hh in Hcar. destruct (bound_funcs manager !! call_id h) as [[f|]|] eqn:Ef; try by apply Hsame.
    destruct (m_bound_close _); [by apply Hsame; destruct Hcar|]. case_decide; [by apply Hsame|].
    simpl in Hcar. unfold queue_add in Hcar. case_decide; [|by apply Hsame].
    eexists. split; [exact Hcar|]. constructor; [|constructor]. split; [done|]. by exists f.
  - unfold on_read. apply wp_bind, wp_get. rewrite Ecr. simpl.
    assert (negb (m_close s) && negb (m_write_error s) = false) as ->.
    { destruct (m_close s) eqn:E1, (m_write_error s) eqn:E2; try done. exfalso. by apply Hsend. }
    apply wp_bind, wp_ret, wp_bind, wp_modify, wp_bind, wp_modify, wp_emit. by apply Hsame.
Qed.

Lemma deliver_queue (m : sact) s p t ns t' :
  pres (queue_is (m_queue (ses t))) m → m_queue s = m_queue (ses t) →
  deliver m s p t ns = Some t' → accepted t' = accepted t.
Proof.
  intros Hm Hs. unfold deliver. destruct (m s) as [[] s' es| |] eqn:E; try done. intros [= <-]. simpl.
  rewrite (Hm _ _ _ _ E Hs), drop_all. apply app_nil_r.
Qed.

(** Beside the posts, a session accepts its answers only. *)
Lemma session_accepts t e t' :
  session_inv host t → session_enabled t e = true → handle t e = Some t' →
  match e with ev_send _ => True | _ => ∃ l, accepted t' = accepted t ++ l ∧ Forall answer l end.
Proof.
  intros [_ Hl] He Hh.
  assert (accepted t' = accepted t → ∃ l, accepted t' = accepted t ++ l ∧ Forall answer l) as Hsame.
  { intros ->. exists []. by rewrite app_nil_r. }
  destruct e as [ec k|u ec req rest|now ec|d|now u ec msg|now ec|now o ec|now k|ec|ec]; simpl in Hh;
    try done; try (apply Hsame; eapply deliver_queue; [| |exact Hh]; [clear|reflexivity];
      first [apply queue_ssl|apply queue_handshake|apply queue_on_accept|apply queue_on_timer|apply queue_control
            |apply pres_ret]).
  - apply Nat.ltb_lt in He. pose proof (l_read _ _ Hl) as Hr. destruct (m_read_error (ses t)) eqn:Er;
      [rewrite andb_false_r in Hr; lia|].
    set (s1 := modify_ctx _ (ses t)) in Hh. destruct (proj1 (wp_Done _ _ _) (on_read_answers now u ec s1 Er))
      as ([] & s' & es & E & l & Hq & Ha).
    unfold deliver in Hh. rewrite E in Hh. injection Hh as <-. exists l. split; [|done]. simpl.
    change (m_queue s1) with (m_queue (ses t)) in Hq. by rewrite Hq, drop_app_length.
  - apply Hsame. clear Hsame He Hl. unfold deliver in Hh.
    destruct (ec_bool ec || m_close (ses t) || m_close_received (ses t) || m_read_error (ses t)) eqn:Eb.
    + rewrite on_write_error in Hh by done.
      destruct (proj1 (wp_Done _ _ _) (wp_close_session now (set_m_queue [] (set_m_write_error true (ses t)))))
        as ([] & s' & es & E & Hq).
      rewrite E in Hh. injection Hh as <-. simpl. rewrite Hq. simpl. by rewrite drop_nil, app_nil_r.
    + destruct (m_queue (ses t)) as [|d ds] eqn:Eq.
      * exfalso. revert Hh. unfold on_write, this. run_act. by rewrite Eb, Eq.
      * rewrite (on_write_next host now ec (ses t) d ds) in Hh by done. injection Hh as <-. simpl.
        rewrite drop_ge by lia. apply app_nil_r.
Qed.

(** A post adds its message, or not. *)
Lemma send_accepts t d t' :
  handle t (ev_send d) = Some t' → accepted t' = accepted t ∨ accepted t' = accepted t ++ [d].
Proof.
  intros Hh. destruct (send_change _ _ _ _ _ _ Hh) as [_ Hq]. simpl in Hh. unfold deliver in Hh.
  destruct (handle_send host d (ses t)) as [[] s' es| |]; try done. injection Hh as <-. simpl in *.
  destruct Hq as [-> | ->]; [right|left].
  - by rewrite drop_app_length.
  - by rewrite drop_all, app_nil_r.
Qed.

(** ** The id of a session

    A bound function may change it, so it is the one it was made with until the
    session is established only. *)

Definition id_is (i : Z) s : Prop := session_id s = i.

Ltac solve_id := solve_pres; done.

Lemma id_on_write i now ec : pres (id_is i) (on_write host now ec : sact).
Proof. unfold on_write, write, close_session, shutdown, timer_expires_after, this. solve_id. Qed.
Lemma id_on_timer i now is_open ec : pres (id_is i) (on_timer now is_open ec : sact).
Proof. unfold on_timer, timer_expires_after, shutdown, this. solve_id. Qed.
Lemma id_on_accept i now ec : pres (id_is i) (ServerSession.on_accept now ec : sact).
Proof. unfold ServerSession.on_accept, timer_expires_after, read, this. solve_id. Qed.
Lemma id_handshake i u ec : pres (id_is i) (on_read_handshake manager srv_timeout u ec).
Proof. unfold on_read_handshake, this. solve_id. Qed.
Lemma id_ssl i ec n : pres (id_is i) (on_ssl_handshake srv_timeout ec n : sact).
Proof. unfold on_ssl_handshake. solve_id. Qed.

Lemma deliver_id i (m : sact) s p t ns t' :
  pres (id_is i) m → session_id s = i → deliver m s p t ns = Some t' → session_id (ses t') = i.
Proof.
  intros Hm Hs. unfold deliver. destruct (m s) as [[] s' es| |] eqn:E; try done. intros [= <-].
  by apply (Hm _ _ _ _ E).
Qed.

Lemma session_keeps_id t e t' :
  session_inv host t → session_enabled t e = true → handle t e = Some t' → m_established (ses t') = false →
  m_established (ses t) = false ∧ session_id (ses t') = session_id (ses t).
Proof.
  intros [_ Hl] He Hh Hest.
  assert (m_established (ses t) = false) as Hest'.
  { destruct (m_established (ses t)) eqn:E; [|done]. exfalso.
    pose proof (session_event_change _ _ _ _ _ _ Hh) as Hc. destruct e;
      try (apply send_change in Hh as [Hh _]; congruence); destruct Hc as [_ _ Hc]; rewrite Hc in Hest; done. }
  split; [done|].
  destruct e as [ec k|u ec req rest|now ec|d|now u ec msg|now ec|now o ec|now k|ec|ec]; simpl in Hh;
    try (eapply deliver_id; [| |exact Hh]; [clear|reflexivity];
      first [apply id_on_write|apply id_on_timer|apply id_on_accept|apply id_handshake|apply id_ssl|apply pres_ret]).
  - simpl in He. congruence.
  - apply Nat.ltb_lt in He. rewrite (l_read _ _ Hl), Hest' in He. simpl in He. lia.
  - simpl in He. congruence.
Qed.
End accepted.

(** ** The connections *)

Section net.
Context {B : Type} `{FlatBuffer B, !FlatBufferLaws B} {Req Res U : Type}.
Context (host : byte_order) (manager : manager_handlers (B := B) (Req := Req) (Res := Res) (U := U)).
Context (srv_timeout : server_timeout) (server_cfg : server_config) (session_cfg : session_config).
Context (req0 : Req) (res0 : Res).
Context (has_on_listen has_ssl_ctx is_open : bool) (T : nat).
Context (m_bound_funcs : nat → gmap Z bool).
Abbreviation session := (session (B := B) (Req := Req) (Res := Res)).
Abbreviation session_sys := (session_sys (B := B) (Req := Req) (Res := Res)).
Abbreviation session_event := (session_event (B := B) (Req := Req) (U := U)).
Abbreviation server_net := (server_net (B := B) (Req := Req) (Res := Res)).
Abbreviation net_event := (net_event (B := B) (Req := Req) (U := U)).
Abbreviation rpc_system := (rpc_system (B := B) (Req := Req) (Res := Res)).
Abbreviation rpc_event := (rpc_event (B := B) (Req := Req) (U := U)).
Abbreviation rpc_net := (rpc_net (B := B) (Req := Req) (Res := Res)).
Abbreviation link := (link (B := B) (Req := Req) (Res := Res)).
Abbreviation handle_server := (server_handle server_cfg has_on_listen has_ssl_ctx is_open).
Abbreviation serve := (serve server_cfg has_on_listen has_ssl_ctx is_open).
Abbreviation effects := (server_effects server_cfg has_on_listen has_ssl_ctx is_open).
Abbreviation handle_net := (net_handle host manager srv_timeout server_cfg session_cfg req0 res0
  has_on_listen has_ssl_ctx is_open).
Abbreviation net_inv := (net_inv host manager srv_timeout T).
Abbreviation handle_rpc o := (rpc_handle host manager srv_timeout (m_bound_funcs o)).
Abbreviation serve_event := (serve_event srv_timeout server_cfg session_cfg req0 res0
  has_on_listen has_ssl_ctx is_open).
Abbreviation enabled := (rpc_net_enabled (Req := Req) (U := U) T).
Abbreviation handle := (rpc_net_handle host manager srv_timeout server_cfg session_cfg req0 res0
  has_on_listen has_ssl_ctx is_open m_bound_funcs).
Implicit Types (n : server_net) (y : server_sys) (t : session_sys) (p o : nat) (l : link).

(** A connection and its own history. *)
Definition linked o l : Prop :=
  ∃ is_ssl (s0 : session) r0 es, new_session_like s0 ∧ session_id s0 = l_id l ∧
    rpc_init srv_timeout is_ssl s0 = Some r0 ∧
    rpc_steps host manager srv_timeout (m_bound_funcs o) r0 es (l_rpc l).

Abbreviation end_of l := (rs_server (l_rpc l)).

Lemma linked_inv o l : linked o l → ∃ k, rpc_inv host manager k (l_rpc l).
Proof. intros (is_ssl & s0 & r0 & es & H0 & _ & H1 & H2). by apply (rpc_steps_inv _ _ _ _ _ _ _ _ _ H0 H1 H2). Qed.

Lemma linked_step o l e :
  linked o l → rpc_enabled (l_rpc l) e = true →
  ∃ r, handle_rpc o (l_rpc l) e = Some r ∧ linked o (mk_link (l_id l) r).
Proof.
  intros Hl He. destruct (linked_inv _ _ Hl) as [k Hk].
  destruct (rpc_step host manager srv_timeout (m_bound_funcs o) k (l_rpc l) e Hk He) as (r & k' & Hr & _).
  exists r. split; [done|]. destruct Hl as (is_ssl & s0 & r0 & es & H0 & Hid & H1 & H2).
  exists is_ssl, s0, r0, (es ++ [e]). split_and!; try done. by econstructor.
Qed.

Lemma client_keeps_end o (r r' : rpc_system) (e : rpc_event) :
  handle_rpc o r e = Some r' → match e with re_server _ => False | _ => True end → rs_server r' = rs_server r.
Proof.
  intros Hh He. destruct e; try done; cbn [rpc_handle] in Hh;
    repeat (case_match; try done); unfold mbind, option_bind in Hh; repeat (case_match; try done); by simplify_eq.
Qed.

Lemma server_end o (r r' : rpc_system) (e : session_event) :
  handle_rpc o r (re_server e) = Some r' → session_handle host manager srv_timeout (rs_server r) e = Some (rs_server r').
Proof. simpl. destruct (session_handle _ _ _ _ _); [|done]. by intros [= <-]. Qed.

Lemma linked_new o is_ssl (s0 : session) t :
  new_session_like s0 → session_sys_init srv_timeout is_ssl s0 = Some t →
  linked o (new_link t) ∧ accepted t = [].
Proof.
  intros Hs0 Ht. split.
  - exists is_ssl, s0, (l_rpc (new_link t)), []. split_and!; [done| |by unfold rpc_init; rewrite Ht|constructor].
    unfold session_sys_init, accept in Ht. destruct is_ssl; by injection Ht as <-.
  - unfold session_sys_init in Ht. destruct (accept _ _ _); try done. by injection Ht as <-.
Qed.

(** ** What an event of the server is *)

(** An event of the listener or of a broadcasting thread. *)
Definition serves (e : server_event) : Prop :=
  match e with sv_accept _ _ _ _ | sv_detect _ _ | sv_broadcast _ _ _ _ | sv_thread _ => True | _ => False end.

Record served n (e : server_event) n' : Prop := {
  sd_handle : handle_server (net_sys n) e = Some (net_sys n');
  sd_posts : net_posts n' = net_posts n ++ posts_of (effects (net_sys n) e);
  sd_sessions :
    net_sessions n' = net_sessions n ∧ fresh_session (wld (net_sys n')) = fresh_session (wld (net_sys n)) ∨
    ∃ is_ssl s0 t, new_session_like s0 ∧ session_sys_init srv_timeout is_ssl s0 = Some t ∧
      net_sessions n' = <[fresh_session (wld (net_sys n)) := t]> (net_sessions n) ∧
      fresh_session (wld (net_sys n')) = S (fresh_session (wld (net_sys n))) }.

Lemma served_event n e id rhost hb n' :
  net_inv n → server_enabled T (net_sys n) e = true → serves e →
  serve_event n e id rhost hb = Some n' → served n e n'.
Proof.
  intros Hi He Hk Hh. unfold ServerNet.serve_event in Hh.
  destruct (handle_server (net_sys n) e) as [y'|] eqn:E; [|done].
  pose proof (server_event_change _ _ _ _ _ _ _ _ (n_server _ _ _ _ _ Hi) He E) as Hc.
  pose proof (sc_objects _ _ _ _ _ _ _ Hc) as Ho. cbn [mbind option_bind] in Hh.
  assert (objects_after (net_sys n) (sv_thread 0) (created_of (effects (net_sys n) e)) y') as Ho'
    by (destruct e; try exact Ho; done).
  destruct Ho' as [(Hcr & Ha & Hf)|(Hcr & Hf & st & Ha)]; rewrite Hcr in Hh; simpl in Hh.
  - injection Hh as <-. split; [done|done|by left].
  - unfold create_session in Hh. rewrite Ha, lookup_insert_eq in Hh. simpl in Hh.
    destruct (session_sys_init _ _ _) as [t|] eqn:Et; [|done]. injection Hh as <-.
    split; [done|done|right]. do 3 eexists. split; [|by split]. by do 6 eexists.
Qed.

(** An event of a session object: what the session does, and what the server
    does for it. *)
Lemma post_inv n o n' :
  handle_net n (ne_post o) = Some n' →
  ∃ i p x t t' es, list_find (λ x, x.1 = o) (net_posts n) = Some (i, (o, p)) ∧
    pushes (wld (net_sys n)) !! p = Some x ∧ net_sessions n !! o = Some t ∧
    session_handle host manager srv_timeout t (ev_send (push_data x)) = Some t' ∧
    serve (net_sys n) es = Some (net_sys n') ∧ Forall (λ e, ∃ q, e = sv_release q) es ∧
    net_sessions n' = <[o := t']> (net_sessions n) ∧ net_posts n' = delete i (net_posts n).
Proof.
  cbn [net_handle]. destruct (list_find _ _) as [[i [o' p]]|] eqn:E; [|done]. cbn [mbind option_bind].
  pose proof E as (_ & Ho & _)%list_find_Some. simpl in Ho. subst o'.
  destruct (pushes _ !! p) as [x|] eqn:Ex; [|done]. cbn [mbind option_bind].
  destruct (net_sessions n !! o) as [t|] eqn:Et; [|done]. cbn [mbind option_bind].
  destruct (session_handle host manager srv_timeout _ _) as [t'|] eqn:Eh; [|done]. cbn [mbind option_bind].
  destruct (serve _ _) as [y|] eqn:Es; [|done]. intros [= <-].
  do 6 eexists. split; [done|]. split; [done|]. split; [done|]. split; [done|]. split; [exact Es|].
  split; [|done]. case_decide; repeat constructor. by eexists.
Qed.

Lemma session_ev_inv n o e n' :
  handle_net n (ne_session o e) = Some n' →
  ∃ t t' qs, net_sessions n !! o = Some t ∧
    session_handle host manager srv_timeout t e = Some t' ∧
    serve (net_sys n) (registers o t e ++ (sv_release <$> qs)) = Some (net_sys n') ∧
    net_sessions n' = <[o := t']> (net_sessions n) ∧ net_posts n' = net_posts n.
Proof.
  cbn [net_handle]. destruct (net_sessions n !! o) as [t|] eqn:Et; [|done]. cbn [mbind option_bind].
  destruct (session_handle host manager srv_timeout _ _) as [t'|] eqn:Eh; [|done]. cbn [mbind option_bind].
  destruct (serve _ _) as [y|] eqn:Es; [|done]. intros [= <-]. do 3 eexists. split; [done|]. split; [done|].
  split; [exact Es|done].
Qed.

Lemma destroy_inv n o n' :
  handle_net n (ne_destroy o) = Some n' →
  ∃ est id qs, serve (net_sys n) (sv_destroy o est id :: (sv_release <$> qs)) = Some (net_sys n') ∧
    net_sessions n' = delete o (net_sessions n) ∧ net_posts n' = net_posts n.
Proof.
  cbn [net_handle]. destruct (net_sessions n !! o) as [t|] eqn:Et; [|done]. cbn [mbind option_bind].
  destruct (serve _ _) as [y|] eqn:Es; [|done]. intros [= <-]. do 3 eexists. split; [exact Es|done].
Qed.

Lemma settles_releases qs : Forall settles (sv_release <$> qs).
Proof. apply Forall_fmap, Forall_true. done. Qed.

(** A registration: under the id of the session, which is not established
    yet. *)
Lemma registers_id o t (e : session_event) :
  session_inv host t → session_enabled t e = true →
  registers o t e = [] ∨
  m_established (ses t) = false ∧ registers o t e = [sv_add o (session_id (ses t))].
Proof.
  intros [_ Hl] He. destruct e as [| |now ec| | | | | | |]; try by left. simpl in *.
  apply Nat.ltb_lt in He. pose proof (l_handshake _ _ Hl) as Hh.
  unfold ServerSession.on_accept, timer_expires_after, read, this. destruct (ec_bool ec); [by left|]. right.
  split; [destruct (m_established (ses t)); [lia|done]|]. run_act. by case_bool_decide; run_act.
Qed.

(** ** The messages of the broadcasts *)

(** Their headers are broadcast headers. *)
Record typed y : Prop := {
  ty_push p x : pushes (wld y) !! p = Some x →
    io_header_wf (push_header (push_data x)) ∧ result_id (push_header (push_data x)) = 0;
  ty_create th call_id sb ids : threads y !! th = Some (bt_create call_id sb ids) → is_u32 call_id }.

Lemma typed_settled o y y' : settled o y y' → typed y → typed y'.
Proof.
  intros [Ht Hd _ _ _ _] [H1 H2]. split; rewrite ?Ht; [|done].
  intros p x' (x & Hx & ->)%Hd. by eapply H1.
Qed.

Lemma typed_served y e y' :
  server_inv T y → server_enabled T y e = true → serves e →
  (∀ th call_id sb ids, e = sv_broadcast th call_id sb ids → is_u32 call_id) →
  handle_server y e = Some y' → typed y → typed y'.
Proof.
  intros Hi He Hk Hu Hh [H1 H2].
  destruct e as [ec address ep_ec listen_ok|ec result| | | |th call_id sb ids|th]; try done.
  - destruct (on_accept_makes server_cfg has_on_listen has_ssl_ctx is_open ec address ep_ec listen_ok (wld y))
      as (w' & es & E & _ & Hw).
    simpl in Hh. unfold manage in Hh. simpl in Hh. rewrite E in Hh. injection Hh as <-.
    by destruct Hw as [[-> _]|[-> _]].
  - destruct (on_detect_makes server_cfg ec result (wld y)) as (w' & es & E & _ & Hw).
    simpl in Hh. unfold manage in Hh. simpl in Hh. rewrite E in Hh. injection Hh as <-.
    by destruct Hw as [[-> _]|(st & -> & _)].
  - assert (∃ ok, broadcast_check (wld y) = Done ok (wld y) []) as [ok E].
    { unfold broadcast_check. run_act. case_decide; eauto. }
    simpl in Hh. unfold manage in Hh. rewrite E in Hh. injection Hh as <-. destruct ok; [|done].
    split; [done|]. intros th' c' sb' ids'. simpl. rewrite lookup_insert_Some.
    intros [[_ [= <- _ _]]|[_ ?]]; [by eapply Hu|by eapply H2].
  - destruct (thread_stepped _ _ _ _ T y th y' Hi Hh) as [_ Hd Hc]. split.
    + intros p x' [(x & Hx & ->)|(th' & c & sb & ids & Hth & ->)]%Hd; [by eapply H1|].
      split; [|done]. apply header_wf_new; [by eapply H2|done].
    + intros th' c sb ids Hth%Hc. by eapply H2.
Qed.
End net.
