(* ===== verification/RpcNetInv.v ===== *)
(** * RpcNetInv: the invariant of the server with its connections

    Every event of the server and of the clients keeps it: the connections are
    runs of RpcSystem whose server's end is the session in the server.  An event
    makes a session accept answers or the message of a post, and what it accepted
    and may still get grows by what the event brings at most. *)

From S2P Require Import Prelude Types Header Operations ClientSession ClientSystem RpcSystem RpcSystemFacts RpcNet.
From S2P Require Import ServerSession ServerSystem ServerSystemFacts ServerProps.
From S2P Require Import SessionManager SessionManagerFacts Listener ListenerFacts ServerNet ServerNetFacts.
From S2P Require Import BroadcastCount RpcNetFacts.

#[local] Opaque config.queue_send_max.

Section net.
Context {B : Type} `{FlatBuffer B, !FlatBufferLaws B} {Req Res U : Type}.
Context (host : byte_order) (manager : manager_handlers (B := B) (Req := Req) (Res := Res) (U := U)).
Context (srv_timeout : server_timeout) (server_cfg : server_config) (session_cfg : session_config).
Context (req0 : Req) (res0 : Res).
Context (has_on_listen has_ssl_ctx is_open : bool) (T : nat).
Context (m_bound_funcs : nat → gmap Z bool).
Abbreviation session := (session (B := B) (Req := Req) (Res := Res)).
Abbreviation session_sys := (session_sys (B := B) (Req := Req) (Res := Res)).
Abbreviation session_event := (session_event (B := B) (Req := Req) (U := U)).
Abbreviation server_net := (server_net (B := B) (Req := Req) (Res := Res)).
Abbreviation net_event := (net_event (B := B) (Req := Req) (U := U)).
Abbreviation rpc_event := (rpc_event (B := B) (Req := Req) (U := U)).
Abbreviation rpc_net := (rpc_net (B := B) (Req := Req) (Res := Res)).
Abbreviation rpc_net_event := (rpc_net_event (B := B) (Req := Req) (U := U)).
Abbreviation link := (link (B := B) (Req := Req) (Res := Res)).
Abbreviation serve := (serve server_cfg has_on_listen has_ssl_ctx is_open).
Abbreviation effects := (server_effects server_cfg has_on_listen has_ssl_ctx is_open).
Abbreviation handle_net := (net_handle host manager srv_timeout server_cfg session_cfg req0 res0
  has_on_listen has_ssl_ctx is_open).
Abbreviation net_inv := (net_inv host manager srv_timeout T).
Abbreviation linked := (linked host manager srv_timeout m_bound_funcs).
Abbreviation served := (served srv_timeout server_cfg has_on_listen has_ssl_ctx is_open).
Abbreviation enabled := (rpc_net_enabled (Req := Req) (U := U) T).
Abbreviation handle := (rpc_net_handle host manager srv_timeout server_cfg session_cfg req0 res0
  has_on_listen has_ssl_ctx is_open m_bound_funcs).
Abbreviation end_of l := (rs_server (l_rpc l)).
Implicit Types (s : rpc_net) (n : server_net) (y : server_sys) (t : session_sys) (p o : nat) (l : link)
  (links : gmap nat link) (cid sid : Z) (bs : list byte)
  (sees : data_push → bool) (due : Z → list byte → option (list Z) → nat).

(** ** The invariant *)

(** How many of the messages that count a session accepted. *)
Definition got sees (ol : option link) : nat :=
  match ol with Some l => length (filter (λ d, sees d) (accepted (end_of l))) | None => 0 end.

(** Only messages of broadcasts count. *)
Definition shared_only sees : Prop := ∀ d, sees d = true → is_Some (push_shared d).

Definition shared_or_answer (d : data_push) : Prop := is_Some (push_shared d) ∨ answer manager d.

Definition id_of links o sid : Prop := ∀ l, links !! o = Some l → l_id l = sid.

Record rpc_net_inv s : Prop := {
  ri_net : net_inv (rn_server s);
  ri_links o l : rn_links s !! o = Some l → linked o l;
  ri_all o : is_Some (rn_links s !! o) ↔ (o < fresh_session (wld (net_sys (rn_server s))))%nat;
  ri_sessions o t : net_sessions (rn_server s) !! o = Some t →
    ∃ l, rn_links s !! o = Some l ∧ end_of l = t;
  ri_ids o l : rn_links s !! o = Some l → m_established (ses (end_of l)) = false →
    session_id (ses (end_of l)) = l_id l;
  ri_listed o l : rn_links s !! o = Some l → listed o (l_id l) (wld (net_sys (rn_server s)));
  ri_typed : typed (net_sys (rn_server s));
  ri_accepted o l : rn_links s !! o = Some l → Forall shared_or_answer (accepted (end_of l)) }.

(** What an event brings for a session. *)
Definition event_brings sid sees due s (e : rpc_net_event) : nat :=
  match e with
  | rn_serve (ne_broadcast th call_id sb ids) => due call_id sb ids
  | rn_serve (ne_thread th) => brings sid sees due (net_sys (rn_server s)) (sv_thread th)
  | _ => 0
  end.

(** What a session has accepted. *)
Definition heard_by (ol : option link) : list data_push :=
  match ol with Some l => accepted (end_of l) | None => [] end.

(** What it accepts in an event: answers of its own, or the message of the post
    that runs. *)
Definition hears s (e : rpc_net_event) o (ds : list data_push) : Prop :=
  Forall (answer manager) ds ∨
  ∃ i p x, e = rn_serve (ne_post o) ∧
    list_find (λ x, x.1 = o) (net_posts (rn_server s)) = Some (i, (o, p)) ∧
    pushes (wld (net_sys (rn_server s))) !! p = Some x ∧ ds = [push_data x].

(** [fo_count]: what a session accepted and what may still come grow by what the
    event brings at most. *)
Record followed s (e : rpc_net_event) s' : Prop := {
  fo_count o sid sees due : shared_only sees → id_of (rn_links s') o sid →
    (got sees (rn_links s' !! o) +
     coming o sid sees due (net_sys (rn_server s')) (net_posts (rn_server s')) ≤
     got sees (rn_links s !! o) +
     coming o sid sees due (net_sys (rn_server s)) (net_posts (rn_server s)) +
     event_brings sid sees due s e)%nat;
  fo_hears o : ∃ ds,
    heard_by (rn_links s' !! o) = heard_by (rn_links s !! o) ++ ds ∧ hears s e o ds }.

Lemma hears_nothing s e o : hears s e o [].
Proof. by left. Qed.
#[local] Hint Resolve hears_nothing : core.

Lemma hears_shared_or_answer s e o ds : net_inv (rn_server s) → hears s e o ds → Forall shared_or_answer ds.
Proof.
  intros Hi [Hd|(i & p & x & _ & _ & Hx & ->)].
  - eapply Forall_impl; [exact Hd|]. intros d. by right.
  - constructor; [|done]. left. exists p. by apply (n_shared _ _ _ _ _ Hi).
Qed.

(** A session that is not made yet is in no table. *)
Lemma listed_any s o sid : rpc_net_inv s → id_of (rn_links s) o sid → listed o sid (wld (net_sys (rn_server s))).
Proof.
  intros Hi Hid. destruct (rn_links s !! o) as [l|] eqn:E; [rewrite <-(Hid _ E); by apply (ri_listed _ Hi)|].
  assert (¬ (o < fresh_session (wld (net_sys (rn_server s))))%nat) as Hge by (rewrite <-(ri_all _ Hi), E; by intros []).
  split; intros id Hl; exfalso; apply Hge; eapply (n_known _ _ _ _ _ (ri_net _ Hi)); left; left; eauto.
Qed.

Lemma union_all links (sessions : gmap nat session_sys) :
  (∀ o t, sessions !! o = Some t → is_Some (links !! o)) → links ∪ (new_link <$> sessions) = links.
Proof.
  intros Hs. apply map_eq. intros o. rewrite lookup_union, lookup_fmap.
  destruct (links !! o) as [l|] eqn:E; [by destruct (sessions !! o)|].
  destruct (sessions !! o) as [t|] eqn:Et; [|done]. apply Hs in Et. rewrite E in Et. by destruct Et.
Qed.

Lemma union_new links (sessions : gmap nat session_sys) f t :
  (∀ o t, sessions !! o = Some t → is_Some (links !! o)) → links !! f = None →
  links ∪ (new_link <$> <[f := t]> sessions) = <[f := new_link t]> links.
Proof.
  intros Hs Hf. rewrite fmap_insert, <-insert_union_r by done. by rewrite union_all.
Qed.

Lemma got_app sees l l' ds :
  accepted (end_of l') = accepted (end_of l) ++ ds →
  got sees (Some l') = (got sees (Some l) + length (filter (λ d, sees d) ds))%nat.
Proof. intros E. simpl. by rewrite E, filter_app, length_app. Qed.

Lemma answers_unseen sees ds : shared_only sees → Forall (answer manager) ds → filter (λ d, sees d) ds = [].
Proof.
  intros Hs. induction 1 as [|d ds [Hd _] _ IH]; [done|]. rewrite filter_cons_False; [done|].
  intros Hx%Is_true_eq_true%Hs. rewrite Hd in Hx. by destruct Hx.
Qed.

Lemma posts_posted n : net_inv n → posted (net_sys n) (net_posts n).
Proof.
  intros Hi [o p] Hx. pose proof (n_refs _ _ _ _ _ Hi p) as Hr. unfold refs in Hr. simpl.
  destruct (pushes _ !! p) as [x|]; [by eexists|]. exfalso. unfold held in Hr.
  assert (0 < post_refs p (net_posts n))%nat; [|lia]. apply times_pos, list_elem_of_fmap. by exists (o, p).
Qed.

(** ** The clients *)

Abbreviation kept s e := (∃ s', handle s e = Some s' ∧ rpc_net_inv s' ∧ followed s e s').

Lemma step_at s o e : rpc_net_inv s → enabled s (rn_at o e) = true → kept s (rn_at o e).
Proof.
  intros Hi He. simpl in He. destruct (rn_links s !! o) as [l|] eqn:Hl; [|done].
  apply andb_true_iff in He as [He Hc].
  destruct (linked_step _ _ _ _ o l e (ri_links _ Hi _ _ Hl) He) as (r & Hr & Hlink).
  assert (rs_server r = end_of l) as Hend by (eapply client_keeps_end; [exact Hr|by destruct e]).
  simpl. unfold link_event. rewrite Hl. cbn [mbind option_bind]. rewrite Hr. cbn [mbind option_bind].
  eexists. split; [done|]. set (l' := mk_link (l_id l) r) in *.
  destruct Hi as [I1 I2 I3 I4 I5 I6 I7 I8].
  split; [split|split]; cbn [rn_server rn_links rn_broadcasts]; try done.
  - intros o' l1. rewrite lookup_insert_Some. intros [[<- <-]|[_ ?]]; [done|by apply I2].
  - intros o'. rewrite lookup_insert_is_Some, <-I3. split; [intros [<-|[_ ?]]; eauto|destruct (decide (o = o')); auto].
  - intros o' t (l1 & Hl1 & <-)%I4. destruct (decide (o = o')) as [<-|].
    + exists l'. rewrite lookup_insert_eq. split; [done|]. simpl. congruence.
    + exists l1. by rewrite lookup_insert_ne.
  - intros o' l1. rewrite lookup_insert_Some. intros [[<- <-]|[_ ?]]; [|by eapply I5].
    simpl. rewrite Hend. by apply (I5 o).
  - intros o' l1. rewrite lookup_insert_Some. intros [[<- <-]|[_ ?]]; [by apply (I6 o l)|by apply I6].
  - intros o' l1. rewrite lookup_insert_Some. intros [[<- <-]|[_ ?]]; [|by eapply I8].
    simpl. rewrite Hend. by apply (I8 o).
  - intros o' sid sees due Hs Hid. cbn [rn_server rn_links rn_broadcasts] in *. rewrite lookup_insert.
    case_decide as Ho; [subst o'; rewrite Hl|lia]. simpl. rewrite Hend. lia.
  - intros o'. exists []. rewrite app_nil_r, lookup_insert. split; [|done].
    case_decide as Ho; [subst o'; rewrite Hl|done]. simpl. by rewrite Hend.
Qed.

(** ** A session *)

Lemma sessions_linked s o t :
  rpc_net_inv s → net_sessions (rn_server s) !! o = Some t → is_Some (rn_links s !! o).
Proof. intros Hi (l & ? & _)%(ri_sessions _ Hi). eauto. Qed.

(** What remains of the invariant when a session took a step, in the server and
    at its connection. *)
Lemma connection_inv s (e : rpc_net_event) n' o l l' bcs :
  rpc_net_inv s → net_inv n' → rn_links s !! o = Some l → linked o l' → l_id l' = l_id l →
  is_Some (net_sessions (rn_server s) !! o) →
  net_sessions n' = <[o := end_of l']> (net_sessions (rn_server s)) →
  (∀ o', settled o' (net_sys (rn_server s)) (net_sys n')) →
  (m_established (ses (end_of l')) = false →
     m_established (ses (end_of l)) = false ∧ session_id (ses (end_of l')) = session_id (ses (end_of l))) →
  (∃ ds, accepted (end_of l') = accepted (end_of l) ++ ds ∧ hears s e o ds) →
  (∀ o' sid, id_of (rn_links s) o' sid → listed o' sid (wld (net_sys n'))) →
  (∀ o' sid sees due, shared_only sees → id_of (rn_links s) o' sid →
     (got sees (<[o := l']> (rn_links s) !! o') + coming o' sid sees due (net_sys n') (net_posts n') ≤
      got sees (rn_links s !! o') +
      coming o' sid sees due (net_sys (rn_server s)) (net_posts (rn_server s)))%nat) →
  rpc_net_inv (mk_rpc_net n' (<[o := l']> (rn_links s) ∪ (new_link <$> net_sessions n')) bcs) ∧
  followed s e (mk_rpc_net n' (<[o := l']> (rn_links s) ∪ (new_link <$> net_sessions n')) bcs).
Proof.
  intros Hi Hn Hl Hlink Hid Ht Hs Hset Hest (ds & Hacc & Hds) Hlist Hcount.
  assert (∀ o' sid, id_of (<[o := l']> (rn_links s)) o' sid → id_of (rn_links s) o' sid) as Hids.
  { intros o' sid H1 l1 Hl1. destruct (decide (o = o')) as [<-|];
      [|apply H1; by rewrite lookup_insert_ne]. rewrite Hl in Hl1. injection Hl1 as <-.
    rewrite <-Hid. apply H1, lookup_insert_eq. }
  rewrite union_all.
  2: { intros o' t. rewrite Hs, lookup_insert_Some, lookup_insert_is_Some.
       intros [[<- _]|[Hne ?%(sessions_linked s)]]; [by left|by right|done]. }
  pose proof Hi as [I1 I2 I3 I4 I5 I6 I7 I8]. split; [split|split]; cbn [rn_server rn_links rn_broadcasts]; try done.
  - intros o' l1. rewrite lookup_insert_Some. intros [[<- <-]|[_ ?]]; [done|by apply I2].
  - intros o'. rewrite lookup_insert_is_Some, (st_fresh _ _ _ (Hset o')), <-I3.
    split; [intros [<-|[_ ?]]; eauto|destruct (decide (o = o')); auto].
  - intros o' t. rewrite Hs, lookup_insert_Some. intros [[<- <-]|[Hne (l1 & Hl1 & <-)%I4]].
    + exists l'. by rewrite lookup_insert_eq.
    + exists l1. by rewrite lookup_insert_ne.
  - intros o' l1. rewrite lookup_insert_Some. intros [[<- <-]|[_ ?]]; [|by eapply I5].
    intros [He ->]%Hest. rewrite Hid. by apply (I5 o).
  - intros o' l1 Hl1. apply Hlist, Hids. intros l2. rewrite Hl1. by intros [= <-].
  - by eapply (typed_settled o).
  - intros o' l1. rewrite lookup_insert_Some. intros [[<- <-]|[_ ?]]; [|by eapply I8].
    rewrite Hacc. apply Forall_app. split; [by apply (I8 o)|by eapply hears_shared_or_answer].
  - intros o' sid sees due Hsh H1. specialize (Hcount o' sid sees due Hsh (Hids _ _ H1)). simpl in *. lia.
  - intros o'. rewrite lookup_insert. case_decide as Ho; [subst o'|exists []; by rewrite app_nil_r].
    exists ds. by rewrite Hl.
Qed.

Lemma releases_settle o sid es :
  Forall (λ e, ∃ q, e = sv_release q) es → Forall (λ e, settles e ∧ ∀ id, e = sv_add o id → id = sid) es.
Proof. intros Hes. eapply Forall_impl; [exact Hes|]. by intros e [q ->]. Qed.

(** What a session makes the server do, and that its end does. *)
Lemma session_settles s o l (e : session_event) qs o' sid :
  rpc_net_inv s → rn_links s !! o = Some l → session_enabled (end_of l) e = true → id_of (rn_links s) o' sid →
  Forall (λ e, settles e ∧ ∀ id, e = sv_add o' id → id = sid) (registers o (end_of l) e ++ (sv_release <$> qs)).
Proof.
  intros Hi Hl He Hsid. destruct (linked_inv _ _ _ _ _ _ (ri_links _ Hi _ _ Hl)) as [k Hk].
  apply Forall_app. split.
  - destruct (registers_id host o (end_of l) e (i_server _ _ _ _ Hk) He) as [->|[Hest ->]]; [done|].
    constructor; [|done]. split; [done|]. intros id [= <- <-].
    rewrite (ri_ids _ Hi o l Hl Hest). by apply Hsid.
  - apply releases_settle, Forall_fmap, Forall_true. by eexists.
Qed.

Lemma settled_all s es y y' :
  (∀ o sid, id_of (rn_links s) o sid → Forall (λ e, settles e ∧ ∀ id, e = sv_add o id → id = sid) es) →
  serve y es = Some y' → ∀ o, settled o y y'.
Proof.
  intros Hes Hs o. eapply settle_steps, Hs.
  assert (∃ sid, id_of (rn_links s) o sid) as [sid Hsid].
  { unfold id_of. destruct (rn_links s !! o) as [l|]; [exists (l_id l)|by exists 0]. by intros ? [= <-]. }
  eapply Forall_impl; [by eapply Hes|]. by intros e [? _].
Qed.

Lemma session_kept s o (e : session_event) :
  rpc_net_inv s → enabled s (rn_serve (ne_session o e)) = true → kept s (rn_serve (ne_session o e)).
Proof.
  intros Hi [He Hx]%andb_true_iff. destruct (rn_links s !! o) as [l|] eqn:Hl; [|done].
  destruct (net_step host manager srv_timeout server_cfg session_cfg req0 res0 has_on_listen has_ssl_ctx is_open T
    _ _ (ri_net _ Hi) He) as (n' & _ & Hn' & Hinv' & _).
  destruct (session_ev_inv _ _ _ _ _ _ _ _ _ _ _ _ _ _ Hn') as (t & t' & qs & Ht & Eh & Es & Hs' & Hp').
  destruct (ri_sessions _ Hi _ _ Ht) as (l1 & Hl1 & Hend). rewrite Hl in Hl1. injection Hl1 as <-.
  destruct (linked_step _ _ _ _ o l (re_server e) (ri_links _ Hi _ _ Hl) Hx) as (r & Hr & Hlink).
  pose proof (server_end _ _ _ _ _ _ _ _ Hr) as Hre. rewrite Hend, Eh in Hre. injection Hre as ->.
  cbn [rpc_net_handle at_connection]. rewrite Hn'. cbn [mbind option_bind].
  unfold link_event. rewrite Hl. cbn [mbind option_bind]. rewrite Hr. cbn [mbind option_bind].
  eexists. split; [done|].
  destruct (linked_inv _ _ _ _ _ _ (ri_links _ Hi _ _ Hl)) as [k Hk]. pose proof (i_server _ _ _ _ Hk) as Hsi.
  assert (session_enabled (end_of l) e = true) as Hen by (by apply andb_true_iff in Hx as [? _]).
  rewrite <-Hend in Eh.
  assert (∃ ds, accepted (rs_server r) = accepted (end_of l) ++ ds ∧ Forall (answer manager) ds) as (ds & Hds & Ha).
  { pose proof (session_accepts _ _ _ _ _ _ Hsi Hen Eh) as Hacc. simpl in He. rewrite Ht in He.
    destruct e; try exact Hacc. by rewrite andb_false_r in He. }
  assert (∀ o' sid, id_of (rn_links s) o' sid →
    Forall (λ e, settles e ∧ ∀ id, e = sv_add o' id → id = sid) (registers o t e ++ (sv_release <$> qs))) as Hsettles.
  { rewrite <-Hend. intros. by eapply session_settles. }
  pose proof (settled_all _ _ _ _ Hsettles Es) as Hset.
  eapply (connection_inv s _ n' o l); try done.
  - by apply (session_keeps_id host manager srv_timeout _ e).
  - exists ds. split; [done|]. by left.
  - intros o' sid Hsid. eapply listed_settles; [by apply Hsettles| |exact Es|by apply listed_any].
    intros x. eapply alive_numbered, (n_server _ _ _ _ _ (ri_net _ Hi)).
  - intros o' sid sees due Hsh Hsid. rewrite Hp'.
    pose proof (settled_coming T o' sid sees due _ _ (net_posts (rn_server s))
      (n_server _ _ _ _ _ (ri_net _ Hi)) (Hset o') (posts_posted _ (ri_net _ Hi))) as Hc.
    rewrite lookup_insert. case_decide as Ho; [subst o'|lia].
    rewrite Hl, (got_app sees l _ ds) by done. rewrite answers_unseen by done. simpl. lia.
Qed.

(** ** A post *)

(** The closure that runs was counted. *)
Lemma posts_weight_delete o sees w i x posts :
  posts !! i = Some x →
  (posts_weight o sees w (delete i posts) + post_weight o sees w x = posts_weight o sees w posts)%nat.
Proof.
  intros Hx. unfold posts_weight. rewrite delete_take_drop, sum_list_with_app.
  rewrite <-(take_drop_middle posts i x Hx) at 3. rewrite sum_list_with_app. simpl. lia.
Qed.

Lemma step_post s o :
  rpc_net_inv s → enabled s (rn_serve (ne_post o)) = true → kept s (rn_serve (ne_post o)).
Proof.
  intros Hi [He _]%andb_true_iff. pose proof (ri_net _ Hi) as Hni.
  destruct (net_step host manager srv_timeout server_cfg session_cfg req0 res0 has_on_listen has_ssl_ctx is_open T
    _ _ Hni He) as (n' & _ & Hn' & Hinv' & _).
  destruct (post_inv _ _ _ _ _ _ _ _ _ _ _ _ _ Hn')
    as (i & p & x & t & t' & es & Hfind & Hx & Ht & Eh & Es & Hes & Hs' & Hp').
  pose proof Hfind as (Hi' & _ & _)%list_find_Some.
  destruct (ri_sessions _ Hi _ _ Ht) as (l & Hl & Hend).
  assert (m_established (ses t) = true) as Hest.
  { apply bool_decide_eq_true in He. by apply (n_known _ _ _ _ _ Hni o (or_intror He)). }
  assert (session_event_enabled (l_rpc l) (ev_send (push_data x) : session_event) = true) as Hx'.
  { apply andb_true_iff. split; [simpl; by rewrite Hend|]. apply bool_decide_eq_true. by eapply ty_push, Hx; apply Hi. }
  destruct (linked_step _ _ _ _ o l (re_server (ev_send (push_data x))) (ri_links _ Hi _ _ Hl) Hx') as (r & Hr & Hlink).
  pose proof (server_end _ _ _ _ _ _ _ _ Hr) as Hre. rewrite Hend, Eh in Hre. injection Hre as ->.
  cbn [rpc_net_handle at_connection]. rewrite Hn', Hfind. cbn [mbind option_bind]. rewrite Hx. cbn [mbind option_bind].
  unfold link_event. rewrite Hl. cbn [mbind option_bind]. rewrite Hr. cbn [mbind option_bind].
  eexists. split; [done|]. rewrite <-Hend in Eh.
  assert (∃ ds, accepted (rs_server r) = accepted (end_of l) ++ ds ∧ (ds = [] ∨ ds = [push_data x])) as (ds & Hds & Ha).
  { destruct (send_accepts _ _ _ _ _ _ Eh) as [E|E]; [exists []; rewrite app_nil_r|]; eauto. }
  pose proof (settled_all s es _ _ (λ o' sid _, releases_settle o' sid es Hes) Es) as Hset.
  eapply (connection_inv s _ n' o l); try done.
  - apply send_change in Eh as [Eh _]. simpl. rewrite Eh, Hend, Hest. done.
  - exists ds. split; [done|]. destruct Ha as [-> | ->]; [done|]. right. by exists i, p, x.
  - intros o' sid Hsid. eapply listed_settles; [by apply releases_settle| |exact Es|by apply listed_any].
    intros z. eapply alive_numbered, (n_server _ _ _ _ _ Hni).
  - intros o' sid sees due Hsh Hsid. rewrite Hp'.
    pose proof (settled_coming T o' sid sees due _ _
      (delete i (net_posts (rn_server s))) (n_server _ _ _ _ _ Hni) (Hset o')) as Hc.
    specialize (Hc ltac:(intros z Hz; apply (posts_posted _ Hni);
      rewrite delete_take_drop in Hz; rewrite <-(take_drop_middle _ i (o, p) Hi'); set_solver)).
    pose proof (posts_weight_delete o' sees (wld (net_sys (rn_server s))) i (o, p) _ Hi') as Hw.
    unfold coming in Hc at 2. unfold coming at 2.
    rewrite lookup_insert. case_decide as Ho; [subst o'|lia].
    rewrite Hl, (got_app sees l _ ds) by done.
    assert (length (filter (λ d, sees d) ds) ≤ post_weight o sees (wld (net_sys (rn_server s))) (o, p))%nat; [|lia].
    destruct Ha as [-> | ->]; [simpl; lia|]. unfold post_weight, about. simpl. rewrite bool_decide_eq_true_2, Hx by done.
    rewrite filter_cons. case_decide as Hd; [|simpl; lia]. apply Is_true_eq_true in Hd. by rewrite Hd.
Qed.

(** ** The listener, the threads and the end of a session *)

(** What remains of the invariant when no connection took a step. *)
Lemma links_inv s (e : rpc_net_event) n' bcs :
  rpc_net_inv s → net_inv n' →
  (∀ o t, net_sessions n' !! o = Some t → net_sessions (rn_server s) !! o = Some t) →
  fresh_session (wld (net_sys n')) = fresh_session (wld (net_sys (rn_server s))) →
  typed (net_sys n') →
  (∀ o sid, id_of (rn_links s) o sid → listed o sid (wld (net_sys n'))) →
  (∀ o sid sees due, id_of (rn_links s) o sid →
     (coming o sid sees due (net_sys n') (net_posts n') ≤
      coming o sid sees due (net_sys (rn_server s)) (net_posts (rn_server s)) + event_brings sid sees due s e)%nat) →
  rpc_net_inv (mk_rpc_net n' (rn_links s ∪ (new_link <$> net_sessions n')) bcs) ∧
  followed s e (mk_rpc_net n' (rn_links s ∪ (new_link <$> net_sessions n')) bcs).
Proof.
  intros Hi Hn Hs Hf Ht Hlist Hcount. rewrite union_all by (intros o t ?%Hs; by eapply sessions_linked).
  destruct Hi as [I1 I2 I3 I4 I5 I6 I7 I8]. split; [split|split]; cbn [rn_server rn_links rn_broadcasts]; try done.
  - intros o. by rewrite Hf.
  - intros o t ?%Hs. by apply I4.
  - intros o l Hl. apply Hlist. intros l2. rewrite Hl. by intros [= <-].
  - intros o sid sees due _ Hid. specialize (Hcount o sid sees due Hid). simpl. lia.
  - intros o. exists []. by rewrite app_nil_r.
Qed.

Lemma step_destroy s o :
  rpc_net_inv s → enabled s (rn_serve (ne_destroy o)) = true → kept s (rn_serve (ne_destroy o)).
Proof.
  intros Hi [He _]%andb_true_iff. pose proof (ri_net _ Hi) as Hni.
  destruct (net_step host manager srv_timeout server_cfg session_cfg req0 res0 has_on_listen has_ssl_ctx is_open T
    _ _ Hni He) as (n' & _ & Hn' & Hinv' & _).
  destruct (destroy_inv _ _ _ _ _ _ _ _ _ _ _ _ _ Hn') as (est & id & qs & Es & Hs' & Hp').
  cbn [rpc_net_handle at_connection]. rewrite Hn'. cbn [mbind option_bind]. eexists. split; [done|].
  assert (∀ o' sid, Forall (λ e, settles e ∧ ∀ id, e = sv_add o' id → id = sid)
    (sv_destroy o est id :: (sv_release <$> qs))) as Hsettles.
  { intros o' sid. constructor; [done|]. apply releases_settle, Forall_fmap, Forall_true. by eexists. }
  pose proof (settled_all s _ _ _ (λ o' sid _, Hsettles o' sid) Es) as Hset.
  apply links_inv; try done.
  - intros o' t. rewrite Hs'. by intros [_ ?]%lookup_delete_Some.
  - apply (st_fresh o _ _ (Hset o)).
  - eapply (typed_settled o), Hi. apply Hset.
  - intros o' sid Hsid. eapply listed_settles; [apply Hsettles| |exact Es|by apply listed_any].
    intros z. eapply alive_numbered, (n_server _ _ _ _ _ Hni).
  - intros o' sid sees due Hsid. rewrite Hp'.
    pose proof (settled_coming T o' sid sees due _ _
      (net_posts (rn_server s)) (n_server _ _ _ _ _ Hni) (Hset o') (posts_posted _ Hni)). lia.
Qed.

(** The connection of a new session. *)
Lemma new_link_inv s (e : rpc_net_event) n' bcs is_ssl (s0 : session) t :
  let f := fresh_session (wld (net_sys (rn_server s))) in
  rpc_net_inv s → net_inv n' → new_session_like s0 → session_sys_init srv_timeout is_ssl s0 = Some t →
  net_sessions n' = <[f := t]> (net_sessions (rn_server s)) → fresh_session (wld (net_sys n')) = S f →
  typed (net_sys n') →
  (∀ o sid, id_of (rn_links s) o sid → listed o sid (wld (net_sys n'))) →
  (∀ o sid sees due, id_of (rn_links s) o sid →
     (coming o sid sees due (net_sys n') (net_posts n') ≤
      coming o sid sees due (net_sys (rn_server s)) (net_posts (rn_server s)) + event_brings sid sees due s e)%nat) →
  rpc_net_inv (mk_rpc_net n' (rn_links s ∪ (new_link <$> net_sessions n')) bcs) ∧
  followed s e (mk_rpc_net n' (rn_links s ∪ (new_link <$> net_sessions n')) bcs).
Proof.
  intros f Hi Hn Hs0 Et Hs Hf Ht Hlist Hcount.
  assert (rn_links s !! f = None) as Hnone.
  { apply eq_None_not_Some. rewrite (ri_all _ Hi). unfold f. lia. }
  destruct (linked_new host manager srv_timeout m_bound_funcs f is_ssl s0 t Hs0 Et) as [Hlink Hacc].
  rewrite Hs, union_new by (done || intros o t'; by apply sessions_linked).
  assert (∀ o sid, id_of (<[f := new_link t]> (rn_links s)) o sid → id_of (rn_links s) o sid) as Hids.
  { intros o sid H1 l Hl. apply H1. rewrite lookup_insert_ne; [done|]. intros <-. by rewrite Hnone in Hl. }
  pose proof Hi as [I1 I2 I3 I4 I5 I6 I7 I8]. split; [split|split]; cbn [rn_server rn_links rn_broadcasts]; try done.
  - intros o l. rewrite lookup_insert_Some. intros [[<- <-]|[_ ?]]; [done|by apply I2].
  - intros o. rewrite lookup_insert_is_Some, Hf, I3. fold f. destruct (decide (f = o)); naive_solver lia.
  - intros o t'. rewrite Hs, lookup_insert_Some. intros [[<- <-]|[Hne (l & Hl & <-)%I4]].
    + exists (new_link t). by rewrite lookup_insert_eq.
    + exists l. by rewrite lookup_insert_ne.
  - intros o l. rewrite lookup_insert_Some. intros [[<- <-]|[_ ?]]; [done|by eapply I5].
  - intros o l Hl. apply Hlist, Hids. intros l2. rewrite Hl. by intros [= <-].
  - intros o l. rewrite lookup_insert_Some. intros [[<- <-]|[_ ?]]; [|by eapply I8]. simpl. rewrite Hacc. constructor.
  - intros o sid sees due _ Hid. specialize (Hcount o sid sees due (Hids _ _ Hid)).
    cbn [rn_server rn_links].
    assert (got sees (<[f := new_link t]> (rn_links s) !! o) = got sees (rn_links s !! o)) as ->; [|lia].
    rewrite lookup_insert. case_decide; [subst o|done]. rewrite Hnone. simpl. by rewrite Hacc.
  - intros o. exists []. rewrite app_nil_r, lookup_insert. split; [|done]. case_decide; [subst o|done].
    by rewrite Hnone.
Qed.

(** An event of the listener or of a thread. *)
Lemma step_served s (ev : rpc_net_event) (e : server_event) n' bcs :
  rpc_net_inv s → server_enabled T (net_sys (rn_server s)) e = true → serves e →
  (∀ th call_id sb ids, e = sv_broadcast th call_id sb ids → is_u32 call_id) →
  served (rn_server s) e n' → net_inv n' →
  (∀ sid sees due, (brings sid sees due (net_sys (rn_server s)) e ≤ event_brings sid sees due s ev)%nat) →
  rpc_net_inv (mk_rpc_net n' (rn_links s ∪ (new_link <$> net_sessions n')) bcs) ∧
  followed s ev (mk_rpc_net n' (rn_links s ∪ (new_link <$> net_sessions n')) bcs).
Proof.
  intros Hi He Hk Hu [Hh Hp Hsess] Hn Hb. pose proof (n_server _ _ _ _ _ (ri_net _ Hi)) as Hsi.
  assert (typed (net_sys n')) as Ht by (eapply typed_served; try done; apply Hi).
  assert (∀ o sid, id_of (rn_links s) o sid → listed o sid (wld (net_sys n'))) as Hlist.
  { intros o sid Hid. eapply listed_event; [done| |exact Hh|by apply listed_any]. by intros id ->. }
  assert (∀ o sid sees due, id_of (rn_links s) o sid →
     (coming o sid sees due (net_sys n') (net_posts n') ≤
      coming o sid sees due (net_sys (rn_server s)) (net_posts (rn_server s)) + event_brings sid sees due s ev)%nat)
    as Hcount.
  { intros o sid sees due Hid. rewrite Hp. specialize (Hb sid sees due).
    pose proof (adds_event server_cfg has_on_listen has_ssl_ctx is_open T o sid sees due _ e _ Hsi
      (listed_any s o sid Hi Hid) He Hh (net_posts (rn_server s)) (posts_posted _ (ri_net _ Hi))). lia. }
  destruct Hsess as [[Hs Hf]|(is_ssl & s0 & t & Hs0 & Et & Hs & Hf)].
  - apply links_inv; try done. by rewrite Hs.
  - by eapply new_link_inv.
Qed.

Lemma rpc_net_step s e : rpc_net_inv s → enabled s e = true → kept s e.
Proof.
  intros Hi He. destruct e as [e|o e]; [|by apply step_at].
  destruct e as [ec address ep_ec listen_ok id|ec result id rhost hb|th call_id sb ids|th|o|o e|o];
    [..|by apply step_post|by apply session_kept|by apply step_destroy].
  all: pose proof He as [Hen Hx]%andb_true_iff.
  all: destruct (net_step host manager srv_timeout server_cfg session_cfg req0 res0 has_on_listen has_ssl_ctx is_open T
    _ _ (ri_net _ Hi) Hen) as (n' & _ & Hn' & Hinv' & _).
  all: cbn [rpc_net_handle at_connection]; rewrite Hn'; cbn [mbind option_bind]; eexists; split; [done|].
  all: pose proof (served_event _ _ _ _ _ _ _ _ _ _ _ _ _ _ _ _ _ (ri_net _ Hi) Hen I Hn') as Hsd.
  all: eapply step_served; [done|exact Hen|done| |exact Hsd|done|].
  all: try done.
  intros th' c sb' ids' [= _ <- _ _]. by apply bool_decide_eq_true in Hx.
Qed.

Lemma rpc_net_inv_init s : rpc_net_init is_open = Some s → rpc_net_inv s.
Proof.
  unfold rpc_net_init. destruct (net_init is_open) as [n|] eqn:E; [|done]. intros [= <-].
  pose proof (net_inv_init host manager srv_timeout is_open T n E) as Hn.
  assert (net_sessions n = ∅ ∧ threads (net_sys n) = ∅ ∧ net_posts n = [] ∧ pushes (wld (net_sys n)) = ∅ ∧
    fresh_session (wld (net_sys n)) = 0%nat) as (H1 & H2 & H3 & H4 & H5).
  { unfold net_init, server_sys_init, manage, listener_run, handle_accept in E. run_act.
    by destruct is_open; injection E as <-. }
  split; cbn [rn_server rn_links rn_broadcasts]; try done.
  - intros o. rewrite H5, lookup_empty. split; [by intros []|lia].
  - intros o t. by rewrite H1, lookup_empty.
  - split; [intros p x; by rewrite H4, lookup_empty|]. intros th c sb ids. by rewrite H2, lookup_empty.
Qed.
End net.
