(* ===== verification/RpcNetOrder.v ===== *)
(** * RpcNetOrder: every message once, and those of a thread in order

    What each session accepts of the broadcasts, and what it may still get: the
    messages of calls that named it, each once, those of one thread in the order
    of its calls. *)

From S2P Require Import Prelude Types Header Operations ClientSession ClientSystem RpcSystem RpcSystemFacts RpcNet.
From S2P Require Import ServerSession ServerSystem ServerSystemFacts ServerProps.
From S2P Require Import SessionManager SessionManagerFacts Listener ListenerFacts ServerNet ServerNetFacts.
From S2P Require Import BroadcastCount BroadcastHistory BroadcastOrder RpcNetFacts RpcNetInv.

#[local] Opaque config.queue_send_max.

Section order.
Context {B : Type} `{FlatBuffer B, !FlatBufferLaws B} {Req Res U : Type}.
Context (host : byte_order) (manager : manager_handlers (B := B) (Req := Req) (Res := Res) (U := U)).
Context (srv_timeout : server_timeout) (server_cfg : server_config) (session_cfg : session_config).
Context (req0 : Req) (res0 : Res).
Context (has_on_listen has_ssl_ctx is_open : bool) (T : nat).
Context (m_bound_funcs : nat → gmap Z bool).
Abbreviation server_net := (server_net (B := B) (Req := Req) (Res := Res)).
Abbreviation net_event := (net_event (B := B) (Req := Req) (U := U)).
Abbreviation rpc_net := (rpc_net (B := B) (Req := Req) (Res := Res)).
Abbreviation rpc_net_event := (rpc_net_event (B := B) (Req := Req) (U := U)).
Abbreviation handle_server := (server_handle server_cfg has_on_listen has_ssl_ctx is_open).
Abbreviation effects := (server_effects server_cfg has_on_listen has_ssl_ctx is_open).
Abbreviation serve := (serve server_cfg has_on_listen has_ssl_ctx is_open).
Abbreviation handle_net := (net_handle host manager srv_timeout server_cfg session_cfg req0 res0
  has_on_listen has_ssl_ctx is_open).
Abbreviation net_inv := (net_inv host manager srv_timeout T).
Abbreviation enabled := (rpc_net_enabled (Req := Req) (U := U) T).
Abbreviation handle := (rpc_net_handle host manager srv_timeout server_cfg session_cfg req0 res0
  has_on_listen has_ssl_ctx is_open m_bound_funcs).
Abbreviation inv := (rpc_net_inv host manager srv_timeout T m_bound_funcs).
Abbreviation followed := (followed manager).
Abbreviation hears := (hears manager).
Implicit Types (s : rpc_net) (n : server_net) (y : server_sys) (p o : nat) (bcs : list broadcast_call)
  (tg : tags) (cid sid : Z) (bs : list byte) (ds : list data_push).

(** ** What an event is to the messages *)

Inductive net_went n : net_event → server_net → Prop :=
  | nw_thread th n' :
      handle_server (net_sys n) (sv_thread th) = Some (net_sys n') →
      net_posts n' = net_posts n ++ posts_of (effects (net_sys n) (sv_thread th)) →
      net_went n (ne_thread th) n'
  | nw_call th call_id sb ids n' :
      server_enabled T (net_sys n) (sv_broadcast th call_id sb ids) = true →
      handle_server (net_sys n) (sv_broadcast th call_id sb ids) = Some (net_sys n') →
      net_posts n' = net_posts n → net_went n (ne_broadcast th call_id sb ids) n'
  | nw_post o i p n' :
      list_find (λ x, x.1 = o) (net_posts n) = Some (i, (o, p)) →
      threads (net_sys n') = threads (net_sys n) → same_messages (net_sys n) (net_sys n') →
      net_posts n' = delete i (net_posts n) → net_went n (ne_post o) n'
  | nw_quiet e n' :
      broadcast_of e = [] → (∀ th, e ≠ ne_thread th) → (∀ o, e ≠ ne_post o) →
      threads (net_sys n') = threads (net_sys n) → same_messages (net_sys n) (net_sys n') →
      net_posts n' = net_posts n → net_went n e n'.

Lemma settles_went es y y' :
  Forall settles es → serve y es = Some y' → threads y' = threads y ∧ same_messages y y'.
Proof.
  intros Hes Hs. split; [|by eapply settle_all_messages].
  eapply (st_threads 0), settle_steps; [exact Hes|exact Hs].
Qed.

Lemma registers_settle o (t : session_sys (B := B) (Req := Req) (Res := Res))
    (e : session_event (B := B) (Req := Req) (U := U)) qs :
  Forall settles (registers o t e ++ (sv_release <$> qs)).
Proof.
  apply Forall_app. split; [|apply settles_releases]. unfold registers. destruct e as [| |now ec| | | | | | |]; try done.
  destruct (ServerSession.on_accept _ _ _); try done. apply Forall_forall. intros e (x & _ & Hx)%list_elem_of_omap.
  by destruct x; simplify_eq.
Qed.

Lemma net_goes n e n' :
  net_inv n → net_enabled T n e = true → handle_net n e = Some n' → net_went n e n'.
Proof.
  intros Hi He Hh.
  destruct e as [ec address ep_ec listen_ok id|ec result id rhost hb|th call_id sb ids|th|o|o e|o].
  1-4: pose proof (served_event _ _ _ _ _ _ _ _ _ _ _ _ _ _ _ _ _ Hi He I Hh) as [Hs Hp _].
  - destruct (listener_messages _ _ _ _ _ (sv_accept ec address ep_ec listen_ok) _ I Hs) as (? & ? & E). apply nw_quiet; try done. by rewrite Hp, E, app_nil_r.
  - destruct (listener_messages _ _ _ _ _ (sv_detect ec result) _ I Hs) as (? & ? & E). apply nw_quiet; try done. by rewrite Hp, E, app_nil_r.
  - apply nw_call; try done. by rewrite Hp, app_nil_r.
  - by apply nw_thread.
  - destruct (post_inv _ _ _ _ _ _ _ _ _ _ _ _ _ Hh) as (i & p & x & t & t' & es & Hf & _ & _ & _ & Es & Hes & _ & Hp).
    assert (Forall settles es) as Hse by (eapply Forall_impl; [exact Hes|]; by intros e [q ->]).
    destruct (settles_went es _ _ Hse Es). by eapply nw_post.
  - destruct (session_ev_inv _ _ _ _ _ _ _ _ _ _ _ _ _ _ Hh) as (t & t' & qs & _ & _ & Es & _ & Hp).
    destruct (settles_went _ _ _ (registers_settle o t e qs) Es). by apply nw_quiet.
  - destruct (destroy_inv _ _ _ _ _ _ _ _ _ _ _ _ _ Hh) as (est & id & qs & Es & _ & Hp).
    destruct (settles_went _ _ _ (Forall_cons_2 settles (sv_destroy o est id) _ I (settles_releases qs)) Es).
    by apply nw_quiet.
Qed.

(** ** Messages and calls *)

Lemma answers_silent ds : Forall (answer manager) ds → omap push_shared ds = [].
Proof. induction 1 as [|d ds [Hd _] _ IH]; [done|]. simpl. by rewrite Hd. Qed.

(** A session accepts answers. *)
Lemma sent_answers o sid bcs tg y posts ds new :
  Forall (answer manager) new → sent o sid bcs tg y posts ds → sent o sid bcs tg y posts (ds ++ new).
Proof.
  intros Hnew Hs. eapply (sent_kept o sid); [by intros ? ?|by eauto| |done| |exact Hs].
  - unfold stream. by rewrite omap_app, (answers_silent new), app_nil_r by done.
  - eapply Forall_impl; [exact Hnew|]. intros d [Hd _] p Hp. congruence.
Qed.

(** A posted closure runs, and the session does not take the message, or
    does. *)
Lemma sent_dropped o sid o' i p bcs tg y posts ds :
  list_find (λ x, x.1 = o') posts = Some (i, (o', p)) →
  sent o sid bcs tg y posts ds → sent o sid bcs tg y (delete i posts) ds.
Proof.
  intros Hf Hs. pose proof Hf as (Hi & _ & _)%list_find_Some.
  eapply (sent_kept o sid); [by intros ? ?|by eauto| |by rewrite app_nil_r|done|exact Hs].
  apply sublist_app; [done|]. destruct (decide (o' = o)) as [-> |Hne].
  - rewrite (posts_for_delete _ _ _ _ Hf). by apply sublist_cons.
  - by rewrite (posts_for_other _ _ _ _ _ Hi).
Qed.

Lemma sent_run o sid i p x bcs tg y posts ds :
  made_inv bcs tg y → list_find (λ x, x.1 = o) posts = Some (i, (o, p)) → pushes (wld y) !! p = Some x →
  sent o sid bcs tg y posts ds → sent o sid bcs tg y (delete i posts) (ds ++ [push_data x]).
Proof.
  intros Hm Hf Hx Hs. destruct (mi_data _ _ _ Hm _ _ Hx) as (c & Hc & E).
  eapply (sent_kept o sid); [by intros ? ?|by eauto| |done| |exact Hs].
  - unfold stream. rewrite (posts_for_delete _ _ _ _ Hf), omap_app, E. simpl. by rewrite <-(assoc_L (++)).
  - constructor; [|done]. rewrite E. intros q [= <-]. eauto.
Qed.

Lemma net_in_line s e n' bcs tg :
  net_went (rn_server s) e n' → inv s → made_inv bcs tg (net_sys (rn_server s)) →
  ∃ tg', made_inv (bcs ++ broadcast_of e) tg' (net_sys n') ∧ ∀ o sid ds new,
    id_of (rn_links s) o sid → hears s (rn_serve e) o new →
    sent o sid bcs tg (net_sys (rn_server s)) (net_posts (rn_server s)) ds →
    sent o sid (bcs ++ broadcast_of e) tg' (net_sys n') (net_posts n') (ds ++ new).
Proof.
  intros Hw Hi Hm. pose proof (n_server _ _ _ _ _ (ri_net _ _ _ _ _ _ Hi)) as Hsi.
  destruct Hw as [th n' Hh Hp|th call_id sb ids n' He Hh Hp|o' i p n' Hf Ht Hs Hp|e n' Hb Hn1 Hn2 Ht Hs Hp];
    cbn [broadcast_of]; rewrite Hp.
  - destruct (thread_in_line _ _ _ _ T bcs tg _ th _ Hsi Hh Hm) as (tg' & Hm' & Hsent).
    exists tg'. rewrite app_nil_r. split; [done|]. intros o sid ds new Hid [Hnew|(? & ? & ? & [=] & _)] Hs.
    apply sent_answers; [done|]. apply Hsent; [|done]. by eapply listed_any.
  - destruct (call_in_line _ _ _ _ T bcs tg _ th call_id sb ids _ He Hh Hm) as (tg' & Hm' & Hsent).
    exists tg'. split; [done|]. intros o sid ds new Hid [Hnew|(? & ? & ? & [=] & _)] Hs.
    apply sent_answers; [done|]. by apply Hsent.
  - destruct (quiet_in_line bcs tg _ _ Ht Hs Hm) as [Hm' Hsent].
    exists tg. rewrite app_nil_r. split; [done|]. intros o sid ds new Hid Hnew Hsent0.
    apply Hsent. clear Hsent.
    destruct Hnew as [Hnew|(i' & p' & x & [= ->] & Hf' & Hx & ->)].
    + apply sent_answers; [done|]. by eapply sent_dropped.
    + simplify_eq. by eapply sent_run.
  - destruct (quiet_in_line bcs tg _ _ Ht Hs Hm) as [Hm' Hsent].
    exists tg. rewrite Hb, app_nil_r. split; [done|]. intros o sid ds new Hid [Hnew|(? & ? & ? & [= ->] & _)] Hsent0.
    + apply Hsent. by apply sent_answers.
    + by destruct (Hn2 o).
Qed.

(** ** Each message once, each call once *)

(** Message [p] exists. *)
Definition is_made p y : nat := Nat.b2n (bool_decide (p < fresh_push (wld y))%nat).

(** The making of a message is all that brings it. *)
Lemma brings_message s e n' p sid :
  net_went (rn_server s) e n' → inv s →
  (is_made p (net_sys (rn_server s)) +
   event_brings sid (is_message p) (λ _ _ _, 0%nat) s (rn_serve e) ≤ is_made p (net_sys n'))%nat.
Proof.
  intros Hw Hi. pose proof (n_server _ _ _ _ _ (ri_net _ _ _ _ _ _ Hi)) as Hsi. unfold is_made.
  assert (∀ k y, k = 0%nat → same_messages (net_sys (rn_server s)) y →
    (Nat.b2n (bool_decide (p < fresh_push (wld (net_sys (rn_server s))))) + k ≤
     Nat.b2n (bool_decide (p < fresh_push (wld y))))%nat) as Hsame by (intros k y -> [-> _]; lia).
  destruct Hw as [th n' Hh Hp|th call_id sb ids n' He Hh Hp|o' i p' n' Hf Ht Hs Hp|e n' Hb Hn1 Hn2 Ht Hs Hp].
  - destruct (thread_goes _ _ _ _ T _ th _ Hsi Hh) as [call_id sb ids Hb _ Hf _ _|b b' ps Hb Hadv _ Hs _|q Hb _ Hs _].
    + simpl. rewrite Hb, Hf, Nat.sub_0_r. unfold is_message. simpl.
      repeat case_bool_decide; simplify_eq/=; try lia; destruct (names _ _); simpl; lia.
    + apply Hsame; [|done]. simpl. rewrite Hb. by destruct Hadv.
    + apply Hsame; [|done]. simpl. by rewrite Hb.
  - apply call_messages in Hh as [Hs _]. by apply Hsame.
  - by apply Hsame.
  - apply Hsame; [|done]. destruct e; try done. by destruct (Hn1 th).
Qed.

(** The making of a message of a call that was counted brings nothing. *)
Lemma brings_called s (e : net_event) sid cid bs :
  event_brings sid (says cid bs) (called sid cid bs) s (rn_serve e) =
  broadcasts_for sid cid bs (broadcast_of e).
Proof.
  destruct e as [| |th call_id sb ids|th| | |]; try done; simpl.
  - unfold called, broadcasts_for. rewrite filter_cons. simpl.
    case_bool_decide as H1; case_decide as H2; destruct (names sid ids) eqn:E; try done; naive_solver.
  - destruct (threads _ !! th) as [[]|]; try done. unfold says, called, broadcasts_for. simpl.
    repeat case_bool_decide; simpl; lia || naive_solver.
Qed.

(** ** The invariant *)

Record in_order s : Prop := {
  io_sent : ∃ tg, made_inv (rn_broadcasts s) tg (net_sys (rn_server s)) ∧ ∀ o sid,
    id_of (rn_links s) o sid →
    sent o sid (rn_broadcasts s) tg (net_sys (rn_server s)) (net_posts (rn_server s)) (heard_by (rn_links s !! o));
  io_once o sid p : id_of (rn_links s) o sid →
    (got (is_message p) (rn_links s !! o) +
     coming o sid (is_message p) (λ _ _ _, 0%nat) (net_sys (rn_server s)) (net_posts (rn_server s)) ≤
     is_made p (net_sys (rn_server s)))%nat;
  io_called o sid cid bs : id_of (rn_links s) o sid →
    (got (says cid bs) (rn_links s !! o) +
     coming o sid (says cid bs) (called sid cid bs) (net_sys (rn_server s)) (net_posts (rn_server s)) ≤
     broadcasts_for sid cid bs (rn_broadcasts s))%nat }.

Lemma server_event s e s' :
  handle s (rn_serve e) = Some s' →
  net_handle host manager srv_timeout server_cfg session_cfg req0 res0 has_on_listen has_ssl_ctx is_open
    (rn_server s) e = Some (rn_server s') ∧ rn_broadcasts s' = rn_broadcasts s ++ broadcast_of e.
Proof.
  cbn [rpc_net_handle].
  destruct (net_handle host manager srv_timeout server_cfg session_cfg req0 res0 has_on_listen has_ssl_ctx is_open
    (rn_server s) e) as [n|]; [|done]. cbn [mbind option_bind].
  destruct (at_connection (rn_server s) e) as [[o e']|]; [|by intros [= <-]].
  destruct (link_event host manager srv_timeout m_bound_funcs (rn_links s) o (re_server e')); [|done]. by intros [= <-].
Qed.

Lemma client_event_keeps s o e s' :
  handle s (rn_at o e) = Some s' → rn_server s' = rn_server s ∧ rn_broadcasts s' = rn_broadcasts s.
Proof. simpl. destruct (link_event host manager srv_timeout m_bound_funcs (rn_links s) o e); [|done]. by intros [= <-]. Qed.

Lemma broadcasts_for_app sid cid bs bcs bcs' :
  broadcasts_for sid cid bs (bcs ++ bcs') =
  (broadcasts_for sid cid bs bcs + broadcasts_for sid cid bs bcs')%nat.
Proof. unfold broadcasts_for. by rewrite filter_app, length_app. Qed.

Lemma shared_message p : shared_only (is_message p).
Proof. intros d Hd%bool_decide_eq_true. eauto. Qed.

Lemma shared_says cid bs : shared_only (says cid bs).
Proof. intros d Hd%bool_decide_eq_true. tauto. Qed.

(** The ids of the sessions stay. *)
Lemma link_event_keeps (links links' : gmap nat (link (B := B) (Req := Req) (Res := Res))) o e o' l :
  link_event host manager srv_timeout m_bound_funcs links o e = Some links' → links !! o' = Some l →
  ∃ l', links' !! o' = Some l' ∧ l_id l' = l_id l.
Proof.
  unfold link_event. intros (l0 & Hl0 & (r & _ & [= <-])%bind_Some)%bind_Some Hl. rewrite lookup_insert.
  case_decide as Ho; [subst o'; simplify_eq|]; eauto.
Qed.

Lemma ids_kept s e s' o sid :
  handle s e = Some s' → id_of (rn_links s') o sid → id_of (rn_links s) o sid.
Proof.
  intros Hh Hid l Hl.
  assert (∃ l', rn_links s' !! o = Some l' ∧ l_id l' = l_id l) as (l' & Hl' & <-); [|by apply Hid].
  destruct e as [e|o1 e]; cbn [rpc_net_handle] in Hh.
  - apply bind_Some in Hh as (n' & _ & (links & Hlinks & [= <-])%bind_Some). simpl.
    assert (∃ l', links !! o = Some l' ∧ l_id l' = l_id l) as (l' & Hl' & ?).
    { destruct (at_connection _ _) as [[o1 e1]|]; [by eapply link_event_keeps|]. simplify_eq. eauto. }
    exists l'. split; [|done]. by apply lookup_union_Some_l.
  - apply bind_Some in Hh as (links & Hlinks & [= <-]). by eapply link_event_keeps.
Qed.

Lemma order_step s e s' :
  inv s → in_order s → enabled s e = true → handle s e = Some s' → followed s e s' → in_order s'.
Proof.
  intros Hi [(tg & Hm & Hsent) Honce Hcalled] He Hh [Hcount Hhears].
  pose proof (λ o sid, ids_kept s e s' o sid Hh) as Hids.
  destruct e as [e|o e].
  - apply andb_true_iff in He as [He _]. apply server_event in Hh as [Hn Hb].
    pose proof (net_goes _ _ _ (ri_net _ _ _ _ _ _ Hi) He Hn) as Hw.
    destruct (net_in_line s e _ _ tg Hw Hi Hm) as (tg' & Hm' & Hsent').
    split; rewrite ?Hb.
    + exists tg'. split; [done|]. intros o sid Hid. destruct (Hhears o) as (ds & -> & Hds). apply Hsent'; auto.
    + intros o sid p Hid. pose proof (Hcount o sid _ (λ _ _ _, 0%nat) (shared_message p) Hid).
      pose proof (brings_message s e _ p sid Hw Hi). specialize (Honce o sid p (Hids _ _ Hid)). lia.
    + intros o sid cid bs Hid. pose proof (Hcount o sid _ (called sid cid bs) (shared_says cid bs) Hid) as Hc.
      rewrite brings_called in Hc. rewrite broadcasts_for_app. specialize (Hcalled o sid cid bs (Hids _ _ Hid)). lia.
  - apply client_event_keeps in Hh as [Hn Hb]. split; rewrite ?Hn, ?Hb.
    + exists tg. split; [done|]. intros o' sid Hid. destruct (Hhears o') as (ds & -> & [Hds|(? & ? & ? & [=] & _)]).
      apply sent_answers; auto.
    + intros o' sid p Hid. pose proof (Hcount o' sid _ (λ _ _ _, 0%nat) (shared_message p) Hid) as Hc.
      rewrite Hn in Hc. simpl in Hc. specialize (Honce o' sid p (Hids _ _ Hid)). lia.
    + intros o' sid cid bs Hid. pose proof (Hcount o' sid _ (called sid cid bs) (shared_says cid bs) Hid) as Hc.
      rewrite Hn in Hc. simpl in Hc. specialize (Hcalled o' sid cid bs (Hids _ _ Hid)). lia.
Qed.

Lemma order_init s : rpc_net_init is_open = Some s → in_order s.
Proof.
  unfold rpc_net_init. destruct (net_init is_open) as [n|] eqn:E; [|done]. intros [= <-].
  assert (threads (net_sys n) = ∅ ∧ net_posts n = [] ∧ pushes (wld (net_sys n)) = ∅ ∧
    fresh_push (wld (net_sys n)) = 0%nat) as (H1 & H2 & H3 & H4).
  { unfold net_init, server_sys_init, manage, listener_run, handle_accept in E. run_act.
    by destruct is_open; injection E as <-. }
  assert (∀ o sid sees due, coming o sid sees due (net_sys n) (net_posts n) = 0%nat) as Hnone.
  { intros o sid sees due. unfold coming. rewrite H1, H2. by destruct (in_reach _ _). }
  split; cbn [rn_server rn_links rn_broadcasts].
  - exists no_tags. split.
    + split; rewrite ?H1, ?H3, ?H4; try done; intros *; by rewrite lookup_empty || by rewrite lookup_nil.
    + intros o sid _. split; rewrite ?H1, ?H2; try by constructor. intros *; by rewrite lookup_empty.
  - intros o sid p _. rewrite Hnone, lookup_empty. simpl. lia.
  - intros o sid cid bs _. by rewrite Hnone, lookup_empty.
Qed.

Lemma order_steps s es s' :
  rpc_net_init is_open = Some s →
  rpc_net_steps host manager srv_timeout server_cfg session_cfg req0 res0 has_on_listen has_ssl_ctx is_open T
    m_bound_funcs s es s' →
  (inv s' ∧ in_order s') ∧ safe enabled handle s'.
Proof.
  intros Hi Hr. eapply (steps_safe enabled handle (λ s, inv s ∧ in_order s)); [| |exact Hr].
  - intros t e [Ht Ho] He.
    destruct (rpc_net_step host manager srv_timeout server_cfg session_cfg req0 res0 has_on_listen has_ssl_ctx is_open T
      m_bound_funcs t e Ht He) as (t' & Hh & Ht' & Hf). exists t'. split; [done|]. split; [done|]. by apply (order_step t e).
  - split; [by eapply rpc_net_inv_init|by apply order_init].
Qed.
End order.
