(* ===== verification/RpcNetProps.v ===== *)
(** * RpcNetProps: broadcasts from the server to the handlers of the clients

    The runs of the whole are runs of the server and of every connection, and
    the handlers of a client are called once for a call of [broadcast] at most,
    and in the order of the calls. *)

From stdpp Require Import sorting.
From S2P Require Import Prelude Types Header Operations ClientSession ClientSystem RpcSystem RpcSystemFacts.
From S2P Require Import RpcProjection RpcBroadcast RpcProps RpcNet.
From S2P Require Import ServerSession ServerSystem ServerSystemFacts ServerProps.
From S2P Require Import SessionManager SessionManagerFacts Listener ListenerFacts ServerNet ServerNetFacts ServerNetProps.
From S2P Require Import BroadcastCount BroadcastHistory BroadcastOrder RpcNetFacts RpcNetInv RpcNetOrder.

#[local] Opaque config.queue_send_max.

Section props.
Context {B : Type} `{FlatBuffer B, !FlatBufferLaws B} {Req Res U : Type}.
Context (host : byte_order) (manager : manager_handlers (B := B) (Req := Req) (Res := Res) (U := U)).
Context (srv_timeout : server_timeout) (server_cfg : server_config) (session_cfg : session_config).
Context (req0 : Req) (res0 : Res).
Context (has_on_listen has_ssl_ctx is_open : bool) (T : nat).
Context (m_bound_funcs : nat → gmap Z bool).
Abbreviation session := (session (B := B) (Req := Req) (Res := Res)).
Abbreviation rpc_net := (rpc_net (B := B) (Req := Req) (Res := Res)).
Abbreviation rpc_net_event := (rpc_net_event (B := B) (Req := Req) (U := U)).
Abbreviation enabled := (rpc_net_enabled (Req := Req) (U := U) T).
Abbreviation handle := (rpc_net_handle host manager srv_timeout server_cfg session_cfg req0 res0
  has_on_listen has_ssl_ctx is_open m_bound_funcs).
Abbreviation runs := (rpc_net_steps host manager srv_timeout server_cfg session_cfg req0 res0
  has_on_listen has_ssl_ctx is_open T m_bound_funcs).
Abbreviation net_runs := (net_steps host manager srv_timeout server_cfg session_cfg req0 res0
  has_on_listen has_ssl_ctx is_open T).
Abbreviation inv := (rpc_net_inv host manager srv_timeout T m_bound_funcs).
Implicit Types (s : rpc_net) (es : list rpc_net_event).

(** The calls of [broadcast] of a run. *)
Definition broadcasts_in es : list broadcast_call :=
  es ≫= λ e, match e with rn_serve e => broadcast_of e | rn_at _ _ => [] end.

Lemma runs_projected s es s' :
  runs s es s' → (∃ evs, net_runs (rn_server s) evs (rn_server s')) ∧
    rn_broadcasts s' = rn_broadcasts s ++ broadcasts_in es.
Proof.
  intros Hr. induction Hr as [s|s es s1 e s2 Hr [[evs IH] IHb] [He Hh]].
  { split; [exists []; constructor|by rewrite app_nil_r]. }
  unfold broadcasts_in. rewrite bind_app. destruct e as [e|o e].
  - apply server_event in Hh as [Hh ->]. split.
    + exists (evs ++ [e]). econstructor; [exact IH|]. split; [|done]. by apply andb_true_iff in He as [? _].
    + rewrite IHb. simpl. by rewrite app_nil_r, (assoc_L (++)).
  - apply client_event_keeps in Hh as [-> ->]. split; [by exists evs|]. by rewrite IHb, app_nil_r.
Qed.

(** ** Properties *)

(** C25. The whole is its parts.  In any run of the server with its
    listener, broadcasting threads and sessions, and with a client at every
    connection, nothing is undefined; the server does what ServerNet does on its
    own; every connection does what RpcSystem does on its own, from a session
    just made; a session in the server is the server's end of its connection;
    so what is proved of either holds of the whole, and every [send_recv] of
    every client leaves its caller nothing or the answer to that very call. *)
Theorem rpc_net_parts s es s' :
  rpc_net_init is_open = Some s → runs s es s' →
  safe enabled handle s' ∧
  (∃ n evs, net_init is_open = Some n ∧ net_runs n evs (rn_server s')) ∧
  (∀ o l, rn_links s' !! o = Some l → ∃ is_ssl (s0 : session) r0 evs,
     new_session_like s0 ∧ rpc_init srv_timeout is_ssl s0 = Some r0 ∧
     rpc_steps host manager srv_timeout (m_bound_funcs o) r0 evs (l_rpc l)) ∧
  (∀ o t, net_sessions (rn_server s') !! o = Some t →
     ∃ l, rn_links s' !! o = Some l ∧ rs_server (l_rpc l) = t) ∧
  (∀ o l, rn_links s' !! o = Some l → Forall (return_ok manager) (rs_returns (l_rpc l))).
Proof.
  intros Hi Hr. destruct (order_steps _ _ _ _ _ _ _ _ _ _ _ _ s es s' Hi Hr) as [[Hinv _] Hsafe].
  split; [done|]. split; [|split; [|split; [by apply Hinv|]]].
  - unfold rpc_net_init in Hi. destruct (net_init is_open) as [n|] eqn:E; [|done]. injection Hi as <-.
    destruct (runs_projected _ _ _ Hr) as [[evs Hevs] _]. eauto.
  - intros o l Hl. destruct (ri_links _ _ _ _ _ _ Hinv o l Hl) as (is_ssl & s0 & r0 & evs & ? & _ & ? & ?). eauto 8.
  - intros o l Hl. destruct (linked_inv _ _ _ _ _ _ (ri_links _ _ _ _ _ _ Hinv o l Hl)) as [k Hk]. apply Hk.
Qed.

(** A message that is not an answer makes a call of a handler. *)
Lemma handed_said hs cid bs ds :
  (∀ f, bound_funcs manager !! cid ≠ Some (Some f)) → Forall (shared_or_answer manager) ds →
  (calls_for cid bs (omap (handed hs) ds) ≤ length (filter (λ d, says cid bs d) ds))%nat.
Proof.
  intros Hub. induction 1 as [|d ds Hd _ IH]; [done|].
  assert (calls_for cid bs (option_list (handed hs d)) ≤ length (filter (λ d, says cid bs d) [d]))%nat as H1.
  { unfold handed, calls_for. destruct (hs !! _) as [[]|]; [|simpl; lia..]. simpl. rewrite !filter_cons.
    case_decide as Hx; [|simpl; lia]. injection Hx as <- <-. rewrite decide_True; [simpl; lia|].
    unfold says. apply bool_decide_spec. split; [done|]. split; [done|].
    destruct Hd as [?|[_ [f Hf]]]; [done|]. by apply Hub in Hf. }
  change (d :: ds) with ([d] ++ ds). rewrite omap_app, filter_app, length_app.
  unfold calls_for in *. rewrite filter_app, length_app. simpl in H1 |- *. destruct (handed hs d); simpl in *; lia.
Qed.

(** What a client's handlers were called with, to ids that are no function of
    the server. *)
Definition is_function (cid : Z) : bool :=
  match bound_funcs manager !! cid with Some (Some _) => true | _ => false end.

Definition broadcasts_got (l : link (B := B) (Req := Req) (Res := Res)) : list (Z * list byte) :=
  filter (λ h, is_function h.1 = false) (handled (rs_client (l_rpc l))).

Lemma link_handled s o l :
  inv s → rn_links s !! o = Some l →
  ∃ k, handled (rs_client (l_rpc l)) =
    omap (handed (m_bound_funcs o)) (take k (ServerSystem.accepted (rs_server (l_rpc l)))).
Proof.
  intros Hinv Hl. destruct (ri_links _ _ _ _ _ _ Hinv o l Hl) as (is_ssl & s0 & r0 & evs & Hs0 & _ & Hi0 & Hr0).
  destruct (handlers_in_order host manager srv_timeout (m_bound_funcs o) is_ssl s0 r0 evs _ Hs0 Hi0 Hr0)
    as (k & _ & _ & _ & ?). eauto.
Qed.

Lemma init_broadcasts s es s' :
  rpc_net_init is_open = Some s → runs s es s' → rn_broadcasts s' = broadcasts_in es.
Proof.
  intros Hi Hr. destruct (runs_projected _ _ _ Hr) as [_ ->]. unfold rpc_net_init in Hi.
  destruct (net_init is_open); [|done]. by injection Hi as <-.
Qed.

(** The message behind such a call, and its call of [broadcast]. *)
Definition called_for bcs tg sid (h : Z * list byte) (p : nat) : Prop :=
  ∃ c, call_of bcs tg p = Some c ∧ h = (bc_call_id c, bc_bytes c) ∧ names sid (bc_session_ids c) = true.

Lemma handed_message hs bcs tg sid d :
  shared_or_answer manager d →
  (∀ p, push_shared d = Some p →
     ∃ c, call_of bcs tg p = Some c ∧ d = message_of c p ∧ names sid (bc_session_ids c) = true) →
  ∃ qs, sublist qs (option_list (push_shared d)) ∧
    Forall2 (called_for bcs tg sid) (filter (λ h, is_function h.1 = false) (option_list (handed hs d))) qs.
Proof.
  intros Hd Hc. unfold handed.
  destruct (hs !! call_id (push_header d)) as [[]|]; try (exists []; by split; [apply sublist_nil_l|]). simpl.
  rewrite filter_cons. simpl. case_decide as Hf; [|exists []; by split; [apply sublist_nil_l|]].
  destruct Hd as [[p Hp]|[_ [f Ef]]]; [|unfold is_function in Hf; by rewrite Ef in Hf].
  destruct (Hc p Hp) as (c & Hcp & E & Hn). exists [p]. rewrite Hp. split; [done|]. repeat constructor.
  exists c. by rewrite E.
Qed.

Lemma handed_messages hs bcs tg sid ds :
  Forall (shared_or_answer manager) ds →
  Forall (λ d, ∀ p, push_shared d = Some p →
    ∃ c, call_of bcs tg p = Some c ∧ d = message_of c p ∧ names sid (bc_session_ids c) = true) ds →
  ∃ ps, sublist ps (omap push_shared ds) ∧
    Forall2 (called_for bcs tg sid) (filter (λ h, is_function h.1 = false) (omap (handed hs) ds)) ps.
Proof.
  induction 1 as [|d ds Hd _ IH]; intros Hs; [by exists []|].
  apply Forall_cons in Hs as [Hc Hs]. destruct (IH Hs) as (ps & Hsub & HF).
  destruct (handed_message hs bcs tg sid d Hd Hc) as (qs & Hq & HQ).
  exists (qs ++ ps). change (d :: ds) with ([d] ++ ds). rewrite !omap_app, filter_app. simpl. split.
  - destruct (push_shared d); by apply sublist_app.
  - destruct (handed hs d); by apply Forall2_app.
Qed.

Lemma once_each ds :
  (∀ p, (length (filter (λ d, is_message p d) ds) ≤ 1)%nat) → NoDup (omap push_shared ds).
Proof.
  induction ds as [|d ds IH]; intros Hp; [constructor|]. simpl.
  assert (NoDup (omap push_shared ds)) as Hn.
  { apply IH. intros p. specialize (Hp p). rewrite filter_cons in Hp. case_decide; simpl in Hp; lia. }
  destruct (push_shared d) as [p|] eqn:Ed; [|done]. constructor; [|done].
  intros (d' & Hd' & Ed')%list_elem_of_omap. specialize (Hp p).
  rewrite filter_cons, decide_True in Hp by (by apply bool_decide_spec). simpl in Hp.
  assert (d' ∈ filter (λ d, is_message p d) ds) as Hin by (apply list_elem_of_filter; split; [by apply bool_decide_spec|done]).
  destruct (filter _ ds); [by apply not_elem_of_nil in Hin|simpl in Hp; lia].
Qed.

(** Of two calls of one thread, the earlier one. *)
Definition earlier (bcs : list broadcast_call) (j j' : nat) : Prop :=
  ∀ c c', bcs !! j = Some c → bcs !! j' = Some c' → bc_thread c = bc_thread c' → (j < j')%nat.

Lemma messages_calls bcs tg y ps :
  made_inv bcs tg y → StronglySorted (in_turn bcs tg) ps → NoDup ps → 
  StronglySorted (earlier bcs) ((λ p, default 0%nat (tg_made tg !! p)) <$> ps).
Proof.
  intros Hm Hs Hn. induction Hs as [|p ps _ IH Hp]; [constructor|]. apply NoDup_cons in Hn as [Hpn Hn]. csimpl.
  apply StronglySorted_cons. split; [|by apply IH]. apply Forall_fmap, Forall_forall. intros q Hq. simpl.
  rewrite Forall_forall in Hp. destruct (Hp q Hq) as (cp & cq & Hcp & Hcq & Hle). clear Hp.
  apply call_of_Some in Hcp as (jp & Hp' & Hjp). apply call_of_Some in Hcq as (jq & Hq' & Hjq).
  rewrite Hp', Hq'. simpl.
  intros c c' Hc Hc' Hth. simplify_eq.
  assert (p ≠ q) by (by intros ->). specialize (Hle Hth).
  apply (mi_order _ _ _ Hm p q jp jq cp cq); try done. lia.
Qed.

Lemma earlier_NoDup bcs js :
  StronglySorted (earlier bcs) js → Forall (λ j, is_Some (bcs !! j)) js → NoDup js.
Proof.
  induction 1 as [|j js _ IH Hj]; intros Hb; [constructor|]. apply Forall_cons in Hb as [[c Hc] Hb].
  constructor; [|by apply IH]. intros Hin. rewrite Forall_forall in Hj. specialize (Hj j Hin c c Hc Hc eq_refl). lia.
Qed.

(** What a session has accepted of the broadcasts. *)
Lemma accepted_in_order s o l :
  inv s → in_order s → rn_links s !! o = Some l →
  let acc := ServerSystem.accepted (rs_server (l_rpc l)) in
  ∃ tg, made_inv (rn_broadcasts s) tg (net_sys (rn_server s)) ∧
    NoDup (omap push_shared acc) ∧ StronglySorted (in_turn (rn_broadcasts s) tg) (omap push_shared acc) ∧
    Forall (λ d, ∀ p, push_shared d = Some p → ∃ c, call_of (rn_broadcasts s) tg p = Some c ∧
      d = message_of c p ∧ names (l_id l) (bc_session_ids c) = true) acc.
Proof.
  intros Hinv Hord Hl acc.
  assert (id_of (rn_links s) o (l_id l)) as Hid by (intros l'; rewrite Hl; by intros [= <-]).
  destruct (io_sent _ Hord) as (tg & Hm & Hsent). specialize (Hsent o (l_id l) Hid). rewrite Hl in Hsent.
  destruct Hsent as [_ [Hto _]%Forall_app (_ & Hin & _)%StronglySorted_app Hsays].
  exists tg. split; [done|]. split; [|split; [done|]].
  - apply once_each. intros p. pose proof (io_once _ Hord o (l_id l) p Hid) as Hp. rewrite Hl in Hp.
    unfold got, is_made in Hp. destruct (bool_decide _); simpl in Hp; unfold acc; lia.
  - apply Forall_forall. intros d Hd p Hp. simpl in Hto, Hsays. rewrite Forall_forall in Hto. rewrite Forall_forall in Hsays.
    destruct (Hsays d Hd p Hp) as (c & Hc & E). destruct (Hto p) as (c' & Hc' & Hn).
    + apply list_elem_of_omap. by exists d.
    + simplify_eq. eauto.
Qed.

(** C5. Broadcasts arrive once and in order.  In any run of the server with any
    number of sessions, broadcasting threads and clients, whatever is accepted,
    closed or lost, and however the copying of the tables, the posts and the
    writes of several broadcasts interleave: each call of a client's handler,
    for an id that is no function of the server, comes from a call of
    [broadcast] of its own, with that id and those bytes, that went to all or
    named the id of the client's session; and of two calls of [broadcast] by one
    thread, what comes from the later one comes later. *)
Theorem broadcasts_arrive_in_order s es s' o l :
  rpc_net_init is_open = Some s → runs s es s' → rn_links s' !! o = Some l →
  ∃ js,
    Forall2 (λ h j, ∃ c, broadcasts_in es !! j = Some c ∧ h = (bc_call_id c, bc_bytes c) ∧
      names (l_id l) (bc_session_ids c) = true) (broadcasts_got l) js ∧
    NoDup js ∧ StronglySorted (earlier (broadcasts_in es)) js.
Proof.
  intros Hi Hr Hl. destruct (order_steps _ _ _ _ _ _ _ _ _ _ _ _ s es s' Hi Hr) as [[Hinv Hord] _].
  rewrite <-(init_broadcasts s es s' Hi Hr). set (bcs := rn_broadcasts s').
  destruct (accepted_in_order s' o l Hinv Hord Hl) as (tg & Hm & Hn & Hin & Hsays).
  pose proof (ri_accepted _ _ _ _ _ _ Hinv o l Hl) as Hacc.
  unfold broadcasts_got. destruct (link_handled s' o l Hinv Hl) as [k ->].
  set (acc := ServerSystem.accepted _) in *.
  destruct (handed_messages (m_bound_funcs o) bcs tg (l_id l) (take k acc)) as (ps & Hsub & Hps); [by apply Forall_take..|].
  assert (sublist ps (omap push_shared acc)) as Hsub'.
  { etrans; [exact Hsub|]. rewrite <-(take_drop k acc) at 2. rewrite omap_app. by apply sublist_inserts_r. }
  set (js := (λ p, default 0%nat (tg_made tg !! p)) <$> ps).
  assert (StronglySorted (earlier bcs) js) as Hsort.
  { eapply messages_calls; [exact Hm|by eapply StronglySorted_sublist|by eapply sublist_NoDup]. }
  assert (Forall2 (λ h j, ∃ c, bcs !! j = Some c ∧ h = (bc_call_id c, bc_bytes c) ∧
      names (l_id l) (bc_session_ids c) = true)
    (filter (λ h, is_function h.1 = false) (omap (handed (m_bound_funcs o)) (take k acc))) js) as Hfrom.
  { apply Forall2_fmap_r. eapply Forall2_impl; [exact Hps|].
    intros h p (c & (j & Hj & Hc)%call_of_Some & ? & ?). exists c. simpl. by rewrite Hj. }
  exists js. split; [done|]. split; [|done]. eapply earlier_NoDup; [exact Hsort|].
  apply Forall_forall. intros j [i Hj]%list_elem_of_lookup.
  destruct (Forall2_lookup_r _ _ _ _ _ Hfrom Hj) as (h & _ & c & -> & _). eauto.
Qed.

(** So a handler that a client bound has been called with some bytes at most as
    often as [broadcast] was called with that id and those bytes for that
    client: here by counting. *)
Theorem broadcast_end_to_end s es s' o l cid bs :
  rpc_net_init is_open = Some s → runs s es s' → rn_links s' !! o = Some l →
  (∀ f, bound_funcs manager !! cid ≠ Some (Some f)) →
  (calls_for cid bs (handled (rs_client (l_rpc l))) ≤
   broadcasts_for (l_id l) cid bs (broadcasts_in es))%nat.
Proof.
  intros Hi Hr Hl Hub. destruct (order_steps _ _ _ _ _ _ _ _ _ _ _ _ s es s' Hi Hr) as [[Hinv Hord] _].
  rewrite <-(init_broadcasts s es s' Hi Hr). pose proof (io_called _ Hord o (l_id l) cid bs) as Hc. rewrite Hl in Hc.
  specialize (Hc ltac:(intros l'; rewrite Hl; by intros [= <-])). simpl in Hc.
  pose proof (ri_accepted _ _ _ _ _ _ Hinv o l Hl) as Hacc.
  destruct (link_handled s' o l Hinv Hl) as [k ->].
  set (acc := ServerSystem.accepted _) in *. rewrite <-(take_drop k acc) in Hc, Hacc.
  apply Forall_app in Hacc as [Hacc _]. rewrite filter_app, length_app in Hc.
  pose proof (handed_said (m_bound_funcs o) cid bs _ Hub Hacc). lia.
Qed.
End props.

(** ** Two broadcasts, of which one names another session *)

Module RpcNetDemo.
Definition net : Type := rpc_net (B := list byte) (Req := nat) (Res := unit).
Definition event : Type := rpc_net_event (B := list byte) (Req := nat) (U := unit).
Definition handlers (o : nat) : gmap Z bool := {[6 := true]}.
Definition message : list byte := header_bytes little_endian (new_io_header 6 0) ++ [x61].
Definition events : list event :=
  (rn_serve <$> [ne_accept ec_success "10.0.0.1" false (λ _, true) 77;
     ne_session 0 (ev_http_request tt ec_success 1%nat []); ne_session 0 (ev_accept 0 ec_success);
     ne_broadcast 1 6 [x61] None; ne_broadcast 0 6 [x61] (Some [3])] ++
     replicate 7 (ne_thread 1) ++ replicate 6 (ne_thread 0) ++ [ne_post 0]) ++
  [rn_at 0 (re_client (ce_read (λ _, 0) ec_success message))].
Definition started : net := default (mk_rpc_net NetDemo.started ∅ []) (rpc_net_init true).
Definition run_rpc_net (es : list event) : option net :=
  rpc_net_run little_endian Demo.manager Demo.timeout (ListenerDemo.server_cfg 2) Demo.cfg 0%nat tt
    false false true 2 handlers started es.
Definition reached : net := default started (run_rpc_net events).
Definition client : link (B := list byte) (Req := nat) (Res := unit) :=
  default (new_link Demo.opened) (rn_links reached !! 0%nat).

(** Another, by the thread of the first, after it; the posts run late. *)
Definition events_in_order : list event :=
  (rn_serve <$> [ne_accept ec_success "10.0.0.1" false (λ _, true) 77;
     ne_session 0 (ev_http_request tt ec_success 1%nat []); ne_session 0 (ev_accept 0 ec_success);
     ne_broadcast 1 6 [x61] None; ne_broadcast 0 6 [x63] (Some [3])] ++
     replicate 7 (ne_thread 1) ++ replicate 6 (ne_thread 0) ++
     [ne_broadcast 1 6 [x62] (Some [3; 77])] ++ replicate 7 (ne_thread 1) ++
     [ne_post 0; ne_post 0; ne_session 0 (ev_write 0 ec_success)]) ++
  [rn_at 0 (re_client (ce_read (λ _, 0) ec_success message));
   rn_at 0 (re_client (ce_read (λ _, 0) ec_success (header_bytes little_endian (new_io_header 6 0) ++ [x62])))].
Definition reached_in_order : net := default started (run_rpc_net events_in_order).
Definition client_in_order : link (B := list byte) (Req := nat) (Res := unit) :=
  default (new_link Demo.opened) (rn_links reached_in_order !! 0%nat).
End RpcNetDemo.

Lemma rpc_net_parts_witness :
  let s := RpcNetDemo.reached in
  is_Some (rn_links s !! 0%nat) ∧
  (∀ o t, net_sessions (rn_server s) !! o = Some t →
     ∃ l, rn_links s !! o = Some l ∧ rs_server (l_rpc l) = t) ∧
  (∀ o l, rn_links s !! o = Some l → Forall (return_ok Demo.manager) (rs_returns (l_rpc l))).
Proof.
  split; [vm_compute; by eexists|].
  apply (rpc_net_parts little_endian Demo.manager Demo.timeout (ListenerDemo.server_cfg 2) Demo.cfg 0%nat tt
    false false true 2 RpcNetDemo.handlers RpcNetDemo.started RpcNetDemo.events).
  - reflexivity.
  - apply run_steps. vm_compute. reflexivity.
Defined.

Lemma broadcast_end_to_end_witness :
  let l := RpcNetDemo.client in
  calls_for 6 [x61] (handled (rs_client (l_rpc l))) = 1%nat ∧
  length (broadcasts_in RpcNetDemo.events) = 2%nat ∧
  broadcasts_for (l_id l) 6 [x61] (broadcasts_in RpcNetDemo.events) = 1%nat ∧
  (calls_for 6 [x61] (handled (rs_client (l_rpc l))) ≤
   broadcasts_for (l_id l) 6 [x61] (broadcasts_in RpcNetDemo.events))%nat.
Proof.
  split; [vm_compute; reflexivity|]. split; [vm_compute; reflexivity|]. split; [vm_compute; reflexivity|].
  apply (broadcast_end_to_end little_endian Demo.manager Demo.timeout (ListenerDemo.server_cfg 2) Demo.cfg 0%nat tt
    false false true 2 RpcNetDemo.handlers RpcNetDemo.started RpcNetDemo.events RpcNetDemo.reached 0).
  - reflexivity.
  - apply run_steps. vm_compute. reflexivity.
  - vm_compute. reflexivity.
  - intros f. vm_compute. congruence.
Defined.

Lemma broadcasts_arrive_in_order_witness :
  let l := RpcNetDemo.client_in_order in
  let cs := broadcasts_in RpcNetDemo.events_in_order in
  broadcasts_got Demo.manager l = [(6, [x61]); (6, [x62])] ∧ bc_bytes <$> cs = [[x61]; [x63]; [x62]] ∧
  ∃ js,
    Forall2 (λ h j, ∃ c, cs !! j = Some c ∧ h = (bc_call_id c, bc_bytes c) ∧
      names (l_id l) (bc_session_ids c) = true) (broadcasts_got Demo.manager l) js ∧
    NoDup js ∧ StronglySorted (earlier cs) js.
Proof.
  split; [vm_compute; reflexivity|]. split; [vm_compute; reflexivity|].
  apply (broadcasts_arrive_in_order little_endian Demo.manager Demo.timeout (ListenerDemo.server_cfg 2) Demo.cfg 0%nat tt
    false false true 2 RpcNetDemo.handlers RpcNetDemo.started RpcNetDemo.events_in_order RpcNetDemo.reached_in_order 0).
  - reflexivity.
  - apply run_steps. vm_compute. reflexivity.
  - vm_compute. reflexivity.
Defined.
