(* ===== verification/ClientNet.v ===== *)
(** * ClientNet: a client, its threads, its sessions and their connections

    The composition of ClientThreads, ClientConnect and RpcSystem: any number of
    threads run the methods of one client; every session object the client makes
    is connected by the chain of [session_connect] and has a connection to a
    server's session; a command that calls into a session is the operations of
    that session, and its answer is what they return. *)

From S2P Require Import Prelude Types Header Operations DataCache DataQueue.
From S2P Require Import ServerSession ServerSystem ClientSession ClientSystem ClientConnect.
From S2P Require Import RpcSystem Prog Client ClientThreads.
#[local] Open Scope Z_scope.

(** [ec] as the caller of a session sees it. *)
Definition recv_error_code (e : option recv_error) : error_code :=
  match e with
  | None => ec_success
  | Some operation_aborted => ec_aborted
  | Some timed_out => ec_failure
  end.

Section client_net.
Context {B : Type} `{FlatBuffer B} {F Req Res U : Type}.
Context (empty_request : Req) (empty_response : Res) (has_handler : F → bool).
Context (m_client_cfg : client_config) (m_client_timeout : client_timeout) (is_ssl : bool).
(** The server at the other end: the session object of each connection. *)
Context (host : byte_order) (manager : manager_handlers (B := B) (Req := Req) (Res := Res) (U := U)).
Context (srv_timeout : server_timeout)
  (accepted_session : nat → session (B := B) (Req := Req) (Res := Res)).

Abbreviation client := (client (F := F) (Req := Req)).
Abbreviation client_cmd := (client_cmd (B := B) (F := F) (Req := Req)).
Abbreviation answer := (answer (B := B) (F := F) (Req := Req) (Res := Res)).
Abbreviation client_world := (client_world (B := B) (F := F) (Req := Req) (Res := Res)).
Abbreviation call := (call (F := F) (Req := Req)).
Abbreviation rpc_system := (rpc_system (B := B) (Req := Req) (Res := Res)).
Abbreviation rpc_event := (rpc_event (B := B) (Req := Req) (U := U)).

(** A session object of the client and its connection.  [k_early]: what [run()]
    returned without connecting; [k_closes]: the [close_session] posted by
    [close()] and not yet run; [k_funcs]: the broadcast handlers there were when
    the session was made, [k_lent]: for each promise the thread whose bytes its
    message is made of (ghost). *)
Record connection := mk_connection {
  k_connect : connect_sys (B := B);
  k_early : option connection_state;
  k_rpc : rpc_system;
  k_closes : nat;
  k_funcs : gmap Z bool;
  k_lent : gmap nat nat }.

(** [n_pings]: the threads inside [ping()] of a session, and whether they have
    reset [m_pong]; [n_calls]: the call each thread has made last, [n_threw]: the
    threads that have left one by an exception before it (ghost). *)
Record client_net := mk_client_net {
  n_world : client_world;
  n_conns : gmap nat connection;
  n_pings : gmap nat bool;
  n_calls : gmap nat call;
  n_threw : gset nat }.

Definition the_client_of (n : client_net) : client := the_client (n_world n).

Definition with_connect (y : connect_sys) (k : connection) : connection :=
  mk_connection y (k_early k) (k_rpc k) (k_closes k) (k_funcs k) (k_lent k).
Definition with_early (e : option connection_state) (k : connection) : connection :=
  mk_connection (k_connect k) e (k_rpc k) (k_closes k) (k_funcs k) (k_lent k).
Definition with_rpc (s : rpc_system) (k : connection) : connection :=
  mk_connection (k_connect k) (k_early k) s (k_closes k) (k_funcs k) (k_lent k).
Definition with_closes (c : nat) (k : connection) : connection :=
  mk_connection (k_connect k) (k_early k) (k_rpc k) c (k_funcs k) (k_lent k).
Definition with_lent (l : gmap nat nat) (k : connection) : connection :=
  mk_connection (k_connect k) (k_early k) (k_rpc k) (k_closes k) (k_funcs k) l.
Definition set_world (w : client_world) (n : client_net) : client_net :=
  mk_client_net w (n_conns n) (n_pings n) (n_calls n) (n_threw n).
Definition set_conn (x : nat) (k : connection) (n : client_net) : client_net :=
  mk_client_net (n_world n) (<[x := k]> (n_conns n)) (n_pings n) (n_calls n) (n_threw n).
Definition set_pings (m : gmap nat bool) (n : client_net) : client_net :=
  mk_client_net (n_world n) (n_conns n) m (n_calls n) (n_threw n).

(** The handlers the sessions find: [*m_bound_funcs]. *)
Definition bound_handlers (c : client) : gmap Z bool := has_handler <$> m_bound_funcs c.

(** The object before [run()]. *)
Definition no_connect : connect_sys (B := B) := mk_connect_sys new_session_connect 0 0 0 0 [].

(** The handshake has succeeded, so [read()] has been called. *)
Definition established (k : connection) : bool :=
  bool_decide (m_run_callback (sc (k_connect k)) = Some true).

(** No asynchronous operation holds the session.  The first read of [k_rpc]
    is started by [on_handshake]. *)
Definition no_operation (k : connection) : bool :=
  let y := k_connect k in let p := pend (rs_client (k_rpc k)) in
  bool_decide (resolving y + connecting y + ssl_handshaking y + handshaking y +
    (if established k then p_read p else 0) + p_write p + p_ping p + p_close p = 0)%nat.

(** And nothing is posted for it. *)
Definition no_work (k : connection) : bool :=
  let p := pend (rs_client (k_rpc k)) in
  no_operation k && bool_decide (posted p = [] ∧ posted_pings p = 0%nat ∧ k_closes k = 0%nat).

Inductive net_event : Type :=
  | ne_call (th : nat) (c : call)
  | ne_step (th : nat) (response : Res) (io_stopped : bool)
  | ne_session (th : nat) (now : time_point)    (* inside [send], [send_recv] or [ping] *)
  | ne_connect (x : nat) (e : connect_event)
  | ne_io (x : nat) (e : client_event (B := B))
  | ne_close (x : nat)                          (* a posted [close_session] *)
  | ne_server (x : nat) (e : session_event (B := B) (Req := Req) (U := U))
  | ne_io_done
  | ne_delete (x : nat)
  | ne_expire (x : nat).

(** The session a command blocks in. *)
Definition blocks_in (o : client_cmd) : option nat :=
  match o with
  | session_ping x | session_send x _ _ | session_send_recv x _ _ _ => Some x
  | _ => None
  end.

(** [uint32_t call_id] *)
Definition call_typed (c : call) : bool :=
  match c with
  | call_send i _ | call_send_recv i _ => bool_decide (is_u32 i)
  | _ => true
  end.

(** The next operation of thread [th] in the session it is blocked in. *)
Definition next_operation (th : nat) (now : time_point) (o : client_cmd) (s : rpc_system) :
    option rpc_event :=
  match o, rs_threads s !! th with
  | session_send _ i data, None => Some (re_send th (mk_rpc_call i data))
  | session_send _ _ _, Some (rt_sending _ _) => Some (re_sent th)
  | session_send_recv _ i data _, None =>
      Some (re_call th now (ct_response_timeout m_client_timeout) (mk_rpc_call i data))
  | session_send_recv _ _ _ _, Some (rt_written _ _ _) => Some (re_written th)
  | session_send_recv _ _ _ _, Some (rt_response _ _) => Some (re_response th)
  | session_send_recv _ _ _ result, Some (rt_swap _ _ _) => Some (re_swap th result)
  | _, _ => None
  end.

(** The caller's buffer after that operation: the swap alone changes it. *)
Definition buffer_after (th : nat) (o : client_cmd) (s : rpc_system) : B :=
  match o with
  | session_send_recv _ _ _ result =>
      match rs_threads s !! th with
      | Some (rt_swap _ l _) =>
          match client_call (send_recv_done l result) (rs_client s) with
          | Some (b, _) => b
          | None => result
          end
      | _ => result
      end
  | _ => fb_empty
  end.

(** [ec] after it: that of the call that returned last. *)
Definition ec_after (s : rpc_system) : error_code :=
  recv_error_code (last (rs_returns s) ≫= rr_ec).

(** The handlers the io thread runs; nothing is received, and no write
    succeeds, before the connection is established. *)
Definition io_event (k : connection) (e : client_event (B := B)) : bool :=
  match e with
  | ce_read _ _ _ | ce_control _ => established k
  | ce_write ec => established k || ec_bool ec
  | ce_ping _ | ce_close _ | ce_run_send | ce_run_ping => true
  | _ => false
  end.

(** What the environment may do now.  The counter of the result ids does not
    reach 2^64; the io context has run out of work only when no session has any. *)
Definition net_enabled (n : client_net) (e : net_event) : bool :=
  let c := the_client_of n in
  let alive_and x (P : connection → bool) :=
    bool_decide (x ∈ alive c) && match n_conns n !! x with Some k => P k | None => true end in
  match e with
  | ne_call th m => world_enabled (n_world n) (we_call th m) && call_typed m
  | ne_step th _ io_stopped =>
      match users (n_world n) !! th with
      | Some (Op o _) =>
          bool_decide (blocks_in o = None) && can_run th o c &&
          match o with
          | run_result x =>
              match n_conns n !! x with
              | Some k => bool_decide (is_Some (k_early k) ∨
                            is_Some (ClientConnect.run_result (Req := Req) (k_connect k)))
              | None => true
              end
          | session_close _ => implb io_stopped (bool_decide (m_io_worker c ≠ Some true))
          | _ => true
          end
      | _ => false
      end
  | ne_session th _ =>
      match users (n_world n) !! th with
      | Some (Op o _) =>
          match blocks_in o ≫= (n_conns n !!.) with
          | Some k => bool_decide (dc_id_counter (m_cache (cl (rs_client (k_rpc k)))) + 1 < 2 ^ 64)
          | None => bool_decide (is_Some (blocks_in o))
          end
      | _ => false
      end
  | ne_connect x e => alive_and x (λ k, connect_enabled (k_connect k) e)
  | ne_io x e => alive_and x (λ k, io_event k e && client_event_enabled (Req := Req) (Res := Res) (k_rpc k) e)
  | ne_close x => alive_and x (λ k, 0 <? k_closes k)%nat
  | ne_server x e =>
      match n_conns n !! x with Some k => session_event_enabled (k_rpc k) e | None => false end
  | ne_io_done =>
      world_enabled (n_world n) we_io_done &&
      bool_decide (map_Forall (λ x k, x ∈ alive c → no_work k = true) (n_conns n))
  | ne_delete x => world_enabled (n_world n) (we_delete x) && alive_and x no_operation
  | ne_expire x => world_enabled (n_world n) (we_expire x)
  end.

Definition step_world (e : world_event (B := B) (F := F) (Req := Req) (Res := Res)) (n : client_net) :
    option client_net :=
  w ← world_handle empty_response m_client_cfg (n_world n) e; Some (set_world w n).

Definition is_post_close (e : connect_effect (Req := Req)) : Prop :=
  match e with eff_post_close => True | _ => False end.

#[export] Instance is_post_close_dec e : Decision (is_post_close e).
Proof. destruct e; simpl; apply _. Defined.

(** What a command does in its session, and what [run()] returned. *)
Definition in_session (o : client_cmd) (io_stopped : bool) (n : client_net) :
    option (connection_state * client_net) :=
  match o with
  | run_session x =>
      k ← n_conns n !! x;
      match run_begin (Req := Req) m_client_cfg (sc (k_connect k)),
            connect_deliver (run_begin (Req := Req) m_client_cfg) (k_connect k) with
      | Done early _ _, Some y => Some (cs_none, set_conn x (with_early early (with_connect y k)) n)
      | _, _ => None
      end
  | run_result x =>
      k ← n_conns n !! x;
      match k_early k with
      | Some st => Some (st, n)
      | None => st ← ClientConnect.run_result (Req := Req) (k_connect k); Some (st, n)
      end
  | session_close x =>
      k ← n_conns n !! x;
      match close (Req := Req) io_stopped (sc (k_connect k)),
            connect_deliver (close (Req := Req) io_stopped) (k_connect k) with
      | Done _ _ es, Some y =>
          Some (cs_none, set_conn x
            (with_closes (k_closes k + length (filter is_post_close es))
              (with_connect y k)) n)
      | _, _ => None
      end
  | _ => Some (cs_none, n)
  end.

(** The connection of a session that was just made. *)
Definition new_connection (x : nat) (o : client_cmd) (n : client_net) : option client_net :=
  match o with
  | new_session =>
      s ← rpc_init srv_timeout is_ssl (accepted_session x);
      Some (set_conn x (mk_connection no_connect None s 0 (bound_handlers (the_client_of n)) ∅) n)
  | _ => Some n
  end.

(** A call made through a pointer the thread does not hold is undefined. *)
Definition held (th x : nat) (n : client_net) : bool :=
  bool_decide (user_ptrs (the_client_of n) !! th = Some x).

(** A step of thread [th] inside [ping()] of session [x]. *)
Definition ping_step (th x : nat) (k : connection) (n : client_net) : option client_net :=
  let post e := rpc_handle host manager srv_timeout (bound_handlers (the_client_of n)) (k_rpc k)
                  (re_client e) in
  match n_pings n !! th with
  | None =>
      s ← post ce_user_ping;
      Some (set_pings (<[th := false]> (n_pings n)) (set_conn x (with_rpc s k) n))
  | Some false =>
      s ← post ce_user_ping_lock;
      Some (set_pings (<[th := true]> (n_pings n)) (set_conn x (with_rpc s k) n))
  | Some true =>
      step_world (we_step th (mk_env_answer cs_none (ping_result (cl (rs_client (k_rpc k))))
                    ec_success fb_empty empty_response))
        (set_pings (delete th (n_pings n)) n)
  end.

(** The promise a thread waits for is that of a message made of its bytes. *)
Definition lend (th : nat) (s : rpc_system) (l : gmap nat nat) : gmap nat nat :=
  match rs_threads s !! th with
  | Some (rt_sending _ p) | Some (rt_written _ _ p) => <[p := th]> l
  | _ => l
  end.

(** A step inside [send] or [send_recv]: the command is answered when the call
    has returned. *)
Definition send_step (th x : nat) (now : time_point) (o : client_cmd) (k : connection)
    (n : client_net) : option client_net :=
  e ← next_operation th now o (k_rpc k);
  s ← rpc_handle host manager srv_timeout (bound_handlers (the_client_of n)) (k_rpc k) e;
  let n' := set_conn x (with_lent (lend th s (k_lent k)) (with_rpc s k)) n in
  if decide (is_Some (rs_threads s !! th)) then Some n'
  else step_world (we_step th (mk_env_answer cs_none false (ec_after s)
                     (buffer_after th o (k_rpc k)) empty_response)) n'.

Definition net_handle (n : client_net) (e : net_event) : option client_net :=
  let c := the_client_of n in
  match e with
  | ne_call th m =>
      n' ← step_world (we_call th m) n;
      Some (mk_client_net (n_world n') (n_conns n') (n_pings n') (<[th := m]> (n_calls n'))
              match users (n_world n) !! th with
              | Some (Throw _) => {[th]} ∪ n_threw n
              | _ => n_threw n
              end)
  | ne_step th response io_stopped =>
      match users (n_world n) !! th with
      | Some (Op o _) =>
          '(st, n') ← in_session o io_stopped n;
          n'' ← step_world (we_step th (mk_env_answer st false ec_success fb_empty response)) n';
          new_connection (fresh_session c) o n''
      | _ => None
      end
  | ne_session th now =>
      match users (n_world n) !! th with
      | Some (Op o _) =>
          x ← blocks_in o;
          k ← n_conns n !! x;
          if held th x n then
            match o with
            | session_ping _ => ping_step th x k n
            | _ => send_step th x now o k n
            end
          else None
      | _ => None
      end
  | ne_connect x e =>
      k ← n_conns n !! x;
      y ← connect_handle m_client_cfg m_client_timeout is_ssl
            (default empty_request (m_req_handshake c)) (k_connect k) e;
      Some (set_conn x (with_connect y k) n)
  | ne_io x e =>
      k ← n_conns n !! x;
      s ← rpc_handle host manager srv_timeout (bound_handlers c) (k_rpc k) (re_client e);
      Some (set_conn x (with_rpc s k) n)
  | ne_close x =>
      k ← n_conns n !! x;
      s ← rpc_handle host manager srv_timeout (bound_handlers c) (k_rpc k) (re_client ce_run_close);
      Some (set_conn x (with_closes (pred (k_closes k)) (with_rpc s k)) n)
  | ne_server x e =>
      k ← n_conns n !! x;
      s ← rpc_handle host manager srv_timeout (bound_handlers c) (k_rpc k) (re_server e);
      Some (set_conn x (with_rpc s k) n)
  | ne_io_done => step_world we_io_done n
  | ne_delete x => step_world (we_delete x) n
  | ne_expire x => step_world (we_expire x) n
  end.

Definition net_init : client_net := mk_client_net world_init ∅ ∅ ∅ ∅.
Definition net_steps := steps net_enabled net_handle.
Definition net_run := run net_enabled net_handle.
End client_net.
