(* ===== verification/ClientNetFacts.v ===== *)
(** * ClientNetFacts: the sessions and the programs of a client, put together

    What each part of ClientNet keeps: the connection of a session is always one
    that RpcSystem and ClientConnect reach, an operation a thread is inside of
    belongs to the command it blocks in, and the methods use what they are given
    as they should. *)

From S2P Require Import Prelude Types Header Operations DataCache DataCacheFacts DataQueue.
From S2P Require Import ServerSession ServerSystem ServerSystemFacts ClientSession ClientSystem ClientSystemFacts.
From S2P Require Import ClientConnect ClientConnectFacts RpcSystem RpcSystemFacts.
From S2P Require Import Prog Client ClientThreads ClientThreadsFacts ClientNet.
#[local] Open Scope Z_scope.

Section rpc_part.
Context {B : Type} `{FlatBuffer B, !FlatBufferLaws B} {F Req Res U : Type}.
Context (m_client_timeout : client_timeout).
Context (host : byte_order) (manager : manager_handlers (B := B) (Req := Req) (Res := Res) (U := U)).
Context (srv_timeout : server_timeout).

Abbreviation client_cmd := (client_cmd (B := B) (F := F) (Req := Req)).
Abbreviation answer := (answer (B := B) (F := F) (Req := Req) (Res := Res)).
Abbreviation rpc_system := (rpc_system (B := B) (Req := Req) (Res := Res)).
Abbreviation rpc_event := (rpc_event (B := B) (Req := Req) (U := U)).
Abbreviation handle := (rpc_handle host manager srv_timeout).
Implicit Types (s : rpc_system) (o : client_cmd).

(** ** The operations of a thread in a session *)

(** The operation [t] of a thread is part of its command [o] in session [x]. *)
Definition inside (x : nat) o (t : rpc_thread) : Prop :=
  match o, t with
  | session_send x' i data, rt_sending c _ => x' = x ∧ c = mk_rpc_call i data
  | session_send_recv x' i data _, (rt_written c _ _ | rt_response c _ | rt_swap c _ _) =>
      x' = x ∧ c = mk_rpc_call i data
  | _, _ => False
  end.

(** What the bytes of [send_recv] may be. *)
Definition bytes_ok (i : Z) (data bs : list byte) : Prop :=
  bs = [] ∨ ∃ rid, answered manager rid (mk_rpc_call i data) bs.

Definition answer_ok o : answer o → Prop :=
  match o with
  | session_send_recv _ i data _ => λ re, bytes_ok i data (fb_data (fst re))
  | _ => λ _, True
  end.

(** The buffer a method hands to [send_recv] of a session: in a later attempt
    it may hold the answer that came too late for an earlier one. *)
Definition buffer_ok o : Prop :=
  match o with
  | session_send_recv _ i data result => bytes_ok i data (fb_data result)
  | _ => True
  end.

(** What a method must see to before it calls. *)
Definition call_ok o : Prop :=
  match o with
  | session_send _ i _ | session_send_recv _ i _ _ => is_u32 i
  | _ => True
  end.

(** The thread of an event. *)
Definition rpc_thread_of (e : rpc_event) : option nat :=
  match e with
  | re_call th _ _ _ | re_written th | re_response th | re_swap th _ | re_send th _ | re_sent th => Some th
  | re_client _ | re_server _ => None
  end.

Lemma other_threads funcs s e s' th :
  handle funcs s e = Some s' → rpc_thread_of e ≠ Some th → rs_threads s' !! th = rs_threads s !! th.
Proof.
  intros Hh Hth. destruct e as [t now rt c|t|t|t b|t c|t|e|e]; cbn [rpc_handle rpc_thread_of] in *;
    try (assert (t ≠ th) by congruence);
    try (lazymatch type of Hh with context [rs_threads s !! t] =>
           destruct (rs_threads s !! t) as [[]|]; try done end).
  - destruct (client_call _ _) as [[[|[]] t']|]; [injection Hh as <-..|done]; simpl;
      by rewrite ?lookup_delete_ne, ?lookup_insert_ne.
  - destruct (client_call _ _) as [[[|[]] t']|]; [injection Hh as <-..|done]; simpl;
      by rewrite ?lookup_delete_ne, ?lookup_insert_ne.
  - destruct (client_call _ _) as [[ec' t']|]; [injection Hh as <-|done]. simpl.
    by rewrite lookup_insert_ne.
  - destruct (client_call _ _) as [[b' t']|]; [injection Hh as <-|done]. simpl.
    by rewrite lookup_delete_ne.
  - destruct (client_call _ _) as [[p t']|]; [injection Hh as <-|done]. simpl.
    by rewrite lookup_insert_ne.
  - destruct (client_call _ _) as [[r t']|]; [injection Hh as <-|done]. simpl.
    by rewrite lookup_delete_ne.
  - destruct (client_handle _ _ _ _); [|done]. by injection Hh as <-.
  - destruct (session_handle _ _ _ _ _); [|done]. by injection Hh as <-.
Qed.

(** The handlers matter to the messages read only. *)
Lemma rpc_handle_funcs funcs funcs' s e :
  match e with re_client _ => funcs' = funcs | _ => True end → handle funcs' s e = handle funcs s e.
Proof. by destruct e; simpl; intros; subst. Qed.

Lemma recv_error_code_Some (r : recv_error) : ec_bool (recv_error_code (Some r)) = true.
Proof. by destruct r. Qed.

Definition blocks_send o : Prop :=
  match o with session_send _ _ _ | session_send_recv _ _ _ _ => True | _ => False end.

(** The next operation of a thread can be made. *)
Lemma next_operation_enabled th now x o s :
  is_Some (duration_mul (ct_response_timeout m_client_timeout) 2) →
  dc_id_counter (m_cache (cl (rs_client s))) + 1 < 2 ^ 64 →
  blocks_send o → call_ok o → (∀ t, rs_threads s !! th = Some t → inside x o t) →
  ∃ e : rpc_event, next_operation m_client_timeout th now o s = Some e ∧ rpc_enabled s e = true ∧
    rpc_thread_of e = Some th.
Proof.
  intros Hv Hcnt Hb Hc Hin. unfold next_operation.
  destruct o; simpl in Hb, Hc; try done; destruct (rs_threads s !! th) as [t|] eqn:Et;
    try (specialize (Hin t eq_refl); destruct t; try done; simpl in Hin);
    (eexists; split; [reflexivity|]; simpl; rewrite ?Et; split; [|done]);
    try done; apply bool_decide_eq_true; by destruct_and?; split_and?.
Qed.

Lemma last_return n s x rs :
  rpc_inv host manager n s → rs_returns s = rs ++ [x] → return_ok manager x.
Proof.
  intros Hi E. pose proof (i_returns _ _ _ _ Hi) as Hr. rewrite E in Hr.
  apply Forall_app in Hr as [_ Hr]. by apply Forall_cons in Hr as [? _].
Qed.

(** After it the thread is inside the same command, or the command has its
    answer. *)
Lemma next_operation_result funcs th now x o s e s' n :
  next_operation m_client_timeout th now o s = Some e → handle funcs s e = Some s' →
  rpc_inv host manager n s' → blocks_in o = Some x → buffer_ok o →
  (∀ t, rs_threads s !! th = Some t → inside x o t) →
  match rs_threads s' !! th with
  | Some t => inside x o t
  | None =>
      match o with
      | session_send_recv _ i data _ => bytes_ok i data (fb_data (buffer_after th o s))
      | _ => True
      end
  end.
Proof.
  unfold next_operation. intros Hn Hh Hi Hx Hb Hin.
  destruct o as [| | | | | | | | | | | | | | |y|y i data|y i data b| | | |]; try done;
    simpl in Hx, Hb; injection Hx as ->.
  - destruct (rs_threads s !! th) as [[c p| | |]|] eqn:Et; try done; injection Hn as <-;
      cbn [rpc_handle] in Hh; rewrite ?Et in Hh; destruct (client_call _ _) as [[r t']|]; try done;
      injection Hh as <-; simpl; by rewrite ?lookup_delete_eq, ?lookup_insert_eq.
  - simpl. destruct (rs_threads s !! th) as [[c p|c rid p|c l|c l ec]|] eqn:Et; try done;
      injection Hn as <-; cbn [rpc_handle] in Hh; rewrite ?Et in Hh;
      try (specialize (Hin _ eq_refl); destruct Hin as [_ ->]);
      destruct (client_call _ _) as [[r t']|]; try done; injection Hh as <-.
    + destruct r as [|[]]; simpl; by rewrite ?lookup_delete_eq, ?lookup_insert_eq.
    + simpl. by rewrite lookup_insert_eq.
    + simpl. rewrite lookup_delete_eq.
      destruct (last_return _ _ (mk_rpc_return (mk_rpc_call i data) ec (fb_data r)) _ Hi eq_refl)
        as [?|[rid Hr]]; [by left|right; by exists rid].
    + destruct r as [|[]]; simpl; by rewrite ?lookup_delete_eq, ?lookup_insert_eq.
Qed.
(** What a call into a session gave: the [ec] of the call [r] that returned
    there; the buffer of [send_recv] holds the bytes of [r] when it was swapped,
    and is the caller's own when the call had no row. *)
Definition session_gave o (r : rpc_return) (ec : error_code) (b : B) : Prop :=
  ec = recv_error_code (rr_ec r) ∧
  match o with
  | session_send _ i data => rr_call r = mk_rpc_call i data
  | session_send_recv _ i data result =>
      rr_call r = mk_rpc_call i data ∧ (rr_bytes r = fb_data b ∨ rr_bytes r = [] ∧ b = result)
  | _ => False
  end.

(** A thread that is inside no more has returned from the call of its command. *)
Lemma next_operation_returns funcs th now x o s e s' :
  next_operation m_client_timeout th now o s = Some e → handle funcs s e = Some s' →
  blocks_in o = Some x → (∀ t, rs_threads s !! th = Some t → inside x o t) →
  rs_threads s' !! th = None →
  ∃ r, rs_returns s' = rs_returns s ++ [r] ∧
    session_gave o r (recv_error_code (rr_ec r)) (buffer_after th o s).
Proof.
  unfold next_operation, session_gave. intros Hn Hh Hx Hin.
  destruct o as [| | | | | | | | | | | | | | |y|y i data|y i data b| | | |]; try done; simpl in Hx; injection Hx as ->;
    simpl; destruct (rs_threads s !! th) as [[c p|c rid p|c l|c l ec]|] eqn:Et; try done;
    injection Hn as <-; cbn [rpc_handle] in Hh; rewrite ?Et in Hh;
    try (specialize (Hin _ eq_refl); destruct Hin as [_ ->]);
    destruct (client_call _ _) as [[r t']|]; try done; injection Hh as <-;
    repeat case_match; simpl; rewrite ?lookup_delete_eq, ?lookup_insert_eq; try done;
    intros _; eexists; (split; [reflexivity|]); simpl; auto.
Qed.
End rpc_part.
