(* ===== verification/ClientNetPrograms.v ===== *)
(** * ClientNetPrograms: the methods of the client use a session as they should

    In the runs in which a session answers [send_recv] right: a session is run
    once, by the thread that has made it; [send] and [send_recv] of a session are
    called with the arguments of the method, [send_recv] with a buffer without
    bytes or with those of a right answer that came too late for an earlier
    attempt; and the method returns no bytes, or those of a right answer. *)

From S2P Require Import Prelude Types Header Operations DataCache DataQueue.
From S2P Require Import ServerSession ServerSystem ClientSession ClientSystem ClientConnect.
From S2P Require Import RpcSystem Prog Client ClientThreads ClientNet ClientNetFacts.
#[local] Open Scope Z_scope.

Section programs.
Context {B : Type} `{FlatBuffer B, !FlatBufferLaws B} {F Req Res U : Type}.
Context (empty_response : Res) (m_client_cfg : client_config).
Context (manager : manager_handlers (B := B) (Req := Req) (Res := Res) (U := U)).

Abbreviation client_cmd := (client_cmd (B := B) (F := F) (Req := Req)).
Abbreviation answer := (answer (B := B) (F := F) (Req := Req) (Res := Res)).
Abbreviation call := (call (F := F) (Req := Req)).
Abbreviation prog := (prog answer).
Implicit Types (c : call) (m : option nat) (o : client_cmd).

(** [m]: the session the thread has made and not yet run. *)
Definition may_call c m o : Prop :=
  match o with
  | run_session x => m = Some x
  | session_send _ i data => c = call_send i data ∧ call_ok o
  | session_send_recv _ i data _ => c = call_send_recv i data ∧ call_ok o ∧ buffer_ok manager o
  | _ => call_ok o
  end.

Definition made m o : answer o → option nat :=
  match o with
  | new_session => λ x, Some x
  | run_session _ => λ _, None
  | _ => λ _, m
  end.

Definition prog_ok c m {A} (p : prog A) (Q : A → Prop) : Prop :=
  ok_given (answer_ok manager) (may_call c) made m p (λ a _, Q a) (λ _, True).

(** A program that calls as it may, whatever it is left with. *)
Definition fine c {A} (p : prog A) : Prop := ∀ m, prog_ok c m p (λ _, True).

Lemma prog_ok_fine c m {A C} (p : prog A) (f : A → prog C) Q :
  fine c p → (∀ a m, prog_ok c m (f a) Q) → prog_ok c m (prog_bind p f) Q.
Proof.
  intros Hp Hf. apply ok_given_bind. eapply ok_given_mono; [apply Hp|intros; apply Hf|done].
Qed.

Lemma fine_ret c {A} (a : A) : fine c (Ret a).
Proof. by intros m. Qed.
Lemma fine_throw c {A} why : fine c (Throw (A := A) why).
Proof. by intros m. Qed.
Lemma fine_op c o : (∀ m, may_call c m o) → fine c (op (answer := answer) o).
Proof. intros Ho m. by split. Qed.
Lemma fine_bind c {A C} (p : prog A) (f : A → prog C) :
  fine c p → (∀ a, fine c (f a)) → fine c (prog_bind p f).
Proof. intros Hp Hf m. apply prog_ok_fine; [done|]. intros. apply Hf. Qed.
Lemma fine_finally c {A} (p : prog A) q : fine c p → fine c q → fine c (finally p q).
Proof.
  intros Hp Hq m. apply ok_given_finally.
  eapply ok_given_mono; [apply Hp|intros; apply Hq|intros; apply Hq].
Qed.

Lemma fine_construct c : fine c (construct_session (B := B) (F := F) (Req := Req) (Res := Res)).
Proof.
  intros m. split; [done|]. intros [] _; [|done].
  by repeat (split; [done|intros ? _; simpl]).
Qed.

(** Down to the commands. *)
Ltac solve_fine :=
  repeat first
    [ apply fine_ret | apply fine_throw | apply fine_construct
    | (apply fine_bind; [|intros ?]) | apply fine_finally | (apply fine_op; by intros ?)
    | match goal with
      | |- fine _ (if ?b then _ else _) => destruct b
      | |- fine _ (match ?x with _ => _ end) => destruct x
      end ].

Lemma fine_connect c : fine c (connect (B := B) (F := F) (Req := Req) (Res := Res)).
Proof. unfold connect, with_write_lock. solve_fine. Qed.

Lemma fine_connect_loop c d i n :
  fine c (connect_loop (B := B) (F := F) (Req := Req) (Res := Res) d i n).
Proof.
  revert i. induction n as [|n IH]; intros i; cbn [connect_loop]; unfold wait_destruction; [apply fine_ret|].
  solve_fine. apply IH.
Qed.

Lemma fine_disconnect c : fine c (disconnect (B := B) (F := F) (Req := Req) (Res := Res)).
Proof. unfold disconnect, with_write_lock, close_active, wait_destruction. solve_fine. Qed.

Lemma fine_recover c expired ec :
  fine c (recover (B := B) (F := F) (Req := Req) (Res := Res) expired ec).
Proof. unfold recover. solve_fine. Qed.

Lemma fine_send_loop c id data i n :
  is_u32 id → c = call_send id data →
  fine c (send_loop (B := B) (F := F) (Req := Req) (Res := Res) m_client_cfg id data i n).
Proof.
  intros Hid ->. revert i. induction n as [|n IH]; intros i; cbn [send_loop]; [apply fine_ret|].
  unfold send_locked, with_read_lock. solve_fine; first [apply fine_recover|apply IH].
Qed.

(** One pass of [send_recv]: what its session has answered. *)
Lemma prog_ok_locked id data result m :
  is_u32 id → bytes_ok manager id data (fb_data result) →
  prog_ok (call_send_recv id data) m (send_recv_locked (F := F) (Req := Req) (Res := Res) id data result)
    (λ r, match r with
          | None => True
          | Some (_, b, _) => bytes_ok manager id data (fb_data b)
          end).
Proof.
  intros Hid Hr. unfold send_recv_locked, with_read_lock.
  split; [done|]. intros [] _. split; [done|]. intros [] _; [by split|].
  split; [done|]. intros [o|] _.
  - split; [done|]. intros [b ec] Hb. split; [done|]. intros [] _. split; [done|]. by intros [] _.
  - split; [done|]. by intros [] _.
Qed.

Lemma prog_ok_send_recv id data result i n m :
  is_u32 id → bytes_ok manager id data (fb_data result) →
  prog_ok (call_send_recv id data) m
    (send_recv_loop (F := F) (Req := Req) (Res := Res) m_client_cfg id data result i n)
    (λ b, bytes_ok manager id data (fb_data b)).
Proof.
  intros Hid. revert result i m. induction n as [|n IH]; intros result i m Hr; cbn [send_recv_loop];
    [done|].
  apply prog_ok_fine; [solve_fine|]. intros _ m1. apply ok_given_bind.
  eapply ok_given_mono; [by apply prog_ok_locked| |done]. intros [[[expired b] ec]|] m2; [|done].
  intros Hb. apply prog_ok_fine; [apply fine_recover|]. intros _ m3.
  destruct (ec_bool ec), expired; simpl; first [exact Hb|by apply IH].
Qed.

(** What a call may return. *)
Definition value_ok c (v : value (B := B) (Res := Res)) : Prop :=
  match c, v with
  | call_send_recv i data, v_buffer b => bytes_ok manager i data (fb_data b)
  | _, _ => True
  end.

Lemma method_ok c :
  call_typed c = true → prog_ok c None (method empty_response m_client_cfg c) (value_ok c).
Proof.
  intros Hc. destruct c; cbn [method call_typed] in *; try apply bool_decide_eq_true in Hc;
    try (apply prog_ok_fine; [|by intros ? ?]).
  - apply fine_connect.
  - unfold connect_attempts, with_write_lock. solve_fine. apply fine_connect_loop.
  - apply fine_disconnect.
  - unfold ping, with_write_lock. solve_fine.
  - by apply fine_send_loop.
  - apply ok_given_bind. eapply ok_given_mono; [apply prog_ok_send_recv; [done|left; apply fb_data_empty]| |done].
    done.
  - unfold listen_broadcast, with_write_lock. solve_fine.
  - unfold set_handshake_request, with_write_lock. solve_fine.
  - unfold get_handshake_response, with_write_lock. solve_fine.
  - unfold destroy, close_active, wait_destruction. solve_fine.
Qed.
End programs.
