(* ===== verification/ClientNetInv.v ===== *)
(** * ClientNetInv: the invariant of a client with its sessions *)

From S2P Require Import Prelude Types Header Operations DataCache DataCacheFacts DataQueue.
From S2P Require Import ServerSession ServerSystem ServerSystemFacts ClientSession ClientSystem ClientSystemFacts.
From S2P Require Import ClientConnect ClientConnectFacts RpcSystem RpcSystemFacts.
From S2P Require Import Prog Client ClientThreads ClientThreadsFacts ClientWorld.
From S2P Require Import ClientNet ClientNetFacts ClientNetPrograms.
#[local] Open Scope Z_scope.

Section invariant.
Context {B : Type} `{FlatBuffer B, !FlatBufferLaws B} {F Req Res U : Type}.
Context (empty_request : Req) (empty_response : Res) (has_handler : F → bool).
Context (m_client_cfg : client_config) (m_client_timeout : client_timeout) (is_ssl : bool).
Context (host : byte_order) (manager : manager_handlers (B := B) (Req := Req) (Res := Res) (U := U)).
Context (srv_timeout : server_timeout)
  (accepted_session : nat → session (B := B) (Req := Req) (Res := Res)).

Abbreviation client := (client (F := F) (Req := Req)).
Abbreviation client_cmd := (client_cmd (B := B) (F := F) (Req := Req)).
Abbreviation answer := (answer (B := B) (F := F) (Req := Req) (Res := Res)).
Abbreviation client_net := (client_net (B := B) (F := F) (Req := Req) (Res := Res)).
Abbreviation connection := (connection (B := B) (Req := Req) (Res := Res)).
Abbreviation connect_sys := (connect_sys (B := B)).
Abbreviation net_event := (net_event (B := B) (F := F) (Req := Req) (Res := Res) (U := U)).
Abbreviation rpc_system := (rpc_system (B := B) (Req := Req) (Res := Res)).
Abbreviation enabled := (net_enabled (B := B) (F := F) (Req := Req) (Res := Res) (U := U)).
Abbreviation handle := (net_handle empty_request empty_response has_handler m_client_cfg
  m_client_timeout is_ssl host manager srv_timeout accepted_session).
Abbreviation rpc_h := (rpc_handle host manager srv_timeout).
Implicit Types (n : client_net) (k : connection) (y : connect_sys) (s : rpc_system) (o : client_cmd).

(** ** The connecting of a session *)

(** [m_close_initiated] does not matter to the chain. *)
Definition reopen y : connect_sys :=
  mk_connect_sys (set_m_close_initiated false (sc y)) (resolving y) (connecting y)
    (ssl_handshaking y) (handshaking y) (base_effects y).

Abbreviation conn_handle := (connect_handle (Req := Req) m_client_cfg m_client_timeout is_ssl).

(** A state of the chain. *)
Definition connects y : Prop :=
  ∃ y0 es, connect_sys_init (B := B) (Req := Req) m_client_cfg = Some y0 ∧
    connect_steps m_client_cfg m_client_timeout is_ssl empty_request y0 es y.

Definition connect_ok y : Prop := reopen y = no_connect ∨ connects (reopen y).

(** Not run yet. *)
Definition unrun k : Prop := reopen (k_connect k) = no_connect ∧ k_early k = None.

Lemma reopen_handle req req' y e :
  reopen <$> conn_handle req y e = conn_handle req' (reopen y) e.
Proof.
  destruct y as [[b st cb ci] r c l h be], e as [ec|ec|ec|ec]; simpl;
    unfold on_resolve, on_connect, ssl_handshake, on_ssl_handshake, on_handshake, set_value_run,
      connect_deliver; destruct (ec_bool ec); simpl; run_act;
    try (by destruct cb); try (by destruct is_ssl); unfold on_base, read; run_act; by destruct cb.
Qed.

Lemma connect_ok_step req y e :
  connect_ok y → connect_enabled y e = true →
  ∃ y', conn_handle req y e = Some y' ∧ connect_ok y'.
Proof.
  intros [Hn|(y0 & es & Hi & Hs)] He.
  - assert (connect_enabled (reopen y) e = true) as He' by (by destruct e).
    rewrite Hn in He'. by destruct e.
  - destruct (connect_result m_client_cfg m_client_timeout is_ssl empty_request _ _ _ Hi Hs) as [Hsafe _].
    assert (connect_enabled (reopen y) e = true) as He' by (by destruct e).
    destruct (Hsafe e He') as [y1 H1]. pose proof H1 as H2.
    rewrite <-(reopen_handle req) in H2. destruct (conn_handle req y e) as [y'|]; [|done].
    exists y'. split; [done|]. injection H2 as <-. right. exists y0, (es ++ [e]). split; [done|].
    by econstructor.
Qed.

Lemma run_begin_ok k :
  unrun k →
  ∃ early st es y, run_begin (Req := Req) m_client_cfg (sc (k_connect k)) = Done early st es ∧
    connect_deliver (run_begin (Req := Req) m_client_cfg) (k_connect k) = Some y ∧ connect_ok y.
Proof.
  intros [Hr _]. destruct (k_connect k) as [[b st cb ci] r c l h be].
  unfold reopen, no_connect in Hr. simpl in Hr. injection Hr as -> -> -> -> -> -> -> ->.
  destruct ci; (do 4 eexists; split; [reflexivity|]; split; [reflexivity|]); [by left|].
  right. eexists _, []. split; [reflexivity|]. constructor.
Qed.

Lemma close_ok io_stopped y :
  ∃ st es y', close (Req := Req) io_stopped (sc y) = Done tt st es ∧
    connect_deliver (close (Req := Req) io_stopped) y = Some y' ∧ reopen y' = reopen y.
Proof.
  destruct y as [[b st cb ci] r c l h be]. unfold connect_deliver, close. run_act.
  destruct ci; [by do 3 eexists|]. destruct io_stopped; by do 3 eexists.
Qed.

(** ** The connections *)

Record connection_ok (x : nat) k : Prop := {
  ko_rpc : ∃ s0 es, rpc_init srv_timeout is_ssl (accepted_session x) = Some s0 ∧
    rpc_steps host manager srv_timeout (k_funcs k) s0 es (k_rpc k);
  ko_connect : connect_ok (k_connect k) }.

Lemma connection_rpc_inv x k :
  new_session_like (accepted_session x) → connection_ok x k → ∃ m, rpc_inv host manager m (k_rpc k).
Proof.
  intros Hnew [(s0 & es & Hi & Hs) _].
  exact (proj1 (rpc_steps_inv host manager srv_timeout _ _ _ _ _ _ Hnew Hi Hs)).
Qed.

Lemma connection_step x k e :
  new_session_like (accepted_session x) → connection_ok x k → rpc_enabled (k_rpc k) e = true →
  ∃ s m, rpc_h (k_funcs k) (k_rpc k) e = Some s ∧ connection_ok x (with_rpc s k) ∧
    rpc_inv host manager m s.
Proof.
  intros Hnew Hk He. destruct (connection_rpc_inv x k Hnew Hk) as [m Hm].
  destruct (rpc_step host manager srv_timeout (k_funcs k) m _ e Hm He) as (s & m' & Hs & Hm').
  exists s, m'. split; [done|]. split; [|done]. destruct Hk as [(s0 & es & Hi & Hr) Hc].
  split; [|done]. exists s0, (es ++ [e]). split; [done|]. by econstructor.
Qed.

Lemma rpc_init_Some (s0 : session (B := B) (Req := Req) (Res := Res)) :
  ∃ s, rpc_init srv_timeout is_ssl s0 = Some s ∧ rs_threads s = ∅.
Proof.
  unfold rpc_init, session_sys_init, accept. destruct is_ssl; by eexists.
Qed.

Lemma new_connection_ok x funcs :
  ∃ s, rpc_init srv_timeout is_ssl (accepted_session x) = Some s ∧ rs_threads s = ∅ ∧
    connection_ok x (mk_connection no_connect None s 0 funcs ∅) ∧
    unrun (mk_connection no_connect None s 0 funcs ∅).
Proof.
  destruct (rpc_init_Some (accepted_session x)) as (s & Hs & Ht). exists s.
  split; [done|]. split; [done|]. split; [|done]. split; [|by left].
  exists s, []. split; [done|]. constructor.
Qed.
(** ** The invariant *)

(** [g]: the session each thread has made and not yet run. *)
Record net_inv n (g : gmap nat nat) : Prop := {
  v_world : world_inv (n_world n);
  v_alive x : x ∈ alive (the_client_of n) → is_Some (n_conns n !! x);
  v_fresh x : is_Some (n_conns n !! x) → (x < fresh_session (the_client_of n))%nat;
  v_conn x k : n_conns n !! x = Some k → connection_ok x k;
  v_funcs x k : n_conns n !! x = Some k → x ∈ alive (the_client_of n) →
    k_funcs k = bound_handlers has_handler (the_client_of n);
  v_thread x k th t : n_conns n !! x = Some k → rs_threads (k_rpc k) !! th = Some t →
    ∃ o f, users (n_world n) !! th = Some (Op o f) ∧ inside x o t;
  v_ping th b : n_pings n !! th = Some b →
    ∃ x f, users (n_world n) !! th = Some (Op (session_ping x) f);
  v_new th x : g !! th = Some x → ∃ k, n_conns n !! x = Some k ∧ unrun k;
  v_distinct th th' x : g !! th = Some x → g !! th' = Some x → th = th';
  v_users th p : users (n_world n) !! th = Some p →
    ∃ c, n_calls n !! th = Some c ∧ prog_ok manager c (g !! th) p (value_ok manager c) }.

Lemma client_net_inv_init : net_inv net_init ∅.
Proof. split; simpl; try done; [apply world_inv_init|]. by intros x []. Qed.

(** Another connection in place of one. *)
Lemma inv_set_conn n g x k k' :
  net_inv n g → n_conns n !! x = Some k → connection_ok x k' → k_funcs k' = k_funcs k →
  (∀ th t, rs_threads (k_rpc k') !! th = Some t →
    ∃ o f, users (n_world n) !! th = Some (Op o f) ∧ inside x o t) →
  (unrun k → unrun k') → net_inv (set_conn x k' n) g.
Proof.
  intros [V1 V2 V3 V4 V5 V6 V7 V8 V9 V10] Hk Hok Hf Hth Hun.
  assert (∀ z, is_Some (<[x:=k']> (n_conns n) !! z) ↔ is_Some (n_conns n !! z)) as Hdom.
  { intros z. destruct (decide (x = z)) as [<-|]; [|by rewrite lookup_insert_ne].
    rewrite lookup_insert_eq. naive_solver. }
  split; simpl; try done.
  - intros z Hy. by apply Hdom, V2.
  - intros z Hy%Hdom. by apply V3.
  - intros z k0 [[<- <-]|[_ Hl]]%lookup_insert_Some; [done|by apply V4].
  - intros z k0 [[<- <-]|[_ Hl]]%lookup_insert_Some; [rewrite Hf; by apply V5|by apply V5].
  - intros z k0 th t [[<- <-]|[_ Hl]]%lookup_insert_Some; [by apply Hth|by apply V6].
  - intros th z Hy. destruct (V8 th z Hy) as (k0 & Hk0 & Hu).
    destruct (decide (x = z)) as [<-|]; [|rewrite lookup_insert_ne by done; by exists k0].
    exists k'. rewrite lookup_insert_eq. split; [done|]. apply Hun. congruence.
Qed.

(** The io thread and the deletion of sessions. *)
Lemma inv_env n g e w :
  net_inv n g → world_inv w →
  world_handle empty_response m_client_cfg (n_world n) e = Some w →
  match e with we_io_done | we_delete _ | we_expire _ => True | _ => False end →
  net_inv (set_world w n) g.
Proof.
  intros [V1 V2 V3 V4 V5 V6 V7 V8 V9 V10] Hw Hh He.
  destruct e; try done; injection Hh as <-; split; simpl; try done; auto.
  - intros x Hx. apply V2. set_solver.
  - intros x k Hk Hx. apply (V5 x k Hk). set_solver.
Qed.

(** ** The commands *)

Lemma exec_frame th a o (c : client) r c' :
  exec (B := B) (Res := Res) th a o c = Some (r, c') →
  match o with
  | new_session => alive c' = {[fresh_session c]} ∪ alive c ∧ fresh_session c' = S (fresh_session c)
  | _ => alive c' = alive c ∧ fresh_session c' = fresh_session c
  end.
Proof.
  destruct o; simpl; unfold do_take_expired, do_lock_session, do_bind, do_new_session;
    repeat case_match; intros Hx; simplify_eq; done.
Qed.

(** The handlers of a session that exists stay. *)
Lemma exec_handlers th a o (c : client) r c' x :
  client_inv c → exec (B := B) (Res := Res) th a o c = Some (r, c') → x ∈ alive c →
  bound_handlers has_handler c' = bound_handlers has_handler c.
Proof.
  intros Hc He Hx. unfold bound_handlers.
  destruct (exec_bound_funcs _ _ _ _ _ _ He) as [->|(Hexp & _)]; [done|].
  destruct (tokens_expired _ (ci_tokens _ Hc) Hexp) as (_ & E & _). rewrite E in Hx.
  by apply not_elem_of_empty in Hx.
Qed.

(** The connections after a command of thread [th] that is inside none of
    them any more. *)
Definition conns_after n (c' : client) (th : nat) (conns' : gmap nat connection) : Prop :=
  (∀ x, x ∈ alive c' → is_Some (conns' !! x)) ∧
  (∀ x k, conns' !! x = Some k →
     (x < fresh_session c')%nat ∧ connection_ok x k ∧
     (x ∈ alive c' → k_funcs k = bound_handlers has_handler c') ∧
     rs_threads (k_rpc k) !! th = None ∧
     (∀ th' t, rs_threads (k_rpc k) !! th' = Some t →
        ∃ k0, n_conns n !! x = Some k0 ∧ rs_threads (k_rpc k0) !! th' = Some t)).

Lemma inv_answer n g th o f a r c' conns' :
  net_inv n g → users (n_world n) !! th = Some (Op o f) →
  exec th a o (the_client_of n) = Some (r, c') → world_inv (mk_client_world c' (<[th := f r]> (users (n_world n)))) →
  answer_ok manager o r → conns_after n c' th conns' →
  (∀ th' x, th' ≠ th → g !! th' = Some x → ∃ k, conns' !! x = Some k ∧ unrun k) →
  (∀ x, made (g !! th) o r = Some x →
    (∃ k, conns' !! x = Some k ∧ unrun k) ∧ ∀ th', th' ≠ th → g !! th' ≠ Some x) →
  net_inv (mk_client_net (mk_client_world c' (<[th := f r]> (users (n_world n)))) conns'
             (delete th (n_pings n)) (n_calls n) (n_threw n))
    (partial_alter (λ _, made (g !! th) o r) th g).
Proof.
  intros [V1 V2 V3 V4 V5 V6 V7 V8 V9 V10] Hu He Hw Hr [C1 C2] Hold Hnew.
  assert (∀ th', th' ≠ th → partial_alter (λ _, made (g !! th) o r) th g !! th' = g !! th') as Hne
    by (intros; by rewrite lookup_partial_alter_ne).
  pose proof (lookup_partial_alter_eq (λ _, made (g !! th) o r) g th) as Heq.
  split; simpl; try done.
  - intros x [k Hk]. by apply (C2 x k).
  - intros x k Hk. by apply C2.
  - intros x k Hk. by apply C2.
  - intros x k th' t Hk Ht. destruct (C2 x k Hk) as (_ & _ & _ & Hn & Hc).
    assert (th' ≠ th) by congruence. rewrite lookup_insert_ne by done.
    destruct (Hc th' t Ht) as (k0 & Hk0 & Ht0). by apply (V6 x k0).
  - intros th' b [Hth Hb]%lookup_delete_Some. rewrite lookup_insert_ne by done. by eapply V7.
  - intros th' x. destruct (decide (th' = th)) as [->|Hth].
    + rewrite Heq. intros Hx. by apply Hnew.
    + rewrite Hne by done. by apply Hold.
  - intros th1 th2 x. destruct (decide (th1 = th)) as [->|H1], (decide (th2 = th)) as [->|H2];
      rewrite ?Heq, ?Hne by done; try done; [| |by apply V9].
    + intros Hx%Hnew Hx'. by destruct (proj2 Hx th2).
    + intros Hx Hx'%Hnew. by destruct (proj2 Hx' th1).
  - intros th' p. destruct (decide (th' = th)) as [->|Hth].
    + rewrite lookup_insert_eq, Heq. intros [= <-]. destruct (V10 _ _ Hu) as (c & Hc & Hp).
      exists c. split; [done|]. destruct Hp as [_ Hp]. by apply Hp.
    + rewrite lookup_insert_ne, Hne by done. apply V10.
Qed.
End invariant.

#[global] Arguments v_world : default implicits.
#[global] Arguments v_alive : default implicits.
#[global] Arguments v_fresh : default implicits.
#[global] Arguments v_conn : default implicits.
#[global] Arguments v_funcs : default implicits.
#[global] Arguments v_thread : default implicits.
#[global] Arguments v_ping : default implicits.
#[global] Arguments v_new : default implicits.
#[global] Arguments v_distinct : default implicits.
#[global] Arguments v_users : default implicits.
