(* ===== verification/ClientNetSteps.v ===== *)
(** * ClientNetSteps: every event of a client with its sessions keeps the invariant *)

From S2P Require Import Prelude Types Header Operations DataCache DataCacheFacts DataQueue.
From S2P Require Import ServerSession ServerSystem ServerSystemFacts ClientSession ClientSystem ClientSystemFacts.
From S2P Require Import ClientConnect ClientConnectFacts RpcSystem RpcSystemFacts.
From S2P Require Import Prog Client ClientThreads ClientThreadsFacts ClientWorld.
From S2P Require Import ClientNet ClientNetFacts ClientNetPrograms ClientNetInv.
#[local] Open Scope Z_scope.

Section steps.
Context {B : Type} `{FlatBuffer B, !FlatBufferLaws B} {F Req Res U : Type}.
Context (empty_request : Req) (empty_response : Res) (has_handler : F → bool).
Context (m_client_cfg : client_config) (m_client_timeout : client_timeout) (is_ssl : bool).
Context (host : byte_order) (manager : manager_handlers (B := B) (Req := Req) (Res := Res) (U := U)).
Context (srv_timeout : server_timeout)
  (accepted_session : nat → session (B := B) (Req := Req) (Res := Res)).

Abbreviation client := (client (F := F) (Req := Req)).
Abbreviation client_cmd := (client_cmd (B := B) (F := F) (Req := Req)).
Abbreviation answer := (answer (B := B) (F := F) (Req := Req) (Res := Res)).
Abbreviation client_net := (client_net (B := B) (F := F) (Req := Req) (Res := Res)).
Abbreviation connection := (connection (B := B) (Req := Req) (Res := Res)).
Abbreviation net_event := (net_event (B := B) (F := F) (Req := Req) (Res := Res) (U := U)).
Abbreviation rpc_system := (rpc_system (B := B) (Req := Req) (Res := Res)).
Abbreviation enabled := (net_enabled (B := B) (F := F) (Req := Req) (Res := Res) (U := U)).
Abbreviation handle := (net_handle empty_request empty_response has_handler m_client_cfg
  m_client_timeout is_ssl host manager srv_timeout accepted_session).
Abbreviation net_inv := (net_inv empty_request has_handler m_client_cfg m_client_timeout is_ssl
  host manager srv_timeout accepted_session).
Abbreviation connection_ok := (connection_ok empty_request m_client_cfg m_client_timeout is_ssl
  host manager srv_timeout accepted_session).
Abbreviation conns_after := (conns_after empty_request has_handler m_client_cfg m_client_timeout is_ssl
  host manager srv_timeout accepted_session).
Abbreviation rpc_h := (rpc_handle host manager srv_timeout).
Abbreviation step_w := (step_world empty_response m_client_cfg).
Implicit Types (n : client_net) (k : connection) (s : rpc_system) (o : client_cmd).

Abbreviation kept n e := (∃ n' g', handle n e = Some n' ∧ net_inv n' g').

(** ** What a thread has when it gets to a command *)

Lemma thread_runs n g th o f a :
  net_inv n g → users (n_world n) !! th = Some (Op o f) → can_run th o (the_client_of n) = true →
  ∃ r c', exec th a o (the_client_of n) = Some (r, c') ∧
    world_inv (mk_client_world c' (<[th := f r]> (users (n_world n)))).
Proof.
  intros Hi Hu Hrun. pose proof (v_world Hi) as Hw.
  destruct (world_step empty_response m_client_cfg (n_world n) (we_step th a) Hw) as (w & Hh & Hw').
  { simpl. by rewrite Hu. }
  simpl in Hh. rewrite Hu in Hh. unfold the_client_of.
  destruct (exec th a o (the_client (n_world n))) as [[r c']|]; [|done].
  injection Hh as <-. by exists r, c'.
Qed.

(** The session of a command. *)
Definition command_session o : option nat :=
  match o with
  | run_session x | run_result x | session_close x | session_ping x | session_send x _ _
  | session_send_recv x _ _ _ | session_response x => Some x
  | _ => None
  end.

Lemma thread_holds n g th o f x :
  net_inv n g → users (n_world n) !! th = Some (Op o f) → command_session o = Some x →
  user_ptrs (the_client_of n) !! th = Some x ∧ x ∈ alive (the_client_of n) ∧
  ∃ k, n_conns n !! x = Some k ∧ connection_ok x k.
Proof.
  intros Hi Hu Ho. destruct (v_world Hi) as [Hc Hus].
  destruct (Hus th) as (m & Hag & Hp). rewrite Hu in Hp. destruct Hp as [Hm _].
  assert (user_ptrs (the_client_of n) !! th = Some x) as Hptr.
  { unfold the_client_of. rewrite (ag_holds _ _ _ Hag).
    destruct o; simpl in Ho, Hm; try done; injection Ho as ->; naive_solver. }
  split; [done|]. pose proof (ci_ptrs _ Hc _ _ Hptr) as Ha. split; [done|].
  destruct (v_alive Hi Ha) as [k Hk].
  exists k. split; [done|]. by eapply v_conn.
Qed.

Lemma thread_may n g th o f :
  net_inv n g → users (n_world n) !! th = Some (Op o f) →
  ∃ c, n_calls n !! th = Some c ∧ may_call manager c (g !! th) o.
Proof.
  intros Hi Hu. destruct (v_users Hi _ Hu) as (c & Hc & [Hp _]). eauto.
Qed.

Lemma thread_call_ok n g th o f :
  net_inv n g → users (n_world n) !! th = Some (Op o f) → call_ok o.
Proof.
  intros Hi Hu. destruct (thread_may _ _ _ _ _ Hi Hu) as (c & _ & Hm).
  destruct o; try done; simpl in Hm; by destruct_and?.
Qed.

Lemma thread_buffer_ok n g th o f :
  net_inv n g → users (n_world n) !! th = Some (Op o f) → buffer_ok manager o.
Proof.
  intros Hi Hu. destruct (thread_may _ _ _ _ _ Hi Hu) as (c & _ & Hm).
  destruct o; try done; simpl in Hm; by destruct_and?.
Qed.

(** An operation of a thread is part of the command the thread is at. *)
Lemma thread_inside n g th o f x k t :
  net_inv n g → users (n_world n) !! th = Some (Op o f) → n_conns n !! x = Some k →
  rs_threads (k_rpc k) !! th = Some t → inside x o t.
Proof.
  intros Hi Hu Hk Ht. destruct (v_thread Hi _ _ Hk Ht) as (o' & f' & Hu' & Hin).
  rewrite Hu in Hu'. by injection Hu' as <- _.
Qed.

(** A thread is inside no session but the one it blocks in. *)
Lemma thread_outside n g th o f x k :
  net_inv n g → users (n_world n) !! th = Some (Op o f) → blocks_in o ≠ Some x →
  n_conns n !! x = Some k → rs_threads (k_rpc k) !! th = None.
Proof.
  intros Hi Hu Hb Hk. destruct (rs_threads (k_rpc k) !! th) as [t|] eqn:E; [|done].
  pose proof (thread_inside _ _ _ _ _ _ _ _ Hi Hu Hk E) as Hin.
  destruct o, t; simpl in *; try done; by destruct Hin as [-> _].
Qed.

Lemma thread_no_ping n g th o f :
  net_inv n g → users (n_world n) !! th = Some (Op o f) → (∀ x, o ≠ session_ping x) →
  n_pings n !! th = None.
Proof.
  intros Hi Hu Ho. destruct (n_pings n !! th) as [b|] eqn:E; [|done].
  destruct (v_ping Hi _ E) as (x & f' & Hu').
  rewrite Hu in Hu'. injection Hu' as -> _. by destruct (Ho x).
Qed.

(** ** The connections after a command *)

Lemma after_like n g th o f a r c' conns' :
  net_inv n g → users (n_world n) !! th = Some (Op o f) → o ≠ new_session →
  exec (Res := Res) th a o (the_client_of n) = Some (r, c') →
  (∀ x, is_Some (n_conns n !! x) → is_Some (conns' !! x)) →
  (∀ x k', conns' !! x = Some k' → connection_ok x k' ∧ rs_threads (k_rpc k') !! th = None ∧
    ∃ k, n_conns n !! x = Some k ∧ k_funcs k' = k_funcs k ∧
      ∀ th' t, rs_threads (k_rpc k') !! th' = Some t → rs_threads (k_rpc k) !! th' = Some t) →
  conns_after n c' th conns'.
Proof.
  intros Hi Hu Ho He Hdom Hconns.
  assert (alive c' = alive (the_client_of n) ∧ fresh_session c' = fresh_session (the_client_of n)) as [Ea Ef].
  { apply exec_frame in He. by destruct o. }
  pose proof (wi_client _ (v_world Hi)) as Hci.
  split; [intros x; rewrite Ea; intros Hx; by eapply Hdom, v_alive|].
  intros x k' Hk'. destruct (Hconns x k' Hk') as (Hok & Hth & k & Hk & Hf & Ht).
  split; [rewrite Ef; eapply v_fresh; [done|by eexists]|]. split; [done|]. split_and!.
  - rewrite Ea, Hf. intros Hx. rewrite (exec_handlers has_handler _ _ _ _ _ _ x Hci He Hx).
    by eapply v_funcs.
  - done.
  - intros th' t Ht'. exists k. by split; [|apply Ht].
Qed.

(** A session that is neither made nor run stays as it is. *)
Lemma new_kept n g th o (r : answer o) (conns' : gmap nat connection) :
  net_inv n g → made (g !! th) o r = g !! th →
  (∀ x k, n_conns n !! x = Some k → unrun k → ∃ k', conns' !! x = Some k' ∧ unrun k') →
  (∀ th' x, th' ≠ th → g !! th' = Some x → ∃ k, conns' !! x = Some k ∧ unrun k) ∧
  (∀ x, made (g !! th) o r = Some x →
    (∃ k, conns' !! x = Some k ∧ unrun k) ∧ ∀ th', th' ≠ th → g !! th' ≠ Some x).
Proof.
  intros Hi -> Hun.
  assert (∀ th' x, g !! th' = Some x → ∃ k, conns' !! x = Some k ∧ unrun k) as Hall.
  { intros th' x Hx. destruct (v_new Hi _ Hx) as (k & Hk & Hu). eauto. }
  split; [eauto|]. intros x Hx. split; [eauto|]. intros th' Hne Hx'. apply Hne.
  by eapply v_distinct.
Qed.
(** ** The commands *)

(** The handler of a command, at its end. *)
Lemma step_w_answer n th o f a r c' :
  users (n_world n) !! th = Some (Op o f) → exec th a o (the_client_of n) = Some (r, c') →
  step_w (we_step th a) n =
    Some (set_world (mk_client_world c' (<[th := f r]> (users (n_world n)))) n).
Proof.
  intros Hu He. unfold step_world. simpl. rewrite Hu. unfold the_client_of in He. by rewrite He.
Qed.

(** Commands that touch no session. *)
Definition local o : Prop :=
  match o with
  | new_session | run_session _ | run_result _ | session_close _ => False
  | _ => blocks_in o = None
  end.

Lemma in_session_local o b n : local o → in_session m_client_cfg o b n = Some (cs_none, n).
Proof. by destruct o. Qed.
Lemma new_connection_local x o n :
  o ≠ new_session → new_connection has_handler is_ssl srv_timeout accepted_session x o n = Some n.
Proof. by destruct o. Qed.

(** Any command after which each session is connected as before; [k]: the
    connections then. *)
Lemma command_kept n g th o f a r c' (conns' : gmap nat connection) :
  net_inv n g → users (n_world n) !! th = Some (Op o f) →
  exec th a o (the_client_of n) = Some (r, c') →
  world_inv (mk_client_world c' (<[th := f r]> (users (n_world n)))) →
  answer_ok manager o r → made (g !! th) o r = g !! th → o ≠ new_session →
  (∀ x, is_Some (n_conns n !! x) → is_Some (conns' !! x)) →
  (∀ x k', conns' !! x = Some k' → connection_ok x k' ∧ rs_threads (k_rpc k') !! th = None ∧
    ∃ k, n_conns n !! x = Some k ∧ k_funcs k' = k_funcs k ∧ (unrun k → unrun k') ∧
      ∀ th' t, rs_threads (k_rpc k') !! th' = Some t → rs_threads (k_rpc k) !! th' = Some t) →
  net_inv (mk_client_net (mk_client_world c' (<[th := f r]> (users (n_world n)))) conns'
             (delete th (n_pings n)) (n_calls n) (n_threw n))
    (partial_alter (λ _, made (g !! th) o r) th g).
Proof.
  intros Hi Hu He Hw Hr Hm Ho Hdom Hconns.
  assert (∀ x k, n_conns n !! x = Some k → unrun k → ∃ k', conns' !! x = Some k' ∧ unrun k') as Hun.
  { intros x k Hk Hunr. destruct (Hdom x) as [k' Hk']; [by eexists|]. exists k'. split; [done|].
    destruct (Hconns x k' Hk') as (_ & _ & k0 & Hk0 & _ & Hk0' & _). apply Hk0'. congruence. }
  destruct (new_kept _ _ _ _ r conns' Hi Hm Hun) as [Hold Hnew].
  eapply (inv_answer empty_request has_handler); try done.
  eapply after_like; try done. intros x k' Hk'.
  destruct (Hconns x k' Hk') as (Hok & Ht & k0 & Hk0 & Hf & _ & Hth).
  split; [done|]. split; [done|]. by exists k0.
Qed.

(** The same, of a command whose thread is not inside [ping]. *)
Lemma set_world_net n (w : client_world (B := B) (Res := Res)) (conns' : gmap nat connection) th :
  n_pings n !! th = None →
  mk_client_net w conns' (delete th (n_pings n)) (n_calls n) (n_threw n) =
  mk_client_net w conns' (n_pings n) (n_calls n) (n_threw n).
Proof. intros Hp. by rewrite delete_id. Qed.

Lemma step_local n g th o f response b :
  net_inv n g → users (n_world n) !! th = Some (Op o f) → local o →
  can_run th o (the_client_of n) = true → kept n (ne_step th response b).
Proof.
  intros Hi Hu Ho Hrun.
  assert (blocks_in o = None ∧ o ≠ new_session ∧ ∀ x, o ≠ session_ping x) as (Hb & Hnew & Hp) by by destruct o.
  assert (∀ x, blocks_in o ≠ Some x) by (intros; by rewrite Hb).
  destruct (thread_runs n g th o f (mk_env_answer cs_none false ec_success fb_empty response) Hi Hu Hrun)
    as (r & c' & He & Hw).
  eexists _, _. split.
  - simpl. rewrite Hu, in_session_local by done. simpl. rewrite (step_w_answer _ _ _ _ _ _ _ Hu He). simpl.
    by rewrite new_connection_local.
  - unfold set_world.
    rewrite <-(set_world_net n _ _ th) by (by eapply thread_no_ping).
    eapply command_kept; try done.
    + by destruct o.
    + by destruct o.
    + intros x k Hk. split; [by apply (v_conn Hi)|]. split; [by eapply thread_outside|]. by exists k.
Qed.
(** The end of a step whose command has changed the connections to [conns']. *)
Lemma handle_step n th o f response b st r c' conns' :
  users (n_world n) !! th = Some (Op o f) → n_pings n !! th = None → o ≠ new_session →
  in_session m_client_cfg o b n = Some (st, mk_client_net (n_world n) conns' (n_pings n) (n_calls n) (n_threw n)) →
  exec th (mk_env_answer st false ec_success fb_empty response) o (the_client_of n) = Some (r, c') →
  handle n (ne_step th response b) =
    Some (mk_client_net (mk_client_world c' (<[th := f r]> (users (n_world n)))) conns'
            (delete th (n_pings n)) (n_calls n) (n_threw n)).
Proof.
  intros Hu Hp Ho Hin He. cbn [net_handle]. rewrite Hu, Hin. simpl.
  rewrite (step_w_answer (mk_client_net (n_world n) conns' (n_pings n) (n_calls n) (n_threw n)) _ _ _ _ _ _ Hu He).
  simpl. rewrite new_connection_local by done.
  unfold set_world. simpl. by rewrite delete_id.
Qed.

Lemma step_run_result n g th x f response b :
  net_inv n g → users (n_world n) !! th = Some (Op (run_result x) f) →
  enabled n (ne_step th response b) = true → kept n (ne_step th response b).
Proof.
  intros Hi Hu He. destruct (thread_holds n g th _ f x Hi Hu eq_refl) as (_ & _ & k & Hk & _).
  simpl in He. rewrite Hu, Hk in He. simpl in He. apply bool_decide_eq_true in He.
  assert (∃ st, in_session m_client_cfg (run_result x) b n =
    Some (st, mk_client_net (n_world n) (n_conns n) (n_pings n) (n_calls n) (n_threw n))) as [st Hst].
  { replace (mk_client_net _ _ _ _ _) with n by (by destruct n). simpl. rewrite Hk. simpl. destruct (k_early k) as [st|]; [by exists st|].
    destruct He as [[]|[st ->]]; [done|]. by exists st. }
  destruct (thread_runs n g th _ f (mk_env_answer st false ec_success fb_empty response) Hi Hu eq_refl)
    as (r & c' & Hex & Hw).
  eexists _, _. split.
  - eapply handle_step; try done; by eapply thread_no_ping.
  - eapply command_kept; try done. intros z k' Hk'.
    split; [by apply (v_conn Hi)|]. split; [by eapply thread_outside|]. by exists k'.
Qed.

(** A session whose chain was changed, by its own thread. *)
Lemma conns_connect n g th o f x k k' :
  net_inv n g → users (n_world n) !! th = Some (Op o f) → blocks_in o = None →
  n_conns n !! x = Some k → connection_ok x k' → k_rpc k' = k_rpc k → k_funcs k' = k_funcs k →
  ∀ z k1, <[x := k']> (n_conns n) !! z = Some k1 →
    connection_ok z k1 ∧ rs_threads (k_rpc k1) !! th = None ∧
    ∃ k0, n_conns n !! z = Some k0 ∧ k_rpc k1 = k_rpc k0 ∧ k_funcs k1 = k_funcs k0 ∧
      (z = x ∧ k1 = k' ∧ k0 = k ∨ z ≠ x ∧ k1 = k0).
Proof.
  intros Hi Hu Hb Hk Hok Hr Hf. assert (∀ x, blocks_in o ≠ Some x) by (intros; by rewrite Hb).
  intros z k1 [[<- <-]|[Hne Hz]]%lookup_insert_Some.
  - split; [done|]. rewrite Hr. split; [by eapply thread_outside|]. exists k. naive_solver.
  - split; [by apply (v_conn Hi)|]. split; [by eapply thread_outside|]. exists k1. naive_solver.
Qed.

Lemma insert_dom (m : gmap nat connection) x k k' z :
  m !! x = Some k → is_Some (m !! z) → is_Some (<[x := k']> m !! z).
Proof. intros Hx Hz. apply lookup_insert_is_Some. destruct (decide (x = z)); auto. Qed.

Lemma step_session_close n g th x f response b :
  net_inv n g → users (n_world n) !! th = Some (Op (session_close x) f) →
  kept n (ne_step th response b).
Proof.
  intros Hi Hu. destruct (thread_holds n g th _ f x Hi Hu eq_refl) as (_ & _ & k & Hk & Hok).
  destruct (close_ok (Req := Req) b (k_connect k)) as (st & es & y & Hc & Hd & Hre).
  set (k' := with_closes (k_closes k + length (filter is_post_close es)) (with_connect y k)).
  assert (connection_ok x k') as Hok'.
  { destruct Hok as [H1 H2]. split; [exact H1|]. unfold connect_ok. simpl. by rewrite Hre. }
  destruct (thread_runs n g th _ f (mk_env_answer cs_none false ec_success fb_empty response) Hi Hu eq_refl)
    as (r & c' & Hex & Hw).
  eexists _, _. split.
  - eapply handle_step; try done; [by eapply thread_no_ping|]. simpl. rewrite Hk. simpl. by rewrite Hc, Hd.
  - eapply command_kept; try done; [intros z; by eapply insert_dom|].
    intros z k1 Hz. destruct (conns_connect n g th _ f x k k' Hi Hu eq_refl Hk Hok' eq_refl eq_refl z k1 Hz)
      as (H1 & H2 & k0 & H3 & H4 & H5 & H6).
    split; [done|]. split; [done|]. exists k0. split; [done|]. split; [done|]. split; [|by rewrite H4].
    destruct H6 as [(-> & -> & ->)|[_ ->]]; [|done]. intros [U1 U2]. split; [|exact U2].
    simpl. by rewrite Hre.
Qed.

Lemma step_run_session n g th x f response b :
  net_inv n g → users (n_world n) !! th = Some (Op (run_session x) f) →
  kept n (ne_step th response b).
Proof.
  intros Hi Hu. destruct (thread_may n g th _ f Hi Hu) as (c & _ & Hg). simpl in Hg.
  destruct (v_new Hi _ Hg) as (k & Hk & Hun).
  destruct (run_begin_ok empty_request m_client_cfg m_client_timeout is_ssl k Hun) as (early & st & es & y & Hb & Hd & Hc).
  set (k' := with_early early (with_connect y k)).
  assert (connection_ok x k') as Hok'.
  { split; [|exact Hc]. exact (ko_rpc _ _ _ _ _ _ _ _ _ _ (v_conn Hi _ Hk)). }
  destruct (thread_runs n g th _ f (mk_env_answer cs_none false ec_success fb_empty response) Hi Hu eq_refl)
    as (r & c' & Hex & Hw).
  pose proof (conns_connect n g th _ f x k k' Hi Hu eq_refl Hk Hok' eq_refl eq_refl) as Hconns.
  eexists _, _. split.
  - eapply handle_step; try done; [by eapply thread_no_ping|]. simpl. rewrite Hk. simpl. by rewrite Hb, Hd.
  - eapply (inv_answer empty_request has_handler); try done.
    + eapply after_like; try done; [intros z; by eapply insert_dom|].
      intros z k1 Hz. destruct (Hconns z k1 Hz) as (H1 & H2 & k0 & H3 & H4 & H5 & _).
      split; [done|]. split; [done|]. exists k0. split; [done|]. split; [done|]. by rewrite H4.
    + intros th' z Hne Hz. destruct (v_new Hi _ Hz) as (k0 & Hk0 & Hu0).
      exists k0. rewrite lookup_insert_ne; [done|]. intros <-. apply Hne. by eapply (v_distinct Hi).
Qed.

Lemma step_new_session n g th f response b :
  net_inv n g → users (n_world n) !! th = Some (Op new_session f) → kept n (ne_step th response b).
Proof.
  intros Hi Hu. set (c := the_client_of n). set (x := fresh_session c).
  destruct (thread_runs n g th _ f (mk_env_answer cs_none false ec_success fb_empty response) Hi Hu eq_refl)
    as (r & c' & Hex & Hw).
  assert (r = x ∧ bound_handlers has_handler c' = bound_handlers has_handler c) as [-> Hbound].
  { by injection Hex as <- <-. }
  destruct (new_connection_ok empty_request m_client_cfg m_client_timeout is_ssl host manager srv_timeout
    accepted_session x (bound_handlers has_handler c')) as (s & Hs & Ht & Hok & Hun).
  destruct (exec_frame _ _ _ _ _ _ Hex) as [Ea Ef].
  assert (n_conns n !! x = None) as Hnone.
  { apply eq_None_not_Some. intros Hx%(v_fresh Hi). subst x c. lia. }
  eexists _, _. split.
  - cbn [net_handle]. rewrite Hu. simpl. rewrite (step_w_answer _ _ _ _ _ _ _ Hu Hex). simpl.
    fold c x. rewrite Hs. simpl. unfold set_conn. simpl.
    rewrite <-(set_world_net n _ _ th) by (by eapply thread_no_ping). reflexivity.
  - eapply (inv_answer empty_request has_handler); try done.
    + split.
      * rewrite Ea. intros z Hz. apply lookup_insert_is_Some'. fold c x in Hz.
        apply elem_of_union in Hz as [->%elem_of_singleton|Hz]; [by left|]. right. by apply (v_alive Hi).
      * intros z k [[<- <-]|[Hne Hz]]%lookup_insert_Some.
        -- rewrite Ef. fold c x. split; [lia|]. split; [done|]. split; [done|]. simpl. rewrite Ht.
           split; [done|]. by intros th' t.
        -- rewrite Ef. assert (z < x)%nat by (apply (v_fresh Hi); by eexists).
           split; [fold c x; lia|]. split; [by apply (v_conn Hi)|]. split; [|split].
           ++ rewrite Ea, Hbound. intros Hz'. apply (v_funcs Hi Hz). fold c x in Hz'. set_solver.
           ++ by eapply thread_outside.
           ++ intros th' t Ht'. by exists k.
    + intros th' z Hne Hz. destruct (v_new Hi _ Hz) as (k & Hk & Hu').
      exists k. rewrite lookup_insert_ne by congruence. done.
    + simpl. intros z [= <-]. split; [eexists; by rewrite lookup_insert_eq|].
      intros th' Hne Hz. destruct (v_new Hi _ Hz) as (k & Hk & _). congruence.
Qed.
(** ** Calls, and the operations inside a session *)

Lemma step_call n g th c : net_inv n g → enabled n (ne_call th c) = true → kept n (ne_call th c).
Proof.
  intros Hi [He Hc]%andb_true_iff.
  destruct (world_step empty_response m_client_cfg (n_world n) (we_call th c) (v_world Hi) He) as (w & Hh & Hw).
  assert (∀ o f, users (n_world n) !! th ≠ Some (Op o f)) as Hidle.
  { intros o f E. simpl in He. by rewrite E in He. }
  simpl in Hh. injection Hh as <-. eexists _, (delete th g). split; [reflexivity|].
  destruct Hi as [V1 V2 V3 V4 V5 V6 V7 V8 V9 V10]. split; simpl; try done.
  - intros x k th' t Hk Ht. destruct (V6 x k th' t Hk Ht) as (o & f & Hu & Hin).
    assert (th' ≠ th) by (intros ->; by eapply Hidle). rewrite lookup_insert_ne by done. eauto.
  - intros th' b Hb. destruct (V7 th' b Hb) as (x & f & Hu).
    assert (th' ≠ th) by (intros ->; by eapply Hidle). rewrite lookup_insert_ne by done. eauto.
  - intros th' x [_ Hx]%lookup_delete_Some. by eapply V8.
  - intros t1 t2 x [_ H1]%lookup_delete_Some [_ H2]%lookup_delete_Some. by eapply V9.
  - intros th' p. destruct (decide (th' = th)) as [->|Hne].
    + rewrite !lookup_insert_eq, lookup_delete_eq. intros [= <-]. exists c. split; [done|].
      by apply method_ok.
    + rewrite !lookup_insert_ne, lookup_delete_ne by done. apply V10.
Qed.

Section sessions.
(** The sessions of the server are new, and the time out of a response can be
    doubled. *)
Context (accepted_new : ∀ x, new_session_like (accepted_session x)).
Context (timeout_ok : is_Some (duration_mul (ct_response_timeout m_client_timeout) 2)).

(** An event of the connection of a live session, or of its server. *)
Lemma conn_event n g x k e :
  net_inv n g → n_conns n !! x = Some k → rpc_enabled (k_rpc k) e = true →
  match e with re_server _ => True | _ => x ∈ alive (the_client_of n) end →
  ∃ s m, rpc_h (bound_handlers has_handler (the_client_of n)) (k_rpc k) e = Some s ∧
    connection_ok x (with_rpc s k) ∧ rpc_inv host manager m s.
Proof.
  intros Hi Hk He Hx.
  destruct (connection_step empty_request m_client_cfg m_client_timeout is_ssl host manager srv_timeout
    accepted_session x k e (accepted_new x) (v_conn Hi _ Hk) He) as (s & m & Hs & Hok & Hm).
  exists s, m. split; [|done]. rewrite <-Hs. apply rpc_handle_funcs.
  destruct e; try done. symmetry. by apply (v_funcs Hi Hk).
Qed.

(** One that is no step of a thread. *)
Lemma step_conn_event n g x k e s k' :
  net_inv n g → n_conns n !! x = Some k → rpc_thread_of e = None →
  rpc_h (bound_handlers has_handler (the_client_of n)) (k_rpc k) e = Some s →
  connection_ok x k' → k_rpc k' = s → k_funcs k' = k_funcs k → (unrun k → unrun k') →
  net_inv (set_conn x k' n) g.
Proof.
  intros Hi Hk He Hs Hok Hr Hf Hun. eapply (inv_set_conn empty_request has_handler); try done.
  intros th t. rewrite Hr, (other_threads host manager srv_timeout _ _ _ _ th Hs) by by rewrite He.
  by apply (v_thread Hi).
Qed.

(** A step inside [send] or [send_recv]. *)
Lemma step_send n g th x o f now k :
  net_inv n g → users (n_world n) !! th = Some (Op o f) → blocks_in o = Some x → blocks_send o →
  n_conns n !! x = Some k → dc_id_counter (m_cache (cl (rs_client (k_rpc k)))) + 1 < 2 ^ 64 →
  ∃ n' g', send_step empty_response has_handler m_client_cfg m_client_timeout host manager srv_timeout
    th x now o k n = Some n' ∧ net_inv n' g'.
Proof.
  intros Hi Hu Hb Hbs Hk Hcnt.
  assert (command_session o = Some x) as Hcs by by destruct o.
  destruct (thread_holds n g th o f x Hi Hu Hcs) as (_ & Ha & _).
  pose proof (thread_call_ok n g th o f Hi Hu) as Hc.
  pose proof (thread_buffer_ok n g th o f Hi Hu) as Hbuf.
  assert (∀ t, rs_threads (k_rpc k) !! th = Some t → inside x o t) as Hin.
  { intros t Ht. by eapply thread_inside. }
  destruct (next_operation_enabled (U := U) m_client_timeout th now x o _ timeout_ok Hcnt Hbs Hc Hin)
    as (e & Hn & He & Hth).
  destruct (conn_event n g x k e Hi Hk He) as (s & m & Hs & Hok & Hm); [by destruct e|].
  pose proof (next_operation_result m_client_timeout host manager srv_timeout _ th now x o _ e s m Hn Hs Hm Hb Hbuf Hin) as Hres.
  assert (connection_ok x (with_lent (lend th s (k_lent k)) (with_rpc s k))) as Hok' by (by destruct Hok; split).
  unfold send_step. rewrite Hn. simpl. rewrite Hs. simpl.
  assert (∀ th' t, th' ≠ th → rs_threads s !! th' = Some t → rs_threads (k_rpc k) !! th' = Some t) as Hother.
  { intros th' t Hne. rewrite (other_threads host manager srv_timeout _ _ _ _ th' Hs) by congruence. done. }
  destruct (rs_threads s !! th) as [t|] eqn:Et.
  - rewrite decide_True by eauto. eexists _, g. split; [done|].
    eapply (inv_set_conn empty_request has_handler); try done. simpl. intros th' t' Ht'.
    destruct (decide (th' = th)) as [->|Hne]; [|by eapply (v_thread Hi), Hother].
    exists o, f. split; [done|]. congruence.
  - rewrite decide_False by (rewrite <-eq_None_not_Some; done).
    set (a := mk_env_answer cs_none false (ec_after s) (buffer_after th o (k_rpc k)) empty_response).
    destruct (thread_runs n g th o f a Hi Hu ltac:(by destruct o)) as (r & c' & Hex & Hw).
    rewrite (step_w_answer (set_conn x (with_lent (lend th s (k_lent k)) (with_rpc s k)) n) th o f a r c' Hu Hex).
    eexists _, _. split; [reflexivity|]. unfold set_world, set_conn. simpl.
    rewrite <-(set_world_net n _ _ th) by (eapply thread_no_ping; [done..|]; intros z ->; done).
    eapply command_kept; try done.
    + destruct o; try done. simpl in Hex. destruct (bool_decide _); [|done]. by injection Hex as <- <-.
    + by destruct o.
    + by destruct o.
    + intros z. by eapply insert_dom.
    + intros z k1 [[<- <-]|[Hne Hz]]%lookup_insert_Some.
      * split; [done|]. split; [done|]. exists k. split_and!; try done. intros th' t Ht'.
        apply Hother; [|done]. simpl in Ht'. congruence.
      * split; [by apply (v_conn Hi)|]. split; [|by exists k1].
        eapply thread_outside; try done. congruence.
Qed.

(** A step inside [ping]. *)
Lemma step_ping n g th x f k :
  net_inv n g → users (n_world n) !! th = Some (Op (session_ping x) f) → n_conns n !! x = Some k →
  ∃ n' g', ping_step empty_response has_handler m_client_cfg host manager srv_timeout th x k n = Some n' ∧
    net_inv n' g'.
Proof.
  intros Hi Hu Hk. destruct (thread_holds n g th _ f x Hi Hu eq_refl) as (_ & Ha & _).
  assert (∀ b e, rpc_enabled (U := U) (k_rpc k) (re_client e) = true → ∃ s,
    rpc_h (bound_handlers has_handler (the_client_of n)) (k_rpc k) (re_client e) = Some s ∧
    net_inv (set_pings (<[th:=b]> (n_pings n)) (set_conn x (with_rpc s k) n)) g) as Hpost.
  { intros b e He. destruct (conn_event n g x k (re_client e) Hi Hk He Ha) as (s & m & Hs & Hok & _).
    exists s. split; [done|].
    destruct (step_conn_event n g x k (re_client e) s (with_rpc s k) Hi Hk eq_refl Hs Hok eq_refl eq_refl id).
    split; simpl; try done. intros th' b' [[<- _]|[_ Hb]]%lookup_insert_Some; eauto. }
  unfold ping_step. destruct (n_pings n !! th) as [[]|] eqn:Ep.
  - set (a := mk_env_answer cs_none _ ec_success fb_empty empty_response).
    destruct (thread_runs n g th _ f a Hi Hu eq_refl) as (r & c' & Hex & Hw).
    rewrite (step_w_answer (set_pings (delete th (n_pings n)) n) th _ f a r c' Hu Hex).
    eexists _, _. split; [reflexivity|].
    apply (command_kept n g th (session_ping x) f a r c' (n_conns n)); try done.
    intros z k1 Hz. split; [by apply (v_conn Hi)|]. split; [|by exists k1].
    destruct (rs_threads (k_rpc k1) !! th) as [t|] eqn:Et; [|done].
    pose proof (thread_inside _ _ _ _ _ _ _ _ Hi Hu Hz Et) as Hin. by destruct t.
  - destruct (Hpost true ce_user_ping_lock eq_refl) as (s & -> & Hs). eauto.
  - destruct (Hpost false ce_user_ping eq_refl) as (s & -> & Hs). eauto.
Qed.
(** ** Every event *)

Lemma step_session n g th now :
  net_inv n g → enabled n (ne_session th now) = true → kept n (ne_session th now).
Proof.
  intros Hi He. cbn [net_enabled net_handle] in *.
  destruct (users (n_world n) !! th) as [[| |o f]|] eqn:Hu; try done.
  destruct (blocks_in o) as [x|] eqn:Hb; [|done]. simpl in *.
  assert (command_session o = Some x) as Hcs by by destruct o.
  destruct (thread_holds n g th o f x Hi Hu Hcs) as (Hptr & _ & k & Hk & _). rewrite Hk in He |- *.
  apply bool_decide_eq_true in He. simpl. unfold held. rewrite bool_decide_eq_true_2 by done.
  destruct o; try done; simpl in Hb; injection Hb as ->;
    first [by eapply step_ping|by eapply step_send].
Qed.

Lemma step_command n g th response b :
  net_inv n g → enabled n (ne_step th response b) = true → kept n (ne_step th response b).
Proof.
  intros Hi He. pose proof He as He'. simpl in He.
  destruct (users (n_world n) !! th) as [[| |o f]|] eqn:Hu; try done.
  apply andb_true_iff in He as [[Hb Hrun]%andb_true_iff _]. apply bool_decide_eq_true in Hb.
  destruct o; try done; try (by eapply step_local).
  - by eapply step_new_session.
  - by eapply step_run_session.
  - by eapply step_run_result.
  - by eapply step_session_close.
Qed.

(** The connection of a live session. *)
Lemma live_connection n g x (P : connection → bool) :
  net_inv n g →
  bool_decide (x ∈ alive (the_client_of n)) && match n_conns n !! x with Some k => P k | None => true end = true →
  x ∈ alive (the_client_of n) ∧ ∃ k, n_conns n !! x = Some k ∧ P k = true.
Proof.
  intros Hi [Ha HP]%andb_true_iff. apply bool_decide_eq_true in Ha. split; [done|].
  destruct (v_alive Hi Ha) as [k Hk]. rewrite Hk in HP. eauto.
Qed.

Lemma step_connect n g x e :
  net_inv n g → enabled n (ne_connect x e) = true → kept n (ne_connect x e).
Proof.
  intros Hi He. destruct (live_connection n g x _ Hi He) as (Ha & k & Hk & Hce).
  pose proof (v_conn Hi _ Hk) as [Hr Hc].
  destruct (connect_ok_step empty_request m_client_cfg m_client_timeout is_ssl
    (default empty_request (m_req_handshake (the_client_of n))) _ e Hc Hce) as (y & Hy & Hcy).
  eexists _, g. split; [cbn [net_handle]; rewrite Hk; simpl; by rewrite Hy|].
  eapply (inv_set_conn empty_request has_handler); try done.
  - intros th t. exact (v_thread Hi x th Hk).
  - intros [Hun _]. assert (connect_enabled (reopen (k_connect k)) e = true) as He' by by destruct e.
    rewrite Hun in He'. by destruct e.
Qed.

Lemma step_io n g x e :
  net_inv n g → enabled n (ne_io x e) = true → kept n (ne_io x e).
Proof.
  intros Hi He. destruct (live_connection n g x _ Hi He) as (Ha & k & Hk & [_ Hce]%andb_true_iff).
  destruct (conn_event n g x k (re_client e) Hi Hk Hce Ha) as (s & m & Hs & Hok & _).
  eexists _, g. split; [cbn [net_handle]; rewrite Hk; simpl in Hs |- *; by rewrite Hs|].
  by eapply (step_conn_event n g x k (re_client e)).
Qed.

Lemma step_close n g x : net_inv n g → enabled n (ne_close x) = true → kept n (ne_close x).
Proof.
  intros Hi He. destruct (live_connection n g x _ Hi He) as (Ha & k & Hk & Hce).
  destruct (conn_event n g x k (re_client ce_run_close) Hi Hk eq_refl Ha) as (s & m & Hs & Hok & _).
  eexists _, g. split; [cbn [net_handle]; rewrite Hk; simpl in Hs |- *; by rewrite Hs|].
  eapply (step_conn_event n g x k (re_client ce_run_close)); try done. by destruct Hok as [H1 H2]; split.
Qed.

Lemma step_server n g x e :
  net_inv n g → enabled n (ne_server x e) = true → kept n (ne_server x e).
Proof.
  intros Hi He. simpl in He. destruct (n_conns n !! x) as [k|] eqn:Hk; [|done].
  destruct (conn_event n g x k (re_server e) Hi Hk He I) as (s & m & Hs & Hok & _).
  eexists _, g. split; [cbn [net_handle]; rewrite Hk; simpl in Hs |- *; by rewrite Hs|].
  by eapply (step_conn_event n g x k (re_server e)).
Qed.

Lemma step_env n g e :
  net_inv n g → world_enabled (n_world n) e = true →
  match e with we_io_done | we_delete _ | we_expire _ => True | _ => False end →
  ∃ n' g', step_w e n = Some n' ∧ net_inv n' g'.
Proof.
  intros Hi He Henv.
  destruct (world_step empty_response m_client_cfg (n_world n) e (v_world Hi) He) as (w & Hh & Hw).
  eexists _, g. unfold step_world. rewrite Hh. split; [done|]. by eapply (inv_env empty_request empty_response).
Qed.

Lemma client_net_step n g e : net_inv n g → enabled n e = true → kept n e.
Proof.
  intros Hi He. destruct e as [th c|th r b|th now|x e|x e|x|x e| |x|x].
  - by eapply step_call.
  - by eapply step_command.
  - by eapply step_session.
  - by eapply step_connect.
  - by eapply step_io.
  - by eapply step_close.
  - by eapply step_server.
  - apply andb_true_iff in He as [He _]. by eapply step_env.
  - apply andb_true_iff in He as [He _]. by eapply step_env.
  - by eapply step_env.
Qed.

Abbreviation n_steps := (net_steps empty_request empty_response has_handler m_client_cfg
  m_client_timeout is_ssl host manager srv_timeout accepted_session).

Lemma client_net_steps_inv es n :
  n_steps net_init es n → (∃ g, net_inv n g) ∧ safe enabled handle n.
Proof.
  intros Hs. eapply (steps_safe enabled handle (λ n, ∃ g, net_inv n g)); [|
    exists ∅; apply client_net_inv_init|exact Hs].
  intros n1 e [g Hg] He. destruct (client_net_step n1 g e Hg He) as (n2 & g2 & ? & ?). eauto.
Qed.
End sessions.
End steps.
