(* ===== verification/ClientNetProps.v ===== *)
(** * ClientNetProps: what a program that uses the client can rely on

    The properties of ClientNet: it is a client world, connection attempts and
    connections at once, and what [client::send_recv] returns. *)

From S2P Require Import Prelude Types Header Operations DataCache DataCacheFacts DataQueue.
From S2P Require Import ServerSession ServerSystem ServerSystemFacts ServerProps ClientSession ClientSystem.
From S2P Require Import ClientConnect ClientConnectFacts RpcSystem RpcSystemFacts RpcProjection.
From S2P Require Import Prog Client ClientThreads ClientThreadsFacts ClientWorld.
From S2P Require Import ClientNet ClientNetFacts ClientNetPrograms ClientNetInv ClientNetSteps.
#[local] Open Scope Z_scope.

Section props.
Context {B : Type} `{FlatBuffer B, !FlatBufferLaws B} {F Req Res U : Type}.
Context (empty_request : Req) (empty_response : Res) (has_handler : F → bool).
Context (m_client_cfg : client_config) (m_client_timeout : client_timeout) (is_ssl : bool).
Context (host : byte_order) (manager : manager_handlers (B := B) (Req := Req) (Res := Res) (U := U)).
Context (srv_timeout : server_timeout)
  (accepted_session : nat → session (B := B) (Req := Req) (Res := Res)).

Abbreviation client_net := (client_net (B := B) (F := F) (Req := Req) (Res := Res)).
Abbreviation net_event := (net_event (B := B) (F := F) (Req := Req) (Res := Res) (U := U)).
Abbreviation world_event := (world_event (B := B) (F := F) (Req := Req) (Res := Res)).
Abbreviation enabled := (net_enabled (B := B) (F := F) (Req := Req) (Res := Res) (U := U)).
Abbreviation handle := (net_handle empty_request empty_response has_handler m_client_cfg
  m_client_timeout is_ssl host manager srv_timeout accepted_session).
Abbreviation n_steps := (net_steps empty_request empty_response has_handler m_client_cfg
  m_client_timeout is_ssl host manager srv_timeout accepted_session).
Abbreviation w_steps := (world_steps empty_response m_client_cfg).
Abbreviation step_w := (step_world empty_response m_client_cfg).
Abbreviation client_cmd := (client_cmd (B := B) (F := F) (Req := Req)).
Implicit Types (n : client_net).

(** ** The client of the composition *)

(** What [run()] of a session has returned: what it said at once, or what its
    chain has set the promise to. *)
Definition run_returned n (x : nat) (st : connection_state) : Prop :=
  ∃ k, n_conns n !! x = Some k ∧
    (k_early k = Some st ∨
     k_early k = None ∧ ClientConnect.run_result (Req := Req) (k_connect k) = Some st).

(** What an event between [n] and [n'] is for the client: nothing, or a step of
    a thread, whose answer is what the session in [n] or [n'] says.  The
    response to a handshake, which Beast fills in, comes with the event. *)
Inductive world_part n n' : list world_event → net_event → Prop :=
  | part_call th c : world_part n n' [we_call th c] (ne_call th c)
  | part_run th x f st r b :
      users (n_world n) !! th = Some (Op (run_result x) f) → run_returned n x st →
      world_part n n' [we_step th (mk_env_answer st false ec_success fb_empty r)] (ne_step th r b)
  | part_step th o f r b :
      users (n_world n) !! th = Some (Op o f) → (∀ x, o ≠ run_result x) →
      world_part n n' [we_step th (mk_env_answer cs_none false ec_success fb_empty r)] (ne_step th r b)
  | part_inside th now : world_part n n' [] (ne_session th now)
  | part_ping th x f k now :
      users (n_world n) !! th = Some (Op (session_ping x) f) → n_conns n !! x = Some k →
      n_pings n !! th = Some true →
      world_part n n'
        [we_step th (mk_env_answer cs_none (ping_result (cl (rs_client (k_rpc k)))) ec_success
           fb_empty empty_response)] (ne_session th now)
  | part_answer th o f x k k' r ec b now :
      users (n_world n) !! th = Some (Op o f) → blocks_in o = Some x →
      n_conns n !! x = Some k → n_conns n' !! x = Some k' →
      rs_returns (k_rpc k') = rs_returns (k_rpc k) ++ [r] → session_gave o r ec b →
      world_part n n' [we_step th (mk_env_answer cs_none false ec b empty_response)] (ne_session th now)
  | part_connect x e : world_part n n' [] (ne_connect x e)
  | part_io x e : world_part n n' [] (ne_io x e)
  | part_close x : world_part n n' [] (ne_close x)
  | part_server x e : world_part n n' [] (ne_server x e)
  | part_io_done : world_part n n' [we_io_done] ne_io_done
  | part_delete x : world_part n n' [we_delete x] (ne_delete x)
  | part_expire x : world_part n n' [we_expire x] (ne_expire x).

(** The client's part of a run. *)
Inductive world_run n0 : list world_event → list net_event → client_net → Prop :=
  | run_none : world_run n0 [] [] n0
  | run_snoc wes es n e we n' :
      world_run n0 wes es n → step enabled handle n e n' → world_part n n' we e →
      world_run n0 (wes ++ we) (es ++ [e]) n'.

Lemma step_w_world n e n' :
  step_w e n = Some n' → world_enabled (n_world n) e = true →
  w_steps (n_world n) [e] (n_world n').
Proof.
  unfold step_world. destruct (world_handle _ _ _ _) as [w|] eqn:E; [|done]. intros [= <-] He.
  apply steps_one. by constructor.
Qed.

Lemma in_session_world o b n st n' :
  in_session m_client_cfg o b n = Some (st, n') →
  n_world n' = n_world n ∧
  match o with run_result x => run_returned n x st | _ => st = cs_none end.
Proof.
  destruct o as [| | | | | | | | | |x|x| | |x| | | | | | |]; simpl; try (by intros [= <- <-]);
    destruct (n_conns n !! x) as [k|] eqn:Hk; try done; simpl.
  - repeat case_match; try done. by intros [= <- <-].
  - destruct (k_early k) as [st'|] eqn:Ee; [intros [= <- <-]; split; [done|]; exists k; by auto|].
    destruct (ClientConnect.run_result _) eqn:Er; [|done]. intros [= <- <-].
    split; [done|]. exists k. auto.
  - repeat case_match; try done. by intros [= <- <-].
Qed.

Lemma new_connection_world x o n n' :
  new_connection has_handler is_ssl srv_timeout accepted_session x o n = Some n' → n_world n' = n_world n.
Proof.
  destruct o; simpl; try (by intros [= <-]). destruct (rpc_init _ _ _); [|done]. by intros [= <-].
Qed.

Lemma project_session n th now n' :
  (∀ o f x k t, users (n_world n) !! th = Some (Op o f) → n_conns n !! x = Some k →
     rs_threads (k_rpc k) !! th = Some t → inside x o t) →
  handle n (ne_session th now) = Some n' → enabled n (ne_session th now) = true →
  ∃ wes, world_part n n' wes (ne_session th now) ∧ w_steps (n_world n) wes (n_world n').
Proof.
  cbn [net_handle net_enabled]. intros Hin.
  destruct (users (n_world n) !! th) as [[| |o f]|] eqn:Hu; try done.
  destruct (blocks_in o) as [x|] eqn:Hb; [|done]. simpl. destruct (n_conns n !! x) as [k|] eqn:Hk; [|done]. simpl.
  destruct (held th x n); [|done]. intros Hh _.
  assert (n_world n' = n_world n →
    ∃ wes, world_part n n' wes (ne_session th now) ∧ w_steps (n_world n) wes (n_world n')) as Hinside.
  { intros ->. exists []. split; constructor. }
  assert (∀ a n1, n_world n1 = n_world n → step_w (we_step th a) n1 = Some n' →
    world_part n n' [we_step th a] (ne_session th now) →
    ∃ wes, world_part n n' wes (ne_session th now) ∧ w_steps (n_world n) wes (n_world n')) as Hanswer.
  { intros a n1 Hw Hs Hp. exists [we_step th a]. split; [done|]. rewrite <-Hw.
    apply step_w_world; [done|]. simpl. rewrite Hw, Hu. by destruct o. }
  assert (blocks_send o → ∃ wes, world_part n n' wes (ne_session th now) ∧ w_steps (n_world n) wes (n_world n')) as Hsend.
  { intros Hbs. assert (send_step empty_response has_handler m_client_cfg m_client_timeout host manager
      srv_timeout th x now o k n = Some n') as Hs by by destruct o.
    unfold send_step in Hs. destruct (next_operation _ _ _ _ _) as [e|] eqn:En; [|done]. simpl in Hs.
    destruct (rpc_handle _ _ _ _ _ _) as [s|] eqn:Ers; [|done]. simpl in Hs.
    case_decide as Hd; [injection Hs as <-; by apply Hinside|].
    apply eq_None_not_Some in Hd.
    destruct (next_operation_returns m_client_timeout host manager srv_timeout _ th now x o _ e s En Ers Hb
      (λ t Ht, Hin o f x k t eq_refl Hk Ht) Hd) as (r & Hr & Hg).
    eapply Hanswer; [|exact Hs|]; [done|].
    unfold step_world in Hs. destruct (world_handle _ _ _ _) as [w|]; [|done]. injection Hs as <-.
    apply (part_answer n _ th o f x k (with_lent (lend th s (k_lent k)) (with_rpc s k)) r); try done.
    { simpl. by rewrite lookup_insert_eq. }
    unfold ec_after. rewrite Hr, last_snoc. exact Hg. }
  destruct o; try done; try (by apply Hsend). simpl in Hb. injection Hb as ->. unfold ping_step in Hh.
  destruct (n_pings n !! th) as [[]|] eqn:Ep;
    [eapply Hanswer; [|exact Hh|by eapply part_ping]; done|..];
    (destruct (rpc_handle _ _ _ _ _ _) as [s|]; [|done]; injection Hh as <-; by apply Hinside).
Qed.

Lemma project_world n e n' :
  (∀ th o f x k t, users (n_world n) !! th = Some (Op o f) → n_conns n !! x = Some k →
     rs_threads (k_rpc k) !! th = Some t → inside x o t) →
  step enabled handle n e n' → ∃ wes, world_part n n' wes e ∧ w_steps (n_world n) wes (n_world n').
Proof.
  intros Hin [He Hh]. destruct e as [th c|th r b|th now|x e|x e|x|x e| |x|x].
  - apply andb_true_iff in He as [He _]. cbn [net_handle] in Hh.
    destruct (step_w _ _) as [n1|] eqn:E; [|done]. injection Hh as <-.
    exists [we_call th c]. split; [constructor|]. exact (step_w_world _ _ _ E He).
  - cbn [net_handle] in Hh. simpl in He. destruct (users (n_world n) !! th) as [[| |o f]|] eqn:Hu; try done.
    destruct (in_session _ _ _ _) as [[st n1]|] eqn:E1; [|done]. simpl in Hh.
    destruct (step_w _ n1) as [n2|] eqn:E2; [|done]. simpl in Hh.
    apply in_session_world in E1 as [E1 Hst]. apply new_connection_world in Hh.
    eexists [we_step th _]. split.
    + destruct o; try (subst st; by eapply part_step). by eapply part_run.
    + rewrite Hh, <-E1. eapply step_w_world; [exact E2|].
      simpl. rewrite E1, Hu. by apply andb_true_iff in He as [[_ ?]%andb_true_iff _].
  - apply project_session; [|done..]. intros o f. by apply Hin.
  - exists []. split; [constructor|]. cbn [net_handle] in Hh. destruct (n_conns n !! x); [|done]. simpl in Hh.
    destruct (connect_handle _ _ _ _ _ _); [|done]. injection Hh as <-. constructor.
  - exists []. split; [constructor|]. cbn [net_handle] in Hh. destruct (n_conns n !! x); [|done]. simpl in Hh.
    destruct (client_handle _ _ _ _); [|done]. injection Hh as <-. constructor.
  - exists []. split; [constructor|]. cbn [net_handle] in Hh. destruct (n_conns n !! x); [|done]. simpl in Hh.
    destruct (deliver _ _ _ _ _); [|done]. injection Hh as <-. constructor.
  - exists []. split; [constructor|]. cbn [net_handle] in Hh. destruct (n_conns n !! x); [|done]. simpl in Hh.
    destruct (session_handle _ _ _ _ _); [|done]. injection Hh as <-. constructor.
  - apply andb_true_iff in He as [He _]. exists [we_io_done]. split; [constructor|]. by apply step_w_world.
  - apply andb_true_iff in He as [He _]. eexists. split; [constructor|]. by apply step_w_world.
  - eexists. split; [constructor|]. by apply step_w_world.
Qed.

(** ** Properties *)

Section properties.
Context (accepted_new : ∀ x, new_session_like (accepted_session x)).
Context (timeout_ok : is_Some (duration_mul (ct_response_timeout m_client_timeout) 2)).


(** C24. The composition refines its parts.  Every run of a client with its
    threads, its sessions and their connections is a run of the client world,
    step by step: the answer of [run()] is what the chain of that session has
    come to, that of [ping()] what the session has seen, and that of [send] and
    [send_recv] the [ec] and the bytes of the very call that returned at that
    step in the connection of that session.  And each session object ever made
    has gone through a chain of [session_connect] and has a connection in a
    state that a run of the connected pair of sessions reaches, with the
    broadcast handlers the client had when the session was made and has as long
    as it is alive. *)
Theorem client_net_parts es n :
  n_steps net_init es n →
  (∃ wes, world_run net_init wes es n ∧ w_steps world_init wes (n_world n)) ∧
  ∀ x k, n_conns n !! x = Some k →
    connect_ok empty_request m_client_cfg m_client_timeout is_ssl (k_connect k) ∧
    (∃ s0 rs, rpc_init srv_timeout is_ssl (accepted_session x) = Some s0 ∧
       rpc_steps host manager srv_timeout (k_funcs k) s0 rs (k_rpc k)) ∧
    (x ∈ alive (the_client_of n) → k_funcs k = bound_handlers has_handler (the_client_of n)).
Proof.
  intros Hs. split.
  - change world_init with (n_world (net_init (B := B) (F := F) (Req := Req) (Res := Res))).
    remember net_init as n0 eqn:E0.
    induction Hs as [n|n es n1 e n2 Hs IH Hst]; [exists []; split; constructor|].
    destruct (IH E0) as (wes & Hrun & Hw). subst n.
    destruct (client_net_steps_inv empty_request empty_response has_handler m_client_cfg m_client_timeout
      is_ssl host manager srv_timeout accepted_session accepted_new timeout_ok _ _ Hs) as [[g Hi] _].
    destruct (project_world n1 e n2) as (we & Hpart & Hw2); [|exact Hst|].
    { intros th o f x k t Hu Hk Ht. by eapply thread_inside. }
    exists (wes ++ we). split; [by econstructor|]. by eapply steps_app.
  - destruct (client_net_steps_inv empty_request empty_response has_handler m_client_cfg m_client_timeout
      is_ssl host manager srv_timeout accepted_session accepted_new timeout_ok _ _ Hs) as [[g Hi] _].
    intros x k Hk. destruct (v_conn Hi _ Hk) as [Hr Hc]. split; [done|]. split; [done|].
    by apply (v_funcs Hi).
Qed.
End properties.
End props.

(** ** A client that connects to the server of [RpcDemo] and calls it *)

Module NetDemo.
Abbreviation N := (client_net (B := list byte) (F := bool) (Req := nat) (Res := unit)).
Abbreviation E := (net_event (B := list byte) (F := bool) (Req := nat) (Res := unit) (U := unit)).
Definition cfg : client_config := mk_client_config "localhost" 3377 1000 2 0.
Definition timeouts : client_timeout := mk_client_timeout 1000000000 1000000000 1000000000.
Definition init : N := net_init.
Definition go : N → list E → option N :=
  net_run 0%nat tt id cfg timeouts false RpcDemo.host Demo.manager Demo.timeout (λ _, Demo.fresh).
(** Thread [th] takes [n] steps outside the sessions. *)
Definition walk (th n : nat) : list E := replicate n (ne_step th tt false).
Definition connecting : list E :=
  ne_call 1 call_connect :: walk 1 6 ++
  [ne_connect 0 (xe_resolve ec_success); ne_connect 0 (xe_connect ec_success);
   ne_connect 0 (xe_handshake ec_success)] ++ walk 1 3 ++
  [ne_server 0 (ev_http_request tt ec_success 1%nat []); ne_server 0 (ev_accept 0 ec_success)].
(** Up to the first wait of [send_recv]. *)
Definition asking : list E :=
  [ne_call 1 (call_send_recv 7 [x61])] ++ walk 1 3 ++ [ne_session 1 0; ne_io 0 ce_run_send].
Definition answering : list E :=
  [ne_io 0 (ce_write ec_success); ne_session 1 0;
   ne_server 0 (ev_read 1 tt ec_success (RpcDemo.bytes 1 [x61]));
   ne_io 0 (ce_read (λ _, 0) ec_success (RpcDemo.bytes 1 [x61])); ne_session 1 0; ne_session 1 0] ++
  walk 1 2.
Definition reached : N := default init (go init (connecting ++ asking ++ answering)).

(** The same call, whose time-out comes before its answer is read and whose swap
    comes after: the thread has the answer and an error, disconnects, tries
    again, cannot connect, and returns the late answer. *)
Definition answering_late : list E :=
  [ne_io 0 (ce_write ec_success); ne_session 1 0;
   ne_server 0 (ev_read 1 tt ec_success (RpcDemo.bytes 1 [x61])); ne_session 1 0;
   ne_io 0 (ce_read (λ _, 0) ec_success (RpcDemo.bytes 1 [x61])); ne_session 1 0] ++ walk 1 7 ++
  [ne_close 0; ne_io 0 (ce_read (λ _, 0) ec_failure []); ne_io 0 (ce_close ec_success);
   ne_delete 0; ne_expire 0; ne_io_done] ++ walk 1 13 ++
  [ne_connect 1 (xe_resolve ec_failure)] ++ walk 1 3.
Definition reached_late : N := default init (go init (connecting ++ asking ++ answering_late)).

Lemma late_steps :
  net_steps 0%nat tt id cfg timeouts false RpcDemo.host Demo.manager Demo.timeout (λ _, Demo.fresh)
    init (connecting ++ asking ++ answering_late) reached_late.
Proof. apply run_steps. vm_compute. reflexivity. Qed.

Lemma answered_steps :
  net_steps 0%nat tt id cfg timeouts false RpcDemo.host Demo.manager Demo.timeout (λ _, Demo.fresh)
    init (connecting ++ asking ++ answering) reached.
Proof. apply run_steps. vm_compute. reflexivity. Qed.
End NetDemo.


Lemma client_net_parts_witness :
  ∃ wes, world_run 0%nat tt id NetDemo.cfg NetDemo.timeouts false RpcDemo.host Demo.manager Demo.timeout
      (λ _, Demo.fresh) NetDemo.init wes (NetDemo.connecting ++ NetDemo.asking ++ NetDemo.answering)
      NetDemo.reached ∧
    world_steps tt NetDemo.cfg world_init wes (n_world NetDemo.reached).
Proof.
  apply (client_net_parts 0%nat tt id NetDemo.cfg NetDemo.timeouts false RpcDemo.host
    Demo.manager Demo.timeout (λ _, Demo.fresh) (λ _, Demo.fresh_like) ltac:(by eexists)
    _ _ NetDemo.answered_steps).
Defined.
