(* ===== verification/ClientBytes.v ===== *)
(** * ClientBytes: the bytes of a caller outlive what refers to them

    [client::send] and [client::send_recv] pass a pointer to the caller's bytes
    to a session, which keeps it in posted closures, in its queue and in
    [async_write].  Here: a call that returns leaves no session behind that
    still refers to its bytes. *)

From S2P Require Import Prelude Types Header Operations DataCache DataCacheFacts DataQueue.
From S2P Require Import ServerSession ServerSystem ServerSystemFacts ServerProps ClientSession ClientSystem ClientSystemFacts.
From S2P Require Import ClientOutgoing ClientConnect ClientConnectFacts RpcSystem RpcSystemFacts RpcProjection.
From S2P Require Import Prog Client ClientThreads ClientThreadsFacts ClientWorld.
From S2P Require Import ClientNet ClientNetFacts ClientNetPrograms ClientNetInv ClientNetSteps ClientNetProps.
#[local] Open Scope Z_scope.

(** ** The methods *)

Section programs.
Context {B : Type} `{FlatBuffer B, !FlatBufferLaws B} {F Req Res : Type}.
Context (empty_response : Res) (m_client_cfg : client_config).

Abbreviation client_cmd := (client_cmd (B := B) (F := F) (Req := Req)).
Abbreviation answer := (answer (B := B) (F := F) (Req := Req) (Res := Res)).
Abbreviation prog := (prog answer).
Implicit Types (m : bool) (o : client_cmd).

(** [m]: a session may refer to the bytes of the caller, who waits for nothing
    there any more. *)
Definition lends_pre m o : Prop :=
  match o with
  | session_send _ _ _ | session_send_recv _ _ _ _ => m = false
  | set_exit => False
  | _ => True
  end.

Definition lends m o : answer o → bool :=
  match o with
  | session_send _ _ _ => λ ec, ec_bool ec
  | session_send_recv _ _ _ _ => λ re, ec_bool (snd re)
  | wait_expired => λ b, if b then false else m
  | _ => λ _, m
  end.

(** The client is not being destroyed. *)
Definition staying o : answer o → Prop :=
  match o with get_exit => λ b, b = false | _ => λ _, True end.

Definition returns_with {A} m (p : prog A) (Q : A → bool → Prop) : Prop :=
  ok_given staying lends_pre lends m p Q (λ _, True).

(** Sends nothing. *)
Definition clean {A} (p : prog A) : Prop := ∀ m, returns_with m p (λ _ m', m' = true → m = true).

Lemma returns_bind {A C} m (p : prog A) (f : A → prog C) Q Q' :
  returns_with m p Q' → (∀ a m', Q' a m' → returns_with m' (f a) Q) → returns_with m (prog_bind p f) Q.
Proof. intros Hp Hf. apply ok_given_bind. eapply ok_given_mono; [exact Hp|apply Hf|done]. Qed.

Lemma clean_ret {A} (a : A) : clean (Ret a).
Proof. by intros m Hm. Qed.
Lemma clean_throw {A} why : clean (Throw (A := A) why).
Proof. intros m. exact I. Qed.
Lemma clean_op o :
  (∀ m, lends_pre m o) → (∀ m x, lends m o x = true → m = true) → clean (op (answer := answer) o).
Proof. intros Hp Hx m. split; [done|]. intros x _. exact (Hx m x). Qed.
Lemma clean_bind {A C} (p : prog A) (f : A → prog C) :
  clean p → (∀ a, clean (f a)) → clean (prog_bind p f).
Proof.
  intros Hp Hf m. eapply returns_bind; [apply Hp|]. intros a m' Hm.
  eapply ok_given_mono; [apply Hf| |done]. simpl. auto.
Qed.
Lemma clean_finally {A} (p : prog A) q : clean p → clean q → clean (finally p q).
Proof.
  intros Hp Hq m. apply ok_given_finally. eapply ok_given_mono; [apply Hp| |].
  - intros a m' Hm. eapply ok_given_mono; [apply Hq| |done]. simpl. auto.
  - intros m' _. eapply ok_given_mono; [apply Hq|done..].
Qed.

Ltac solve_clean :=
  repeat first
    [ apply clean_ret | apply clean_throw
    | (apply clean_bind; [|intros ?]) | apply clean_finally
    | (apply clean_op; [by intros ?|intros ? x; simpl; first [done|by destruct x]])
    | match goal with
      | |- clean (if ?b then _ else _) => destruct b
      | |- clean (match ?x with _ => _ end) => destruct x
      end ].

Lemma clean_connect : clean (connect (B := B) (F := F) (Req := Req) (Res := Res)).
Proof. unfold connect, with_write_lock, construct_session. solve_clean. Qed.

Lemma clean_connect_loop d i n :
  clean (connect_loop (B := B) (F := F) (Req := Req) (Res := Res) d i n).
Proof.
  revert i. induction n as [|n IH]; intros i; cbn [connect_loop];
    unfold wait_destruction, construct_session; solve_clean. apply IH.
Qed.

Lemma clean_close_active : clean (close_active (B := B) (F := F) (Req := Req) (Res := Res)).
Proof. unfold close_active. solve_clean. Qed.

Lemma returns_locked {A} m (p : prog A) Q : returns_with m p Q → returns_with m (with_write_lock p) Q.
Proof.
  intros Hp. split; [done|]. intros [] _. apply ok_given_finally.
  eapply ok_given_mono; [exact Hp| |]; [intros a m' HQ|intros m' _]; by split.
Qed.

(** [disconnect] returns when there is no session, or throws. *)
Lemma disconnect_waits m :
  returns_with m (disconnect (B := B) (F := F) (Req := Req) (Res := Res)) (λ _ m', m' = false).
Proof.
  apply returns_locked, (returns_bind _ _ _ _ (λ b _, b = false)); [by split|].
  intros b m0 ->. eapply returns_bind; [apply clean_close_active|]. intros _ m1 _.
  split; [done|]. by intros [] _.
Qed.

Lemma recover_waits m expired ec :
  (m = true → ec_bool ec = true) →
  returns_with m (recover (B := B) (F := F) (Req := Req) (Res := Res) expired ec) (λ _ m', m' = false).
Proof.
  intros Hm. apply (returns_bind _ _ _ _ (λ _ m', m' = false)).
  - destruct (ec_bool ec); [apply disconnect_waits|]. simpl. destruct m; [|done]. by specialize (Hm eq_refl).
  - intros _ m' ->. destruct expired; [|done].
    eapply returns_bind; [apply clean_connect|]. intros _ [] Hx; [by specialize (Hx eq_refl)|done].
Qed.

Lemma pause_keeps i m Q :
  (∀ m', (m' = true → m = true) → Q tt m') →
  returns_with m (if decide (i ≠ 0%nat)
    then op (answer := answer) (sleep_for (cc_send_attempt_delay m_client_cfg)) else Ret tt) Q.
Proof.
  intros HQ. destruct (decide _); [split; [done|intros [] _]|];
    change (Q tt m); by apply HQ.
Qed.

Lemma send_locked_lends id data :
  returns_with false (send_locked (B := B) (F := F) (Req := Req) (Res := Res) id data)
    (λ r m', match r with Some (_, ec) => m' = true → ec_bool ec = true | None => m' = false end).
Proof.
  split; [done|]. intros [] _. split; [done|]. intros b ->. split; [done|]. intros [o|] _.
  - split; [done|]. intros ec _. split; [done|]. intros [] _. split; [done|]. intros [] _ Hec. exact Hec.
  - split; [done|]. by intros [] _.
Qed.

Lemma send_loop_returns id data i n :
  returns_with false (send_loop (B := B) (F := F) (Req := Req) (Res := Res) m_client_cfg id data i n)
    (λ _ m', m' = false).
Proof.
  revert i. induction n as [|n IH]; intros i; cbn [send_loop]; [done|].
  apply (returns_bind _ _ _ _ (λ _ m', m' = false)); [apply pause_keeps; intros [] Hx; [by specialize (Hx eq_refl)|done]|].
  intros _ m1 ->. eapply returns_bind; [apply send_locked_lends|].
  intros [[expired ec]|] m2 Hm2; [|done].
  eapply returns_bind; [by apply recover_waits|]. intros _ m3 ->. by destruct (_ && _).
Qed.

Lemma send_recv_locked_lends id data result :
  returns_with false (send_recv_locked (F := F) (Req := Req) (Res := Res) id data result)
    (λ r m', match r with Some (_, _, ec) => m' = true → ec_bool ec = true | None => m' = false end).
Proof.
  split; [done|]. intros [] _. split; [done|]. intros b ->. split; [done|]. intros [o|] _.
  - split; [done|]. intros [b ec] _. split; [done|]. intros [] _. split; [done|]. intros [] _ Hec. exact Hec.
  - split; [done|]. by intros [] _.
Qed.

Lemma send_recv_loop_returns id data result i n :
  returns_with false
    (send_recv_loop (F := F) (Req := Req) (Res := Res) m_client_cfg id data result i n)
    (λ _ m', m' = false).
Proof.
  revert result i. induction n as [|n IH]; intros result i; cbn [send_recv_loop]; [done|].
  apply (returns_bind _ _ _ _ (λ _ m', m' = false)); [apply pause_keeps; intros [] Hx; [by specialize (Hx eq_refl)|done]|].
  intros _ m1 ->. eapply returns_bind; [apply send_recv_locked_lends|].
  intros [[[expired b] ec]|] m2 Hm2; [|done].
  eapply returns_bind; [by apply recover_waits|]. intros _ m3 ->. by destruct (_ && _).
Qed.

Lemma clean_returns {A} (p : prog A) : clean p → returns_with false p (λ _ m', m' = false).
Proof. intros Hp. eapply ok_given_mono; [apply Hp| |done]. intros a [] Hx; [by specialize (Hx eq_refl)|done]. Qed.

Lemma method_returns c :
  c ≠ call_destroy → returns_with false (method empty_response m_client_cfg c) (λ _ m', m' = false).
Proof.
  intros Hc. destruct c; cbn [method]; try done;
    try (apply (returns_bind _ _ _ _ (λ _ m', m' = false)); [|by intros ? ? ->]);
    try apply send_loop_returns; try apply send_recv_loop_returns; apply clean_returns.
  - apply clean_connect.
  - unfold connect_attempts, with_write_lock. solve_clean. apply clean_connect_loop.
  - unfold disconnect, with_write_lock, close_active, wait_destruction. solve_clean.
  - unfold ping, with_write_lock, construct_session. solve_clean.
  - unfold listen_broadcast, with_write_lock. solve_clean.
  - unfold set_handshake_request, with_write_lock. solve_clean.
  - unfold get_handshake_response, with_write_lock. solve_clean.
Qed.
End programs.

(** ** The steps of a connection *)

Section connection.
Context {B : Type} `{FlatBuffer B, !FlatBufferLaws B} {Req Res U : Type}.
Context (host : byte_order) (manager : manager_handlers (B := B) (Req := Req) (Res := Res) (U := U)).
Context (srv_timeout : server_timeout) (m_bound_funcs : gmap Z bool).
Abbreviation rpc_system := (rpc_system (B := B) (Req := Req) (Res := Res)).
Abbreviation rpc_event := (rpc_event (B := B) (Req := Req) (U := U)).
Abbreviation rpc_h := (rpc_handle host manager srv_timeout m_bound_funcs).
Implicit Types (s : rpc_system) (e : rpc_event).

Abbreviation out s := (outgoing (rs_client s)).

(** A state of a connection in which the messages of the client have unready
    promises. *)
Definition sound s : Prop :=
  (∃ m, rpc_inv host manager m s) ∧ promises_ok s ∧ unresolved (rs_client s).

Lemma sound_step s e s' :
  sound s → rpc_enabled s e = true → rpc_h s e = Some s' →
  sound s' ∧ goes_on (rs_client s) (rs_client s').
Proof.
  intros ([m Hm] & Hp & Hu) He Hh. pose proof (step_intro rpc_enabled rpc_h s e s' He Hh) as Hst.
  destruct (project_client_step host manager srv_timeout m_bound_funcs _ _ _ _ Hm Hp Hst) as (ces & _ & Hces).
  destruct (outgoing_on host m_bound_funcs _ _ _ (i_client _ _ _ _ Hm) Hces Hu) as [Hu' Hg].
  destruct (rpc_step host manager srv_timeout m_bound_funcs m s e Hm He) as (s2 & m' & Hh' & Hm').
  rewrite Hh in Hh'. injection Hh' as <-. split; [|done]. split; [by exists m'|]. split; [|done].
  by eapply promises_step.
Qed.

Lemma sound_steps is_ssl (s0 : session (B := B) (Req := Req) (Res := Res)) s es s' :
  new_session_like s0 → rpc_init srv_timeout is_ssl s0 = Some s →
  rpc_steps host manager srv_timeout m_bound_funcs s es s' → sound s'.
Proof.
  intros Hs0 Hi Hr. assert (sound s) as Hs.
  { pose proof (rpc_inv_init host manager srv_timeout is_ssl s0 s Hs0 Hi) as Hinv.
    unfold rpc_init in Hi. destruct (session_sys_init _ _ _); [|done]. injection Hi as <-.
    split; [by eexists|]. split; [apply promise_inv_init|]. split; [constructor|].
    intros d Hd. by apply elem_of_nil in Hd. }
  eapply steps_invariant; [|exact Hs|exact Hr]. intros s1 e s2 H1 [He Hh].
  by apply (sound_step s1 e s2).
Qed.

(** *** What a send posts *)

Definition message_of (c : rpc_call) (d : data_send) : Prop :=
  call_id (send_header d) = rc_call_id c ∧ body d = rc_data c.

Lemma post_outgoing id rid data (t t' : client_sys (B := B)) p d :
  client_call (post_send id rid data) t = Some (p, t') → d ∈ outgoing t' →
  d ∈ outgoing t ∨ d = new_data_send id rid p data.
Proof.
  unfold client_call, deliver, post_send, kthis. run_act. intros [= <- <-].
  unfold outgoing, entries. simpl. rewrite !elem_of_app. intros [?|Hd]; [by left; left|].
  destruct (pend t). simpl in *. apply elem_of_app in Hd as [?|Hd]; [by left; right|].
  right. by apply list_elem_of_singleton in Hd.
Qed.

Lemma call_outgoing now rt id data (t t' : client_sys (B := B)) r d :
  client_call (ClientSession.send_recv now rt id data) t = Some (r, t') → d ∈ outgoing t' →
  d ∈ outgoing t ∨ ∃ rid p, r = inr (rid, p) ∧ d = new_data_send id rid p data.
Proof.
  unfold ClientSession.send_recv. destruct (duration_mul rt 2) as [valid|]; [|done].
  intros (rid & t1 & E1 & E2)%client_call_bind Hd; [|intros *; apply entries_on_cache].
  apply client_call_deliver in E1. apply (aside_deliver _ _ _ _ _ _ (aside_cache _)) in E1 as (Eq & _ & _ & Ep).
  assert (outgoing t1 = outgoing t) as Eo by (unfold outgoing; by rewrite Ep; f_equal).
  case_decide; [rewrite client_call_ret in E2; injection E2 as _ <-; left; by rewrite <-Eo|].
  apply client_call_bind in E2 as (p & t2 & E2 & E3); [|intros * E; by injection E as <- <- <-].
  rewrite client_call_ret in E3. injection E3 as <- <-.
  destruct (post_outgoing _ _ _ _ _ _ _ E2 Hd) as [?| ->]; [left; by rewrite <-Eo|].
  right. by exists rid, p.
Qed.

(** A thread that waits for the promise of its message [d]. *)
Definition waits_for (d : data_send) (x : rpc_thread) : Prop :=
  match x with
  | rt_sending c p | rt_written c _ p => p = result_callback d ∧ message_of c d
  | rt_response _ _ | rt_swap _ _ _ => False
  end.

Lemma waits_holds d x : waits_for d x → holds_promise (result_callback d) x.
Proof. by destruct x; simpl; intros H'; try destruct H'. Qed.

(** A message that was not there is one of the thread that steps, which waits
    for its promise. *)
Lemma new_message s e s' d :
  sound s → rpc_enabled s e = true → rpc_h s e = Some s' → d ∈ out s' →
  d ∈ out s ∨ ∃ th t, rpc_thread_of e = Some th ∧ rs_threads s' !! th = Some t ∧
    waits_for d t.
Proof.
  intros Hs He Hh Hd. destruct (sound_step s e s' Hs He Hh) as [(_ & _ & [_ Hu']) [_ Hg]].
  destruct (Hg d Hd) as [?|Hge]; [by left|]. destruct (Hu' d Hd) as [Hlt _].
  destruct e as [th now rt c|th|th|th b|th c|th|e|e]; cbn [rpc_enabled rpc_handle rpc_thread_of] in *;
    try (lazymatch type of Hh with context [rs_threads s !! th] =>
      destruct (rs_threads s !! th) as [[c p|c rid p|c l|c l ec]|]; try done end);
    try (destruct (client_call _ _) as [[r t']|] eqn:Ec; [|done]; pose proof Ec as E;
         apply client_call_Done in E as [es E]).
  - destruct r as [?|[rid p]]; injection Hh as <-; simpl in *;
      (destruct (call_outgoing _ _ _ _ _ _ _ _ Ec Hd) as [?|(rid' & p' & Er & ->)]; [by left|]); [done|].
    injection Er as <- <-. right. exists th. eexists. by rewrite lookup_insert_eq.
  - apply send_recv_written_promises in E as [_ E]. destruct r as [?|[|?|?]]; injection Hh as <-; simpl in *; lia.
  - injection Hh as <-.
    destruct (promises_send_recv_waited _ _ _ _ _ _ _ E (conj eq_refl eq_refl)) as [_ E']. simpl in *. lia.
  - injection Hh as <-.
    destruct (promises_send_recv_done _ _ _ _ _ _ _ _ E (conj eq_refl eq_refl)) as [_ E']. simpl in *. lia.
  - injection Hh as <-. simpl in *.
    destruct (post_outgoing _ _ _ _ _ _ _ Ec Hd) as [?| ->]; [by left|].
    right. exists th. eexists. by rewrite lookup_insert_eq.
  - apply send_done_promises in E as (_ & _ & E). injection Hh as <-. simpl in *. lia.
  - destruct (client_handle _ _ _ _) as [t'|] eqn:E; [|done]. injection Hh as <-.
    destruct (promises_event _ _ _ _ _ _ _ He E (conj eq_refl eq_refl)) as [_ E']. simpl in *. lia.
  - destruct (session_handle _ _ _ _ _) as [t'|] eqn:E; [|done]. injection Hh as <-. simpl in *. lia.
Qed.

(** The promise a thread comes to wait for is not that of a message there was. *)
Lemma held_new s e s' th t d :
  sound s → rpc_h s e = Some s' → rpc_thread_of e = Some th → rs_threads s' !! th = Some t →
  d ∈ out s → ¬ holds_promise (result_callback d) t.
Proof.
  intros (_ & _ & [_ Hu]) Hh Hth Ht Hd. destruct (Hu d Hd) as [Hlt _].
  destruct e as [t0 now rt c|t0|t0|t0 b|t0 c|t0|e|e]; cbn [rpc_handle rpc_thread_of] in *; try done;
    injection Hth as ->;
    try (lazymatch type of Hh with context [rs_threads s !! th] =>
      destruct (rs_threads s !! th) as [[c p|c rid p|c l|c l ec]|]; try done end);
    (destruct (client_call _ _) as [[r t']|] eqn:E; [|done]; apply client_call_Done in E as [es E]).
  - apply send_recv_promises in E. destruct r as [?|[rid p]]; injection Hh as <-; simpl in *.
    + by rewrite lookup_delete_eq in Ht.
    + rewrite lookup_insert_eq in Ht. injection Ht as <-. destruct E as (-> & _). simpl. lia.
  - destruct r as [?|[|?|?]]; injection Hh as <-; simpl in Ht; rewrite ?lookup_delete_eq, ?lookup_insert_eq in Ht;
      try done; injection Ht as <-; by intros [].
  - injection Hh as <-. simpl in Ht. rewrite lookup_insert_eq in Ht. injection Ht as <-. by intros [].
  - injection Hh as <-. simpl in Ht. by rewrite lookup_delete_eq in Ht.
  - apply send_promises in E as (-> & _). injection Hh as <-. simpl in Ht.
    rewrite lookup_insert_eq in Ht. injection Ht as <-. simpl. lia.
  - injection Hh as <-. simpl in Ht. by rewrite lookup_delete_eq in Ht.
Qed.

Lemma send_recv_written_unready rid p (c c' : client_session (B := B)) r es :
  send_recv_written rid p c = Done r c' es → promise_ready p (live c) = false → r = inl timed_out.
Proof.
  unfold send_recv_written, send_done, kthis. run_act. intros E Hr. rewrite Hr in E. by injection E as <- _ _.
Qed.

(** As long as its message is there, a thread waits on or gets an error. *)
Lemma message_kept s e s' th t d :
  sound s → rpc_enabled s e = true → rpc_h s e = Some s' → rpc_thread_of e = Some th →
  rs_threads s !! th = Some t → holds_promise (result_callback d) t → d ∈ out s →
  rs_threads s' !! th = None ∧ ec_bool (ec_after s') = true.
Proof.
  intros (_ & _ & [_ Hu]) He Hh Hth Ht Hp Hd. destruct (Hu d Hd) as [_ Hr].
  assert (∀ c r t', ec_bool (ec_after (returned th (mk_rpc_return c (Some r) []) t' s)) = true) as Hec.
  { intros c r t'. unfold ec_after. simpl. rewrite last_snoc. apply recv_error_code_Some. }
  destruct e as [t0 now rt c|t0|t0|t0 b|t0 c|t0|e|e]; cbn [rpc_enabled rpc_handle rpc_thread_of] in *; try done;
    injection Hth as ->; rewrite Ht in *.
  - by apply bool_decide_eq_true in He as [? _].
  - destruct t as [c p|c rid p|c l|c l ec]; try done. simpl in Hp. subst p.
    destruct (client_call _ _) as [[r t']|] eqn:E; [|done]. apply client_call_Done in E as [es E].
    apply send_recv_written_unready in E as ->; [|done]. injection Hh as <-. simpl.
    rewrite lookup_delete_eq. split; [done|]. apply Hec.
  - by destruct t.
  - by destruct t.
  - by apply bool_decide_eq_true in He as [? _].
  - destruct t as [c p|c rid p|c l|c l ec]; try done. simpl in Hp. subst p.
    destruct (client_call _ _) as [[r t']|] eqn:E; [|done]. apply client_call_Done in E as [es E].
    apply send_done_promises in E as (-> & _). rewrite Hr in Hh. injection Hh as <-. simpl.
    rewrite lookup_delete_eq. split; [done|]. apply Hec.
Qed.
End connection.

(** ** The client *)

Section client.
Context {B : Type} `{FlatBuffer B, !FlatBufferLaws B} {F Req Res U : Type}.
Context (empty_request : Req) (empty_response : Res) (has_handler : F → bool).
Context (m_client_cfg : client_config) (m_client_timeout : client_timeout) (is_ssl : bool).
Context (host : byte_order) (manager : manager_handlers (B := B) (Req := Req) (Res := Res) (U := U)).
Context (srv_timeout : server_timeout)
  (accepted_session : nat → session (B := B) (Req := Req) (Res := Res)).

Abbreviation client := (client (F := F) (Req := Req)).
Abbreviation client_cmd := (client_cmd (B := B) (F := F) (Req := Req)).
Abbreviation answer := (answer (B := B) (F := F) (Req := Req) (Res := Res)).
Abbreviation client_net := (client_net (B := B) (F := F) (Req := Req) (Res := Res)).
Abbreviation connection := (connection (B := B) (Req := Req) (Res := Res)).
Abbreviation call := (call (F := F) (Req := Req)).
Abbreviation net_event := (net_event (B := B) (F := F) (Req := Req) (Res := Res) (U := U)).
Abbreviation enabled := (net_enabled (B := B) (F := F) (Req := Req) (Res := Res) (U := U)).
Abbreviation handle := (net_handle empty_request empty_response has_handler m_client_cfg
  m_client_timeout is_ssl host manager srv_timeout accepted_session).
Abbreviation net_inv := (net_inv empty_request has_handler m_client_cfg m_client_timeout is_ssl
  host manager srv_timeout accepted_session).
Abbreviation step_w := (step_world empty_response m_client_cfg).
Implicit Types (n : client_net) (k : connection) (o : client_cmd) (l : gset nat).

(** The messages session [k] still refers to. *)
Abbreviation refers k := (outgoing (rs_client (k_rpc k))).

(** [d] is a message of call [c]. *)
Definition call_message (c : option call) (d : data_send) : Prop :=
  match c with
  | Some (call_send i data | call_send_recv i data) => message_of (mk_rpc_call i data) d
  | _ => False
  end.

(** Thread [th] waits for the promise of message [d], or knows that the bytes of
    its call may be referred to, or has been thrown out of a call. *)
Definition accounted l n k (d : data_send) (th : nat) : Prop :=
  th ∈ l ∧ call_message (n_calls n !! th) d ∨ th ∈ n_threw n ∨
  ∃ t, rs_threads (k_rpc k) !! th = Some t ∧ waits_for d t.

Definition owned l n k : Prop :=
  ∀ d, d ∈ refers k → ∃ th, k_lent k !! result_callback d = Some th ∧ accounted l n k d th.

Record bytes_inv n l : Prop := {
  y_exit : m_exit (the_client_of n) = false;
  y_owned x k : x ∈ alive (the_client_of n) → n_conns n !! x = Some k → owned l n k;
  y_users th p : users (n_world n) !! th = Some p →
    returns_with (bool_decide (th ∈ l)) p (λ _ m', m' = false);
  y_idle th : users (n_world n) !! th = None → th ∉ l }.

Lemma bytes_inv_init : bytes_inv net_init ∅.
Proof. split; simpl; try done. Qed.

Lemma owned_mono l l' n n' k :
  (∀ th, th ∈ l → th ∈ l' ∧ n_calls n' !! th = n_calls n !! th ∨ th ∈ n_threw n') →
  n_threw n ⊆ n_threw n' → owned l n k → owned l' n' k.
Proof.
  intros Hl Ht Ho d Hd. destruct (Ho d Hd) as (th & Hth & Ha). exists th. split; [done|].
  destruct Ha as [[Hin Hc]|[Ha|Ha]]; [|right; left; by apply Ht|by right; right].
  destruct (Hl th Hin) as [[Hl' E]|?]; [left|by right; left]. by rewrite E.
Qed.

(** The set after thread [th] has learnt whether its bytes may be referred to. *)
Definition learn (th : nat) (b : bool) l : gset nat := if b then {[th]} ∪ l else l ∖ {[th]}.

#[local] Arguments learn th b l : simpl never.

Lemma learn_self th b l : bool_decide (th ∈ learn th b l) = b.
Proof. unfold learn. destruct b; [apply bool_decide_eq_true|apply bool_decide_eq_false]; set_solver. Qed.

Lemma learn_other th th' b l : th' ≠ th → bool_decide (th' ∈ learn th b l) = bool_decide (th' ∈ l).
Proof. intros Hne. unfold learn. apply bool_decide_ext. destruct b; set_solver. Qed.

Lemma learn_same th l : learn th (bool_decide (th ∈ l)) l = l.
Proof. unfold learn. case_bool_decide; apply set_eq; set_solver. Qed.

(** A thread that goes on with its program. *)
Lemma bytes_answer n l th o f r c' conns' pings' :
  bytes_inv n l → users (n_world n) !! th = Some (Op o f) → staying o r → m_exit c' = false →
  let l' := learn th (lends (bool_decide (th ∈ l)) o r) l in
  (∀ x k, x ∈ alive c' → conns' !! x = Some k → owned l' n k) →
  bytes_inv (mk_client_net (mk_client_world c' (<[th := f r]> (users (n_world n)))) conns' pings'
    (n_calls n) (n_threw n)) l'.
Proof.
  intros [Y1 Y2 Y3 Y4] Hu Hst Hex l' Hown. split; simpl; try done.
  - intros th' p. destruct (decide (th' = th)) as [->|Hne].
    + rewrite lookup_insert_eq. intros [= <-]. unfold l'. rewrite learn_self.
      destruct (Y3 _ _ Hu) as [_ Hp]. by apply Hp.
    + rewrite lookup_insert_ne by done. unfold l'. rewrite learn_other by done. apply Y3.
  - intros th'. destruct (decide (th' = th)) as [->|Hne]; [by rewrite lookup_insert_eq|].
    rewrite lookup_insert_ne by done. intros Hn%Y4. unfold l', learn. destruct (lends _ _ _); set_solver.
Qed.

(** Another state of one connection. *)
Lemma bytes_conn n l x k' :
  bytes_inv n l → (x ∈ alive (the_client_of n) → owned l n k') → bytes_inv (set_conn x k' n) l.
Proof.
  intros [Y1 Y2 Y3 Y4] Ho. split; simpl; try done.
  intros z k Hz [[<- <-]|[_ Hk]]%lookup_insert_Some; [by apply Ho|]. by apply (Y2 z).
Qed.

Lemma bytes_pings n l m : bytes_inv n l → bytes_inv (set_pings m n) l.
Proof. by intros [Y1 Y2 Y3 Y4]. Qed.

Lemma bytes_env n l e w :
  bytes_inv n l → world_handle empty_response m_client_cfg (n_world n) e = Some w →
  match e with we_io_done | we_delete _ | we_expire _ => True | _ => False end →
  bytes_inv (set_world w n) l.
Proof.
  intros [Y1 Y2 Y3 Y4] Hh He. destruct e; try done; injection Hh as <-; split; simpl; try done; auto.
  intros x k Hx. apply Y2. set_solver.
Qed.

Lemma bytes_call n l th c n' :
  bytes_inv n l → enabled n (ne_call th c) = true → c ≠ call_destroy →
  handle n (ne_call th c) = Some n' → ∃ l', bytes_inv n' l'.
Proof.
  intros [Y1 Y2 Y3 Y4] [He _]%andb_true_iff Hc Hh. simpl in He, Hh. injection Hh as <-.
  exists (learn th false l). split; simpl; try done.
  - intros x k Hx Hk. eapply owned_mono, (Y2 x k Hx Hk); simpl.
    + intros th' Hth'. destruct (decide (th' = th)) as [->|Hne].
      * right. destruct (users (n_world n) !! th) as [[v|why|]|] eqn:Hu; try done; [|set_solver|by apply Y4 in Hu].
        pose proof (Y3 _ _ Hu) as Hr. simpl in Hr. by apply bool_decide_eq_false in Hr.
      * left. rewrite lookup_insert_ne by done. unfold learn. set_solver.
    + destruct (users (n_world n) !! th) as [[]|]; set_solver.
  - intros th' p. destruct (decide (th' = th)) as [->|Hne].
    + rewrite lookup_insert_eq, learn_self. intros [= <-]. by apply method_returns.
    + rewrite lookup_insert_ne, learn_other by done. apply Y3.
  - intros th'. destruct (decide (th' = th)) as [->|Hne]; [by rewrite lookup_insert_eq|].
    rewrite lookup_insert_ne by done. intros Hn%Y4. unfold learn. set_solver.
Qed.

Section steps.
Context (accepted_new : ∀ x, new_session_like (accepted_session x)).
Context (timeout_ok : is_Some (duration_mul (ct_response_timeout m_client_timeout) 2)).
Abbreviation rpc_h := (rpc_handle host manager srv_timeout).

Lemma conn_sound n g x k : net_inv n g → n_conns n !! x = Some k → sound host manager (k_rpc k).
Proof.
  intros Hi Hk. destruct (v_conn Hi _ Hk) as [(s0 & es & Hs0 & Hr) _].
  exact (sound_steps host manager srv_timeout _ is_ssl _ _ _ _ (accepted_new x) Hs0 Hr).
Qed.

(** ** The steps in a connection *)

Lemma owned_event funcs l n k e s :
  sound host manager (k_rpc k) → rpc_enabled (k_rpc k) e = true → rpc_h funcs (k_rpc k) e = Some s →
  rpc_thread_of e = None → owned l n k → owned l n (with_rpc s k).
Proof.
  intros Hs He Hh Hth Ho d Hd.
  destruct (new_message host manager srv_timeout funcs _ e s d Hs He Hh Hd) as [Hin|(th & t & E & _)];
    [|congruence].
  destruct (Ho d Hin) as (th & Hl & Ha). exists th. split; [done|]. unfold accounted in *. simpl.
  by rewrite (other_threads host manager srv_timeout _ _ _ _ th Hh) by congruence.
Qed.

Lemma lend_lookup th (s : rpc_system (B := B) (Req := Req) (Res := Res)) t p (m : gmap nat nat) :
  rs_threads s !! th = Some t → lend th s m !! p = Some th ∧ holds_promise p t ∨ lend th s m !! p = m !! p.
Proof.
  intros Ht. unfold lend. rewrite Ht. destruct t as [c q|c rid q|c r|c r ec]; [| |by right|by right];
    (destruct (decide (q = p)) as [<-|Hne]; [left; by rewrite lookup_insert_eq|right; by rewrite lookup_insert_ne]).
Qed.

Lemma lend_holds th (s : rpc_system (B := B) (Req := Req) (Res := Res)) t p (m : gmap nat nat) :
  rs_threads s !! th = Some t → holds_promise p t → lend th s m !! p = Some th.
Proof. intros Ht Hp. unfold lend. rewrite Ht. destruct t; simpl in Hp; subst; try done; by rewrite lookup_insert_eq. Qed.

(** The thread is still inside. *)
Lemma owned_inside funcs l n k e s th t :
  sound host manager (k_rpc k) → rpc_enabled (k_rpc k) e = true → rpc_h funcs (k_rpc k) e = Some s →
  rpc_thread_of e = Some th → rs_threads s !! th = Some t → owned l n k →
  owned l n (with_lent (lend th s (k_lent k)) (with_rpc s k)).
Proof.
  intros Hs He Hh Hth Ht Ho d Hd. simpl in Hd. unfold accounted. simpl.
  destruct (new_message host manager srv_timeout funcs _ e s d Hs He Hh Hd) as [Hin|(th' & t' & E & Ht' & Hp)].
  - destruct (lend_lookup th s t (result_callback d) (k_lent k) Ht) as [[_ Hp]| ->];
      [by destruct (held_new host manager srv_timeout funcs _ e s th t d Hs Hh Hth Ht Hin)|].
    destruct (Ho d Hin) as (th0 & Hl & Ha). exists th0. split; [done|].
    destruct Ha as [?|[?|(t0 & Ht0 & Hp0)]]; [by left|by right; left|].
    destruct (decide (th0 = th)) as [->|Hne].
    + apply waits_holds in Hp0.
      destruct (message_kept host manager srv_timeout funcs _ e s th t0 d Hs He Hh Hth Ht0 Hp0 Hin). congruence.
    + right. right. exists t0. split; [|done].
      by rewrite (other_threads host manager srv_timeout _ _ _ _ th0 Hh) by congruence.
  - rewrite Hth in E. injection E as <-. exists th. split; [by eapply lend_holds, waits_holds|].
    right. right. by exists t'.
Qed.

(** The call has returned. *)
Lemma owned_returned funcs l n k e s th :
  sound host manager (k_rpc k) → rpc_enabled (k_rpc k) e = true → rpc_h funcs (k_rpc k) e = Some s →
  rpc_thread_of e = Some th → rs_threads s !! th = None → th ∉ l →
  (∀ t d, rs_threads (k_rpc k) !! th = Some t → waits_for d t → call_message (n_calls n !! th) d) →
  owned l n k →
  owned (learn th (ec_bool (ec_after s)) l) n (with_lent (lend th s (k_lent k)) (with_rpc s k)).
Proof.
  intros Hs He Hh Hth Ht Hl Hcall Ho d Hd. simpl in Hd. unfold accounted, lend. simpl. rewrite Ht.
  destruct (new_message host manager srv_timeout funcs _ e s d Hs He Hh Hd) as [Hin|(th' & t' & E & Ht' & Hp)];
    [|congruence].
  destruct (Ho d Hin) as (th0 & Hl0 & Ha). exists th0. split; [done|].
  destruct Ha as [[??]|[?|(t0 & Ht0 & Hp0)]]; [|by right; left|].
  - left. split; [|done]. unfold learn. destruct (ec_bool _); set_solver.
  - destruct (decide (th0 = th)) as [->|Hne].
    + destruct (message_kept host manager srv_timeout funcs _ e s th t0 d Hs He Hh Hth Ht0
        (waits_holds _ _ Hp0) Hin) as [_ ->].
      left. split; [unfold learn; set_solver|]. by eapply Hcall.
    + right. right. exists t0. split; [|done].
      by rewrite (other_threads host manager srv_timeout _ _ _ _ th0 Hh) by congruence.
Qed.

(** What a thread waits for is a message of its call. *)
Lemma waits_call n g x k th t d :
  net_inv n g → n_conns n !! x = Some k → rs_threads (k_rpc k) !! th = Some t → waits_for d t →
  call_message (n_calls n !! th) d.
Proof.
  intros Hi Hk Ht Hw. destruct (v_thread Hi _ _ Hk Ht) as (o & f & Hu & Hin).
  destruct (v_users Hi _ Hu) as (c & -> & [Hm _]).
  destruct o, t; simpl in Hin, Hm, Hw; try done; destruct Hin as [_ ->], Hm as [-> _]; by destruct Hw.
Qed.

Lemma learn_more th b l : th ∉ l → l ⊆ learn th b l.
Proof. unfold learn. destruct b; set_solver. Qed.

(** ** The commands outside the sessions *)

(** Connections whose sessions refer to what they did, or to nothing. *)
Definition same_lent (conns conns' : gmap nat connection) (x : nat) k' : Prop :=
  refers k' = [] ∨
  ∃ k, conns !! x = Some k ∧ k_rpc k' = k_rpc k ∧ k_lent k' = k_lent k.

Lemma owned_same l n k k' :
  k_rpc k' = k_rpc k → k_lent k' = k_lent k → owned l n k → owned l n k'.
Proof. unfold owned, accounted. by intros -> ->. Qed.

Lemma owned_nothing l n k : refers k = [] → owned l n k.
Proof. intros E d. rewrite E. by intros ?%elem_of_nil. Qed.

Lemma in_session_conns o b n st n' :
  in_session m_client_cfg o b n = Some (st, n') →
  ∃ conns', n' = mk_client_net (n_world n) conns' (n_pings n) (n_calls n) (n_threw n) ∧
    ∀ x k', conns' !! x = Some k' → same_lent (n_conns n) conns' x k'.
Proof.
  intros Hin. assert (∀ z k k', n_conns n !! z = Some k → k_rpc k' = k_rpc k → k_lent k' = k_lent k →
    ∀ x k1, <[z := k']> (n_conns n) !! x = Some k1 → same_lent (n_conns n) (<[z := k']> (n_conns n)) x k1) as Hset.
  { intros z k k' Hk E1 E2 x k1 [[<- <-]|[_ Hx]]%lookup_insert_Some; right; [by exists k|by exists k1]. }
  assert (∀ x k, n_conns n !! x = Some k → same_lent (n_conns n) (n_conns n) x k) as Hid.
  { intros x k Hk. right. by exists k. }
  assert (n = mk_client_net (n_world n) (n_conns n) (n_pings n) (n_calls n) (n_threw n)) as Hn by by destruct n.
  destruct o as [| | | | | | | | | |x|x| | |x| | | | | | |]; simpl in Hin; try (injection Hin as _ <-; by eauto);
    destruct (n_conns n !! x) as [k|] eqn:Hk; try done; simpl in Hin.
  - destruct (run_begin _ _) as [early ? ?| |]; try done. destruct (connect_deliver _ _) as [y|]; [|done].
    injection Hin as _ <-. eexists. split; [reflexivity|]. by eapply Hset.
  - destruct (k_early k); [injection Hin as _ <-; by eauto|].
    destruct (ClientConnect.run_result _); [|done]. injection Hin as _ <-. by eauto.
  - destruct (close _ _) as [? ? es| |]; try done. destruct (connect_deliver _ _) as [y|]; [|done].
    injection Hin as _ <-. eexists. split; [reflexivity|]. by eapply Hset.
Qed.

Lemma rpc_init_refers (s0 : session (B := B) (Req := Req) (Res := Res)) s :
  rpc_init srv_timeout is_ssl s0 = Some s → outgoing (rs_client s) = [].
Proof. unfold rpc_init. destruct (session_sys_init _ _ _); [|done]. by intros [= <-]. Qed.

Lemma new_connection_conns x o n n' :
  new_connection has_handler is_ssl srv_timeout accepted_session x o n = Some n' →
  ∃ conns', n' = mk_client_net (n_world n) conns' (n_pings n) (n_calls n) (n_threw n) ∧
    (∀ z k', conns' !! z = Some k' → same_lent (n_conns n) conns' z k') ∧
    (∀ z, z ≠ x ∨ o ≠ new_session → conns' !! z = n_conns n !! z).
Proof.
  assert (∀ z k, n_conns n !! z = Some k → same_lent (n_conns n) (n_conns n) z k) as Hid.
  { intros z k Hk. right. by exists k. }
  destruct o; simpl; try (intros [= <-]; exists (n_conns n); by destruct n).
  destruct (rpc_init _ _ _) as [s|] eqn:E; [|done]. intros [= <-].
  eexists. split; [reflexivity|]. split.
  - intros z k' [[<- <-]|[_ Hz]]%lookup_insert_Some; [left; by eapply rpc_init_refers|by apply Hid].
  - intros z [Hz|?]; [by rewrite lookup_insert_ne|done].
Qed.

(** Outside the sessions nothing is learnt, but that no session is left. *)
Lemma learnt_outside n g l th o f a r c' :
  net_inv n g → bytes_inv n l → users (n_world n) !! th = Some (Op o f) → blocks_in o = None →
  exec (Res := Res) th a o (the_client_of n) = Some (r, c') →
  staying o r ∧ m_exit c' = false ∧
  (alive (the_client_of n) ≠ ∅ → learn th (lends (bool_decide (th ∈ l)) o r) l = l).
Proof.
  intros Hi [Y1 Y2 Y3 Y4] Hu Hb He. destruct (Y3 _ _ Hu) as [Hp _].
  assert (∀ b, b = bool_decide (th ∈ l) → learn th b l = l) as Hl by (intros ? ->; apply learn_same).
  pose proof (ci_tokens _ (wi_client _ (v_world Hi))) as Ht.
  destruct o; simpl in He, Hb, Hp; try done; unfold do_take_expired, do_lock_session, do_bind, do_new_session in He;
    repeat case_match; simplify_eq; simpl; (split; [done|]; split; [done|]; intros Ha; try by apply Hl).
  destruct (m_expired (the_client_of n)) eqn:E; [|by apply Hl].
  by destruct (tokens_expired _ Ht E) as (_ & Ea & _).
Qed.

(** A session that is alive after a command was so before, or was just made. *)
Lemma exec_alive th a o (c : client) r c' x :
  exec (B := B) (Res := Res) th a o c = Some (r, c') → x ∈ alive c' →
  x ∈ alive c ∨ o = new_session ∧ x = fresh_session c.
Proof. intros He%exec_frame Hx. destruct o; destruct He as [E _]; rewrite E in Hx; set_solver. Qed.

Lemma bytes_step n g l th response b n' :
  net_inv n g → bytes_inv n l → enabled n (ne_step th response b) = true →
  handle n (ne_step th response b) = Some n' → ∃ l', bytes_inv n' l'.
Proof.
  intros Hi Hy He Hh. cbn [net_enabled net_handle] in *.
  destruct (users (n_world n) !! th) as [[| |o f]|] eqn:Hu; try done.
  apply andb_true_iff in He as [[Hb _]%andb_true_iff _]. apply bool_decide_eq_true in Hb.
  destruct (in_session _ _ _ _) as [[st n1]|] eqn:E1; [|done]. simpl in Hh.
  destruct (in_session_conns _ _ _ _ _ E1) as (conns1 & -> & Hconns1).
  unfold step_world in Hh. simpl in Hh. rewrite Hu in Hh.
  destruct (exec th _ o (the_client (n_world n))) as [[r c']|] eqn:E2; [|done]. simpl in Hh.
  destruct (new_connection_conns _ _ _ _ Hh) as (conns2 & -> & Hconns2 & Hold).
  destruct (learnt_outside n g l th o f _ r c' Hi Hy Hu Hb E2) as (Hst & Hex & Hl).
  eexists. apply (bytes_answer n l th o f r c' conns2 _ Hy Hu Hst Hex).
  intros x k2 Hx Hk2. destruct (Hconns2 x k2 Hk2) as [?|(k1 & Hk1 & Hr2 & Hl2)]; [by apply owned_nothing|].
  eapply owned_same; [exact Hr2|exact Hl2|]. simpl in Hk1.
  destruct (Hconns1 x k1 Hk1) as [?|(k & Hk & Hr1 & Hl1)]; [by apply owned_nothing|].
  eapply owned_same; [exact Hr1|exact Hl1|].
  destruct (exec_alive _ _ _ _ _ _ _ E2 Hx) as [Ha|[_ ->]].
  - rewrite Hl; [by eapply y_owned|]. intros E. unfold the_client_of in E. rewrite E in Ha. set_solver.
  - assert (fresh_session (the_client_of n) < fresh_session (the_client_of n))%nat; [|lia].
    apply (v_fresh Hi). by eexists.
Qed.

(** ** The operations inside a session *)

Lemma bytes_send n g l th x now o f k n' :
  net_inv n g → bytes_inv n l → users (n_world n) !! th = Some (Op o f) → blocks_in o = Some x →
  blocks_send o → n_conns n !! x = Some k → x ∈ alive (the_client_of n) →
  dc_id_counter (m_cache (cl (rs_client (k_rpc k)))) + 1 < 2 ^ 64 →
  send_step empty_response has_handler m_client_cfg m_client_timeout host manager srv_timeout
    th x now o k n = Some n' → ∃ l', bytes_inv n' l'.
Proof.
  intros Hi Hy Hu Hb Hbs Hk Ha Hcnt Hh. unfold send_step in Hh.
  destruct (next_operation_enabled (U := U) m_client_timeout th now x o (k_rpc k) timeout_ok Hcnt Hbs)
    as (e & Hn & He & Hth).
  { by eapply thread_call_ok. }
  { intros t. by eapply thread_inside. }
  rewrite Hn in Hh. simpl in Hh. destruct (rpc_h _ _ _) as [s|] eqn:Hs; [|done]. simpl in Hh.
  pose proof (conn_sound n g x k Hi Hk) as Hsound.
  pose proof (y_owned _ _ Hy x k Ha Hk) as Hown.
  assert (th ∉ l) as Hth_l.
  { destruct (y_users _ _ Hy _ _ Hu) as [Hp _]. apply (bool_decide_eq_false_1 (th ∈ l)). by destruct o. }
  destruct (rs_threads s !! th) as [t|] eqn:Et.
  - rewrite decide_True in Hh by eauto. injection Hh as <-. exists l.
    apply bytes_conn; [done|]. intros _. by eapply owned_inside.
  - rewrite decide_False in Hh by (by intros []). unfold step_world in Hh. simpl in Hh. rewrite Hu in Hh.
    destruct (exec th _ o (the_client (n_world n))) as [[r c']|] eqn:Hex; [|done]. injection Hh as <-.
    assert (c' = the_client_of n ∧ lends (bool_decide (th ∈ l)) o r = ec_bool (ec_after s)) as [-> Hlends].
    { destruct o; try done; simpl in Hex; destruct (bool_decide _); try done; by injection Hex as <- <-. }
    eexists. apply (bytes_answer n l th o f r _ (<[x:=with_lent (lend th s (k_lent k)) (with_rpc s k)]> (n_conns n))
      _ Hy Hu); [by destruct o|apply Hy|]. rewrite Hlends.
    intros z k1 Hz [[<- <-]|[_ Hk1]]%lookup_insert_Some; [eapply owned_returned; try done; intros t d; by eapply waits_call|].
    eapply owned_mono, (y_owned _ _ Hy z k1 Hz Hk1); [|done].
    pose proof (learn_more th (ec_bool (ec_after s)) l Hth_l). left. set_solver.
Qed.

Lemma bytes_ping n g l th x f k n' :
  net_inv n g → bytes_inv n l → users (n_world n) !! th = Some (Op (session_ping x) f) →
  n_conns n !! x = Some k → x ∈ alive (the_client_of n) →
  ping_step empty_response has_handler m_client_cfg host manager srv_timeout th x k n = Some n' →
  ∃ l', bytes_inv n' l'.
Proof.
  intros Hi Hy Hu Hk Ha Hh. pose proof (conn_sound n g x k Hi Hk) as Hsound.
  pose proof (y_owned _ _ Hy x k Ha Hk) as Hown. unfold ping_step in Hh.
  assert (∀ m e s, rpc_enabled (U := U) (k_rpc k) (re_client e) = true →
    rpc_h (bound_handlers has_handler (the_client_of n)) (k_rpc k) (re_client e) = Some s →
    bytes_inv (set_pings m (set_conn x (with_rpc s k) n)) l) as Hpost.
  { intros m e s He Hs. apply bytes_pings, bytes_conn; [done|]. intros _. by eapply owned_event. }
  destruct (n_pings n !! th) as [[]|].
  - unfold step_world in Hh. simpl in Hh. rewrite Hu in Hh. cbn [exec] in Hh.
    destruct (bool_decide _); [|done]. injection Hh as <-.
    eexists. apply (bytes_answer n l th (session_ping x) f _ (the_client_of n) (n_conns n) _ Hy Hu);
      [done|apply Hy|]. simpl. rewrite learn_same.
    intros z k1 Hz Hk1. by eapply y_owned.
  - destruct (rpc_h _ _ _) as [s|] eqn:Hs; [|done]. injection Hh as <-. exists l. by eapply Hpost; [|exact Hs].
  - destruct (rpc_h _ _ _) as [s|] eqn:Hs; [|done]. injection Hh as <-. exists l. by eapply Hpost; [|exact Hs].
Qed.

Lemma bytes_session n g l th now n' :
  net_inv n g → bytes_inv n l → enabled n (ne_session th now) = true →
  handle n (ne_session th now) = Some n' → ∃ l', bytes_inv n' l'.
Proof.
  intros Hi Hy He Hh. cbn [net_enabled net_handle] in *.
  destruct (users (n_world n) !! th) as [[| |o f]|] eqn:Hu; try done.
  destruct (blocks_in o) as [x|] eqn:Hb; [|done]. simpl in *.
  assert (command_session o = Some x) as Hcs by by destruct o.
  destruct (thread_holds empty_request has_handler m_client_cfg m_client_timeout is_ssl host manager srv_timeout
    accepted_session n g th o f x Hi Hu Hcs) as (Hptr & Ha & k & Hk & _).
  rewrite Hk in He, Hh. apply bool_decide_eq_true in He. simpl in Hh.
  unfold held in Hh. rewrite bool_decide_eq_true_2 in Hh by done.
  destruct o; try done; simpl in Hb; injection Hb as ->; first [by eapply bytes_ping|by eapply bytes_send].
Qed.

(** ** Every event *)

Lemma bytes_event n g l x k e s k' :
  net_inv n g → bytes_inv n l → n_conns n !! x = Some k → rpc_enabled (k_rpc k) e = true →
  rpc_thread_of e = None → rpc_h (bound_handlers has_handler (the_client_of n)) (k_rpc k) e = Some s →
  k_rpc k' = s → k_lent k' = k_lent k → bytes_inv (set_conn x k' n) l.
Proof.
  intros Hi Hy Hk He Hth Hs Hr Hl. apply bytes_conn; [done|]. intros Ha.
  apply (owned_same _ _ (with_rpc s k) k'); [done..|].
  eapply owned_event; try done; [by eapply conn_sound|by eapply y_owned].
Qed.

Abbreviation live_conn := (live_connection empty_request has_handler m_client_cfg m_client_timeout is_ssl
  host manager srv_timeout accepted_session).

Lemma bytes_net_step n g l e n' :
  net_inv n g → bytes_inv n l → step enabled handle n e n' →
  (∀ th, e ≠ ne_call th call_destroy) → ∃ l', bytes_inv n' l'.
Proof.
  intros Hi Hy [He Hh] Hd. destruct e as [th c|th r b|th now|x e|x e|x|x e| |x|x].
  - eapply bytes_call; try done. intros ->. by apply (Hd th).
  - by eapply bytes_step.
  - by eapply bytes_session.
  - exists l. cbn [net_handle] in Hh. destruct (n_conns n !! x) as [k|] eqn:Hk; [|done]. simpl in Hh.
    destruct (connect_handle _ _ _ _ _ _) as [y|]; [|done]. injection Hh as <-.
    apply bytes_conn; [done|]. intros Ha. apply (owned_same _ _ k); [done..|]. by eapply y_owned.
  - exists l. destruct (live_conn n g x _ Hi He) as (Ha & k & Hk & [_ Hce]%andb_true_iff).
    cbn [net_handle] in Hh. rewrite Hk in Hh. simpl in Hh.
    destruct (client_handle _ _ _ _) as [t|] eqn:Et; [|done]. injection Hh as <-.
    eapply (bytes_event n g l x k (re_client e)); try done. simpl. by rewrite Et.
  - exists l. destruct (live_conn n g x _ Hi He) as (Ha & k & Hk & Hce).
    cbn [net_handle] in Hh. rewrite Hk in Hh. simpl in Hh.
    destruct (deliver _ _ _ _ _) as [t|] eqn:Et; [|done]. injection Hh as <-.
    eapply (bytes_event n g l x k (re_client ce_run_close)); try done. simpl. by rewrite Et.
  - exists l. simpl in He. destruct (n_conns n !! x) as [k|] eqn:Hk; [|done].
    cbn [net_handle] in Hh. rewrite Hk in Hh. simpl in Hh.
    destruct (session_handle _ _ _ _ _) as [t|] eqn:Et; [|done]. injection Hh as <-.
    eapply (bytes_event n g l x k (re_server e)); try done. simpl. by rewrite Et.
  - exists l. cbn [net_handle] in Hh. unfold step_world in Hh.
    destruct (world_handle _ _ _ _) as [w|] eqn:Ew; [|done]. injection Hh as <-. by eapply bytes_env.
  - exists l. cbn [net_handle] in Hh. unfold step_world in Hh.
    destruct (world_handle _ _ _ _) as [w|] eqn:Ew; [|done]. injection Hh as <-. by eapply bytes_env.
  - exists l. cbn [net_handle] in Hh. unfold step_world in Hh.
    destruct (world_handle _ _ _ _) as [w|] eqn:Ew; [|done]. injection Hh as <-. by eapply bytes_env.
Qed.

Abbreviation n_steps := (net_steps empty_request empty_response has_handler m_client_cfg
  m_client_timeout is_ssl host manager srv_timeout accepted_session).

Lemma bytes_steps es n :
  n_steps net_init es n → (∀ th, ne_call th call_destroy ∉ es) → ∃ l, bytes_inv n l.
Proof.
  intros Hs. remember net_init as n0 eqn:E0. induction Hs as [n|n0 es n1 e n2 Hs IH Hst]; subst.
  - intros _. exists ∅. apply bytes_inv_init.
  - intros Hd. destruct (IH eq_refl) as [l Hl]; [set_solver|].
    destruct (client_net_steps_inv empty_request empty_response has_handler m_client_cfg m_client_timeout
      is_ssl host manager srv_timeout accepted_session accepted_new timeout_ok _ _ Hs) as [[g Hg] _].
    eapply bytes_net_step; try done. intros th ->. apply (Hd th). set_solver.
Qed.

End steps.
End client.

(** ** A call that waits for its message to be written *)

Module BytesDemo.
Definition asked : NetDemo.N :=
  default NetDemo.init (NetDemo.go NetDemo.init (NetDemo.connecting ++ NetDemo.asking)).
Definition asked_message : data_send := new_data_send 7 1 0 [x61].

Lemma asked_steps :
  net_steps 0%nat tt id NetDemo.cfg NetDemo.timeouts false RpcDemo.host Demo.manager Demo.timeout
    (λ _, Demo.fresh) NetDemo.init (NetDemo.connecting ++ NetDemo.asking) asked.
Proof. apply run_steps. vm_compute. reflexivity. Qed.

Lemma asked_alive : 0%nat ∈ alive (the_client_of asked).
Proof. apply (bool_decide_eq_true_1 _). vm_compute. reflexivity. Qed.

Lemma asked_outgoing :
  (λ k, outgoing (rs_client (k_rpc k))) <$> n_conns asked !! 0%nat = Some [asked_message].
Proof. vm_compute. reflexivity. Qed.

Lemma asked_stays th : ne_call th call_destroy ∉ NetDemo.connecting ++ NetDemo.asking.
Proof.
  vm_compute. intros Hin.
  repeat (apply elem_of_cons in Hin as [Hin|Hin]; [discriminate Hin|]). by apply elem_of_nil in Hin.
Qed.
End BytesDemo.

