(* ===== verification/ClientNetLive.v ===== *)
(** * ClientNetLive: a wait for the destruction of a session ends

    [disconnect], the destructor and [connect(attempts, delay)] hold the write
    lock and wait until the session is destroyed.  Here: nothing but the
    completions of what that session has outstanding is needed for it. *)

From S2P Require Import Prelude Types Header Operations DataCache DataCacheFacts DataQueue.
From S2P Require Import ServerSession ServerSystem ServerSystemFacts ServerProps ClientSession ClientSystem ClientSystemFacts.
From S2P Require Import ClientConnect ClientConnectFacts ClientWeight RpcSystem RpcSystemFacts RpcProjection.
From S2P Require Import Prog Client ClientThreads ClientThreadsFacts ClientWorld.
From S2P Require Import ClientNet ClientNetFacts ClientNetPrograms ClientNetInv ClientNetSteps ClientNetProps.


Section live.
Context {B : Type} `{FlatBuffer B, !FlatBufferLaws B} {F Req Res U : Type}.
Context (empty_request : Req) (empty_response : Res) (has_handler : F → bool).
Context (m_client_cfg : client_config) (m_client_timeout : client_timeout) (is_ssl : bool).
Context (host : byte_order) (manager : manager_handlers (B := B) (Req := Req) (Res := Res) (U := U)).
Context (srv_timeout : server_timeout)
  (accepted_session : nat → session (B := B) (Req := Req) (Res := Res)).

Abbreviation client := (client (F := F) (Req := Req)).
Abbreviation client_cmd := (client_cmd (B := B) (F := F) (Req := Req)).
Abbreviation answer := (answer (B := B) (F := F) (Req := Req) (Res := Res)).
Abbreviation client_net := (client_net (B := B) (F := F) (Req := Req) (Res := Res)).
Abbreviation connection := (connection (B := B) (Req := Req) (Res := Res)).
Abbreviation net_event := (net_event (B := B) (F := F) (Req := Req) (Res := Res) (U := U)).
Abbreviation enabled := (net_enabled (B := B) (F := F) (Req := Req) (Res := Res) (U := U)).
Abbreviation handle := (net_handle empty_request empty_response has_handler m_client_cfg
  m_client_timeout is_ssl host manager srv_timeout accepted_session).
Abbreviation net_inv := (net_inv empty_request has_handler m_client_cfg m_client_timeout is_ssl
  host manager srv_timeout accepted_session).
Abbreviation live_conn := (live_connection empty_request has_handler m_client_cfg m_client_timeout is_ssl
  host manager srv_timeout accepted_session).
Implicit Types (n : client_net) (k : connection) (o : client_cmd).

(** What is left to complete before the session is destroyed. *)
Definition conn_weight k : nat :=
  connect_weight (k_connect k) + client_weight (rs_client (k_rpc k)) + 2 * k_closes k.

Definition weight n : nat :=
  sum_list_with (λ x, 2 + from_option conn_weight 0 (n_conns n !! x))%nat (elements (alive (the_client_of n))) +
  size (deleting (the_client_of n)).

(** The io thread completes or runs something, or the last owner of a session
    lets go; all events of the io thread but a successful read and a control
    frame. *)
Definition winding (e : net_event) : bool :=
  match e with
  | ne_connect _ _ | ne_close _ | ne_delete _ | ne_expire _ => true
  | ne_io _ e => completes e
  | _ => false
  end.

Definition event_thread (e : net_event) : option nat :=
  match e with ne_call th _ | ne_step th _ _ | ne_session th _ => Some th | _ => None end.

Lemma weight_one n x k :
  alive (the_client_of n) = {[x]} → deleting (the_client_of n) = ∅ → n_conns n !! x = Some k →
  weight n = (2 + conn_weight k)%nat.
Proof. intros Ha Hd Hk. unfold weight. rewrite Ha, Hd, elements_singleton, size_empty. simpl. rewrite Hk. simpl. lia. Qed.

Lemma weight_none n : alive (the_client_of n) = ∅ → weight n = size (deleting (the_client_of n)).
Proof. intros Ha. unfold weight. by rewrite Ha, elements_empty. Qed.

(** There is one session at most. *)
Lemma one_session (c : client) x :
  tokens c = 1%nat → x ∈ alive c → alive c = {[x]} ∧ deleting c = ∅ ∧ m_expired c = false.
Proof.
  unfold tokens. intros Ht Hx.
  assert (size (alive c) ≠ 0)%nat.
  { intros E%size_empty_inv. by apply (not_elem_of_empty (C := gset nat) x), E. }
  assert (size (alive c) = 1 ∧ size (deleting c) = 0)%nat as [Ha Hd]
    by (destruct (m_expired c), (constructing c); lia).
  split; [|split; [by apply leibniz_equiv, size_empty_iff|destruct (m_expired c); [lia|done]]].
  apply size_1_elem_of in Ha as [z Hz%leibniz_equiv]. rewrite Hz in Hx |- *.
  by apply elem_of_singleton in Hx as ->.
Qed.

Lemma no_session_weight n n' :
  alive (the_client_of n') = alive (the_client_of n) → deleting (the_client_of n') = deleting (the_client_of n) →
  (∀ x, n_conns n' !! x = n_conns n !! x) → weight n' = weight n.
Proof.
  intros Ha Hd Hk. unfold weight. rewrite Ha, Hd. f_equal. induction (elements _) as [|x l IH]; [done|].
  cbn [sum_list_with]. by rewrite IH, Hk.
Qed.

(** ** The thread that waits is alone *)

Lemma waiting_alone n g th f :
  net_inv n g → users (n_world n) !! th = Some (Op wait_expired f) →
  constructing (the_client_of n) = None ∧ (∀ th', user_ptrs (the_client_of n) !! th' = None) ∧
  ∀ th' o f', th' ≠ th → users (n_world n) !! th' = Some (Op o f') →
    can_run th' o (the_client_of n) = false ∨ ∃ d, o = sleep_for d.
Proof.
  intros Hi Hu. destruct (v_world Hi) as [Hc Hus]. unfold the_client_of.
  destruct (Hus th) as (m & Hag & Hp). rewrite Hu in Hp. destruct Hp as [(Hl & Hk & Hh) _].
  pose proof (proj1 (ag_write _ _ _ Hag) Hl) as Hw.
  pose proof (ci_lock _ Hc ltac:(by eexists)) as Hr.
  assert (∀ th' m', th' ≠ th → agrees th' m' (the_client (n_world n)) → md_lock m' = lk_none) as Hnone.
  { intros th' m' Hne [Aw Ar _ _ _]. destruct (md_lock m'); [done|..].
    - destruct (proj1 Ar eq_refl). set_solver.
    - pose proof (proj1 Aw eq_refl). congruence. }
  split; [|split].
  - destruct (constructing _) as [th'|] eqn:E; [|done]. pose proof (ci_constructing _ Hc _ E) as E'.
    assert (th' = th) as -> by congruence. apply (ag_constructing _ _ _ Hag) in E. congruence.
  - intros th'. destruct (decide (th' = th)) as [->|Hne]; [by rewrite (ag_holds _ _ _ Hag)|].
    destruct (Hus th') as (m' & Hag' & Hp'). rewrite (ag_holds _ _ _ Hag').
    pose proof (Hnone th' m' Hne Hag') as Hl'.
    destruct (users (n_world n) !! th') as [[| |o f']|];
      [apply finished_idle in Hp' as ->; done..| |by rewrite Hp'].
    destruct Hp' as [Hm _]. destruct o; simpl in Hm; try done; try (by rewrite Hm); naive_solver congruence.
  - intros th' o f' Hne Hu'. destruct (Hus th') as (m' & Hag' & Hp'). rewrite Hu' in Hp'.
    destruct Hp' as [Hm _]. pose proof (Hnone th' m' Hne Hag') as Hl'.
    destruct o; simpl in Hm; try (destruct_and?; congruence); try (right; by eexists); left; simpl;
      rewrite Hw, Hr; apply orb_false_iff; split; apply bool_decide_eq_false; set_solver by congruence.
Qed.

Section steps.
Context (accepted_new : ∀ x, new_session_like (accepted_session x)).
Context (timeout_ok : is_Some (duration_mul (ct_response_timeout m_client_timeout) 2)).

(** ** What each event does to the weight *)

(** Another state of the connection of a live session. *)
Lemma conn_step_weight n g x k k' b :
  net_inv n g → x ∈ alive (the_client_of n) → n_conns n !! x = Some k →
  (conn_weight k' + b ≤ conn_weight k)%nat → (weight (set_conn x k' n) + b ≤ weight n)%nat.
Proof.
  intros Hi Hx Hk Hle.
  destruct (one_session _ _ (ci_tokens _ (wi_client _ (v_world Hi))) Hx) as (Ha & Hd & _).
  rewrite (weight_one n x k Ha Hd Hk), (weight_one (set_conn x k' n) x k'); [lia|done|done|].
  simpl. by rewrite lookup_insert_eq.
Qed.

Lemma io_weight n g x e n' :
  net_inv n g → enabled n (ne_io x e) = true → handle n (ne_io x e) = Some n' →
  (weight n' + (if completes e then 1 else 0) ≤ weight n)%nat.
Proof.
  intros Hi He Hh. destruct (live_conn n g x _ Hi He) as (Ha & k & Hk & [Hio Hce]%andb_true_iff).
  cbn [net_handle] in Hh. rewrite Hk in Hh. simpl in Hh.
  destruct (client_handle _ _ _ _) as [t|] eqn:Et; [|done]. injection Hh as <-.
  destruct (connection_rpc_inv empty_request m_client_cfg m_client_timeout is_ssl host manager srv_timeout
    accepted_session x k (accepted_new x) (v_conn Hi _ Hk)) as [m Hm].
  apply (conn_step_weight n g x k); [done..|]. unfold conn_weight. simpl.
  apply andb_true_iff in Hce as [Hce _].
  pose proof (client_event_weight host _ _ _ _ (i_client _ _ _ _ Hm) Hce ltac:(by destruct e) Et). lia.
Qed.

Lemma close_event_weight n g x n' :
  net_inv n g → enabled n (ne_close x) = true → handle n (ne_close x) = Some n' →
  (weight n' + 1 ≤ weight n)%nat.
Proof.
  intros Hi He Hh. destruct (live_conn n g x _ Hi He) as (Ha & k & Hk & Hce).
  cbn [net_handle] in Hh. rewrite Hk in Hh. cbn [rpc_handle mbind option_bind] in Hh.
  destruct (client_handle _ _ _ _) as [t|] eqn:Et; [|done]. injection Hh as <-. apply close_weight in Et. apply Nat.ltb_lt in Hce.
  apply (conn_step_weight n g x k); [done..|]. unfold conn_weight. simpl. lia.
Qed.

Lemma chain_weight n g x e n' :
  net_inv n g → enabled n (ne_connect x e) = true → handle n (ne_connect x e) = Some n' →
  (weight n' + 1 ≤ weight n)%nat.
Proof.
  intros Hi He Hh. destruct (live_conn n g x _ Hi He) as (Ha & k & Hk & Hce).
  cbn [net_handle] in Hh. rewrite Hk in Hh. simpl in Hh.
  destruct (connect_handle _ _ _ _ _ _) as [y|] eqn:Ey; [|done]. injection Hh as <-.
  apply connect_event_weight in Ey; [|done].
  apply (conn_step_weight n g x k); [done..|]. unfold conn_weight. simpl. lia.
Qed.

Lemma server_weight n g x e n' :
  net_inv n g → handle n (ne_server x e) = Some n' → weight n' = weight n.
Proof.
  intros Hi Hh. cbn [net_handle] in Hh. destruct (n_conns n !! x) as [k|] eqn:Hk; [|done]. simpl in Hh.
  destruct (session_handle _ _ _ _ _) as [t|]; [|done]. injection Hh as <-.
  set (k' := with_rpc _ k). unfold weight. simpl. f_equal.
  induction (elements _) as [|z l IH]; [done|]. cbn [sum_list_with]. rewrite IH. f_equal. f_equal.
  destruct (decide (x = z)) as [<-|Hne]; [by rewrite lookup_insert_eq, Hk|by rewrite lookup_insert_ne].
Qed.

Lemma delete_weight n g x n' :
  net_inv n g → enabled n (ne_delete x) = true → handle n (ne_delete x) = Some n' →
  (weight n' + 1 ≤ weight n)%nat.
Proof.
  intros Hi [_ He]%andb_true_iff Hh. destruct (live_conn n g x _ Hi He) as (Hx & k & Hk & _).
  destruct (one_session _ _ (ci_tokens _ (wi_client _ (v_world Hi))) Hx) as (Ha & Hd & _).
  rewrite (weight_one n x k Ha Hd Hk). cbn [net_handle] in Hh. unfold step_world in Hh.
  simpl in Hh. injection Hh as <-. fold (the_client_of n) in *.
  rewrite weight_none; simpl; unfold the_client_of in *; rewrite ?Ha, ?Hd; [|set_solver].
  rewrite union_empty_r_L, size_singleton. lia.
Qed.

Lemma expire_weight n g x n' :
  net_inv n g → enabled n (ne_expire x) = true → handle n (ne_expire x) = Some n' →
  (weight n' + 1 ≤ weight n)%nat.
Proof.
  intros Hi He Hh. apply bool_decide_eq_true in He. cbn [net_handle] in Hh. unfold step_world in Hh.
  simpl in Hh. injection Hh as <-. unfold weight, the_client_of. simpl.
  rewrite size_difference by set_solver. rewrite size_singleton.
  assert (size (deleting (the_client (n_world n))) ≠ 0)%nat.
  { intros E%size_empty_inv. by apply (not_elem_of_empty (C := gset nat) x), E. }
  lia.
Qed.

(** A step of another thread, which can only sleep, or call. *)
Lemma other_weight n g th th' f e n' :
  net_inv n g → users (n_world n) !! th = Some (Op wait_expired f) → event_thread e = Some th' → th' ≠ th →
  step enabled handle n e n' →
  users (n_world n') !! th = Some (Op wait_expired f) ∧ weight n' = weight n.
Proof.
  intros Hi Hu Hth Hne [He Hh]. destruct (waiting_alone n g th f Hi Hu) as (_ & _ & Hothers).
  destruct e as [t c|t r b|t now| | | | | | |]; try done; injection Hth as ->.
  - cbn [net_handle] in Hh. unfold step_world in Hh. simpl in Hh. injection Hh as <-. simpl.
    rewrite lookup_insert_ne by done. split; [done|]. by apply no_session_weight.
  - simpl in He. cbn [net_handle] in Hh. destruct (users (n_world n) !! th') as [[| |o f']|] eqn:Hu'; try done.
    apply andb_true_iff in He as [[_ He]%andb_true_iff _].
    destruct (Hothers th' o f' Hne Hu') as [E|[d ->]]; [congruence|].
    cbn [in_session] in Hh. unfold step_world in Hh. simpl in Hh. rewrite Hu' in Hh. simpl in Hh.
    injection Hh as <-. simpl. rewrite lookup_insert_ne by done. split; [done|]. by apply no_session_weight.
  - simpl in He. destruct (users (n_world n) !! th') as [[| |o f']|] eqn:Hu'; try done.
    destruct (Hothers th' o f' Hne Hu') as [E|[d ->]]; [|done].
    assert (∀ x, blocks_in o = Some x → can_run th' o (the_client_of n) = true) as Hcan by by destruct o.
    destruct (blocks_in o) as [x|]; [|done]. by rewrite (Hcan x eq_refl) in E.
Qed.

Lemma live_step n g th f e n' :
  net_inv n g → users (n_world n) !! th = Some (Op wait_expired f) → event_thread e ≠ Some th →
  step enabled handle n e n' →
  users (n_world n') !! th = Some (Op wait_expired f) ∧
  (weight n' + (if winding e then 1 else 0) ≤ weight n)%nat.
Proof.
  intros Hi Hu Hth Hst. destruct (event_thread e) as [th'|] eqn:Et.
  { destruct (other_weight n g th th' f e n' Hi Hu Et ltac:(congruence) Hst) as [? ->].
    split; [done|]. destruct e; simpl; try done; lia. }
  assert (∀ w, n' = set_world w n → users w = users (n_world n) →
    users (n_world n') !! th = Some (Op wait_expired f)) as Hsame by (intros w -> E; simpl; by rewrite E).
  pose proof Hst as [He Hh].
  destruct e as [|t r b| |x e|x e|x|x e| |x|x]; try done; cbn [winding];
    (split; [cbn [net_handle] in Hh; unfold step_world in Hh; simpl in Hh|]).
  all: try (destruct (n_conns n !! x) as [k|]; [|done]; simpl in Hh).
  - destruct (connect_handle _ _ _ _ _ _); [|done]. by injection Hh as <-.
  - by eapply chain_weight.
  - destruct (client_handle _ _ _ _); [|done]. by injection Hh as <-.
  - by eapply io_weight.
  - destruct (deliver _ _ _ _ _); [|done]. by injection Hh as <-.
  - by eapply close_event_weight.
  - destruct (session_handle _ _ _ _ _); [|done]. by injection Hh as <-.
  - rewrite (server_weight n g x e n') by done. lia.
  - by injection Hh as <-.
  - cbn [net_handle] in Hh. unfold step_world in Hh. simpl in Hh. injection Hh as <-.
    rewrite (no_session_weight n); [lia|done..].
  - by injection Hh as <-.
  - by eapply delete_weight.
  - by injection Hh as <-.
  - by eapply expire_weight.
Qed.

(** ** As long as the session is not destroyed, something is left *)

(** The failure of each operation that may be outstanding. *)
Definition failures (x : nat) : list net_event :=
  (ne_connect x <$> [xe_resolve ec_failure; xe_connect ec_failure; xe_ssl_handshake ec_failure;
                     xe_handshake ec_failure]) ++
  (ne_io x <$> [ce_read (λ _, 0%Z) ec_failure []; ce_write ec_failure; ce_ping ec_failure; ce_close ec_failure]).

Lemma operation_completes n x k :
  x ∈ alive (the_client_of n) → n_conns n !! x = Some k → no_operation k = false →
  ∃ e : net_event, winding e = true ∧ enabled n e = true.
Proof.
  intros Ha Hk Hno. apply bool_decide_eq_false in Hno.
  destruct (existsb (net_enabled n) (failures x)) eqn:E.
  - apply existsb_exists in E as (e & Hin & He). exists e. split; [|done].
    simpl in Hin. by destruct_or! Hin; subst.
  - exfalso. apply Hno. simpl in E. rewrite Hk, (bool_decide_eq_true_2 (x ∈ _)) in E by done.
    unfold client_event_enabled in E. simpl in E. rewrite !andb_true_r, !orb_true_r, !orb_false_iff in E.
    destruct E as (E1 & E2 & E3 & E4 & E5 & E6 & E7 & E8 & _). simpl in E6, E7, E8.
    apply Nat.ltb_ge in E1, E2, E3, E4, E6, E7, E8.
    destruct (established k); simpl in E5; [apply Nat.ltb_ge in E5|]; lia.
Qed.

Lemma waiting_progress n g th f :
  net_inv n g → users (n_world n) !! th = Some (Op wait_expired f) →
  m_expired (the_client_of n) = true ∨ ∃ e : net_event, winding e = true ∧ enabled n e = true.
Proof.
  intros Hi Hu. destruct (waiting_alone n g th f Hi Hu) as (Hcons & Hptrs & _).
  destruct (m_expired (the_client_of n)) eqn:Eexp; [by left|right].
  pose proof (ci_tokens _ (wi_client _ (v_world Hi))) as Ht. unfold tokens in Ht.
  unfold the_client_of in *. rewrite Eexp, Hcons in Ht.
  destruct (set_choose_or_empty (alive (the_client (n_world n)))) as [[x Hx]|He%leibniz_equiv].
  - destruct (v_alive Hi Hx) as [k Hk]. destruct (no_operation k) eqn:Eno; [|by eapply operation_completes].
    exists (ne_delete x). split; [done|]. unfold net_enabled, the_client_of. simpl.
    rewrite Hk, Eno, (bool_decide_eq_true_2 (x ∈ _)) by done. simpl. rewrite bool_decide_eq_true_2; [done|].
    intros th' z Hz. by rewrite Hptrs in Hz.
  - rewrite He, size_empty in Ht.
    destruct (set_choose_or_empty (deleting (the_client (n_world n)))) as [[x Hx]|Hd%leibniz_equiv];
      [|rewrite Hd, size_empty in Ht; lia].
    exists (ne_expire x). split; [done|]. by apply bool_decide_eq_true.
Qed.

Abbreviation n_steps := (net_steps empty_request empty_response has_handler m_client_cfg
  m_client_timeout is_ssl host manager srv_timeout accepted_session).

Lemma steps_from es0 es n0 n n' :
  n_steps n0 es0 n → n_steps n es n' → n_steps n0 (es0 ++ es) n'.
Proof. intros H0 Hs. by eapply steps_app. Qed.

(** Counted events alone lead to the destruction. *)
Lemma winding_run w n g th f :
  net_inv n g → users (n_world n) !! th = Some (Op wait_expired f) → (weight n ≤ w)%nat →
  ∃ es n', Forall (λ e, winding e = true) es ∧ (length es ≤ weight n)%nat ∧ n_steps n es n' ∧
    m_expired (the_client_of n') = true.
Proof.
  revert n g. induction w as [w IH] using lt_wf_ind. intros n g Hi Hu Hw.
  destruct (waiting_progress n g th f Hi Hu) as [Hexp|(e & Hwe & He)].
  { exists [], n. split; [constructor|]. split; [simpl; lia|]. split; [constructor|done]. }
  destruct (client_net_step empty_request empty_response has_handler m_client_cfg m_client_timeout
    is_ssl host manager srv_timeout accepted_session accepted_new timeout_ok n g e Hi He)
    as (n1 & g1 & Hh & Hi1).
  destruct (live_step n g th f e n1 Hi Hu ltac:(by destruct e) ltac:(by constructor)) as [Hu1 Hw1].
  rewrite Hwe in Hw1.
  destruct (IH (weight n1) ltac:(lia) n1 g1 Hi1 Hu1 ltac:(lia)) as (es & n' & Hes & Hlen & Hs & Hexp).
  exists (e :: es), n'. split; [by constructor|]. split; [simpl; lia|]. split; [|done].
  change (e :: es) with ([e] ++ es). eapply steps_app; [|exact Hs]. apply steps_one. by constructor.
Qed.

(** C2. The wait for the destruction of a session ends.  A thread waits in
    [wait_destruction()] (in [disconnect()], in [connect(attempts, delay)] or in
    the destructor), and the network, the server and the other threads do what
    they will.  The events that wind the session down are the steps of the
    connecting chain, failed reads, the completions of writes, pings and
    closures, what was posted, and the two steps of the deletion.  At most
    [weight] of them can come, a number computed from the state in which the
    wait is looked at; between them any number of successful reads, of control
    frames and of steps of the server and of other threads may come.  Whenever
    the wait goes on, what is left of that number is enough: there is a
    continuation, of such events alone, at the end of which the session is
    destroyed.  No step of any other thread is needed, since none is inside a
    session: there is no deadlock. *)
Theorem destruction_wait_ends es0 n th f es n' :
  n_steps net_init es0 n → users (n_world n) !! th = Some (Op wait_expired f) →
  n_steps n es n' → Forall (λ e, event_thread e ≠ Some th) es →
  (length (filter (λ e, winding e = true) es) ≤ weight n)%nat ∧
  users (n_world n') !! th = Some (Op wait_expired f) ∧
  ∃ es' n'', Forall (λ e, winding e = true) es' ∧
    (length (filter (λ e, winding e = true) es) + length es' ≤ weight n)%nat ∧
    n_steps n' es' n'' ∧ m_expired (the_client_of n'') = true.
Proof.
  intros H0 Hu Hs Hes.
  assert (users (n_world n') !! th = Some (Op wait_expired f) ∧
    (weight n' + length (filter (λ e, winding e = true) es) ≤ weight n)%nat) as [Hu' Hw].
  { induction Hs as [n|n es n1 e n2 Hs IH Hst]; [by split; [|simpl; lia]|].
    apply Forall_app in Hes as [Hes [He _]%Forall_cons].
    destruct (IH H0 Hu Hes) as [Hu1 Hw1].
    destruct (client_net_steps_inv empty_request empty_response has_handler m_client_cfg m_client_timeout
      is_ssl host manager srv_timeout accepted_session accepted_new timeout_ok _ _
      (steps_from _ _ _ _ _ H0 Hs)) as [[g Hi] _].
    destruct (live_step n1 g th f e n2 Hi Hu1 He Hst) as [Hu2 Hw2]. split; [done|].
    rewrite filter_app, length_app, filter_cons, filter_nil.
    destruct (winding e); case_decide; simpl; try done; lia. }
  destruct (client_net_steps_inv empty_request empty_response has_handler m_client_cfg m_client_timeout
    is_ssl host manager srv_timeout accepted_session accepted_new timeout_ok _ _
    (steps_from _ _ _ _ _ H0 Hs)) as [[g Hi] _].
  split; [lia|]. split; [done|].
  destruct (winding_run (weight n') n' g th f Hi Hu' ltac:(lia)) as (es' & n'' & He' & Hl & Hs' & Hexp).
  exists es', n''. split; [done|]. split; [lia|]. by split.
Qed.
End steps.
End live.

(** ** [disconnect()] of a connected client *)

Module LiveDemo.
Definition leaving : list NetDemo.E := NetDemo.connecting ++ ne_call 1 call_disconnect :: NetDemo.walk 1 5.
Definition left_waiting : NetDemo.N := default NetDemo.init (NetDemo.go NetDemo.init leaving).
(** The close, the read and the deletion. *)
Definition closing : list NetDemo.E :=
  [ne_close 0; ne_io 0 (ce_read (λ _, 0%Z) ec_failure []); ne_io 0 (ce_close ec_success);
   ne_delete 0; ne_expire 0].
Definition destroyed : NetDemo.N := default NetDemo.init (NetDemo.go left_waiting closing).

Lemma leaving_steps :
  net_steps 0%nat tt id NetDemo.cfg NetDemo.timeouts false RpcDemo.host Demo.manager Demo.timeout
    (λ _, Demo.fresh) NetDemo.init leaving left_waiting.
Proof. apply run_steps. vm_compute. reflexivity. Qed.

Lemma closing_steps :
  net_steps 0%nat tt id NetDemo.cfg NetDemo.timeouts false RpcDemo.host Demo.manager Demo.timeout
    (λ _, Demo.fresh) left_waiting closing destroyed.
Proof. apply run_steps. vm_compute. reflexivity. Qed.

Lemma left_waits : ∃ f, users (n_world left_waiting) !! 1%nat = Some (Op wait_expired f).
Proof.
  exists (match users (n_world left_waiting) !! 1%nat with
          | Some (Op wait_expired f) => f
          | _ => λ _, Ret v_unit
          end).
  vm_compute. reflexivity.
Qed.
End LiveDemo.

Lemma destruction_wait_ends_witness :
  m_expired (the_client_of LiveDemo.left_waiting) = false ∧
  m_expired (the_client_of LiveDemo.destroyed) = true ∧ (5 ≤ weight LiveDemo.left_waiting)%nat.
Proof.
  split; [vm_compute; reflexivity|]. split; [vm_compute; reflexivity|].
  destruct LiveDemo.left_waits as [f Hu].
  apply (destruction_wait_ends 0%nat tt id NetDemo.cfg NetDemo.timeouts false RpcDemo.host
    Demo.manager Demo.timeout (λ _, Demo.fresh) (λ _, Demo.fresh_like) ltac:(by eexists)
    _ _ 1%nat f _ _ LiveDemo.leaving_steps Hu LiveDemo.closing_steps).
  by repeat constructor.
Defined.
