(* ===== verification/Examples.v ===== *)
(** * Examples: the servers and clients of src/examples

    The programs the repository shows its users: an echo server with and
    without TLS and its client, and an advanced server that admits the holders
    of a key, echoes, broadcasts and shuts down on request.  Their handlers are
    bound functions of ServerSession, their set-up is a run of Server, and the
    clients are programs of Client.  What is logged is left out; what is typed
    at the terminal is an argument. *)

From S2P Require Import Prelude Types Header Operations ServerSession SessionManager Server ServerApi ClientSession Prog Client.
From stdpp Require Import pretty.
From Stdlib Require Strings.String.
#[local] Open Scope Z_scope.

(** ** HTTP messages

    What the examples use of a [beast::http] message: [find] gives the first
    value of a field, [insert] adds one after those of the same name. *)

Class HttpFields (M : Type) := {
  http_find : string → M → option string;
  http_insert : string → string → M → M }.

Class HttpFieldsLaws (M : Type) `{HttpFields M} := {
  http_find_insert n v m :
    http_find n (http_insert n v m) = Some (default v (http_find n m));
  http_find_insert_ne n n' v m : n ≠ n' → http_find n (http_insert n' v m) = http_find n m }.

(** The interface can be implemented: a list of fields. *)
#[export] Instance list_http_fields : HttpFields (list (string * string)) := {|
  http_find n m := head (omap (λ '(n', v), if decide (n' = n) then Some v else None) m);
  http_insert n v m := m ++ [(n, v)] |}.

#[export] Instance list_http_fields_laws : HttpFieldsLaws (list (string * string)).
Proof.
  assert (∀ (l k : list string), head (l ++ k) = match head l with Some x => Some x | None => head k end)
    as Happ by (by intros []).
  split; intros; simpl; rewrite omap_app, Happ; simpl.
  - rewrite decide_True by done. by destruct (head _).
  - rewrite decide_False by done. by destruct (head _).
Qed.

(** [http::field::user_agent] *)
Definition user_agent : string := "User-Agent".

Definition seconds (n : Z) : duration := n * 10 ^ 9.
Definition milliseconds (n : Z) : duration := n * 10 ^ 6.

Definition string_bytes (s : string) : list byte := String.list_byte_of_string s.

(** ** The function objects given to a server *)

Section handlers.
Context {B : Type} `{FlatBuffer B} {Req Res U : Type}.

Inductive function_object : Type :=
  | fn_bound (f : bound_function (B := B) (Req := Req) (Res := Res) (U := U))
  | fn_listen (f : string → bool)
  | fn_accept (f : accept_function (Req := Req) (Res := Res) (U := U))
  | fn_disconnect.

(** The handlers of a server, as its sessions see them. *)
Definition session_handlers (r : handlers (F := function_object)) :
    manager_handlers (B := B) (Req := Req) (Res := Res) (U := U) :=
  mk_manager_handlers
    ((λ h, match h with fn_bound f => Some f | _ => None end) <$> bound r)
    (match Server.on_accept r with Some (fn_accept f) => Some f | _ => None end)
    (bool_decide (is_Some (on_disconnect r))).

(** [ctx->response = std::vector<char>(ctx->data(), ctx->data() + ctx->size());] *)
Definition echo : bound_function (B := B) (Req := Req) (Res := Res) (U := U) :=
  λ _ c, [ctx_set_response (take (ctx_size c) (ctx_data c))].
End handlers.

Arguments function_object B Req Res U : clear implicits.

(** ** The echo examples *)

(** Their only [MyRpcCommands]. *)
Definition BASIC_RPC_ECHO_MSG : Z := 0.

Definition basic_server_cfg : server_config :=
  mk_server_config "0.0.0.0" 3377 2 1000 0xFFFF server_mode_plain.
Definition ssl_server_cfg : server_config :=
  mk_server_config "0.0.0.0" 3377 2 1000 0xFFFF (server_mode_or server_mode_plain server_mode_ssl).
Definition example_server_timeout : server_timeout := mk_server_timeout (seconds 5).
Definition example_session_cfg : session_config := mk_session_config 0xFFFFFFFF (seconds 30).

Definition example_client_cfg : client_config :=
  mk_client_config "127.0.0.1" 3377 0xFFFFFFFF 0 duration_zero.
Definition basic_client_timeout : client_timeout :=
  mk_client_timeout (seconds 5) (seconds 1) (seconds 1).
Definition advanced_client_timeout : client_timeout :=
  mk_client_timeout (seconds 5) (milliseconds 1000) (milliseconds 1000).

Section servers.
Context {B : Type} `{FlatBuffer B} {Req Res U : Type}.
Abbreviation vact := (act (server (F := function_object B Req Res U)) run_effect).

(** [main()] up to the blocking part of [srv.start()], in thread [th]; no
    session can exist yet. *)
Definition basic_server_main (th : nat) : vact unit :=
  do! bind 0 BASIC_RPC_ECHO_MSG (fn_bound echo) in
  start basic_server_cfg th.
(** The same once the TLS context has taken the password, the certificate
    chain, the key and the parameters. *)
Definition ssl_server_main (password_ok chain_ok key_ok dh_ok : bool) (th : nat) : vact unit :=
  if negb (password_ok && chain_ok && key_ok && dh_ok) then act_ret tt
  else
  do! bind 0 BASIC_RPC_ECHO_MSG (fn_bound echo) in
  start ssl_server_cfg th.

(** After [start()] has returned: [srv.stop()]. *)
Definition basic_server_end (th : nat) (ws1 ws2 : list nat) (t : thread_sys) : option thread_sys :=
  stop (F := function_object B Req Res U) basic_server_cfg false th ws1 ws2 t.
Definition ssl_server_end (th : nat) (ws1 ws2 : list nat) (t : thread_sys) : option thread_sys :=
  stop (F := function_object B Req Res U) ssl_server_cfg false th ws1 ws2 t.
End servers.

(** The verification callback of the TLS client: the error is logged, the
    answer of OpenSSL is kept. *)
Definition on_verify_certificate (preverified : bool) (error : Z) : bool := preverified.

Section clients.
Context {B : Type} `{FlatBuffer B} {F Req Res : Type}.
Abbreviation cprog := (prog (answer (B := B) (F := F) (Req := Req) (Res := Res))).

(** [main()] with the line [msg] from the terminal: the received message that
    is logged, if one is, and the destructor of the client at the end. *)
Definition basic_client_main (msg : string) : cprog (option (list byte)) :=
  let^ _ := connect in
  let^ response_bytes := send_recv example_client_cfg BASIC_RPC_ECHO_MSG (string_bytes msg) in
  let received := if negb (receive_buffer_empty response_bytes)
                  then Some (receive_buffer_data response_bytes) else None in
  do^ disconnect in
  do^ destroy in
  Ret received.

(** The same text after the client took its TLS context. *)
Definition ssl_client_main (certificate_added : bool) (msg : string) : cprog (option (list byte)) :=
  if negb certificate_added then Ret None else basic_client_main msg.
End clients.

(** ** The advanced example *)

Inductive MyRpcCommands : Set :=
  | MY_RPC_SEND
  | MY_RPC_ECHO_MSG
  | MY_RPC_BROADCAST_ALL
  | MY_RPC_BROADCAST_SINGLE
  | MY_RPC_LISTEN_BROADCAST
  | MY_RPC_SERVER_SHUTDOWN.

Definition rpc_id (c : MyRpcCommands) : Z :=
  match c with
  | MY_RPC_SEND => 0
  | MY_RPC_ECHO_MSG => 1
  | MY_RPC_BROADCAST_ALL => 2
  | MY_RPC_BROADCAST_SINGLE => 3
  | MY_RPC_LISTEN_BROADCAST => 4
  | MY_RPC_SERVER_SHUTDOWN => 5
  end.

Definition advanced_server_cfg : server_config :=
  mk_server_config "0.0.0.0" 3377 3 1000 0xFFFF server_mode_plain.

(** What the handlers ask of the objects they captured. *)
Inductive server_request : Type :=
  | req_broadcast (call_id : Z) (send_bytes : list byte) (session_ids : option (list Z))
  | req_stop
  | req_end_broadcast.       (* [broadcast_run = false] *)

Section advanced_server.
Context {B : Type} `{FlatBuffer B} {Req Res U : Type} `{HttpFields Req, HttpFields Res}.
Abbreviation context := (session_context (B := B) (Req := Req) (Res := Res)).
Abbreviation bound_function := (bound_function (B := B) (Req := Req) (Res := Res) (U := U)).
Abbreviation vact := (act (server (F := function_object B Req Res U)) run_effect).

Definition on_listen (remote_host : string) : bool := true.

Definition on_accept : accept_function (Req := Req) (Res := Res) (U := U) := λ _ i,
  let rejected := (false, info_config i, info_response_handshake i) in
  match http_find user_agent (info_request_handshake i) with
  | None => rejected
  | Some _ =>
      match http_find "key" (info_request_handshake i) with
      | None => rejected
      | Some value =>
          if decide (value ≠ "xxxxxxxxxx") then rejected
          else (true, mk_session_config 0xFFFF (seconds 30),
                http_insert "user-level" "1"
                  (http_insert user_agent "radrpc-server" (info_response_handshake i)))
      end
  end.

Definition rpc_send : bound_function := λ _ _, [].
Definition rpc_echo_msg : bound_function := echo.

(** [ctx->response.push_back(0x0);] *)
Definition push_back_zero (c : context) : list ctx_op := [ctx_set_response (response c ++ [x00])].

Definition rpc_broadcast_all : bound_function := λ _ c, push_back_zero c.
Definition rpc_broadcast_all_requests (c : context) : list server_request :=
  [req_broadcast (rpc_id MY_RPC_LISTEN_BROADCAST)
     (string_bytes ("client " +:+ pretty (session_id c) +:+ " writes: ") ++ ctx_data c) None].

Definition rpc_broadcast_single : bound_function := λ _ c, push_back_zero c.
Definition rpc_broadcast_single_requests (c : context) : list server_request :=
  [req_broadcast (rpc_id MY_RPC_LISTEN_BROADCAST)
     (string_bytes ("client " +:+ pretty (session_id c) +:+ " write:
") ++ ctx_data c) (Some [session_id c])].

Definition rpc_server_shutdown : bound_function := λ _ _, [].
Definition rpc_server_shutdown_requests : list server_request := [req_end_broadcast; req_stop].

(** [main()] up to [srv.async_start(..)]. *)
Definition advanced_server_main : vact unit :=
  do! bind_listen 0 (fn_listen on_listen) in
  do! bind_accept 0 (fn_accept on_accept) in
  do! bind_disconnect 0 fn_disconnect in
  do! bind 0 (rpc_id MY_RPC_SEND) (fn_bound rpc_send) in
  do! bind 0 (rpc_id MY_RPC_ECHO_MSG) (fn_bound rpc_echo_msg) in
  do! bind 0 (rpc_id MY_RPC_BROADCAST_ALL) (fn_bound rpc_broadcast_all) in
  do! bind 0 (rpc_id MY_RPC_BROADCAST_SINGLE) (fn_bound rpc_broadcast_single) in
  do! bind 0 (rpc_id MY_RPC_SERVER_SHUTDOWN) (fn_bound rpc_server_shutdown) in
  async_start advanced_server_cfg true.

(** The end of [main()], after the join of [broadcast_worker]. *)
Definition advanced_server_end (th : nat) (ws1 ws2 : list nat) (t : thread_sys) : option thread_sys :=
  stop (F := function_object B Req Res U) advanced_server_cfg false th ws1 ws2 t.

(** The thread [broadcast_worker]: one turn of its loop. *)
Definition broadcast_worker_turn (broadcast_run : bool) : list server_request :=
  if broadcast_run
  then [req_broadcast (rpc_id MY_RPC_LISTEN_BROADCAST)
          (string_bytes "radrpc got a broadcast function") None]
  else [].

(** What the requests reach: the manager and the workers of [srv], and
    [broadcast_run].  They are made in a handler, so by a worker. *)
Record advanced_state := mk_advanced_state {
  adv_world : world;
  adv_server : server (F := function_object B Req Res U);
  broadcast_run : bool }.

Definition perform_request (r : server_request) (s : advanced_state) :
    option (advanced_state * list server_effect) :=
  match r with
  | req_broadcast call_id send_bytes session_ids =>
      match match session_ids with
            | None => server_broadcast call_id send_bytes
            | Some ids => server_broadcast_to call_id send_bytes ids
            end (adv_world s) with
      | Done _ w es => Some (mk_advanced_state w (adv_server s) (broadcast_run s), es)
      | _ => None
      end
  | req_stop =>
      match stop_io (adv_server s) with
      | Done _ v _ => Some (mk_advanced_state (adv_world s) v (broadcast_run s), [])
      | _ => None
      end
  | req_end_broadcast => Some (mk_advanced_state (adv_world s) (adv_server s) false, [])
  end.

Fixpoint perform_requests (rs : list server_request) (s : advanced_state) :
    option (advanced_state * list server_effect) :=
  match rs with
  | [] => Some (s, [])
  | r :: rs' =>
      '(s1, es1) ← perform_request r s;
      '(s2, es2) ← perform_requests rs' s1;
      Some (s2, es1 ++ es2)
  end.

(** The handlers [main()] leaves to the sessions. *)
Definition advanced_manager : manager_handlers (B := B) (Req := Req) (Res := Res) (U := U) :=
  mk_manager_handlers
    {[ rpc_id MY_RPC_SEND := Some rpc_send;
       rpc_id MY_RPC_ECHO_MSG := Some rpc_echo_msg;
       rpc_id MY_RPC_BROADCAST_ALL := Some rpc_broadcast_all;
       rpc_id MY_RPC_BROADCAST_SINGLE := Some rpc_broadcast_single;
       rpc_id MY_RPC_SERVER_SHUTDOWN := Some rpc_server_shutdown ]}
    (Some on_accept) true.
End advanced_server.

Section advanced_client.
Context {B : Type} `{FlatBuffer B} {F Req Res : Type} `{HttpFields Req}.
Context (empty_request : Req) (broadcast_handler : F).
Abbreviation cprog := (prog (answer (B := B) (F := F) (Req := Req) (Res := Res))).

Definition advanced_client_request : Req :=
  http_insert "key" "xxxxxxxxxx" (http_insert user_agent "radrpc-client" empty_request).

(** The time outs set before the first send, in thread [t]. *)
Definition advanced_client_timeouts (t : thread_id) (s : tls) : tls :=
  set_response_timeout t (seconds 2) (set_send_timeout t (seconds 1) s).

(** What [main()] logs: whether the message was sent, the echo, and whether
    each of the two broadcasts was answered. *)
Record advanced_log := mk_advanced_log {
  log_sent : bool;
  log_echo : option (list byte);
  log_all : bool;
  log_single : bool }.

(** [main()] with the four lines from the terminal. *)
Definition advanced_client_main (line1 line2 line3 line4 : string) : cprog advanced_log :=
  let^ _ := listen_broadcast (rpc_id MY_RPC_LISTEN_BROADCAST) broadcast_handler in
  do^ set_handshake_request advanced_client_request in
  let^ _ := connect in
  let^ sent := send example_client_cfg (rpc_id MY_RPC_SEND) (string_bytes line1) in
  let^ r2 := send_recv example_client_cfg (rpc_id MY_RPC_ECHO_MSG) (string_bytes line2) in
  let^ r3 := send_recv example_client_cfg (rpc_id MY_RPC_BROADCAST_ALL) (string_bytes line3) in
  let^ r4 := send_recv example_client_cfg (rpc_id MY_RPC_BROADCAST_ALL) (string_bytes line4) in
  let^ _ := send example_client_cfg (rpc_id MY_RPC_SERVER_SHUTDOWN) [] in
  do^ destroy in
  Ret (mk_advanced_log sent
         (if receive_buffer_bool r2 then Some (receive_buffer_data r2) else None)
         (receive_buffer_bool r3) (receive_buffer_bool r4)).
End advanced_client.
