(* ===== verification/ExamplesFacts.v ===== *)
(** * ExamplesFacts: what the example programs do

    The set-up of the servers, who may connect to the advanced one, what its
    callers get, and what its client sends. *)

From S2P Require Import Prelude Types Header Operations DataCache DataCacheFacts DataQueue.
From S2P Require Import ServerSession ServerSystem ServerSystemFacts ServerProps SessionManager SessionManagerFacts Server ServerApi.
From S2P Require Import ClientSession ClientSystem ClientSystemFacts RpcSystem RpcSystemFacts.
From S2P Require Import Prog Client Examples.
#[local] Open Scope Z_scope.

(** ** The servers *)

Section servers.
Context {B : Type} `{FlatBuffer B} {Req Res U : Type}.

Lemma echo_answers u (c : session_context (B := B) (Req := Req) (Res := Res)) :
  response (foldl ctx_apply c (echo (U := U) u c)) = ctx_data c.
Proof. unfold echo, ctx_size, ctx_data. simpl. by rewrite firstn_all. Qed.

Abbreviation new_server := (new_server (F := function_object B Req Res U)).

(** The echo servers start with one worker beside the calling thread and the
    echo bound. *)
Lemma basic_server_starts th :
  ∃ s, basic_server_main th new_server = Done tt s [eff_spawn 1] ∧ m_running s = true ∧
    callers s !! th = Some in_start ∧
    bound_funcs (session_handlers (registered s)) = {[ BASIC_RPC_ECHO_MSG := Some echo ]}.
Proof. eexists. split; [reflexivity|]. split_and!; first [done|apply lookup_insert_eq]. Qed.

Lemma ssl_server_starts th :
  ∃ s, ssl_server_main true true true true th new_server = Done tt s [eff_spawn 1] ∧
    m_running s = true ∧ callers s !! th = Some in_start ∧
    bound_funcs (session_handlers (registered s)) = {[ BASIC_RPC_ECHO_MSG := Some echo ]}.
Proof. eexists. split; [reflexivity|]. split_and!; first [done|apply lookup_insert_eq]. Qed.

(** The mode of the TLS example serves both kinds of connection. *)
Lemma ssl_server_modes :
  server_mode_and (sc_mode ssl_server_cfg) server_mode_plain = true ∧
  server_mode_and (sc_mode ssl_server_cfg) server_mode_ssl = true.
Proof. by split. Qed.

Context `{HttpFields Req, HttpFields Res}.

(** No id is bound twice, so no [bind] throws: the advanced server runs three
    workers and its sessions see [advanced_manager]. *)
Lemma advanced_server_starts :
  ∃ s, advanced_server_main new_server = Done tt s [eff_spawn 3] ∧ m_running s = true ∧
    m_workers s = replicate 3 wk_running ∧ stopped_handler s = true ∧
    session_handlers (registered s) = advanced_manager.
Proof.
  unfold advanced_server_main, advanced_manager.
  generalize (rpc_send (B := B) (Req := Req) (Res := Res) (U := U)) as f0.
  generalize (rpc_echo_msg (B := B) (Req := Req) (Res := Res) (U := U)) as f1.
  generalize (rpc_broadcast_all (B := B) (Req := Req) (Res := Res) (U := U)) as f2.
  generalize (rpc_broadcast_single (B := B) (Req := Req) (Res := Res) (U := U)) as f3.
  generalize (rpc_server_shutdown (B := B) (Req := Req) (Res := Res) (U := U)) as f5.
  generalize (Examples.on_accept (Req := Req) (Res := Res) (U := U)) as fa. intros.
  eexists. split; [vm_compute; reflexivity|]. split_and!; vm_compute; reflexivity.
Qed.

(** What each bound function of the advanced server answers. *)
Lemma advanced_functions rid (c : rpc_call) bs :
  answered (advanced_manager (B := B) (Req := Req) (Res := Res) (U := U)) rid c bs →
  bs = [] ∨ rc_call_id c = rpc_id MY_RPC_ECHO_MSG ∧ bs = rc_data c ∨
  (rc_call_id c = rpc_id MY_RPC_BROADCAST_ALL ∨ rc_call_id c = rpc_id MY_RPC_BROADCAST_SINGLE) ∧ bs = [x00].
Proof.
  intros (u & f & x & Hf & _ & _ & Hd & Hr & _ & <-). revert Hf. simpl.
  rewrite !lookup_insert_Some, lookup_singleton_Some.
  intros [[<- [= <-]]|[_ [[<- [= <-]]|[_ [[<- [= <-]]|[_ [[<- [= <-]]|[_ [<- [= <-]]]]]]]]]].
  - left. exact Hr.
  - right. left. split; [done|]. by rewrite <-Hd, <-(echo_answers u x).
  - right. right. split; [by left|]. simpl. by rewrite Hr.
  - right. right. split; [by right|]. simpl. by rewrite Hr.
  - left. exact Hr.
Qed.

(** A call of [MY_RPC_BROADCAST_SINGLE] writes to the session that made it, and
    to no other. *)
Lemma broadcast_single_recipient (c : session_context (B := B) (Req := Req) (Res := Res)) s :
  manager_inv (adv_world s) →
  ∃ s' es, perform_requests (B := B) (Req := Req) (Res := Res) (U := U)
      (rpc_broadcast_single_requests c) s = Some (s', es) ∧
    Forall (λ e, match e with
      | eff_send o _ => m_plain_sessions (adv_world s) !! session_id c = Some o ∨
                        m_ssl_sessions (adv_world s) !! session_id c = Some o
      | _ => True end) es.
Proof.
  intros Hw. simpl. unfold server_broadcast_to, broadcast_to.
  destruct (decide (m_msg_queued (adv_world s) < Z.of_nat config.queue_send_max ∧
    connections (adv_world s) ≠ 0)) as [[Hq Hc]|Hno].
  - rewrite SessionManagerFacts.broadcast_run by done. simpl. do 2 eexists. split; [done|]. rewrite app_nil_r.
    apply Forall_fmap, Forall_forall.
    intros o [_ [Ho|Ho]%elem_of_app]%list_elem_of_filter; apply elem_of_copied in Ho as (i & Hi & Hin);
      specialize (Hin _ eq_refl); apply list_elem_of_singleton in Hin as ->; by (left + right).
  - unfold broadcast, act_bind. rewrite broadcast_check_false by lia. simpl. eauto.
Qed.

(** The shutdown stops the io context and ends the broadcasting thread. *)
Lemma shutdown_requests s :
  ∃ v, perform_requests (B := B) (Req := Req) (Res := Res) (U := U) rpc_server_shutdown_requests s =
      Some (mk_advanced_state (adv_world s) v false, []) ∧
    io_stopped v = true ∧ broadcast_worker_turn false = [].
Proof. eexists. split; [reflexivity|]. by split. Qed.
End servers.

Section connections.
Context {B : Type} `{FlatBuffer B, !FlatBufferLaws B} {Req Res U : Type}.
Context `{HttpFields Req, HttpFields Res} (host : byte_order) (srv_timeout : server_timeout).
Abbreviation manager := (advanced_manager (B := B) (Req := Req) (Res := Res) (U := U)).

(** C31. The advanced server and its callers.  Whatever happens on a connection
    to the advanced example, a [send_recv] that takes anything out of its row,
    in time or after its time-out, was either a call of the echo, which got
    back exactly the bytes it sent, or a call of one of the two broadcasts,
    which got the one zero byte; [MY_RPC_SEND], the shutdown and every id that
    is not bound give nothing back. *)
Theorem advanced_answers m_bound_funcs is_ssl s0 s es s' r :
  new_session_like s0 → rpc_init srv_timeout is_ssl s0 = Some s →
  rpc_steps host manager srv_timeout m_bound_funcs s es s' →
  r ∈ rs_returns s' → rr_bytes r ≠ [] →
  rc_call_id (rr_call r) = rpc_id MY_RPC_ECHO_MSG ∧ rr_bytes r = rc_data (rr_call r) ∨
  (rc_call_id (rr_call r) = rpc_id MY_RPC_BROADCAST_ALL ∨
   rc_call_id (rr_call r) = rpc_id MY_RPC_BROADCAST_SINGLE) ∧ rr_bytes r = [x00].
Proof.
  intros Hs0 Hi Hr Hin Hne.
  destruct (rpc_steps_inv host _ srv_timeout m_bound_funcs _ _ _ _ _ Hs0 Hi Hr) as [[n Hn] _].
  pose proof (i_returns _ _ _ _ Hn) as Hret. rewrite Forall_forall in Hret.
  destruct (Hret r Hin) as [?|[rid Ha]]; [done|].
  destruct (advanced_functions _ _ _ Ha) as [?|[?|?]]; [done|by left|by right].
Qed.

(** C30. Who may use the advanced server: a session is established only after a
    handshake request that names a user agent and carries the key was read on
    that very connection, without error and without trailing bytes. *)
Theorem advanced_key_required is_ssl s t es t' :
  new_session_like s → session_sys_init srv_timeout is_ssl s = Some t →
  session_steps host manager srv_timeout t es t' → m_established (ses t') = true →
  ∃ u req rest, ev_http_request u ec_success req rest ∈ es ∧ fb_data rest = [] ∧
    is_Some (http_find user_agent req) ∧ http_find "key" req = Some "xxxxxxxxxx"%string.
Proof.
  intros Hs Hi Hr He.
  assert (Exists (approval manager) es) as (e & Hin & Ha)%Exists_exists
    by (eapply (admitted_approved host _ srv_timeout); eauto; by left).
  destruct e as [|u ec req rest| | | | | | | |]; try done.
  destruct Ha as (-> & Hrest & i & <- & Hok). exists u, (info_request_handshake i), rest.
  split; [done|]. split; [done|]. unfold on_accept in Hok.
  destruct (http_find user_agent _) as [agent|] eqn:E1; [|done].
  destruct (http_find "key" _) as [key|] eqn:E2; [|done].
  case_decide as Hd; [done|]. split; [by eexists|].
  by destruct (decide (key = "xxxxxxxxxx"%string)) as [->|].
Qed.

(** The advanced client is one of them. *)
Lemma advanced_client_admitted `{!HttpFieldsLaws Req} (empty_request : Req) u i :
  http_find user_agent empty_request = None → http_find "key" empty_request = None →
  info_request_handshake i = advanced_client_request empty_request →
  (on_accept (Res := Res) (U := U) u i).1.1 = true ∧
  sn_ping_delay (on_accept (Res := Res) (U := U) u i).1.2 = seconds 30.
Proof.
  intros Hu Hk Hi. unfold on_accept, advanced_client_request in *. rewrite Hi.
  rewrite http_find_insert_ne, http_find_insert, http_find_insert, http_find_insert_ne, Hk by done.
  by rewrite decide_False by (intros Hn; by apply Hn).
Qed.
End connections.

(** ** A concrete connection *)

Module AdvancedDemo.
Definition fields : Type := list (string * string).
Definition manager := advanced_manager (B := list byte) (Req := fields) (Res := fields) (U := unit).
Definition fresh : session (B := list byte) (Req := fields) (Res := fields) :=
  ServerSession.new_session 1 "127.0.0.1" example_session_cfg [] [] [].
Definition host : byte_order := little_endian.
Definition init := rpc_init (B := list byte) (Req := fields) (Res := fields) example_server_timeout false fresh.
Definition opened : rpc_system (B := list byte) (Req := fields) (Res := fields) :=
  default (mk_rpc_system client_sys_init (mk_session_sys fresh no_pending [] [] []) 0 0 ∅ ∅ []) init.

Definition echo_bytes (rid : Z) : list byte := header_bytes host (new_io_header 1 rid) ++ [x61].
Definition admission : list (session_event (B := list byte) (Req := fields) (U := unit)) :=
  [ev_http_request tt ec_success (advanced_client_request []) []; ev_accept 0 ec_success].
Definition exchange : list (rpc_event (B := list byte) (Req := fields) (U := unit)) :=
  (re_server <$> admission) ++
  [re_call 10 0 (seconds 2) (mk_rpc_call (rpc_id MY_RPC_ECHO_MSG) [x61]);
   re_client ce_run_send; re_client (ce_write ec_success); re_written 10;
   re_server (ev_read 1 tt ec_success (echo_bytes 1)); re_server (ev_write 2 ec_success);
   re_client (ce_read (λ _, 0) ec_success (echo_bytes 1)); re_response 10; re_swap 10 []].
Definition final := default opened (rpc_run host manager example_server_timeout ∅ opened exchange).
Definition admitted :=
  default (rs_server opened) (session_run host manager example_server_timeout (rs_server opened) admission).

Lemma advanced_fresh_like : new_session_like fresh.
Proof. by repeat eexists. Qed.
End AdvancedDemo.

Lemma advanced_answers_witness :
  let r := mk_rpc_return (mk_rpc_call (rpc_id MY_RPC_ECHO_MSG) [x61]) None [x61] in
  r ∈ rs_returns AdvancedDemo.final ∧
  (rc_call_id (rr_call r) = rpc_id MY_RPC_ECHO_MSG ∧ rr_bytes r = rc_data (rr_call r) ∨
   (rc_call_id (rr_call r) = rpc_id MY_RPC_BROADCAST_ALL ∨
    rc_call_id (rr_call r) = rpc_id MY_RPC_BROADCAST_SINGLE) ∧ rr_bytes r = [x00]).
Proof.
  intros r. assert (rs_returns AdvancedDemo.final = [r]) as Hr by (vm_compute; reflexivity).
  assert (r ∈ rs_returns AdvancedDemo.final) as Hin by (rewrite Hr; by apply list_elem_of_singleton).
  split; [exact Hin|].
  apply (advanced_answers AdvancedDemo.host example_server_timeout ∅ false AdvancedDemo.fresh
    AdvancedDemo.opened AdvancedDemo.exchange AdvancedDemo.final r).
  - apply AdvancedDemo.advanced_fresh_like.
  - reflexivity.
  - apply run_steps. vm_compute. reflexivity.
  - exact Hin.
  - done.
Defined.

Lemma advanced_key_required_witness :
  ∃ u req rest, ev_http_request u ec_success req rest ∈ AdvancedDemo.admission ∧ fb_data rest = [] ∧
    is_Some (http_find user_agent req) ∧ http_find "key" req = Some "xxxxxxxxxx"%string.
Proof.
  apply (advanced_key_required AdvancedDemo.host example_server_timeout false AdvancedDemo.fresh
    (rs_server AdvancedDemo.opened) AdvancedDemo.admission AdvancedDemo.admitted).
  - apply AdvancedDemo.advanced_fresh_like.
  - reflexivity.
  - apply run_steps. vm_compute. reflexivity.
  - vm_compute. reflexivity.
Defined.
